(* ===== verification/_CoqProject ===== *)
-Q . S2P
Prelude.v
BTree.v
Locks.v
Interleaving.v
LockPaths.v
UserStack.v
Mmio.v
Uart.v
DeviceTree.v
Gic.v
GicV3.v
Rtc.v
Paging.v
FrameUse.v
Handler.v
PageTables.v
Mock.v
MockTables.v
MemorySet.v
AddressSpace.v
UserMemory.v
MemoryTheorems.v
Cache.v
Requests.v
KernelSpace.v
SpaceLife.v
Boot.v
MmuConfig.v
Entry.v
Diagnostics.v
Elf.v
Signal.v
EventBus.v
Files.v
Process.v
ProcessTheorems.v
Loader.v
SysProcess.v
SignalDelivery.v
Tty.v
Path.v
SysFs.v
Sched.v
SchedTheorems.v
Executor.v
Timer.v
Sleep.v
FirstTasks.v
Drivers.v
Startup.v
SyscallNumbers.v
Dispatch.v
Trap.v
