(* ===== verification/Prelude.v ===== *)
(** * The Queen kernel: a verification library

    This library models the Queen kernel (a Unix-like kernel in Rust for
    aarch64, under [src/kernel/src]) as executable definitions, and proves what
    the parts promise to each other and to user programs.

    ** Parts of the program and where they are modelled

    - Address spaces.  [Paging] holds pages, page ranges, physical and virtual
      addresses, the frame allocator and the page-table interface
      ([memory/paging.rs], [memory/mod.rs], [arch/aarch64/consts.rs]); [Handler]
      the four memory handlers ([memory/handler]); [MemorySet] areas and
      address spaces ([memory/memory_set.rs]) with their abstract view, a map
      from pages to attributes and handlers.  [AddressSpace] has the refinement
      lemmas, [UserMemory] the checks of user pointers and the search for free
      ranges, [Requests] series of pushes, [MemoryTheorems] the main theorems,
      [FrameUse] the frames the allocator hands out and takes back.  [Cache]
      has the flushes of [flush_cache_copy_user] that the handlers ask for.
      The state is the page table, the frames with their contents, and the
      frame allocator.
    - The machine's tables.  [PageTables] implements the page-table interface
      with the descriptors of [arch/aarch64/paging.rs] and says what the
      processor makes of their bits; [KernelSpace] is the address space of the
      kernel itself ([arch/aarch64/memory.rs]); [SpaceLife] creates, activates
      and drops address spaces over these tables.
    - Booting.  [Boot] builds the first page table and switches the MMU on
      ([arch/aarch64/boot]), [MmuConfig] has the registers that configure it;
      [Entry] runs the instructions of [arch/aarch64/boot/entry.S] around it,
      from any exception level, on the first processor and on the others.
      [Startup] is [main_start] and [others_start] ([arch/aarch64/mod.rs],
      [lib.rs]): memory, heap, kernel space, device tree, scheduler, devices
      and the first tasks, whose bodies are in [FirstTasks].  [Diagnostics] has
      stack traces, printing, log messages and the panic handler
      ([backtrace.rs], [logging.rs], [lang.rs]).
    - Devices.  [Mmio] has registers and bit fields ([drivers/common.rs]); over
      them are the serial port ([Uart], [drivers/serial], [bsp]), the interrupt
      controllers ([Gic], [drivers/irq/gicv2], and [GicV3],
      [drivers/irq/gicv3], which this board's build leaves out), the clock and
      the GPIO block ([Rtc], [drivers/rtc], [drivers/gpio]).  [DeviceTree] finds devices
      ([drivers/device_tree.rs]); [Drivers] brings them up and dispatches their
      interrupts ([arch/aarch64/interrupt]).
    - Signals.  [Signal] has the signals, signal sets, actions and the machine
      contexts saved in signal frames ([signal/action.rs], [signal/mod.rs],
      [arch/aarch64/signal.rs]); [SignalDelivery] sends and delivers signals.
    - Waiting.  [EventBus] is the bus tasks wait on ([sync/event_bus.rs]);
      [Timer] the timer queue and the clock ([task/timer.rs],
      [arch/aarch64/timer.rs]); [Sleep] puts the timer, its interrupt and the
      scheduler together; [Locks] the spin locks that mask interrupts
      ([sync/spin.rs]).  [Interleaving] runs them on several processors whose
      steps and interrupts interleave, and [LockPaths] has the locks that the
      paths through the kernel take, in their order.
    - Files.  [Files] models open files and the descriptions they share
      ([fs/file.rs]), with the reads that wait for a poll; [Path] the
      processing of path strings; [Tty] the terminal
      ([fs/devfs/tty.rs]), which composes the bus, the process groups and the
      sending of signals.
    - Processes.  [Process] has processes, threads and the two global tables,
      with exit, fork and clone ([process/mod.rs], [process/thread.rs]); its
      theorems are in [ProcessTheorems].  Shared objects live in heaps: an
      [Arc] is a reference into the heap and a [Weak] one that may dangle.
    - Programs.  [Elf] maps the segments of a program ([process/structs.rs]),
      [UserStack] writes its initial stack ([process/abi.rs]), and [Loader]
      composes both into [Thread::new_user_vm] and [Thread::new_user].
    - System calls.  [SysProcess] ([syscall/process.rs]) and [SysFs]
      ([syscall/fs.rs], [syscall/time.rs], [utils.rs]) are the handlers, in a
      state and error monad over the kernel; [Dispatch] is the dispatcher
      ([syscall/mod.rs]) and [SyscallNumbers] the table of numbers
      ([arch/aarch64/syscall.rs]).
    - Tasks.  [Sched] is the completely fair scheduler ([task/executor]), with
      theorems in [SchedTheorems]; [Executor] has the executors of all
      processors, their idle tasks and the yielding future ([task/future.rs]).
    - Traps.  [Trap] decodes syndromes and runs a turn of the loop that
      executes a thread in user mode ([arch/aarch64/interrupt],
      [process/thread.rs]); it composes page faults, system calls and signals.
    - [BTree] is [alloc::collections::BTreeMap]; [Mock] and [MockTables] have
      instances of the interfaces for evaluations.

    ** Conventions

    A Rust expression that may panic is an [outcome]: [Ret] of its value, or
    [Panic].  Integers are [Z] kept in the range of their type; [uadd], [usub],
    [umul], [iadd], [isub] are the checked operations, which panic when the
    build has overflow checks ([BuildMode]) and wrap otherwise, and the
    theorems hold in both builds.  Futures are modelled turn by turn: a
    function runs up to the next suspension and says what it waits for.

    Code outside the repository is an interface with its documented laws: the
    frame allocator ([FrameAllocator]), page-table entries and tables as the
    memory handlers see them ([Entry], [PageTable], discharged in [PageTables]
    over the descriptors and four-level tables of the [aarch64] crate,
    [PteLayout], [OffsetPageTable], [RawTable] and [Blocks]), file contents
    ([Read]), the file system ([Vfs]), the user context ([UserCtx]), error
    numbers ([SysErrors]), flag bits ([SysFlags], [Clock]), the priority queue
    and the task arena ([PriorityQueue], [Arena]), the ELF parser
    ([ElfParser]), the device-tree parser ([Fdt], [FdtRaw]), polling an inode
    ([VfsPoll]), bit fields ([Tock]), the buddy allocator ([BuddyAllocator],
    [BuddySpec]), the heap ([HeapAllocator]), cache maintenance ([CacheOps])
    and the lock word of the spin crate ([SpinLock]).
    Hardware is an interface too: a device has registers ([Registers]) and the
    behaviour its manual documents ([Pl011Spec], [Pl031Spec], [GicdSpec],
    [GiccSpec], for the GICv3 [G3dSpec], [G3rSpec] and [IccSpec], and for the
    caches [CacheSpec]); addresses the linker chooses are [Symbols],
    [BootSymbols] and [ImageSymbols].
    The contract of the frame allocator has two parts: taking a frame
    ([FrameAllocatorSpec]) and giving one back ([FrameReturnSpec]).  The
    kernel's own [GlobalFrameAlloc] keeps the first and breaks the second;
    [FrameUse] proves both.  So the theorems that only take frames, start-up
    among them, hold for the kernel's allocator, and those that unmap or drop
    hold for an allocator that keeps the second part too.
    The mock files and the ends of the theorem files have concrete instances,
    at which the theorems are evaluated.

    ** What the theorems show

    - Address spaces refine the abstract view: [push], [pop_with_split], [pop],
      [clear], [clone] and page faults change exactly the pages they should,
      keep areas, table, TLB and frames consistent, and leak no frame: what
      unmapping, clearing or dropping frees is given back.  The pointer checks
      accept exactly the arrays inside (writable) areas.
    - After the flush that a page fault asks for, a processor fetches from the
      page the bytes that were written to it; the flush of [clone] is for the
      addresses of the parent instead.
    - On the machine, the processor allows in a resident page what the area of
      the page allows and no more, a fault that is handled makes the access
      possible, entries stay 64-bit words, and running with another table
      restores the first.  No page of the kernel's own image is both writable
      and executable.
    - The boot tables map both halves of the address space to the same memory,
      so switching the MMU on goes unnoticed, and the configuration written to
      the registers makes memory cacheable and devices not.  From the reset address at any
      exception level, the first processor reaches [main_start] at EL1 with the
      data cleared, the tables in place and its stack in the upper half.
      [main_start] then returns, with every device running, for any board whose
      device tree and memory are as the code expects; the lines of the first
      tasks keep the distance the program asks for.
    - The frames handed out are those between the image and the end of memory,
      each once; a frame given back comes out again at a wrong address.
    - A loaded program finds its segments' bytes in memory and its arguments,
      environment and auxiliary vector at the stack pointer.
    - Interrupts: after initialisation every device is enabled and routed, a
      pending interrupt runs the drivers registered for it and is completed,
      and an interrupt without a driver panics; the GICv3 driver does the same
      for its controller and delivers a pending interrupt once; the serial port receives
      exactly the bytes written; [reg] properties decode to their ranges.
    - The terminal keeps characters in order and interrupts the foreground
      group; a reader may sleep although input is there, as the state is
      checked and the waker registered under two locks.
    - Signal sets are sets; queue and pending set stay consistent; delivery
      terminates and drains the queue; frames save what a return needs.
    - No wake-up is lost on a bus or between [wait4] and [exit], and no timer
      fires early, late or never: in every reachable state the interrupt of
      the timer makes exactly the tasks ready whose time has come.
    - Descriptors, offsets, permissions, [dup3], [open] and [close], [chdir]
      and [getcwd]; [sys_write] moves exactly the user's bytes.
    - [fork] gives a complete copy and returns twice; [exit] releases.
    - The scheduler charges by weight, chooses the least virtual run time and
      counts its tasks on one processor, as an invariant of a step relation;
      every executor starts with its idle task.
    - Demand paging is invisible to a thread; locks restore the mask.
    - On any number of processors no two hold a lock in conflict, and when
      locks are taken in an order some processor can always step.  On one
      processor the paths of the kernel that keep no lock across an [await]
      never wait for a lock.  Two that break the discipline hang: a process
      that reads from the terminal while its parent calls [wait4], and, on two
      processors, an executor and a waker that take two locks in opposite
      orders.
    - Some theorems describe defects of the code: a task woken before its poll
      returns is lost, a build with overflow checks panics at the first yield
      or wake-up, the clock overflows, appends
      leave the offset behind, a completed task is counted out twice, thread
      numbers leak, register maps have gaps, and others marked as such in their
      comments.

    ** Bounds and fuel

    Loops that are not structural take fuel, always more than they can use:
    a search for a free number or deadline one turn more than there are keys;
    expiring timers one turn per timer; a page loop one turn per page and one
    to stop; [pop_with_split] the number of areas it can create; [calc_delta]
    32 turns, as each halves a factor below 2^64; signal delivery one turn per
    queued signal and one to stop; C strings one turn per mapped byte; a reg
    property one turn per range; a read that waits one turn per poll, as the
    model of a poll either is ready or suspends; a first task three turns per
    line, while the clock does not jump over its delay.  Lemmas show that the
    fuel suffices, so the
    panic at its end is not reached.  Loops that wait for a device (the
    transmitter of the serial port, its receive queue) take the number of turns
    as an argument, and the theorems ask for as many as the device needs; a
    stack trace takes its number of frames, as the source has no bound for it.
    The GICv3 driver counts its own waits for the distributor; its wait for the
    redistributor to wake takes fuel, and some amount suffices.  [Entry] runs
    a number of instructions that the theorems give; there is no loop but the
    one in which a processor without work parks.

    ** What is not modelled

    Barriers, and the invalidation of caches and TLB around [enable_mmu],
    which have no effect on the state modelled here; the text that start-up
    logs; [Debug] and [Display] text beyond the messages in [Diagnostics]; the
    entry of the file system ([fs/mod.rs]) beyond its constants; the crates
    of the submodules ([aarch64], [allocators], [fs], [syscall], [shell],
    [atomic-stamped-ptr]), which are interfaces, and the build files.
    Several processors appear in the locks and their paths, where
    the scheduler steals tasks, in the executors, between poll and wake-up, and
    between the two locks of the terminal.  Elsewhere locks are taken as
    uncontended, so a system call or a turn of the scheduler is one step, and
    what the data of two system calls at once would be is left open. *)

From stdpp Require Export base list gmap sets strings.
From Stdlib Require Export ZArith Lia.

#[export] Set Default Goal Selector "!".

(** ** Outcomes: a Rust expression either returns or panics

    A kernel panic ([lang.rs], [wait_forever]) never returns, so the state is
    not observable after it: [Panic] carries only the message. *)
Inductive outcome (A : Type) : Type :=
| Ret (a : A)
| Panic (msg : string).
Arguments Ret {A} a.
Arguments Panic {A} msg.

(** [core::result::Result]. *)
Inductive result (A E : Type) : Type :=
| Ok (a : A)
| Err (e : E).
Arguments Ok {A E} a.
Arguments Err {A E} e.

#[export] Instance outcome_ret : MRet outcome := fun A a => Ret a.
#[export] Instance outcome_bind : MBind outcome := fun A B f m =>
  match m with Ret a => f a | Panic s => Panic s end.
#[export] Instance outcome_fmap : FMap outcome := fun A B f m =>
  match m with Ret a => Ret (f a) | Panic s => Panic s end.

Definition is_ret {A} (m : outcome A) : Prop := exists a, m = Ret a.

(** [Option::expect] / [Option::unwrap]. *)
Definition expect {A} (msg : string) (o : option A) : outcome A :=
  match o with Some a => Ret a | None => Panic msg end.

(** [assert!]. *)
Definition assert_ (b : bool) (msg : string) : outcome unit :=
  if b then Ret tt else Panic msg.

(** [for x in l { s = body(s, x) }] where the body may panic. *)
Fixpoint foldM {S X : Type} (f : S -> X -> outcome S) (s : S) (l : list X) : outcome S :=
  match l with
  | [] => Ret s
  | x :: l => s' ← f s x; foldM f s' l
  end.

(** [Iterator::find] with a predicate that may panic. *)
Fixpoint findM {X : Type} (f : X -> outcome bool) (l : list X) : outcome (option X) :=
  match l with
  | [] => Ret None
  | x :: l => b ← f x; if b : bool then Ret (Some x) else findM f l
  end.

(** ** Machine integers

    A [usize]/[u64] is an integer of [0, 2^64), an [isize]/[i64] one of
    [-2^63, 2^63).  [+], [-] and [*] are checked in a build with
    [debug_assertions] (they panic) and wrap around in a release build.  The
    mode is a parameter of the whole development, so that a theorem holds of
    both builds unless it says otherwise. *)
Class BuildMode := overflow_checks : bool.

Open Scope Z_scope.

Definition wrap (lo w z : Z) : Z := lo + (z - lo) mod (2 ^ w).

Definition arith `{BuildMode} (lo w z : Z) (msg : string) : outcome Z :=
  if (lo <=? z) && (z <? lo + 2 ^ w) then Ret z
  else if overflow_checks then Panic msg
  else Ret (wrap lo w z).

Definition U64 : Z := 2 ^ 64.
Definition U32 : Z := 2 ^ 32.
Definition is_u64 (z : Z) : Prop := 0 <= z < 2 ^ 64.
Definition is_u32 (z : Z) : Prop := 0 <= z < 2 ^ 32.
Definition is_u8 (z : Z) : Prop := 0 <= z < 2 ^ 8.
Definition is_i64 (z : Z) : Prop := - 2 ^ 63 <= z < 2 ^ 63.
Definition is_i32 (z : Z) : Prop := - 2 ^ 31 <= z < 2 ^ 31.

Definition u64 `{BuildMode} (z : Z) (msg : string) : outcome Z := arith 0 64 z msg.
Definition i64 `{BuildMode} (z : Z) (msg : string) : outcome Z := arith (- 2 ^ 63) 64 z msg.

Definition uadd `{BuildMode} (a b : Z) : outcome Z := u64 (a + b) "attempt to add with overflow".
Definition usub `{BuildMode} (a b : Z) : outcome Z := u64 (a - b) "attempt to subtract with overflow".
Definition umul `{BuildMode} (a b : Z) : outcome Z := u64 (a * b) "attempt to multiply with overflow".
Definition iadd `{BuildMode} (a b : Z) : outcome Z := i64 (a + b) "attempt to add with overflow".
Definition isub `{BuildMode} (a b : Z) : outcome Z := i64 (a - b) "attempt to subtract with overflow".

(** [wrapping_add], [wrapping_sub], and the casts [as usize], [as isize],
    [as u32], [as u8]. *)
Definition wadd (a b : Z) : Z := (a + b) mod 2 ^ 64.
Definition wsub (a b : Z) : Z := (a - b) mod 2 ^ 64.
Definition as_u64 (z : Z) : Z := z mod 2 ^ 64.
Definition as_i64 (z : Z) : Z := wrap (- 2 ^ 63) 64 z.
Definition as_u32 (z : Z) : Z := z mod 2 ^ 32.
Definition as_i32 (z : Z) : Z := wrap (- 2 ^ 31) 32 z.
Definition as_u8 (z : Z) : Z := z mod 2 ^ 8.

(** [!x] on a [usize]. *)
Definition unot (z : Z) : Z := 2 ^ 64 - 1 - z.

(** [queen_fs::TimeSpec] *)
Record TimeSpec := mkTime { secs : Z; nsecs : Z }.

(** ** Automation *)

(** Lemmas that decide checked arithmetic, with [lia] for the bounds. *)
Create HintDb queen discriminated.
Create Rewrite HintDb queen.

(** Carry on after an operation that is known to return. *)
Ltac sret := cbn [expect mbind outcome_bind].

(** Case analysis on the first [match]/[if] of the goal or of a hypothesis,
    with boolean comparisons turned into arithmetic facts. *)
Ltac zcases :=
  repeat match goal with
  | |- context [?x <=? ?y] => destruct (Z.leb_spec x y)
  | |- context [?x <? ?y] => destruct (Z.ltb_spec x y)
  | |- context [?x =? ?y] => destruct (Z.eqb_spec x y)
  end; cbn; try done; try lia.

(** Boolean hypotheses as propositions. *)
Ltac bool_to_prop :=
  repeat match goal with
  | H : (_ && _)%bool = true |- _ => apply andb_true_iff in H; destruct H
  | H : (_ && _)%bool = false |- _ => apply andb_false_iff in H
  | H : (_ || _)%bool = true |- _ => apply orb_true_iff in H
  | H : (_ || _)%bool = false |- _ => apply orb_false_iff in H; destruct H
  | H : negb _ = true |- _ => apply negb_true_iff in H
  | H : negb _ = false |- _ => apply negb_false_iff in H
  | H : (_ <? _) = true |- _ => apply Z.ltb_lt in H
  | H : (_ <? _) = false |- _ => apply Z.ltb_ge in H
  | H : (_ <=? _) = true |- _ => apply Z.leb_le in H
  | H : (_ <=? _) = false |- _ => apply Z.leb_gt in H
  | H : (_ =? _) = true |- _ => apply Z.eqb_eq in H
  | H : (_ =? _) = false |- _ => apply Z.eqb_neq in H
  end.

(** Break an equation [m ≫= k = Ret r] (or a chain of them) into the result
    of [m] and the continuation. *)
Ltac unbind H :=
  match type of H with
  | mbind _ ?m = Ret _ =>
      let E := fresh "E" in
      destruct m eqn:E; [cbn [mbind outcome_bind] in H | discriminate H]
  end.

(** ** Lemmas on outcomes *)

Lemma bind_ret {A B} (m : outcome A) (k : A -> outcome B) b :
  m ≫= k = Ret b <-> exists a, m = Ret a /\ k a = Ret b.
Proof. destruct m; cbn; split; [eauto| by intros (? & [= ->] & ?) | done | by intros (? & ? & ?)]. Qed.

Lemma bind_Ret {A B} (a : A) (k : A -> outcome B) : Ret a ≫= k = k a.
Proof. done. Qed.

Lemma foldM_app {S X} (f : S -> X -> outcome S) s l1 l2 :
  foldM f s (l1 ++ l2) = s' ← foldM f s l1; foldM f s' l2.
Proof.
  revert s; induction l1 as [|x l1 IH]; intros s; [done|]; cbn.
  destruct (f s x); cbn; [apply IH | done].
Qed.

(** An invariant indexed by the elements already processed. *)
Lemma foldM_inv {S X} (f : S -> X -> outcome S) (I : list X -> S -> Prop) l s s' :
  I [] s ->
  (forall pre x post s0 s1, l = pre ++ x :: post -> I pre s0 -> f s0 x = Ret s1 -> I (pre ++ [x]) s1) ->
  foldM f s l = Ret s' -> I l s'.
Proof.
  intros H0 Hstep.
  assert (Hgen : forall post pre s0, l = pre ++ post -> I pre s0 -> foldM f s0 post = Ret s' -> I l s').
  { induction post as [|x post IH]; intros pre s0 -> Hpre Hf; cbn in Hf.
    - rewrite app_nil_r. by simplify_eq.
    - apply bind_ret in Hf as (s1 & Hx & Hf).
      apply (IH (pre ++ [x]) s1); [by rewrite <- app_assoc | eauto | done]. }
  intros Hf. by apply (Hgen l [] s).
Qed.

(** The same with progress: the loop returns when each step does. *)
Lemma foldM_total {S X} (f : S -> X -> outcome S) (I : list X -> S -> Prop) l s :
  I [] s ->
  (forall pre x post s0, l = pre ++ x :: post -> I pre s0 -> exists s1, f s0 x = Ret s1 /\ I (pre ++ [x]) s1) ->
  exists s', foldM f s l = Ret s' /\ I l s'.
Proof.
  intros H0 Hstep.
  assert (Hgen : forall post pre s0, l = pre ++ post -> I pre s0 ->
            exists s', foldM f s0 post = Ret s' /\ I l s').
  { induction post as [|x post IH]; intros pre s0 -> Hpre; cbn.
    - rewrite app_nil_r. eauto.
    - destruct (Hstep pre x post s0 eq_refl Hpre) as (s1 & -> & H1); cbn.
      apply (IH (pre ++ [x]) s1); [by rewrite <- app_assoc | done]. }
  by apply (Hgen l []).
Qed.

Lemma findM_ret {X} (f : X -> outcome bool) (g : X -> bool) l :
  (forall x, x ∈ l -> f x = Ret (g x)) -> findM f l = Ret (find g l).
Proof.
  induction l as [|x l IH]; intros Hf; [done|]; cbn.
  rewrite Hf by left; cbn. destruct (g x); [done|].
  apply IH. intros y Hy. apply Hf. by right.
Qed.

Lemma find_None_Forall {X} (g : X -> bool) l :
  find g l = None <-> Forall (fun x => g x = false) l.
Proof.
  induction l as [|x l IH]; cbn; [by split|].
  rewrite Forall_cons. destruct (g x) eqn:E; [split; [done | by intros []]|].
  rewrite IH. naive_solver.
Qed.

(** ** Lemmas on machine integers *)

Section machine_integers.
Context `{BuildMode}.

Lemma u64_ok z msg : 0 <= z < 2 ^ 64 -> u64 z msg = Ret z.
Proof.
  intros Hz. unfold u64, arith.
  by rewrite (proj2 (Z.leb_le _ _)), (proj2 (Z.ltb_lt _ _)) by lia.
Qed.

Lemma i64_ok z msg : is_i64 z -> i64 z msg = Ret z.
Proof.
  unfold is_i64; intros Hz. unfold i64, arith.
  by rewrite (proj2 (Z.leb_le _ _)), (proj2 (Z.ltb_lt _ _)) by lia.
Qed.

Lemma uadd_ok a b : 0 <= a + b < 2 ^ 64 -> uadd a b = Ret (a + b).
Proof. apply u64_ok. Qed.
Lemma usub_ok a b : 0 <= a - b < 2 ^ 64 -> usub a b = Ret (a - b).
Proof. apply u64_ok. Qed.
Lemma umul_ok a b : 0 <= a * b < 2 ^ 64 -> umul a b = Ret (a * b).
Proof. apply u64_ok. Qed.

(** Whatever the build mode, an operation that returns gives a [usize]. *)
Lemma u64_range z msg r : u64 z msg = Ret r -> is_u64 r.
Proof.
  unfold u64, arith, is_u64, wrap.
  destruct ((0 <=? z) && (z <? 0 + 2 ^ 64))%bool eqn:E; bool_to_prop.
  - intros [= <-]; lia.
  - destruct overflow_checks; [done|]. intros [= <-].
    pose proof (Z.mod_pos_bound (z - 0) (2 ^ 64)). lia.
Qed.
End machine_integers.
#[export] Hint Rewrite @uadd_ok @usub_ok @umul_ok using lia : queen.

(** Checked arithmetic that stays in range returns. *)
Ltac ostep := autorewrite with queen; sret.


Lemma as_i64_small z : 0 <= z < 2 ^ 63 -> as_i64 z = z.
Proof. intros. unfold as_i64, wrap. rewrite Z.mod_small; lia. Qed.

Lemma as_i64_big z : 2 ^ 63 <= z < 2 ^ 64 -> as_i64 z = z - 2 ^ 64.
Proof.
  intros. unfold as_i64, wrap.
  replace (z - - 2 ^ 63) with ((z - 2 ^ 63) + 1 * 2 ^ 64) by lia.
  rewrite Z.mod_add by lia. rewrite Z.mod_small; lia.
Qed.

Lemma as_u64_id z : is_u64 z -> as_u64 z = z.
Proof. unfold is_u64, as_u64. apply Z.mod_small. Qed.

Lemma as_u64_as_i64 z : is_u64 z -> as_u64 (as_i64 z) = z.
Proof.
  unfold is_u64, as_u64. intros Hz.
  destruct (Z.lt_ge_cases z (2 ^ 63)).
  - rewrite as_i64_small by lia. by apply Z.mod_small.
  - rewrite as_i64_big by lia.
    replace (z - 2 ^ 64) with (z + (-1) * 2 ^ 64) by lia.
    rewrite Z.mod_add by lia. by apply Z.mod_small.
Qed.

(** [x & !(2^k - 1)] clears the low [k] bits. *)
Lemma land_unot_ones x k :
  is_u64 x -> 0 <= k <= 64 -> Z.land x (unot (2 ^ k - 1)) = x - x mod 2 ^ k.
Proof.
  unfold is_u64, unot. intros Hx Hk.
  assert (Hx' : x - x mod 2 ^ k = Z.shiftl (Z.shiftr x k) k).
  { rewrite Z.shiftl_mul_pow2, Z.shiftr_div_pow2 by lia.
    pose proof (Z.div_mod x (2 ^ k)). lia. }
  rewrite Hx'. replace (2 ^ 64 - 1 - (2 ^ k - 1)) with (Z.shiftl (Z.ones (64 - k)) k).
  2:{ rewrite Z.shiftl_mul_pow2, Z.ones_equiv by lia.
      replace 64 with ((64 - k) + k) at 2 by lia. rewrite Z.pow_add_r by lia. lia. }
  apply Z.bits_inj'. intros n Hn.
  rewrite Z.land_spec, !Z.shiftl_spec by lia.
  destruct (Z.lt_ge_cases n k).
  - rewrite !(Z.testbit_neg_r _ (n - k)) by lia. by rewrite andb_false_r.
  - rewrite Z.shiftr_spec by lia. replace (n - k + k) with n by lia.
    destruct (Z.lt_ge_cases n 64).
    + rewrite Z.ones_spec_low by lia. by rewrite andb_true_r.
    + rewrite Z.ones_spec_high by lia. rewrite andb_false_r.
      symmetry. rewrite <- (Z.mod_small x (2 ^ 64)) by lia.
      apply Z.mod_pow2_bits_high. lia.
Qed.

(** ** Bytes *)

(** The bytes of a string. *)
Fixpoint bytes_of (s : string) : list Z :=
  match s with "" => [] | String c s => Z.of_N (Ascii.N_of_ascii c) :: bytes_of s end%string.

Definition no_nul (s : string) : Prop := Forall (fun b => b ≠ 0) (bytes_of s).

Lemma bytes_length s : length (bytes_of s) = String.length s.
Proof. induction s as [|c s IH]; cbn; [done|]. by rewrite IH. Qed.

(** Words in memory, little-endian. *)
Fixpoint le_word (bytes : list Z) : Z := match bytes with [] => 0 | b :: bytes => b + 256 * le_word bytes end.
Fixpoint to_le (n : nat) (v : Z) : list Z :=
  match n with O => [] | S n => v mod 256 :: to_le n (v / 256) end.

Lemma to_le_length n : forall v, length (to_le n v) = n.
Proof. induction n as [|n IH]; intros v; cbn; [done|]. by rewrite IH. Qed.

Lemma le_word_to_le n : forall v, 0 <= v < 256 ^ Z.of_nat n -> le_word (to_le n v) = v.
Proof.
  induction n as [|n IH]; intros v Hv; cbn [to_le le_word]; [lia|].
  rewrite Nat2Z.inj_succ, Z.pow_succ_r in Hv by lia.
  rewrite IH; [pose proof (Z.div_mod v 256); lia|].
  split; [apply Z.div_pos; lia|]. apply Z.div_lt_upper_bound; lia.
Qed.
