(* ===== verification/BTree.v ===== *)
(** * Ordered maps

    [alloc::collections::BTreeMap] as a finite map with its iteration in
    ascending order of the keys, and the search for the first free key the
    kernel uses for descriptors, threads and timers. *)

From stdpp Require Import sorting.
From S2P Require Import Prelude.

(** [BTreeMap::iter]: ascending keys. *)
Definition key_le {V} (x y : Z * V) : Prop := x.1 <= y.1.
#[export] Instance key_le_dec {V} : RelDecision (@key_le V).
Proof. intros x y. unfold key_le. apply _. Defined.
Definition btree_iter {V} (m : gmap Z V) : list (Z * V) := merge_sort key_le (map_to_list m).

(** [(start..).find(|i| !m.contains_key(i))]: among [size m + 1] consecutive
    numbers one is free, so [size m + 1] turns are enough. *)
Fixpoint find_free {V} (fuel : nat) (m : gmap Z V) (i : Z) : option Z :=
  match fuel with
  | O => None
  | S fuel => match m !! i with None => Some i | Some _ => find_free fuel m (i + 1) end
  end.
Definition lowest_free {V} (m : gmap Z V) (start : Z) : outcome Z :=
  expect "called unwrap on a None value" (find_free (S (size m)) m start).

(** ** The lowest free number *)

Lemma full_range_size {V} n : forall (m : gmap Z V) i,
  (forall j, i <= j < i + Z.of_nat n -> is_Some (m !! j)) -> (n <= size m)%nat.
Proof.
  induction n as [|n IH]; intros m i Hall; [lia|].
  destruct (Hall (i + Z.of_nat n)) as [v Hv]; [lia|].
  set (j0 := i + Z.of_nat n) in *. assert (n <= size (delete j0 m))%nat as Hn.
  { subst j0. apply (IH _ i). intros j Hj. rewrite lookup_delete_ne by lia. apply Hall. lia. }
  rewrite map_size_delete_Some in Hn by eauto.
  assert (size m ≠ 0%nat) by (intros E0; apply map_size_empty_inv in E0; subst; by rewrite lookup_empty in Hv). lia.
Qed.

Lemma find_free_spec {V} fuel : forall (m : gmap Z V) i,
  match find_free fuel m i with
  | Some r => i <= r /\ m !! r = None /\ forall j, i <= j < r -> is_Some (m !! j)
  | None => forall j, i <= j < i + Z.of_nat fuel -> is_Some (m !! j)
  end.
Proof.
  induction fuel as [|fuel IH]; intros m i; cbn [find_free]; [intros j ?; lia|].
  destruct (m !! i) as [v|] eqn:Hi; [|split_and!; [lia|done|intros; lia]].
  specialize (IH m (i + 1)). destruct (find_free fuel m (i + 1)) as [r|].
  - destruct IH as (? & ? & Hall). split_and!; [lia|done|]. intros j Hj.
    destruct (Z.eq_dec i j) as [<-|]; [by exists v|]. apply Hall. lia.
  - intros j Hj. destruct (Z.eq_dec i j) as [<-|]; [by exists v|]. apply IH. lia.
Qed.

Lemma lowest_free_spec {V} (m : gmap Z V) start :
  exists r, lowest_free m start = Ret r /\ start <= r /\ m !! r = None /\ forall j, start <= j < r -> is_Some (m !! j).
Proof.
  unfold lowest_free. pose proof (find_free_spec (S (size m)) m start) as Hf.
  destruct (find_free _ _ _) as [r|]; [eauto|].
  apply full_range_size in Hf. lia.
Qed.

(** ** The iteration *)

Lemma btree_keys {V} (m : gmap Z V) : NoDup (btree_iter m).*1 /\ forall i, i ∈ (btree_iter m).*1 <-> is_Some (m !! i).
Proof.
  assert (Hp : (btree_iter m).*1 ≡ₚ (map_to_list m).*1) by (apply fmap_Permutation, merge_sort_Permutation).
  split; [rewrite Hp; apply NoDup_fst_map_to_list|]. intros i. rewrite Hp. rewrite list_elem_of_fmap. split.
  - intros ([j v] & -> & Hin). apply elem_of_map_to_list in Hin. eauto.
  - intros [v Hv]. exists (i, v). split; [done|]. by apply elem_of_map_to_list.
Qed.

Lemma btree_perm {V} (m : gmap Z V) : btree_iter m ≡ₚ map_to_list m.
Proof. apply merge_sort_Permutation. Qed.

Lemma btree_in {V} (m : gmap Z V) i v : (i, v) ∈ btree_iter m <-> m !! i = Some v.
Proof. by rewrite btree_perm, elem_of_map_to_list. Qed.

#[export] Instance key_le_total {V} : Total (@key_le V).
Proof. intros x y. unfold key_le. lia. Qed.
#[export] Instance key_le_trans {V} : Transitive (@key_le V).
Proof. intros x y z. unfold key_le. lia. Qed.

Lemma btree_sorted {V} (m : gmap Z V) : StronglySorted key_le (btree_iter m).
Proof. apply StronglySorted_merge_sort; apply _. Qed.

(** The iteration is the only ascending list of the entries. *)
Lemma btree_unique {V} (m : gmap Z V) l : StronglySorted key_le l -> l ≡ₚ map_to_list m -> btree_iter m = l.
Proof.
  intros Hs Hp. apply (StronglySorted_unique_strong key_le); [|apply btree_sorted|done|by rewrite btree_perm, Hp].
  intros [i v] [j u] H1 H2 Hij Hji. unfold key_le in *. cbn in *. assert (i = j) as -> by lia. f_equal.
  rewrite Hp, elem_of_map_to_list in H2. rewrite btree_in in H1. congruence.
Qed.

Lemma btree_empty {V} : btree_iter (∅ : gmap Z V) = [].
Proof. apply btree_unique; [constructor|by rewrite map_to_list_empty]. Qed.

(** [first_entry] and what is left without it. *)
Lemma btree_first {V} (m : gmap Z V) d w l : btree_iter m = (d, w) :: l ->
  m !! d = Some w /\ (forall i, is_Some (m !! i) -> d <= i) /\ btree_iter (delete d m) = l.
Proof.
  intros Hm. pose proof (btree_sorted m) as Hs. rewrite Hm in Hs. apply StronglySorted_inv in Hs as [Hs Hall].
  assert (m !! d = Some w) as Hd by (apply btree_in; rewrite Hm; by left). split_and!; [done| |].
  - intros i [v Hv]. apply btree_in in Hv. rewrite Hm in Hv. apply elem_of_cons in Hv as [[= -> ->]|Hin]; [lia|].
    rewrite List.Forall_forall in Hall. apply (Hall (i, v)). by apply list_elem_of_In.
  - apply btree_unique; [done|]. apply (Permutation_cons_inv (a := (d, w))).
    rewrite <- Hm, btree_perm. symmetry. by apply map_to_list_delete.
Qed.
