(* ===== verification/Locks.v ===== *)
(** * Interrupt-safe locks ([sync/spin.rs], [arch/aarch64/interrupt/mod.rs])

    [MutexNoIrq]: a spin lock that masks the interrupts of the processor while
    it is held, and puts the mask back to what it was when the guard drops. *)

From S2P Require Import Prelude.

(** A processor's DAIF register and the locks that are held. *)
Record Cpu := mkCpu { daif : Z; held : gset nat }.

(** The bit of DAIF that masks IRQs ([DAIFSet, #2]). *)
Definition IRQ_BIT : Z := 7.
Definition masked (c : Cpu) : bool := Z.testbit (daif c) IRQ_BIT.

(** [enable], [disable], [disable_and_store], [restore] *)
Definition enable (c : Cpu) : Cpu := mkCpu (Z.clearbit (daif c) IRQ_BIT) (held c).
Definition disable (c : Cpu) : Cpu := mkCpu (Z.setbit (daif c) IRQ_BIT) (held c).
Definition disable_and_store (c : Cpu) : Z * Cpu := (daif c, disable c).
Definition restore (flags : Z) (c : Cpu) : Cpu := mkCpu flags (held c).

(** [MutexGuardNoIrq] *)
Record Guard := mkGuard { lock_id : nat; saved : Z }.

(** [MutexNoIrq::lock]: [None] while the inner lock spins, with the interrupts
    already masked. *)
Definition lock (l : nat) (c : Cpu) : option Guard * Cpu :=
  let '(flags, c) := disable_and_store c in
  if decide (l ∈ held c) then (None, c) else (Some (mkGuard l flags), mkCpu (daif c) ({[ l ]} ∪ held c)).

(** [MutexNoIrq::try_lock] *)
Definition try_lock (l : nat) (c : Cpu) : option Guard * Cpu :=
  let '(flags, c) := disable_and_store c in
  if decide (l ∈ held c) then (None, c) else (Some (mkGuard l flags), mkCpu (daif c) ({[ l ]} ∪ held c)).

(** [Drop for MutexGuardNoIrq] *)
Definition unlock (g : Guard) (c : Cpu) : Cpu := restore (saved g) (mkCpu (daif c) (held c ∖ {[ lock_id g ]})).

(** Taking several locks one after the other; the guards are in a stack. *)
Fixpoint lock_all (ls : list nat) (c : Cpu) : option (list Guard * Cpu) :=
  match ls with
  | [] => Some ([], c)
  | l :: ls =>
      match lock l c with
      | (Some g, c) => x ← lock_all ls c; Some (x.1 ++ [g], x.2)
      | (None, _) => None
      end
  end.

Lemma disable_masks c : masked (disable c) = true.
Proof. unfold masked, disable. cbn [daif]. apply Z.setbit_eq. unfold IRQ_BIT. lia. Qed.

Lemma lock_free l c : l ∉ held c -> lock l c = (Some (mkGuard l (daif c)), mkCpu (daif (disable c)) ({[ l ]} ∪ held c)).
Proof. intros Hl. unfold lock, disable_and_store. cbn [held disable]. by rewrite decide_False. Qed.

Lemma unlock_lock l c g c' : l ∉ held c -> lock l c = (Some g, c') -> unlock g c' = c.
Proof.
  intros Hl. rewrite lock_free by done. intros [= <- <-]. destruct c as [d h]. unfold unlock, restore. cbn in *. f_equal. set_solver.
Qed.

Lemma lock_all_spec ls : forall c, NoDup ls -> (forall l, l ∈ ls -> l ∉ held c) ->
  exists gs c', lock_all ls c = Some (gs, c') /\ (ls ≠ [] \/ masked c = true -> masked c' = true)
    /\ held c' = list_to_set ls ∪ held c /\ foldl (fun c g => unlock g c) c' gs = c.
Proof.
  induction ls as [|l ls IH]; intros c Hnd Hfree; cbn [lock_all].
  { exists [], c. split_and!; [done|by intros [?|?]|set_solver|done]. }
  apply NoDup_cons in Hnd as [Hl Hnd]. assert (l ∉ held c) as Hlc by (apply Hfree; by left).
  rewrite lock_free by done. set (c1 := mkCpu _ _).
  destruct (IH c1 Hnd) as (gs & c' & -> & Hm & Hh & Hu).
  { intros l' Hl'. unfold c1. cbn [held]. assert (l' ∉ held c) by (apply Hfree; by right). set_solver. }
  cbn [mbind option_bind fst snd]. eexists _, c'. split_and!; [reflexivity| |rewrite Hh; cbn; set_solver|].
  - intros _. apply Hm. right. apply (disable_masks c).
  - rewrite foldl_app, Hu. cbn [foldl]. eapply unlock_lock; [exact Hlc|]. by rewrite lock_free.
Qed.

(** Locks that are released in the reverse order restore the processor:
    the interrupts are masked as long as any of the locks is held, and at the
    end the mask and the held locks are what they were, whatever the mask was
    before. *)
Theorem nested_locks_restore ls c :
  NoDup ls -> (forall l, l ∈ ls -> l ∉ held c) ->
  exists gs c', lock_all ls c = Some (gs, c') /\ (ls ≠ [] -> masked c' = true)
    /\ held c' = list_to_set ls ∪ held c /\ foldl (fun c g => unlock g c) c' gs = c.
Proof.
  intros Hnd Hfree. destruct (lock_all_spec ls c Hnd Hfree) as (gs & c' & ? & ? & ? & ?). exists gs, c'. split_and!; eauto.
Qed.

Lemma nested_locks_restore_witness :
  exists gs c', lock_all [3; 5]%nat (mkCpu 0 ∅) = Some (gs, c') /\ foldl (fun c g => unlock g c) c' gs = mkCpu 0 ∅.
Proof.
  destruct (nested_locks_restore [3; 5]%nat (mkCpu 0 ∅)) as (gs & c' & Hl & _ & _ & Hu);
    [apply (bool_decide_unpack _); vm_compute; exact I|intros l _; apply not_elem_of_empty|].
  exists gs, c'. exact (conj Hl Hu).
Defined.

(** A failed [try_lock] leaves the interrupts masked, with no guard that
    would restore them. *)
Theorem try_lock_leaks_mask l c : l ∈ held c -> (try_lock l c).1 = None /\ masked (try_lock l c).2 = true.
Proof.
  intros Hl. unfold try_lock, disable_and_store. cbn [held disable]. rewrite decide_True by done. split; [done|].
  apply (disable_masks c).
Qed.

(** ** The value behind a lock *)
Section value.
Context {T : Type}.
Implicit Types (c : Cpu) (v : T).

(** [MutexNoIrq<T>], and a [MutexGuardNoIrq] with the mask that it restores:
    while a guard is there the value is reached through it. *)
Record MutexNoIrq := mkMutex { m_locked : bool; m_value : T }.
Record MutexGuardNoIrq := mkValueGuard { g_inner : MutexNoIrq; g_flags : Z }.

(** [new], [From::from], [into_inner], [is_locked], [force_unlock], and
    [get_mut] with the update made through the reference *)
Definition mutex_new v : MutexNoIrq := mkMutex false v.
Definition mutex_from v : MutexNoIrq := mutex_new v.
Definition into_inner (self : MutexNoIrq) : T := m_value self.
Definition is_locked (self : MutexNoIrq) : bool := m_locked self.
Definition force_unlock (self : MutexNoIrq) : MutexNoIrq := mkMutex false (m_value self).
Definition get_mut (self : MutexNoIrq) (f : T -> T) : MutexNoIrq := mkMutex (m_locked self) (f (m_value self)).

(** [lock] when the lock is free; [None] while it spins. *)
Definition mutex_lock (self : MutexNoIrq) c : option MutexGuardNoIrq * Cpu :=
  let '(flags, c) := disable_and_store c in
  if m_locked self then (None, c) else (Some (mkValueGuard (mkMutex true (m_value self)) flags), c).

(** [Deref], [DerefMut] and [Drop] of the guard *)
Definition deref (g : MutexGuardNoIrq) : T := m_value (g_inner g).
Definition deref_mut (g : MutexGuardNoIrq) (f : T -> T) : MutexGuardNoIrq := mkValueGuard (get_mut (g_inner g) f) (g_flags g).
Definition guard_drop (g : MutexGuardNoIrq) c : MutexNoIrq * Cpu := (force_unlock (g_inner g), restore (g_flags g) c).

(** What a sequence of updates under the lock leaves behind is what it does to
    the value; the lock is free again and the mask is the one before. *)
Lemma update_under_lock self c (fs : list (T -> T)) :
  is_locked self = false ->
  exists g c', mutex_lock self c = (Some g, c') /\ deref g = m_value self /\ masked c' = true
    /\ guard_drop (foldl deref_mut g fs) c' = (mutex_new (foldl (fun v f => f v) (m_value self) fs), c).
Proof.
  intros Hl. unfold mutex_lock, disable_and_store. unfold is_locked in Hl. rewrite Hl. do 2 eexists. split; [done|]. split; [done|].
  split; [apply disable_masks|]. unfold guard_drop, restore. cbn [held disable].
  assert (Hf : forall g, g_flags (foldl deref_mut g fs) = g_flags g
             /\ m_value (g_inner (foldl deref_mut g fs)) = foldl (fun v f => f v) (m_value (g_inner g)) fs).
  { induction fs as [|f fs IH]; intros g; [done|]. cbn [foldl]. destruct (IH (deref_mut g f)) as [-> ->]. done. }
  destruct (Hf (mkValueGuard (mkMutex true (m_value self)) (daif c))) as [-> Hv]. unfold force_unlock. rewrite Hv. by destruct c.
Qed.

(** [force_unlock] frees the lock and leaves the interrupts as they are: the
    mask of a guard that is given up for it is not restored. *)
Lemma force_unlock_keeps_mask self c g c' :
  mutex_lock self c = (Some g, c') -> is_locked (force_unlock (g_inner g)) = false /\ masked c' = true.
Proof.
  unfold mutex_lock, disable_and_store. destruct (m_locked self); [done|]. intros [= <- <-]. split; [done|apply disable_masks].
Qed.
End value.

(** [wait_for_interrupt]; [irqs] is what the handlers do while it waits. *)
Definition wait_for_interrupt (irqs : Cpu -> Cpu) (c : Cpu) : Cpu :=
  let saved := daif c in
  let c := enable c in
  let c := irqs c in
  mkCpu saved (held c).

(** Interrupts are taken while it waits, and then masked as before. *)
Lemma wait_for_interrupt_restores irqs c :
  masked (enable c) = false /\ masked (wait_for_interrupt irqs c) = masked c /\ held (wait_for_interrupt irqs c) = held (irqs (enable c)).
Proof. split; [|done]. unfold masked, enable. cbn [daif]. apply Z.clearbit_eq. Qed.
