(* ===== verification/Interleaving.v ===== *)
(** * Locks on several processors ([sync/spin.rs], the crate [spin])

    Processors that run kernel code, are interrupted, and take locks.  Code is
    seen through its locking: a list of acquisitions and releases.  A lock of
    the crate [spin] is a word that spinning processors test and set;
    [MutexNoIrq] masks the interrupts of its processor first.  The I bit is
    the part of DAIF that matters here: [true] means that interrupts are
    masked.  Tasks give their processor up at an [await]. *)

From S2P Require Import Prelude.

(** ** Guards and code *)

(** [spin::Mutex] and [spin::RwLock] on their own, or behind [MutexNoIrq]. *)
Inductive Kind := Plain | NoIrq.
Inductive Mode := Shared | Exclusive.
#[export] Instance Mode_dec : EqDecision Mode.
Proof. solve_decision. Defined.

(** A guard; [h_flags] is what [MutexGuardNoIrq] restores. *)
Record Held (L : Type) := mkHeld { h_lock : L; h_mode : Mode; h_flags : option bool }.
Arguments mkHeld {L}.
Arguments h_lock {L}.
Arguments h_mode {L}.
Arguments h_flags {L}.

(** What code does with locks: [lock], [read] or [write]; the drop of a guard;
    [restore], the second half of the drop of a [MutexGuardNoIrq]; giving the
    processor up. *)
Inductive Act (L : Type) := Acq (k : Kind) (m : Mode) (l : L) | Rel (l : L) | Restore (flags : bool) | Await.
Arguments Acq {L}.
Arguments Rel {L}.
Arguments Restore {L}.
Arguments Await {L}.

(** Code in the middle of its work: the task it belongs to, the guards it
    holds, the lock it spins on, what it will do, and for an interrupt handler
    the mask to return to. *)
Record Ctx (L : Type) := mkCtx {
  owner : option nat; guards : list (Held L); pend : option (Held L); todo : list (Act L); ret : option bool;
}.
Arguments mkCtx {L}.
Arguments owner {L}.
Arguments guards {L}.
Arguments pend {L}.
Arguments todo {L}.
Arguments ret {L}.

(** A processor: its mask, and what it runs with the interrupted code below. *)
Record Proc (L : Type) := mkProc { masked : bool; stack : list (Ctx L) }.
Arguments mkProc {L}.
Arguments masked {L}.
Arguments stack {L}.

(** ** The locks of the crate [spin] *)

(** The word inside a lock: a new one, whether one turn of the loop of [lock],
    [read] or [write] succeeds, what it leaves, and what the drop of the guard
    leaves. *)
Class SpinLock (W : Type) := {
  unlocked : W; acquirable : Mode -> W -> bool; acquired : Mode -> W -> W; released : Mode -> W -> W;
}.

(** What the crate documents: a lock is free, has one owner, or has readers;
    [level] is 0, -1 or the number of readers.  Guards are only dropped by
    those that hold them. *)
Class SpinLockSpec (W : Type) `{SpinLock W} := {
  level : W -> Z;
  level_unlocked : level unlocked = 0;
  acquirable_spec m w : acquirable m w = match m with Exclusive => level w =? 0 | Shared => 0 <=? level w end;
  acquired_spec m w : acquirable m w = true -> level (acquired m w) = match m with Exclusive => -1 | Shared => level w + 1 end;
  released_spec m w : match m with Exclusive => level w = -1 | Shared => 0 < level w end ->
    level (released m w) = match m with Exclusive => 0 | Shared => level w - 1 end;
}.

Section machine.
Context {L : Type} `{Countable L} {W : Type} `{SL : SpinLock W}.

(** All processors, the lock words, and the tasks that wait at an [await]. *)
Record Machine := mkMachine { words : gmap L W; procs : gmap nat (Proc L); pool : list (Ctx L) }.

Definition word (ws : gmap L W) (l : L) : W := default unlocked (ws !! l).

(** Takes the guard of [l] out of the list. *)
Fixpoint take_guard (l : L) (gs : list (Held L)) : option (Held L * list (Held L)) :=
  match gs with
  | [] => None
  | h :: gs => if decide (h_lock h = l) then Some (h, gs) else x ← take_guard l gs; Some (x.1, h :: x.2)
  end.

(** One step of the code at the top of a processor: [None] when it spins on a
    lock that is taken, waits, or is done.
    - [MutexNoIrq::lock] is [disable_and_store] and then the loop of the inner
      lock; [spin::Mutex::lock] is that loop alone.
    - [Drop for MutexGuardNoIrq] releases the inner lock and then restores. *)
Definition run_ctx (ws : gmap L W) (d : bool) (x : Ctx L) : option (gmap L W * bool * Ctx L) :=
  match pend x with
  | Some h =>
      if acquirable (h_mode h) (word ws (h_lock h)) then
        Some (<[h_lock h := acquired (h_mode h) (word ws (h_lock h))]> ws, d, mkCtx (owner x) (h :: guards x) None (todo x) (ret x))
      else None
  | None =>
      match todo x with
      | Acq NoIrq m l :: t => Some (ws, true, mkCtx (owner x) (guards x) (Some (mkHeld l m (Some d))) t (ret x))
      | Acq Plain m l :: t => Some (ws, d, mkCtx (owner x) (guards x) (Some (mkHeld l m None)) t (ret x))
      | Rel l :: t =>
          y ← take_guard l (guards x);
          let '(h, gs) := y in
          let t := match h_flags h with Some f => Restore f :: t | None => t end in
          Some (<[l := released (h_mode h) (word ws l)]> ws, d, mkCtx (owner x) gs None t (ret x))
      | Restore f :: t => Some (ws, f, mkCtx (owner x) (guards x) None t (ret x))
      | Await :: _ | [] => None
      end
  end.

(** The code is at its end. *)
Definition finished (x : Ctx L) : bool := match pend x, todo x with None, [] => true | _, _ => false end.
Definition at_await (x : Ctx L) : bool := match pend x, todo x with None, Await :: _ => true | _, _ => false end.
(** It spins on a lock that is taken. *)
Definition blocked (ws : gmap L W) (x : Ctx L) : bool :=
  match pend x with Some h => negb (acquirable (h_mode h) (word ws (h_lock h))) | None => false end.

Definition put_proc (σ : Machine) (c : nat) (p : Proc L) : Machine := mkMachine (words σ) (<[c := p]> (procs σ)) (pool σ).

(** The task a processor works for. *)
Definition stack_owner (s : list (Ctx L)) : option nat := match s with x :: _ => owner x | [] => None end.

(** The handlers that may interrupt the work for a task, or a free processor. *)
Context (handler : option nat -> list (Act L) -> Prop).

(** The steps of a processor by itself: its code runs, a handler returns, a
    task ends or gives the processor up. *)
Inductive own_step (c : nat) : Machine -> Machine -> Prop :=
| own_run σ d x r ws d' x' : procs σ !! c = Some (mkProc d (x :: r)) -> run_ctx (words σ) d x = Some (ws, d', x') ->
    own_step c σ (mkMachine ws (<[c := mkProc d' (x' :: r)]> (procs σ)) (pool σ))
| own_return σ d x r b : procs σ !! c = Some (mkProc d (x :: r)) -> finished x = true -> ret x = Some b ->
    own_step c σ (put_proc σ c (mkProc b r))
| own_end σ d x : procs σ !! c = Some (mkProc d [x]) -> finished x = true -> ret x = None ->
    own_step c σ (put_proc σ c (mkProc d []))
| own_await σ d x t : procs σ !! c = Some (mkProc d [x]) -> pend x = None -> todo x = Await :: t ->
    own_step c σ (mkMachine (words σ) (<[c := mkProc d []]> (procs σ)) (mkCtx (owner x) (guards x) None t (ret x) :: pool σ)).

(** All steps: also interrupts, which mask themselves, and the choice of the
    next task by a processor that is free. *)
Inductive lstep : Machine -> Machine -> Prop :=
| ls_own c σ σ' : own_step c σ σ' -> lstep σ σ'
| ls_irq c σ r h : procs σ !! c = Some (mkProc false r) -> handler (stack_owner r) h ->
    lstep σ (put_proc σ c (mkProc true (mkCtx (stack_owner r) [] None h (Some false) :: r)))
| ls_resume c σ d p1 x p2 : procs σ !! c = Some (mkProc d []) -> pool σ = p1 ++ x :: p2 ->
    lstep σ (mkMachine (words σ) (<[c := mkProc d [x]]> (procs σ)) (p1 ++ p2)).
End machine.
Arguments Machine L {_ _} W.

(** ** A discipline *)

Section discipline.
Context {L : Type} `{Countable L} (irq : L -> bool) (allow : L -> L -> bool).
Implicit Types (gs : list (Held L)) (h : Held L) (t : list (Act L)) (d : bool).

Definition unshared gs : bool := forallb (fun h => negb (irq (h_lock h))) gs.

(** [irq] marks the locks that interrupt handlers take, and [allow l l'] says
    that [l'] may be taken while [l] is held.  [ok base d gs t]: code that
    holds [gs] under the mask [d] and goes on with [t] takes locks only where
    that is allowed, takes and keeps a marked lock only while interrupts are
    masked, holds nothing at an [await] or at its end and leaves with the mask
    [base]. *)
Fixpoint ok (base d : bool) gs t : bool :=
  match t with
  | [] => match gs with [] => eqb d base | _ => false end
  | Acq k m l :: t =>
      let d' := match k with NoIrq => true | Plain => d end in
      let h := mkHeld l m (match k with NoIrq => Some d | Plain => None end) in
      forallb (fun h => allow (h_lock h) l) gs && (d' || negb (irq l)) && ok base d' (h :: gs) t
  | Rel l :: t =>
      match take_guard l gs with
      | None => false
      | Some (h, gs) => match h_flags h with Some f => (f || unshared gs) && ok base f gs t | None => ok base d gs t end
      end
  | Restore f :: t => (f || unshared gs) && ok base f gs t
  | Await :: t => match gs with [] => negb base && eqb d base && ok base d [] t | _ => false end
  end.

(** Handlers take only locks that are marked. *)
Definition marked (a : Act L) : bool := match a with Acq _ _ l => irq l | _ => true end.
Definition handler_ok t : bool := ok true true [] t && forallb marked t.
Definition task_ok t : bool := ok false false [] t.

Definition quiet d gs : Prop := d = false -> unshared gs = true.
(** *** Guards *)

Lemma take_guard_spec l gs : forall h gs', take_guard l gs = Some (h, gs') -> gs ≡ₚ h :: gs' /\ h_lock h = l.
Proof.
  induction gs as [|g gs IH]; intros h gs'; cbn; [done|]. destruct (decide (h_lock g = l)); [by intros [= <- <-]|].
  destruct (take_guard l gs) as [[h' gs'']|] eqn:E; [|done]. cbn. intros [= <- <-]. destruct (IH _ _ eq_refl) as [-> ?].
  split; [apply Permutation_swap|done].
Qed.

Lemma unshared_Forall gs : unshared gs = true <-> Forall (fun h => irq (h_lock h) = false) gs.
Proof.
  unfold unshared. rewrite List.forallb_forall, List.Forall_forall. split; intros Hu h Hh; specialize (Hu h Hh);
    [by apply negb_true_iff|by apply negb_true_iff].
Qed.
Lemma unshared_perm gs gs' : gs ≡ₚ gs' -> unshared gs = true -> unshared gs' = true.
Proof. intros Hp. rewrite !unshared_Forall. by rewrite Hp. Qed.

Lemma quiet_cons d h gs : quiet d gs -> (d || negb (irq (h_lock h))) = true -> quiet d (h :: gs).
Proof. intros Hq Hd ->. cbn in *. rewrite Hd. exact (Hq eq_refl). Qed.
End discipline.

(** *** The invariant *)
Section invariant.
(** The locks to be careful with may depend on the task: a handler that
    interrupts it can rely on what the task does not do meanwhile. *)
Context {L : Type} `{Countable L} {W : Type} `{SLS : SpinLockSpec W} (irq : option nat -> L -> bool) (allow : L -> L -> bool).
Implicit Types (gs : list (Held L)) (h : Held L) (t : list (Act L)) (d : bool).

Definition is_handler (x : Ctx L) : bool := match ret x with Some _ => true | None => false end.
Definition ctx_ok d (x : Ctx L) : Prop :=
  match pend x with
  | None => ok (irq (owner x)) allow (is_handler x) d (guards x) (todo x) = true /\ quiet (irq (owner x)) d (guards x)
  | Some h => Forall (fun g => allow (h_lock g) (h_lock h) = true) (guards x) /\ ok (irq (owner x)) allow (is_handler x) d (h :: guards x) (todo x) = true
              /\ quiet (irq (owner x)) d (h :: guards x)
  end
  /\ (is_handler x = true -> forallb (marked (irq (owner x))) (todo x) = true /\ forall h, pend x = Some h -> irq (owner x) (h_lock h) = true).

(** Code that is interrupted ran unmasked; only a task is at the bottom. *)
Fixpoint stack_ok d (s : list (Ctx L)) : Prop :=
  match s with
  | [] => d = false
  | x :: r => ctx_ok d x /\ match ret x with Some b => b = false /\ owner x = stack_owner r /\ stack_ok false r | None => r = [] end
  end.
Definition waiting_ok (x : Ctx L) : Prop := guards x = [] /\ pend x = None /\ ret x = None /\ task_ok (irq (owner x)) allow (todo x) = true.

Definition stack_guards (s : list (Ctx L)) : list (Held L) := s ≫= guards.
Definition all_guards (σ : Machine L W) : list (Held L) :=
  (map_to_list (procs σ) ≫= fun cp => stack_guards (stack cp.2)) ++ stack_guards (pool σ).
Definition of_lock (l : L) (gs : list (Held L)) : list (Held L) := filter (fun h => h_lock h = l) gs.

(** The word of a lock says who holds it. *)
Definition word_ok (l : L) (w : W) (gs : list (Held L)) : Prop :=
  (level w = -1 /\ length (of_lock l gs) = 1%nat /\ Forall (fun h => h_mode h = Exclusive) (of_lock l gs))
  \/ (level w = Z.of_nat (length (of_lock l gs)) /\ Forall (fun h => h_mode h = Shared) (of_lock l gs)).

Record lock_inv (σ : Machine L W) : Prop := {
  inv_words l : word_ok l (word (words σ) l) (all_guards σ);
  inv_stacks c p : procs σ !! c = Some p -> stack_ok (masked p) (stack p);
  inv_pool : Forall waiting_ok (pool σ);
}.

(** Before anything ran: [n] processors and the tasks [ts], with their numbers. *)
Definition fresh_task (ot : nat * list (Act L)) : Ctx L := mkCtx (Some ot.1) [] None ot.2 None.
Definition started (n : nat) (ts : list (nat * list (Act L))) : Machine L W :=
  mkMachine ∅ (list_to_map ((fun c => (c, mkProc false [])) <$> seq 0 n)) (fresh_task <$> ts).

Lemma word_ok_perm l w gs gs' : gs ≡ₚ gs' -> word_ok l w gs -> word_ok l w gs'.
Proof. intros Hp. unfold word_ok, of_lock. by rewrite (filter_Permutation _ _ _ Hp). Qed.

Lemma word_ok_other l w h gs : h_lock h ≠ l -> word_ok l w (h :: gs) <-> word_ok l w gs.
Proof. intros Hl. unfold word_ok, of_lock. by rewrite filter_cons_False. Qed.

Lemma word_ok_acquire w h gs : acquirable (h_mode h) w = true -> word_ok (h_lock h) w gs ->
  word_ok (h_lock h) (acquired (h_mode h) w) (h :: gs).
Proof.
  unfold word_ok, of_lock. rewrite filter_cons_True by done. cbn [length]. intros Ha Hw. pose proof Ha as Ha'.
  rewrite acquirable_spec in Ha'. rewrite acquired_spec by done. destruct Hw as [(E & _ & _)|[E Hs]]; rewrite E in *.
  { by destruct (h_mode h). }
  destruct (h_mode h) eqn:Em; cbn in *.
  - right. split; [lia|]. by apply List.Forall_cons.
  - left. apply Z.eqb_eq in Ha'. destruct (filter _ gs); [|done]. split_and!; [done..|]. by repeat constructor.
Qed.

Lemma word_ok_release w h gs : word_ok (h_lock h) w (h :: gs) -> word_ok (h_lock h) (released (h_mode h) w) gs.
Proof.
  unfold word_ok, of_lock. rewrite filter_cons_True by done. cbn [length]. rewrite !Forall_cons.
  intros [(E & Hl & Hm & _)|[E [Hm Hs]]]; right; rewrite Hm, released_spec by lia; cbn.
  - destruct (filter _ gs); [|done]. split; [done|constructor].
  - split; [lia|done].
Qed.

(** The guards of a machine are those of one processor and the others. *)
Definition others (σ : Machine L W) (c : nat) : list (Held L) :=
  (map_to_list (delete c (procs σ)) ≫= fun cp => stack_guards (stack cp.2)) ++ stack_guards (pool σ).

Lemma all_guards_put σ c p ws : all_guards (mkMachine ws (<[c := p]> (procs σ)) (pool σ)) ≡ₚ stack_guards (stack p) ++ others σ c.
Proof.
  unfold all_guards, others. cbn [procs pool]. rewrite <- (insert_delete_eq (procs σ)), map_to_list_insert by apply lookup_delete_eq.
  cbn [mbind list_bind fst snd]. by rewrite <- (assoc_L (++)).
Qed.
Lemma all_guards_proc σ c p : procs σ !! c = Some p -> all_guards σ ≡ₚ stack_guards (stack p) ++ others σ c.
Proof.
  intros Hc. rewrite <- (all_guards_put σ c p (words σ)). by rewrite insert_id by done; destruct σ.
Qed.

(** *** Every step preserves the invariant *)

Lemma word_insert (ws : gmap L W) l l' w : word (<[l := w]> ws) l' = if decide (l = l') then w else word ws l'.
Proof. unfold word. destruct (decide (l = l')) as [->|]; [by rewrite lookup_insert_eq|by rewrite lookup_insert_ne]. Qed.

Lemma run_ctx_ok ws d x ws' d' x' : run_ctx ws d x = Some (ws', d', x') -> ctx_ok d x -> ctx_ok d' x' /\ ret x' = ret x /\ owner x' = owner x.
Proof.
  unfold run_ctx, ctx_ok. intros Hr [Hx Hm]. destruct (pend x) as [h|] eqn:Ep.
  { destruct (acquirable _ _); [|done]. injection Hr as <- <- <-. cbn. destruct Hx as (_ & Hok & Hq). split; [|done]. split; [done|].
    intros Hi. destruct (Hm Hi) as [Ht _]. split; [exact Ht|by intros]. }
  destruct Hx as [Hok Hq]. destruct (todo x) as [|[k m l|l|f|] t] eqn:Et; [done| | | |done]; cbn [ok forallb marked] in *.
  - rewrite !andb_true_iff in Hok. destruct Hok as [[Hn Hi] Hok].
    assert (Forall (fun g => allow (h_lock g) l = true) (guards x)) as Hn'.
    { rewrite List.forallb_forall in Hn. by apply List.Forall_forall. }
    assert (is_handler x = true -> forallb (marked (irq (owner x))) t = true /\ irq (owner x) l = true) as Hm'.
    { intros Hh. destruct (Hm Hh) as [Ht _]. apply andb_true_iff in Ht as [? ?]. done. }
    destruct k; injection Hr as <- <- <-; cbn; (split; [|done]).
    + split; [split_and!; [done|done|by apply quiet_cons]|]. intros Hh. destruct (Hm' Hh). split; [done|]. by intros ? [= <-].
    + split; [split_and!; [done|done|by intros ?]|]. intros Hh. destruct (Hm' Hh). split; [done|]. by intros ? [= <-].
  - destruct (take_guard l (guards x)) as [[h gs]|] eqn:Eg; [|done]. destruct (take_guard_spec _ _ _ _ Eg) as [Hp _].
    injection Hr as <- <- <-. cbn. split; [|done].
    assert (quiet (irq (owner x)) d gs) as Hq'. { intros Hd. pose proof (unshared_perm _ _ _ Hp (Hq Hd)) as Hu. by apply andb_true_iff in Hu as [_ ?]. }
    split; [split; [|done]|].
    + by destruct (h_flags h).
    + intros Hh. destruct (Hm Hh) as [Ht _]. split; [|by intros]. by destruct (h_flags h).
  - injection Hr as <- <- <-. cbn. split; [|done]. apply andb_true_iff in Hok as [Hu Hok]. split.
    + split; [done|]. intros ->. exact Hu.
    + intros Hh. destruct (Hm Hh) as [Ht _]. split; [exact Ht|by intros].
Qed.

Lemma run_ctx_words ws d x ws' d' x' G : run_ctx ws d x = Some (ws', d', x') ->
  (forall l, word_ok l (word ws l) (guards x ++ G)) -> forall l, word_ok l (word ws' l) (guards x' ++ G).
Proof.
  unfold run_ctx. intros Hr Hw l. destruct (pend x) as [h|].
  { destruct (acquirable _ _) eqn:Ea; [|done]. injection Hr as <- <- <-. cbn. rewrite word_insert. destruct (decide _) as [<-|Hne].
    - by apply word_ok_acquire.
    - by apply word_ok_other. }
  destruct (todo x) as [|[[|] m l'|l'|f|] t]; try done; try (by injection Hr as <- <- <-).
  destruct (take_guard l' (guards x)) as [[h gs]|] eqn:Eg; [|done]. destruct (take_guard_spec _ _ _ _ Eg) as [Hp Hl].
  injection Hr as <- <- <-. cbn. specialize (Hw l). apply (word_ok_perm _ _ _ ((h :: gs) ++ G)) in Hw; [|by rewrite Hp].
  rewrite word_insert. destruct (decide _) as [<-|Hne].
  - rewrite <- Hl in *. by apply word_ok_release.
  - apply word_ok_other in Hw; [done|congruence].
Qed.

Lemma inv_put σ c p ws : lock_inv σ -> stack_ok (masked p) (stack p) ->
  (forall l, word_ok l (word ws l) (stack_guards (stack p) ++ others σ c)) -> lock_inv (mkMachine ws (<[c := p]> (procs σ)) (pool σ)).
Proof.
  intros Hinv Hs Hw. split; cbn [words procs pool].
  - intros l. eapply word_ok_perm; [by rewrite all_guards_put|]. apply Hw.
  - intros c' p'. destruct (decide (c = c')) as [->|]; [rewrite lookup_insert_eq; by intros [= <-]|].
    rewrite lookup_insert_ne by done. apply (inv_stacks σ Hinv).
  - apply (inv_pool σ Hinv).
Qed.

Lemma inv_proc_words σ c p l : lock_inv σ -> procs σ !! c = Some p ->
  word_ok l (word (words σ) l) (stack_guards (stack p) ++ others σ c).
Proof. intros Hinv Hc. eapply word_ok_perm; [by apply all_guards_proc|]. apply (inv_words σ Hinv). Qed.

Lemma finished_ok d x : finished x = true -> ctx_ok d x -> guards x = [] /\ d = is_handler x.
Proof.
  unfold finished, ctx_ok. destruct (pend x); [done|]. destruct (todo x); [|done]. intros _ [[Hok _] _]. cbn in Hok.
  destruct (guards x); [|done]. split; [done|]. by apply eqb_true_iff.
Qed.

Lemma await_ok d x t : pend x = None -> todo x = Await :: t -> ctx_ok d x -> guards x = [] /\ d = false /\ ret x = None /\ task_ok (irq (owner x)) allow t = true.
Proof.
  unfold ctx_ok, is_handler. intros -> -> [[Hok _] _]. cbn in Hok. destruct (guards x); [|done]. rewrite !andb_true_iff in Hok.
  destruct Hok as [[Hb Hd] Hok]. destruct (ret x); [done|]. apply eqb_true_iff in Hd as ->. done.
Qed.

Lemma own_step_inv c σ σ' : own_step c σ σ' -> lock_inv σ -> lock_inv σ'.
Proof.
  intros Hst Hinv. destruct Hst as [σ d x r ws d' x' Hc Hr|σ d x r b Hc Hf Hb|σ d x Hc Hf Hb|σ d x t Hc Hp Ht];
    pose proof (inv_stacks σ Hinv c _ Hc) as [Hx Hrest]; cbn [masked stack] in *;
    assert (forall l, word_ok l (word (words σ) l) _) as Hw by (intros l; exact (inv_proc_words σ c _ l Hinv Hc)).
  - destruct (run_ctx_ok _ _ _ _ _ _ Hr Hx) as [Hx' [Hret Ho]]. apply inv_put; cbn [masked stack stack_ok]; [done| |].
    + by rewrite Hret, Ho.
    + intros l. unfold stack_guards in *. cbn in *. rewrite <- (assoc_L (++)). eapply run_ctx_words; [exact Hr|].
      intros l'. specialize (Hw l'). by rewrite <- (assoc_L (++)) in Hw.
  - rewrite Hb in Hrest. destruct Hrest as (-> & _ & Hrest). destruct (finished_ok d x Hf Hx) as [Hg _].
    apply inv_put; [done..|]. intros l. specialize (Hw l). unfold stack_guards in *. cbn in *. by rewrite Hg in Hw.
  - destruct (finished_ok d x Hf Hx) as [Hg Hd]. unfold is_handler in Hd. rewrite Hb in Hd.
    apply inv_put; [done..|]. intros l. specialize (Hw l). unfold stack_guards in *. cbn in *. by rewrite Hg in Hw.
  - destruct (await_ok d x t Hp Ht Hx) as (Hg & -> & Hb & Hok). rewrite Hg.
    destruct (inv_put σ c (mkProc false []) (words σ) Hinv) as [H1 H2 H3]; [done| |].
    { intros l. specialize (Hw l). unfold stack_guards in *. cbn in *. by rewrite Hg in Hw. }
    split; cbn [words procs pool] in *; [|exact H2|constructor; [by rewrite Hb|done]].
    intros l. exact (H1 l).
Qed.

Context (handler : option nat -> list (Act L) -> Prop) (handlers : forall o t, handler o t -> handler_ok (irq o) allow t = true).

Lemma lstep_inv σ σ' : lstep handler σ σ' -> lock_inv σ -> lock_inv σ'.
Proof.
  intros Hst Hinv. destruct Hst as [c σ σ' Hst|c σ r h Hc Hh|c σ d p1 x p2 Hc Hp].
  - by eapply own_step_inv.
  - pose proof (inv_stacks σ Hinv c _ Hc) as Hs. apply handlers in Hh. apply andb_true_iff in Hh as [Hok Hm].
    apply inv_put; [done| |]; cbn [masked stack stack_ok] in *.
    + split; [split; [by split|intros _; split; [exact Hm|by intros]]|done].
    + intros l. pose proof (inv_proc_words σ c _ l Hinv Hc) as Hw. exact Hw.
  - pose proof (inv_stacks σ Hinv c _ Hc) as Hd. cbn in Hd. subst d. pose proof (inv_pool σ Hinv) as Hpool. rewrite Hp in Hpool.
    apply Forall_app in Hpool as [Hp1 [Hx Hp2]%Forall_cons]. destruct Hx as (Hg & Hpe & Hr & Hok).
    split; cbn [words procs pool].
    + intros l. eapply word_ok_perm; [|apply (inv_words σ Hinv)]. rewrite (all_guards_proc σ c _ Hc).
      rewrite (all_guards_put (mkMachine (words σ) (procs σ) (p1 ++ p2)) c). unfold others, stack_guards. cbn. rewrite Hp, Hg.
      rewrite !bind_app, bind_cons, Hg. done.
    + intros c' p'. destruct (decide (c = c')) as [->|]; [rewrite lookup_insert_eq; intros [= <-]|rewrite lookup_insert_ne by done; apply (inv_stacks σ Hinv)].
      cbn. rewrite Hr. split; [|done]. unfold ctx_ok, is_handler. rewrite Hpe, Hr, Hg. by split.
    + by apply Forall_app.
Qed.

Lemma bind_empty {A B} (f : A -> list B) l : (forall x, x ∈ l -> f x = []) -> l ≫= f = [].
Proof.
  induction l as [|x l IH]; intros Hf; [done|]. rewrite bind_cons, (Hf x) by left. apply IH. intros y Hy. apply Hf. by right.
Qed.

Lemma started_inv n ts : (forall o t, (o, t) ∈ ts -> task_ok (irq (Some o)) allow t = true) -> lock_inv (started n ts).
Proof.
  intros Hts. assert (all_guards (started n ts) = []) as Hg.
  { unfold all_guards, started. cbn [procs pool]. apply app_nil. split.
    - apply bind_empty. intros [c p] Hin. apply elem_of_map_to_list, elem_of_list_to_map_2, list_elem_of_fmap in Hin as (c' & [= -> ->] & _). done.
    - apply bind_empty. intros x [t [-> _]]%list_elem_of_fmap. done. }
  split.
  - intros l. rewrite Hg. right. split; [exact level_unlocked|constructor].
  - intros c p. cbn. intros Hin. apply elem_of_list_to_map_2, list_elem_of_fmap in Hin as (c' & [= -> ->] & _). done.
  - cbn. apply Forall_fmap, Forall_forall. intros [o t] Ht. split_and!; [done..|]. by apply Hts.
Qed.

Lemma reachable_inv n ts σ : (forall o t, (o, t) ∈ ts -> task_ok (irq (Some o)) allow t = true) -> rtc (lstep handler) (started n ts) σ -> lock_inv σ.
Proof.
  intros Hts Hr. eapply (rtc_ind_r (fun σ => lock_inv σ)); [by apply started_inv| |exact Hr]. intros σ1 σ2 _ Hst Hi. by eapply lstep_inv.
Qed.

(** *** Who holds what a processor waits for *)

Lemma stack_unshared s : stack_ok false s -> Forall (fun h => irq (stack_owner s) (h_lock h) = false) (stack_guards s).
Proof.
  induction s as [|x s IH]; cbn; [constructor|]. intros [[Hx _] Hs]. apply Forall_app. split.
  - apply unshared_Forall. destruct (pend x); [|by apply Hx]. destruct Hx as (_ & _ & Hq). specialize (Hq eq_refl).
    by apply andb_true_iff in Hq as [_ ?].
  - destruct (ret x); [|by rewrite Hs]. destruct Hs as (_ & -> & Hs). by apply IH.
Qed.

(** What a processor holds lower down is below what it waits for. *)
Lemma waits_above d x r h g : stack_ok d (x :: r) -> pend x = Some h -> g ∈ stack_guards (x :: r) ->
  allow (h_lock g) (h_lock h) = true \/ (irq (owner x) (h_lock g) = false /\ irq (owner x) (h_lock h) = true).
Proof.
  intros [[Hx Hm] Hr] Hp Hg. rewrite Hp in Hx. destruct Hx as [Ha _]. unfold stack_guards in Hg. cbn in Hg.
  apply elem_of_app in Hg as [Hg|Hg]; [left; by apply (proj1 (Forall_forall _ _) Ha)|right]. unfold is_handler in Hm. destruct (ret x); [|rewrite Hr in Hg; by apply not_elem_of_nil in Hg].
  destruct Hr as (_ & Ho & Hr). split; [|by apply Hm]. rewrite Ho. by apply (proj1 (Forall_forall _ _) (stack_unshared r Hr)).
Qed.

Lemma pool_guards σ : lock_inv σ -> stack_guards (pool σ) = [].
Proof. intros Hinv. apply bind_empty. intros x Hx. by apply (proj1 (Forall_forall _ _) (inv_pool σ Hinv) x Hx). Qed.

Lemma blocked_holder σ x h : lock_inv σ -> pend x = Some h -> blocked (words σ) x = true ->
  exists c p g, procs σ !! c = Some p /\ g ∈ stack_guards (stack p) /\ h_lock g = h_lock h.
Proof.
  intros Hinv Hp Hb. unfold blocked in Hb. rewrite Hp in Hb. apply negb_true_iff in Hb.
  assert (exists g, g ∈ of_lock (h_lock h) (all_guards σ)) as [g [Hl Hg]%list_elem_of_filter].
  { pose proof (inv_words σ Hinv (h_lock h)) as Hw. destruct (of_lock _ _) as [|g ?] eqn:E; [|exists g; left]. exfalso.
    destruct Hw as [(_ & Hl & _)|[Hw _]]; rewrite E in *; [done|]. rewrite acquirable_spec, Hw in Hb. by destruct (h_mode h). }
  unfold all_guards in Hg. rewrite pool_guards, app_nil_r in Hg by done. apply list_elem_of_bind in Hg as ([c p] & Hg & Hin).
  apply elem_of_map_to_list in Hin. by exists c, p, g.
Qed.

(** Code that does not spin moves on. *)
Lemma top_moves σ c d x r : lock_inv σ -> procs σ !! c = Some (mkProc d (x :: r)) -> blocked (words σ) x = false -> exists σ', own_step c σ σ'.
Proof.
  intros Hinv Hc Hb. destruct (inv_stacks σ Hinv c _ Hc) as [Hx Hr]. cbn in Hr.
  assert (ret x = None -> r = []) as Hr' by (intros Hn; by rewrite Hn in Hr).
  destruct (run_ctx (words σ) d x) as [[[ws d'] x']|] eqn:E; [eexists; by eapply own_run|].
  destruct (pend x) as [h|] eqn:Ep; unfold run_ctx, blocked in *; rewrite Ep in *.
  { apply negb_false_iff in Hb. by rewrite Hb in E. }
  destruct (todo x) as [|[[|] m l|l|f|] t] eqn:Et; try done.
  - assert (finished x = true) as Hf by (unfold finished; by rewrite Ep, Et).
    destruct (ret x) eqn:Er; [eexists; by eapply own_return|]. rewrite (Hr' eq_refl) in Hc. eexists. by eapply own_end.
  - destruct Hx as [Hx _]. rewrite Ep, Et in Hx. destruct Hx as [Hok _]. cbn in Hok. by destruct (take_guard l (guards x)) as [[? ?]|].
  - destruct (await_ok d x t Ep Et Hx) as (_ & _ & Hn & _). rewrite (Hr' Hn) in Hc. eexists. by eapply own_await.
Qed.
End invariant.

(** ** What the discipline gives *)

(** Two ways to say which locks may be taken while others are held: any other
    lock, or only locks of a higher rank. *)
Definition distinct {L} `{EqDecision L} (l l' : L) : bool := bool_decide (l ≠ l').
Definition by_rank {L} (rank : L -> nat) (l l' : L) : bool := (rank l <? rank l')%nat.

Section theorems.
Context {L : Type} `{Countable L} {W : Type} `{SLS : SpinLockSpec W} (irq : option nat -> L -> bool) (handler : option nat -> list (Act L) -> Prop).
Implicit Types (σ : Machine L W) (ts : list (nat * list (Act L))) (rank : L -> nat).


Lemma own_step_dom c σ σ' : own_step c σ σ' -> dom (procs σ') = dom (procs σ).
Proof. intros []; cbn; apply dom_insert_lookup_L; eauto. Qed.
Lemma reachable_dom σ σ' : rtc (lstep handler) σ σ' -> dom (procs σ') = dom (procs σ).
Proof.
  induction 1 as [|σ1 σ2 σ3 Hst _ IH]; [done|]. rewrite IH. destruct Hst; [by eapply own_step_dom|cbn; apply dom_insert_lookup_L; eauto..].
Qed.

(** Code never waits for a lock that its own processor holds, be it in the
    code it interrupted or in a task that gave the processor up; so on a
    single processor no lock is ever found taken, and code that runs always
    moves on. *)
Lemma never_waits_for_itself n ts σ c d x r :
  (forall o t, handler o t -> handler_ok (irq o) distinct t = true) -> (forall o t, (o, t) ∈ ts -> task_ok (irq (Some o)) distinct t = true) ->
  rtc (lstep handler) (started n ts) σ -> procs σ !! c = Some (mkProc d (x :: r)) ->
  (forall h g, pend x = Some h -> g ∈ stack_guards (x :: r) ++ stack_guards (pool σ) -> h_lock g ≠ h_lock h)
  /\ (n = 1%nat -> blocked (words σ) x = false /\ exists σ', own_step c σ σ').
Proof.
  intros Hh Hts Hr Hc. pose proof (reachable_inv irq distinct handler Hh n ts σ Hts Hr) as Hinv.
  assert (forall h g, pend x = Some h -> g ∈ stack_guards (x :: r) -> h_lock g ≠ h_lock h) as Hown.
  { intros h g Hp Hg Heq. destruct (waits_above _ _ _ _ _ _ g (inv_stacks _ _ σ Hinv c _ Hc) Hp Hg) as [Ha|[Hi Hi']].
    - by apply bool_decide_eq_true_1 in Ha.
    - congruence. }
  split.
  { intros h g Hp. rewrite (pool_guards _ _ _ Hinv), app_nil_r. by apply Hown. }
  intros ->. assert (blocked (words σ) x = false) as Hb; [|split; [done|by eapply top_moves]].
  apply not_true_is_false. intros Hb. destruct (pend x) as [h|] eqn:Hp; [|by unfold blocked in Hb; rewrite Hp in Hb].
  destruct (blocked_holder _ _ σ x h Hinv Hp Hb) as (c' & p & g & Hc' & Hg & Hl).
  assert (c' = c) as ->.
  { pose proof (reachable_dom _ _ Hr) as Hd. apply elem_of_dom_2 in Hc, Hc'. rewrite Hd in Hc, Hc'. cbn in Hc, Hc'.
    rewrite insert_empty, dom_singleton_L, elem_of_singleton in Hc, Hc'. congruence. }
  rewrite Hc in Hc'. injection Hc' as <-. by eapply Hown.
Qed.

Lemma rank_bound (m : gmap nat (Proc L)) rank :
  exists b, forall c d x r h, m !! c = Some (mkProc d (x :: r)) -> pend x = Some h -> (rank (h_lock h) <= b)%nat.
Proof.
  induction m as [|c p m Hc [b IH]] using map_ind; [exists O; intros c d x r h; by rewrite lookup_empty|].
  exists (b + match stack p with x :: _ => match pend x with Some h => rank (h_lock h) | None => 0 end | [] => 0 end)%nat.
  intros c' d x r h. destruct (decide (c = c')) as [->|]; [rewrite lookup_insert_eq|rewrite lookup_insert_ne by done].
  - intros [= ->] Hp. cbn. rewrite Hp. lia.
  - intros Hm Hp. specialize (IH _ _ _ _ _ Hm Hp). lia.
Qed.

End theorems.

(** ** Code made of critical sections *)

Definition masks (k : Kind) (d : bool) : bool := match k with NoIrq => true | Plain => d end.

(** [body] with a guard of [l] around it. *)
Definition under {L} (k : Kind) (m : Mode) (l : L) (body : list (Act L)) : list (Act L) := Acq k m l :: body ++ [Rel l].

Section blocks.
Context {L : Type} `{Countable L} (irq : L -> bool).
Implicit Types (ls : list L) (t : list (Act L)) (d : bool).

(** Nested and sequential critical sections, for code that holds [ls] under
    the mask [d]. *)
Inductive block : bool -> list L -> list (Act L) -> Prop :=
| block_nil d ls : block d ls []
| block_app d ls t t' : block d ls t -> block d ls t' -> block d ls (t ++ t')
| block_under d ls k m l t : l ∉ ls -> (masks k d || negb (irq l)) = true -> block (masks k d) (l :: ls) t -> block d ls (under k m l t).

Lemma block_bind {A} (f : A -> list (Act L)) d ls (xs : list A) : (forall x, x ∈ xs -> block d ls (f x)) -> block d ls (xs ≫= f).
Proof.
  induction xs as [|x xs IH]; intros Hf; [constructor|]. rewrite bind_cons. apply block_app; [apply Hf; left|].
  apply IH. intros y Hy. apply Hf. by right.
Qed.

Lemma distinct_held l ls gs : l ∉ ls -> (forall g : Held L, g ∈ gs -> h_lock g ∈ ls) -> forallb (fun g => distinct (h_lock g) l) gs = true.
Proof.
  intros Hl Hgs. apply List.forallb_forall. intros g Hg. apply bool_decide_eq_true_2. intros <-. apply Hl, Hgs. by apply list_elem_of_In.
Qed.

(** They obey the discipline. *)
Lemma block_ok d ls t : block d ls t -> forall base gs rest, (forall g, g ∈ gs -> h_lock g ∈ ls) -> quiet irq d gs ->
  ok irq distinct base d gs rest = true -> ok irq distinct base d gs (t ++ rest) = true.
Proof.
  induction 1 as [d ls|d ls t t' _ IH1 _ IH2|d ls k m l t Hl Hi _ IH]; intros base gs rest Hgs Hq Hr; [done| |].
  - rewrite <- (assoc_L (++)). apply IH1; [done..|]. by apply IH2.
  - unfold under. cbn [app ok]. fold (masks k d). rewrite (distinct_held l ls gs), Hi by done. rewrite <- (assoc_L (++)). cbn [app andb].
    apply IH.
    + intros g [->|Hg]%elem_of_cons; [by left|right; auto].
    + apply quiet_cons; [|done]. destruct k; [done|by intros ?].
    + cbn [ok take_guard h_lock]. rewrite decide_True by done. destruct k; cbn [h_flags]; [done|].
      rewrite Hr, andb_true_r. destruct d; [done|by apply Hq].
Qed.

(** Handlers are made of marked locks. *)
Lemma under_marked k m l t : irq l = true -> forallb (marked irq) t = true -> forallb (marked irq) (under k m l t) = true.
Proof. intros Hl Ht. unfold under. cbn. rewrite Hl. cbn. rewrite forallb_app, Ht. done. Qed.
End blocks.

(** ** Schedules *)

(** Schedules: a processor takes the [i]-th waiting task, runs its code as far
    for [n] steps or as far as it goes, or gives its task up. *)
Inductive Command := Resume (i c : nat) | Run (n c : nat) | GiveUp (c : nat).

Section schedules.
Context {L : Type} `{Countable L} {W : Type} `{SL : SpinLock W} (handler : option nat -> list (Act L) -> Prop).
Implicit Types σ : Machine L W.

Fixpoint run_cpu (fuel c : nat) (σ : Machine L W) : Machine L W :=
  match fuel, procs σ !! c with
  | S fuel, Some (mkProc d (x :: r)) =>
      match run_ctx (words σ) d x with
      | Some (ws, d', x') => run_cpu fuel c (mkMachine ws (<[c := mkProc d' (x' :: r)]> (procs σ)) (pool σ))
      | None => σ
      end
  | _, _ => σ
  end.
Definition command (σ : Machine L W) (x : Command) : Machine L W :=
  match x with
  | Resume i c =>
      match procs σ !! c, pool σ !! i with
      | Some (mkProc d []), Some x => mkMachine (words σ) (<[c := mkProc d [x]]> (procs σ)) (take i (pool σ) ++ drop (S i) (pool σ))
      | _, _ => σ
      end
  | Run n c => run_cpu n c σ
  | GiveUp c =>
      match procs σ !! c with
      | Some (mkProc d [mkCtx o gs None (Await :: t) b]) =>
          mkMachine (words σ) (<[c := mkProc d []]> (procs σ)) (mkCtx o gs None t b :: pool σ)
      | _ => σ
      end
  end.

Lemma run_cpu_steps fuel c : forall σ, rtc (lstep handler) σ (run_cpu fuel c σ).
Proof.
  induction fuel as [|fuel IH]; intros σ; cbn; [done|]. destruct (procs σ !! c) as [[d [|x r]]|] eqn:Hc; [done| |done].
  destruct (run_ctx (words σ) d x) as [[[ws d'] x']|] eqn:Hr; [|done]. eapply rtc_l; [|apply IH]. eapply ls_own, own_run; eassumption.
Qed.
Lemma command_steps x σ : rtc (lstep handler) σ (command σ x).
Proof.
  destruct x as [i c|n c|c]; cbn [command]; [|apply run_cpu_steps|].
  - destruct (procs σ !! c) as [[d [|y r]]|] eqn:Hc; [|done..]. destruct (pool σ !! i) as [x|] eqn:Hi; [|done].
    eapply rtc_once, ls_resume; [exact Hc|]. by rewrite take_drop_middle.
  - destruct (procs σ !! c) as [[d [|[o gs [|] [|[| | |] t] b] [|]]]|] eqn:Hc; try done.
    eapply rtc_once, ls_own. by eapply (own_await c σ d (mkCtx o gs None (Await :: t) b) t).
Qed.
Lemma commands_steps xs : forall σ, rtc (lstep handler) σ (foldl command σ xs).
Proof. induction xs as [|x xs IH]; intros σ; [done|]. cbn [foldl]. etrans; [apply command_steps|apply IH]. Qed.

(** Every processor spins with interrupts masked. *)
Definition hung (σ : Machine L W) : bool :=
  forallb (fun cp => match cp.2 with mkProc true (x :: _) => blocked (words σ) x | _ => false end) (map_to_list (procs σ)).
Lemma hung_spec σ σ' : hung σ = true -> ~ lstep handler σ σ'.
Proof.
  intros Hh. assert (forall c p, procs σ !! c = Some p -> exists x r, p = mkProc true (x :: r) /\ blocked (words σ) x = true) as Hp.
  { intros c p Hc. apply elem_of_map_to_list, list_elem_of_In in Hc. unfold hung in Hh. rewrite List.forallb_forall in Hh. specialize (Hh _ Hc). cbn in Hh.
    destruct p as [[|] [|x r]]; try done. by exists x, r. }
  assert (forall x, blocked (words σ) x = true -> forall d, run_ctx (words σ) d x = None /\ finished x = false /\ pend x ≠ None) as Hb.
  { intros x Hx d. unfold blocked, run_ctx, finished in *. destruct (pend x); [|done]. apply negb_true_iff in Hx. by rewrite Hx. }
  clear Hh. intros Hst. revert Hp Hb. destruct Hst as [c s s' Hst|c s r h Hc _|c s d p1 x p2 Hc _];
    [destruct Hst as [s d x r ws d' x' Hc Hr|s d x r b Hc Hf _|s d x Hc Hf _|s d x t Hc Hn _]|..]; intros Hp Hb;
    destruct (Hp _ _ Hc) as (y & r' & [= ] & Hy); subst; destruct (Hb _ Hy true) as (Hrun & Hfin & Hpend); congruence.
Qed.
End schedules.

(** ** Evaluations *)

(** A lock that counts its readers. *)
#[export] Instance CountingLock : SpinLock Z := {|
  unlocked := 0;
  acquirable m w := match m with Exclusive => w =? 0 | Shared => 0 <=? w end;
  acquired m w := match m with Exclusive => -1 | Shared => w + 1 end;
  released m w := match m with Exclusive => 0 | Shared => w - 1 end;
|}.
#[export] Instance CountingLockSpec : SpinLockSpec Z.
Proof. by refine {| level := id |}. Defined.

(** Two tasks take the locks 1 and 2, an interrupt handler the lock 2. *)
Definition two_locks : list (nat * list (Act nat)) :=
  [(0, under Plain Exclusive 1 (under NoIrq Exclusive 2 [])); (1, under NoIrq Exclusive 1 [] ++ [Await])]%nat.
Definition takes_two (o : option nat) (t : list (Act nat)) : Prop := t = under NoIrq Exclusive 2%nat [].
Definition second (o : option nat) (l : nat) : bool := (l =? 2)%nat.
Definition two_locks_run : Machine nat Z := foldl command (started 2 two_locks) [Resume 0 0; Resume 0 1; Run 3 0; Run 9 1].


