(* ===== verification/LockPaths.v ===== *)
(** * The locks of the kernel's code paths

    Which locks the scheduler, the interrupt handlers and the system calls
    take, in which order, and across which [await]s.  Messages of the level
    [trace] are not printed with the default filter and take no lock.  The
    locks inside the frame and heap allocators belong to external crates, and
    nothing else is taken while they are held. *)

From S2P Require Import Prelude Interleaving.

(** ** The locks *)

(** [LOG_LOCK], [UART], [PROCESSES], [THREADS], [TIMER], [GicV2::irq_map],
    [Pl011Uart::inner], [active_tasks]; of a processor its [run_queue]; of a
    task its [SchedTask]; of a process the [Process], its memory set and event
    bus; of a thread [Thread::inner] and the future of its
    [PageTableSwitchWrapper]; [FileHandle::description]; the terminal's buffer
    and event bus. *)
Inductive Lock :=
| LOG | UART | PROCESSES | THREADS | TIMER | IRQ_MAP | PL011 | ACTIVE_TASKS
| RUN_QUEUE (c : nat) | SCHED_TASK (t : nat)
| PROCESS (p : nat) | VM (p : nat) | BUS (p : nat)
| INNER (th : nat) | FUTURE (th : nat) | DESCRIPTION (d : nat) | TTY_BUF | TTY_BUS.
#[export] Instance Lock_dec : EqDecision Lock.
Proof. solve_decision. Defined.

Definition lock_code (l : Lock) : nat * nat :=
  match l with
  | LOG => (0, 0) | UART => (1, 0) | PROCESSES => (2, 0) | THREADS => (3, 0) | TIMER => (4, 0) | IRQ_MAP => (5, 0) | PL011 => (6, 0)
  | ACTIVE_TASKS => (7, 0) | RUN_QUEUE c => (8, c) | SCHED_TASK t => (9, t) | PROCESS p => (10, p) | VM p => (11, p) | BUS p => (12, p)
  | INNER t => (13, t) | FUTURE t => (14, t) | DESCRIPTION d => (15, d) | TTY_BUF => (16, 0) | TTY_BUS => (17, 0)
  end%nat.
Definition lock_decode (x : nat * nat) : option Lock :=
  match x.1 with
  | 0 => Some LOG | 1 => Some UART | 2 => Some PROCESSES | 3 => Some THREADS | 4 => Some TIMER | 5 => Some IRQ_MAP | 6 => Some PL011
  | 7 => Some ACTIVE_TASKS | 8 => Some (RUN_QUEUE x.2) | 9 => Some (SCHED_TASK x.2) | 10 => Some (PROCESS x.2) | 11 => Some (VM x.2)
  | 12 => Some (BUS x.2) | 13 => Some (INNER x.2) | 14 => Some (FUTURE x.2) | 15 => Some (DESCRIPTION x.2) | 16 => Some TTY_BUF
  | 17 => Some TTY_BUS | _ => None
  end%nat.
#[export] Program Instance Lock_countable : Countable Lock := inj_countable lock_code lock_decode _.
Next Obligation. by intros []. Qed.

Abbreviation Code := (list (Act Lock)).

(** [MutexNoIrq::lock], [Mutex::lock], [RwLock::read], [RwLock::write] around
    some code. *)
Definition noirq (l : Lock) (body : Code) : Code := under NoIrq Exclusive l body.
Definition mutex (l : Lock) (body : Code) : Code := under Plain Exclusive l body.
Definition rlock (l : Lock) (body : Code) : Code := under Plain Shared l body.
Definition wlock (l : Lock) (body : Code) : Code := under Plain Exclusive l body.

(** ** Messages, wake-ups and interrupts *)

(** [_print] *)
Definition print_locks : Code := noirq LOG (rlock UART []).

(** The closure of [SchedTask::schedule_fn] for the task [t] on the queue of
    processor [c]; a waker runs it when its task sleeps. *)
Definition schedule_locks (c t : nat) : Code := mutex (SCHED_TASK t) (noirq (RUN_QUEUE c) []).
Definition wake_locks (c : nat) (ts : list nat) : Code := ts ≫= schedule_locks c.

(** [event_bus.lock().set(..)] and [.clear(..)]: the callbacks wake [ts]. *)
Definition notify_locks (c p : nat) (ts : list nat) : Code := noirq (BUS p) (wake_locks c ts).

(** The handlers of the timer, with the tasks it wakes, and of the UART. *)
Inductive IrqSource := TimerIrq (ts : list nat) | UartIrq.
Definition device_locks (c : nat) (dev : IrqSource) : Code :=
  match dev with TimerIrq ts => noirq TIMER (wake_locks c ts) | UartIrq => noirq PL011 [] end.

(** [GicV2::handle_pending_irqs]; [None] when nothing is pending. *)
Definition irq_locks (c : nat) (dev : option IrqSource) : Code :=
  match dev with Some dev => noirq IRQ_MAP (device_locks c dev) | None => [] end.

(** ** The executor *)

(** [RunQueue::pop_task_to_run]: the queues that [try_steal_tasks] looks into,
    the current task when it is asked for, and the next one. *)
Definition pop_locks (c : nat) (probes : list nat) (cur : option nat) (next : nat) : Code :=
  noirq (RUN_QUEUE c)
    ((probes ≫= fun q => noirq (RUN_QUEUE q) []) ++ match cur with Some t => mutex (SCHED_TASK t) [] | None => [] end
     ++ rlock ACTIVE_TASKS [] ++ mutex (SCHED_TASK next) []).

(** [RunQueue::update_min_vruntime] with the current task [t] *)
Definition min_locks (t : nat) : Code := mutex (SCHED_TASK t) [].

(** The second half of a turn of [Executor::run], for the task that is
    current: [remove_task] unless it yielded, and [task_tick]. *)
Definition finish_locks (c t : nat) (yielded : bool) : Code :=
  noirq (RUN_QUEUE c)
    ((if yielded then [] else mutex (SCHED_TASK t) [] ++ min_locks t) ++ mutex (SCHED_TASK t) [] ++ min_locks t).

(** The guard around the future of [Executor::spawn]: [remove_task] takes the
    guard of the task over and drops it before [update_min_vruntime]. *)
Definition drop_locks (c t : nat) : Code :=
  Acq Plain Exclusive (SCHED_TASK t) :: Acq NoIrq Exclusive (RUN_QUEUE c) :: Rel (SCHED_TASK t) ::
  min_locks t ++ wlock ACTIVE_TASKS [] ++ [Rel (RUN_QUEUE c)].

(** [Executor::spawn] without a parent *)
Definition spawn_locks (c t : nat) : Code := wlock ACTIVE_TASKS (noirq (RUN_QUEUE c) (mutex (SCHED_TASK t) [])).

(** ** Threads *)

(** [Process::exit] of [p]: [ts] wait for the process, and [qs] for the parent. *)
Definition exit_locks (c p : nat) (ts : list nat) (parent : option nat) (qs : list nat) : Code :=
  notify_locks c p ts ++ match parent with Some q => noirq (PROCESS q) (notify_locks c q qs) | None => [] end
  ++ wlock THREADS print_locks.

(** What [handle_signal] does with a signal: the default action ends the
    process or does nothing, or the signal is ignored, or a handler is entered
    ([alt] for the alternate stack). *)
Inductive Delivery := Terminate (ts : list nat) (parent : option nat) (qs : list nat) | Nothing | Ignore | Enter (alt : bool).
Definition deliver_locks (c th p : nat) (x : Delivery) : Code :=
  print_locks ++
  match x with
  | Terminate ts parent qs => print_locks ++ exit_locks c p ts parent qs
  | Nothing => []
  | Ignore => print_locks
  | Enter alt => print_locks ++ noirq (INNER th) [] ++ (if alt then noirq (INNER th) [] else []) ++ noirq (VM p) []
  end.

(** [handle_signal]: the search looks at some entries of the queue and finds
    one to deliver, again and again; the last search looks at [n] entries and
    finds nothing, or the process was ended. *)
Definition search_locks (th n : nat) : Code := seq 0 n ≫= fun _ => noirq (INNER th) [].
Definition signal_locks (c th p : nat) (xs : list (nat * Delivery)) (n : nat) : Code :=
  noirq (PROCESS p) ((xs ≫= fun x => search_locks th x.1 ++ deliver_locks c th p x.2) ++ search_locks th n).

(** [Thread::spawn] of the thread [th] of [p], which becomes task [t] *)
Definition start_locks (c th p t : nat) : Code := noirq (VM p) [] ++ spawn_locks c t ++ noirq (INNER th) [].

(** [Thread::fork] and [sys_fork] *)
Definition fork_locks (c th p th' p' t' : nat) : Code :=
  noirq (VM p) []
  ++ noirq (PROCESS p) (noirq (INNER th) [] ++ noirq (INNER th) [] ++ wlock THREADS [] ++ wlock PROCESSES (noirq (PROCESS p') [])
                        ++ noirq (PROCESS p') [])
  ++ start_locks c th' p' t' ++ noirq (PROCESS p') [].

(** [Thread::new_clone] and [sys_clone] for a thread *)
Definition clone_locks (c th p th' t' : nat) (clear_tid : bool) : Code :=
  noirq (VM p) [] ++ noirq (VM p) []
  ++ noirq (VM p) [] ++ noirq (INNER th) [] ++ noirq (INNER th) [] ++ wlock THREADS [] ++ noirq (PROCESS p) []
  ++ (if clear_tid then noirq (INNER th') [] else []) ++ start_locks c th' p t'.

(** A turn of the loop of [sys_wait4] over the children, or for one process;
    [found] when one of them exited. *)
Definition wait_any_locks (p : nat) (children : list nat) (found : bool) : Code :=
  noirq (PROCESS p) ((children ≫= fun q => noirq (PROCESS q) []) ++ if found then wlock PROCESSES [] else []).
Definition wait_pid_locks (p : nat) (q : option nat) (found : bool) : Code :=
  noirq (PROCESS p) (rlock PROCESSES [] ++ match q with Some q => noirq (PROCESS q) [] | None => [] end ++ if found then wlock PROCESSES [] else []).

(** [has_signal_to_handle], with [n] entries of the queue *)
Definition has_signal_locks (th p n : nat) : Code := noirq (PROCESS p) (search_locks th n).

(** [SleepFuture::poll] that has to wait *)
Definition sleep_locks (th p n : nat) : Code := has_signal_locks th p n ++ noirq TIMER [] ++ noirq (BUS p) [].

(** [sys_write] to an open file with the description [d]; [tty] when it is the
    terminal, which prints. *)
Definition write_locks (p d : nat) (tty : bool) : Code :=
  noirq (PROCESS p) (noirq (VM p) [] ++ rlock (DESCRIPTION d) [] ++ rlock (DESCRIPTION d) [] ++ (if tty then print_locks else [])
                     ++ wlock (DESCRIPTION d) []).

(** [sys_read] of the terminal while there is no input, up to the end of its
    first poll: the guard of the process stays alive across the wait. *)
Definition read_locks (p d : nat) : Code :=
  Acq NoIrq Exclusive (PROCESS p) :: noirq (VM p) [] ++ rlock (DESCRIPTION d) [] ++ rlock (DESCRIPTION d) [] ++ mutex TTY_BUF []
  ++ mutex TTY_BUF [] ++ mutex TTY_BUS [].

(** ** Turns of the executor *)

(** The parts of the loop in [Thread::spawn] for a user thread, under the lock
    of its future: taking or storing the context (also [sys_set_tid_address]),
    a page fault, an interrupt in user mode, the prologue of a system call,
    the calls, and the delivery of signals. *)
Inductive Step :=
| Context | PageFault | UserIrq (dev : option IrqSource) | Prologue | Write (d : nat) (tty : bool)
| Fork (th' p' t' : nat) | Clone (th' t' : nat) (clear_tid : bool) | WaitAny (children : list nat) (found : bool)
| WaitPid (q : option nat) (found : bool) | WaitPoll | WaitClear (ts : list nat) | SleepFor | SleepPoll (n : nat) | SleepDone (n : nat)
| Exit (ts : list nat) (parent : option nat) (qs : list nat) | Signals (xs : list (nat * Delivery)) (n : nat) | Print.
Definition step_locks (c th p : nat) (s : Step) : Code :=
  match s with
  | Context => noirq (INNER th) []
  | PageFault => noirq (VM p) []
  | UserIrq dev => irq_locks c dev
  | Prologue => noirq (PROCESS p) []
  | Write d tty => write_locks p d tty
  | Fork th' p' t' => fork_locks c th p th' p' t'
  | Clone th' t' clear_tid => clone_locks c th p th' t' clear_tid
  | WaitAny children found => wait_any_locks p children found
  | WaitPid q found => wait_pid_locks p q found
  | WaitPoll => noirq (BUS p) []
  | WaitClear ts => notify_locks c p ts
  | SleepFor => noirq (PROCESS p) []
  | SleepPoll n => sleep_locks th p n
  | SleepDone n => has_signal_locks th p n
  | Exit ts parent qs => noirq (PROCESS p) (exit_locks c p ts parent qs)
  | Signals xs n => signal_locks c th p xs n
  | Print => print_locks
  end.

(** A poll of a task: one of the kernel's own tasks, which prints or calls
    [delay_for], or a user thread behind [PageTableSwitchWrapper::poll]. *)
Inductive Poll := Message | Delay | User (th p : nat) (steps : list Step).
Definition poll_locks (c : nat) (x : Poll) : Code :=
  match x with
  | Message => print_locks
  | Delay => noirq TIMER []
  | User th p steps => noirq (FUTURE th) (steps ≫= step_locks c th p)
  end.

(** A turn of [Executor::run] on processor [c] that runs the task [t]; the task
    gives the processor up at its end. *)
Inductive Ending := Yields | Sleeps | Ends.
Record ExecTurn := mkTurn { probes : list nat; current : option nat; polls : list Poll; ending : Ending }.
Definition turn_locks (c t : nat) (x : ExecTurn) : Code :=
  pop_locks c (probes x) (current x) t ++ (polls x ≫= poll_locks c)
  ++ match ending x with Yields => schedule_locks c t | Sleeps => [] | Ends => drop_locks c t end
  ++ finish_locks c t (match ending x with Yields => true | _ => false end) ++ [Await].

(** ** What a turn may do *)

(** Interrupt handlers take the locks of the controller, the devices, the
    run queues and of the tasks they wake.  A waker does nothing for a task
    that is running or already scheduled, so while a processor works for a
    task, no handler schedules that task. *)
Definition irq_lock (o : option nat) (l : Lock) : bool :=
  match l with
  | TIMER | IRQ_MAP | PL011 | RUN_QUEUE _ => true
  | SCHED_TASK t => bool_decide (o ≠ Some t)
  | _ => false
  end.
Inductive kernel_handler (o : option nat) : Code -> Prop :=
| handle_none : kernel_handler o (irq_locks 0 None)
| handle_uart : kernel_handler o (irq_locks 0 (Some UartIrq))
| handle_timer ts : (forall t, t ∈ ts -> o ≠ Some t) -> kernel_handler o (irq_locks 0 (Some (TimerIrq ts))).

(** A process is neither its own child nor its own parent, and does not wait
    for itself. *)
Definition delivery_wf (p : nat) (x : Delivery) : Prop := match x with Terminate _ parent _ => parent ≠ Some p | _ => True end.
Definition step_wf (p : nat) (s : Step) : Prop :=
  match s with
  | Fork _ p' _ => p' ≠ p
  | WaitAny children _ => p ∉ children
  | WaitPid q _ => q ≠ Some p
  | Exit _ parent _ => parent ≠ Some p
  | Signals xs _ => forall x, x ∈ xs -> delivery_wf p x.2
  | _ => True
  end.
Definition poll_wf (x : Poll) : Prop := match x with User _ p steps => forall s, s ∈ steps -> step_wf p s | _ => True end.
Definition turn_wf (x : ExecTurn) : Prop := (0%nat ∉ probes x) /\ forall y, y ∈ polls x -> poll_wf y.

Ltac notin :=
  let H := fresh in intros H; repeat (apply elem_of_cons in H as [H|H]; [congruence|]); by apply not_elem_of_nil in H.
Ltac crit :=
  unfold noirq, mutex, rlock, wlock; cbn [masks];
  repeat first [apply block_nil | apply block_app | apply block_under; [notin | reflexivity | cbn [masks]]].

Section code.
Context (irq : Lock -> bool).

Lemma print_block ls : LOG ∉ ls -> UART ∉ ls -> block irq true ls print_locks.
Proof.
  intros H1 H2. unfold print_locks, noirq, rlock. apply block_under; [done|done|]. apply block_under; [|done|apply block_nil].
  apply not_elem_of_cons. done.
Qed.

Lemma wake_block c ts ls : RUN_QUEUE c ∉ ls -> (forall t, SCHED_TASK t ∉ ls) -> block irq true ls (wake_locks c ts).
Proof.
  intros Hc Ht. apply block_bind. intros t _. unfold schedule_locks, mutex, noirq. apply block_under; [apply Ht|done|].
  apply block_under; [|done|apply block_nil]. by apply not_elem_of_cons.
Qed.

Lemma notify_block c p ts ls : BUS p ∉ ls -> RUN_QUEUE c ∉ ls -> (forall t, SCHED_TASK t ∉ ls) -> block irq true ls (notify_locks c p ts).
Proof.
  intros Hb Hc Ht. apply block_under; [done|done|]. apply wake_block; [by apply not_elem_of_cons|]. intros t. by apply not_elem_of_cons.
Qed.

Lemma search_block th n ls : INNER th ∉ ls -> block irq true ls (search_locks th n).
Proof. intros Hi. apply block_bind. intros _ _. apply block_under; [done|done|apply block_nil]. Qed.

Lemma exit_block c p ts parent qs th : parent ≠ Some p -> block irq true [PROCESS p; FUTURE th] (exit_locks c p ts parent qs).
Proof.
  intros Hp. unfold exit_locks. repeat apply block_app.
  - apply notify_block; [notin|notin|]. intros t. notin.
  - destruct parent as [q|]; [|apply block_nil]. apply block_under; [notin|done|]. apply notify_block; [notin|notin|]. intros t. notin.
  - apply block_under; [notin|done|]. apply print_block; notin.
Qed.

Lemma deliver_block c th p x : delivery_wf p x -> block irq true [PROCESS p; FUTURE th] (deliver_locks c th p x).
Proof.
  intros Hx. unfold deliver_locks. apply block_app; [apply print_block; notin|]. destruct x as [ts parent qs| | |alt].
  - apply block_app; [apply print_block; notin|]. by apply exit_block.
  - apply block_nil.
  - apply print_block; notin.
  - apply block_app; [apply print_block; notin|]. destruct alt; crit.
Qed.

Lemma start_block c th p t ls : VM p ∉ ls -> INNER th ∉ ls -> ACTIVE_TASKS ∉ ls -> RUN_QUEUE c ∉ ls -> SCHED_TASK t ∉ ls ->
  block irq true ls (start_locks c th p t).
Proof.
  intros. unfold start_locks, spawn_locks, noirq, wlock, mutex.
  repeat first [apply block_nil | apply block_app | apply block_under; [try rewrite !not_elem_of_cons; done | reflexivity | cbn [masks]]].
Qed.

Lemma irq_block c dev ls : IRQ_MAP ∉ ls -> TIMER ∉ ls -> PL011 ∉ ls -> RUN_QUEUE c ∉ ls -> (forall t, SCHED_TASK t ∉ ls) ->
  block irq true ls (irq_locks c dev).
Proof.
  intros H1 H2 H3 H4 H5. destruct dev as [[ts|]|]; [| |apply block_nil]; apply block_under; try done.
  - apply block_under; [by apply not_elem_of_cons|done|]. apply wake_block; [|intros t]; rewrite !not_elem_of_cons; done.
  - apply block_under; [by apply not_elem_of_cons|done|apply block_nil].
Qed.

(** Every part of a thread's loop is made of critical sections. *)
Lemma step_block c th p s : step_wf p s -> block irq true [FUTURE th] (step_locks c th p s).
Proof.
  destruct s as [| |dev| |d tty|th' p' t'|th' t' cl|cs found|q found| |ts| |n|n|ts parent qs|xs n|]; intros Hs; cbn [step_locks step_wf] in *.
  - crit.
  - crit.
  - apply irq_block; try notin. intros t. notin.
  - crit.
  - unfold write_locks, noirq. apply block_under; [notin|done|]. destruct tty; crit.
  - unfold fork_locks. apply block_app; [crit|]. apply block_app; [crit|]. apply block_app; [apply start_block; notin|crit].
  - unfold clone_locks. do 7 (apply block_app; [crit|]). apply block_app; [destruct cl; crit|]. apply start_block; notin.
  - unfold wait_any_locks, noirq. apply block_under; [notin|done|]. apply block_app; [|destruct found; crit].
    apply block_bind. intros q Hq. apply block_under; [|done|apply block_nil].
    assert (q ≠ p) by congruence. notin.
  - unfold wait_pid_locks, noirq. apply block_under; [notin|done|]. destruct q, found; crit.
  - crit.
  - apply notify_block; try notin. intros t. notin.
  - crit.
  - unfold sleep_locks, has_signal_locks, noirq. apply block_app; [|crit]. apply block_under; [notin|done|]. apply search_block. notin.
  - unfold has_signal_locks, noirq. apply block_under; [notin|done|]. apply search_block. notin.
  - unfold noirq. apply block_under; [notin|done|]. by apply exit_block.
  - unfold signal_locks, noirq. apply block_under; [notin|done|]. apply block_app; [|apply search_block; notin].
    apply block_bind. intros x Hx. apply block_app; [apply search_block; notin|]. apply deliver_block. by apply Hs.
  - apply print_block; notin.
Qed.
End code.

(** A poll is a critical section of its own. *)
Lemma poll_block irq x d : poll_wf x -> block irq d [] (poll_locks 0 x).
Proof.
  destruct x as [| |th p steps]; intros Hx.
  - unfold print_locks, noirq, rlock. apply block_under; [apply not_elem_of_nil|done|]. apply block_under; [notin|done|apply block_nil].
  - apply block_under; [apply not_elem_of_nil|done|apply block_nil].
  - apply block_under; [apply not_elem_of_nil|done|]. apply block_bind. intros s Hs. apply step_block. by apply Hx.
Qed.

Lemma pop_block irq ps cur t d : 0%nat ∉ ps -> block irq d [] (pop_locks 0 ps cur t).
Proof.
  intros Hps. apply block_under; [apply not_elem_of_nil|done|]. apply block_app; [|destruct cur; crit].
  apply block_bind. intros q Hq. apply block_under; [|done|apply block_nil]. assert (q ≠ 0%nat) by congruence. notin.
Qed.

Lemma finish_block irq t y d : block irq d [] (finish_locks 0 t y).
Proof. apply block_under; [apply not_elem_of_nil|done|]. destruct y; crit. Qed.

(** What a task does after it ran is careful as long as no handler takes its
    own lock. *)
Lemma schedule_ok t rest : task_ok (irq_lock (Some t)) distinct rest = true ->
  task_ok (irq_lock (Some t)) distinct (schedule_locks 0 t ++ rest) = true.
Proof.
  intros Hr. eapply (block_ok _ false []); [|intros g Hg; by apply not_elem_of_nil in Hg|done|exact Hr].
  apply block_under; [apply not_elem_of_nil| |apply block_under; [notin|done|apply block_nil]].
  cbn. by rewrite bool_decide_eq_false_2 by congruence.
Qed.

Lemma drop_ok t rest : task_ok (irq_lock (Some t)) distinct rest = true ->
  task_ok (irq_lock (Some t)) distinct (drop_locks 0 t ++ rest) = true.
Proof.
  intros Hr. unfold task_ok, drop_locks. cbn [ok app irq_lock]. rewrite (bool_decide_eq_false_2 (Some t ≠ Some t)) by congruence.
  cbn [forallb negb orb andb h_lock irq_lock take_guard]. unfold distinct at 1. rewrite bool_decide_eq_true_2 by done. cbn [andb].
  rewrite decide_False, decide_True by done. cbn [mbind option_bind h_flags fst snd]. rewrite <- !(assoc_L (++)).
  set (gs := [mkHeld (RUN_QUEUE 0) Exclusive (Some false)]).
  assert (forall code, block (irq_lock (Some t)) true [RUN_QUEUE 0] code -> forall rest,
            ok (irq_lock (Some t)) distinct false true gs rest = true -> ok (irq_lock (Some t)) distinct false true gs (code ++ rest) = true) as Hb.
  { intros code Hc rest' Hr'. eapply block_ok; [exact Hc| |by intros ?|exact Hr']. intros g Hg. apply list_elem_of_singleton in Hg as ->. left. }
  apply Hb; [unfold min_locks; crit|]. apply Hb; [crit|]. cbn. exact Hr.
Qed.

(** A turn obeys the discipline. *)
Lemma turn_ok t x rest : turn_wf x -> task_ok (irq_lock (Some t)) distinct rest = true ->
  task_ok (irq_lock (Some t)) distinct (turn_locks 0 t x ++ rest) = true.
Proof.
  intros [Hps Hpo] Hr. unfold turn_locks. rewrite <- !(assoc_L (++)).
  assert (forall code, block (irq_lock (Some t)) false [] code -> forall rest,
            task_ok (irq_lock (Some t)) distinct rest = true -> task_ok (irq_lock (Some t)) distinct (code ++ rest) = true) as Hb.
  { intros code Hc rest' Hr'. eapply block_ok; [exact Hc|intros g Hg; by apply not_elem_of_nil in Hg|done|exact Hr']. }
  apply Hb; [by apply pop_block|]. apply Hb; [apply block_bind; intros y Hy; by apply poll_block, Hpo|].
  assert (task_ok (irq_lock (Some t)) distinct (finish_locks 0 t (match ending x with Yields => true | _ => false end) ++ [Await] ++ rest) = true) as Hf.
  { apply Hb; [apply finish_block|]. exact Hr. }
  destruct (ending x); [by apply schedule_ok|exact Hf|by apply drop_ok].
Qed.

Lemma handler_fine o h : kernel_handler o h -> handler_ok (irq_lock o) distinct h = true.
Proof.
  intros Hh. apply andb_true_iff. split.
  - assert (block (irq_lock o) true [] h) as Hb by (destruct Hh; apply irq_block; try apply not_elem_of_nil; intros; apply not_elem_of_nil).
    rewrite <- (app_nil_r h). eapply block_ok; [exact Hb|intros g Hg; by apply not_elem_of_nil in Hg|done|done].
  - destruct Hh as [| |ts Hts]; [done|done|]. apply under_marked; [done|]. apply under_marked; [done|]. clear -Hts.
    induction ts as [|t ts IH]; [done|]. unfold wake_locks. rewrite bind_cons, forallb_app, andb_true_iff. split.
    + apply under_marked; [apply bool_decide_eq_true_2, Hts; left|done].
    + apply IH. intros u Hu. apply Hts. by right.
Qed.


(** ** Where the discipline is broken *)

(** A thread that reads from the terminal, in the two turns around its wait. *)
Definition read_turn (t th p d : nat) : Code :=
  pop_locks 0 [] None t ++ Acq NoIrq Exclusive (FUTURE th) :: read_locks p d ++ Rel (FUTURE th) :: finish_locks 0 t false ++ [Await].
Definition read_resume_turn (t th p d : nat) : Code :=
  pop_locks 0 [] None t ++ Acq NoIrq Exclusive (FUTURE th) :: mutex TTY_BUF [] ++ mutex TTY_BUF [] ++ mutex TTY_BUF (mutex TTY_BUS [])
  ++ wlock (DESCRIPTION d) [] ++ Rel (PROCESS p) :: Rel (FUTURE th) :: finish_locks 0 t false ++ [Await].



(** A process that waits for itself hangs the kernel as well. *)
Lemma wait_for_self_hangs :
  exists σ : Machine Lock Z, rtc (lstep kernel_handler)
      (started 1 [(1%nat, turn_locks 0 1 (mkTurn [] None [User 11 21 [Context; Prologue; WaitPid (Some 21%nat) false]] Sleeps))]) σ
    /\ forall σ', ~ lstep kernel_handler σ σ'.
Proof.
  set (σ0 := started 1 _). exists (foldl command σ0 [Resume 0 0; Run 200 0]). split; [apply commands_steps|].
  intros σ'. apply hung_spec. vm_compute. reflexivity.
Qed.

(** On several processors the scheduler itself can hang: [Executor::run] takes
    the queue and then the task, a waker the task and then the queue. *)
Lemma lock_order_inversion :
  exists σ : Machine Lock Z, rtc (lstep kernel_handler) (started 2 [(1%nat, finish_locks 0 1 false); (2%nat, irq_locks 0 (Some (TimerIrq [1%nat])))]) σ
    /\ forall σ', ~ lstep kernel_handler σ σ'.
Proof.
  set (σ0 := started 2 _). exists (foldl command σ0 [Resume 0 0; Resume 0 1; Run 2 0; Run 6 1; Run 9 0; Run 9 1]).
  split; [apply commands_steps|]. intros σ'. apply hung_spec. vm_compute. reflexivity.
Qed.

