(* ===== verification/UserStack.v ===== *)
(** * The initial stack of a program ([process/abi.rs])

    [ProcInitInfo::push_at] writes the program's arguments, environment and
    auxiliary vector below the top of the stack, where the C library of the
    program reads them back.  The memory it writes to is a parameter; what is
    needed of it is that a store in the stack's range is what a load sees. *)

From S2P Require Import Prelude BTree.

(** [struct ProcInitInfo] *)
Record ProcInitInfo := mkInfo { args : list string; envs : list string; auxv : gmap Z Z }.

Definition AT_PHDR : Z := 3.
Definition AT_PHENT : Z := 4.
Definition AT_PHNUM : Z := 5.
Definition AT_PAGESZ : Z := 6.
Definition AT_BASE : Z := 7.
Definition AT_ENTRY : Z := 9.

Section writer.
Context `{BuildMode} {S : Type} (store : S -> Z -> list Z -> outcome S).
Implicit Types w : Z * S.

(** [StackWriter::push_slice] for elements of [size] bytes with alignment
    [align]; the writer is the stack pointer and the memory. *)
Definition push_slice {T} (size align : Z) (enc : T -> list Z) (vs : list T) w : outcome (Z * S) :=
  n ← umul (Z.of_nat (length vs)) size;
  sp ← usub w.1 n;
  sp ← usub sp (sp mod align);
  s ← store w.2 sp (concat (enc <$> vs));
  Ret (sp, s).

(** [u8] and [usize] (or a pointer) *)
Definition push_bytes : list Z -> Z * S -> outcome (Z * S) := push_slice 1 1 (fun b => [b]).
Definition push_words : list Z -> Z * S -> outcome (Z * S) := push_slice 8 8 (to_le 8).

(** [StackWriter::push_str] *)
Definition push_str (s : string) w : outcome (Z * S) :=
  w ← push_bytes [0] w; push_bytes (bytes_of s) w.

(** The closures that push every string and keep its address. *)
Fixpoint push_strs (l : list string) w : outcome (list Z * (Z * S)) :=
  match l with
  | [] => Ret ([], w)
  | s :: l => w ← push_str s w; r ← push_strs l w; Ret (w.1 :: r.1, r.2)
  end.

(** [ProcInitInfo::push_at] *)
Definition push_at (i : ProcInitInfo) (stack_top : Z) (s : S) : outcome (Z * S) :=
  arg0 ← expect "index out of bounds" (args i !! O);
  w ← push_str arg0 (stack_top, s);
  x ← push_strs (envs i) w;
  let '(envp, w) := x in
  x ← push_strs (args i) w;
  let '(argv, w) := x in
  w ← push_words [0; 0] w;
  w ← foldM (fun w kv => push_words [kv.1; kv.2] w) w (btree_iter (auxv i));
  w ← push_words [0] w;
  w ← push_words envp w;
  w ← push_words [0] w;
  w ← push_words argv w;
  push_words [Z.of_nat (length argv)] w.
End writer.

(** ** What a program finds *)

(** The bytes at an address. *)
Definition at_bytes (load : Z -> option Z) (a : Z) (bs : list Z) : Prop :=
  forall i b, bs !! i = Some b -> load (a + Z.of_nat i) = Some b.
Definition at_words (load : Z -> option Z) (a : Z) (ws : list Z) : Prop := at_bytes load a (concat (to_le 8 <$> ws)).
Definition at_str (load : Z -> option Z) (a : Z) (s : string) : Prop := at_bytes load a (bytes_of s ++ [0]).

(** The auxiliary vector in memory: the highest type comes first. *)
Definition aux_words (m : gmap Z Z) : list Z := concat ((fun kv => [kv.1; kv.2]) <$> reverse (btree_iter m)).

(** The layout of the System V ABI at the stack pointer: [argc], the pointers
    to the arguments and to the environment, each list ended by a null
    pointer, and the auxiliary vector ended by [AT_NULL]. *)
Definition startup (load : Z -> option Z) (sp : Z) (i : ProcInitInfo) : Prop :=
  sp mod 8 = 0
  /\ exists argv envp,
       at_words load sp (Z.of_nat (length argv) :: argv ++ [0] ++ envp ++ [0] ++ aux_words (auxv i) ++ [0; 0])
       /\ Forall2 (at_str load) argv (args i) /\ Forall2 (at_str load) envp (envs i).

(** The bytes needed: the strings with their terminators, the padding, and
    the words. *)
Definition str_room (l : list string) : Z := foldr (fun s n => Z.of_nat (String.length s) + 1 + n) 0 l.
Definition word_count (i : ProcInitInfo) : Z :=
  5 + Z.of_nat (length (args i)) + Z.of_nat (length (envs i)) + 2 * Z.of_nat (size (auxv i)).
Definition room (i : ProcInitInfo) : Z :=
  str_room (take 1 (args i)) + str_room (envs i) + str_room (args i) + 7 + 8 * word_count i.

Lemma str_room_pos l : 0 <= str_room l.
Proof. unfold str_room. induction l as [|y l IH]; cbn; lia. Qed.

Lemma at_bytes_app load a b1 b2 :
  at_bytes load a b1 -> at_bytes load (a + Z.of_nat (length b1)) b2 -> at_bytes load a (b1 ++ b2).
Proof.
  intros H1 H2 i b Hi. apply lookup_app_Some in Hi as [Hi|[Hl Hi]]; [by apply H1|].
  specialize (H2 _ _ Hi). rewrite <- H2. f_equal. lia.
Qed.

Lemma concat_le_length ws : length (concat (to_le 8 <$> ws)) = (8 * length ws)%nat.
Proof. induction ws as [|v ws IH]; [done|]. rewrite fmap_cons. cbn [concat length]. rewrite length_app, IH, to_le_length. lia. Qed.

Lemma at_words_app load a ws1 ws2 :
  at_words load a ws1 -> at_words load (a + 8 * Z.of_nat (length ws1)) ws2 -> at_words load a (ws1 ++ ws2).
Proof.
  intros H1 H2. unfold at_words. rewrite fmap_app, concat_app. apply at_bytes_app; [done|].
  rewrite concat_le_length. replace (a + Z.of_nat (8 * length ws1)) with (a + 8 * Z.of_nat (length ws1)) by lia. done.
Qed.

Section writer_laws.
Context `{BuildMode} {S : Type} (store : S -> Z -> list Z -> outcome S).
Context (load : S -> Z -> option Z) (ok : S -> Prop) (lo hi : Z).

(** Memory that can be written in [lo, hi). *)
Definition stores_in : Prop := forall s a bs, ok s -> lo <= a -> a + Z.of_nat (length bs) <= hi ->
  exists s', store s a bs = Ret s' /\ ok s'
    /\ forall x, load s' x = if (a <=? x) && (x <? a + Z.of_nat (length bs)) then bs !! Z.to_nat (x - a) else load s x.

Context (Hstore : stores_in) (Hlo : 0 <= lo) (Hhi : hi < 2 ^ 64).
Implicit Types (s : S) (sp : Z).

(** What is above [b] stays. *)
Definition kept (b : Z) s s' : Prop := forall x, b <= x -> load s' x = load s x.

Lemma kept_at b s s' a bs : kept b s s' -> b <= a -> at_bytes (load s) a bs -> at_bytes (load s') a bs.
Proof. intros Hk Hb Ha i v Hi. rewrite Hk by lia. by apply Ha. Qed.

Lemma kept_strs b s s' ptrs l :
  kept b s s' -> Forall (fun p => b <= p) ptrs -> Forall2 (at_str (load s)) ptrs l -> Forall2 (at_str (load s')) ptrs l.
Proof.
  intros Hk Hb. induction 1 as [|p x ptrs l Hx _ IH]; [done|]. apply Forall_cons in Hb as [? ?].
  constructor; [by eapply kept_at|by apply IH].
Qed.

Lemma kept_trans b1 b2 s1 s2 s3 : b2 <= b1 -> kept b1 s1 s2 -> kept b2 s2 s3 -> kept b1 s1 s3.
Proof. intros Hb H1 H2 x Hx. rewrite H2, H1 by lia. done. Qed.

(** A push of [n] bytes from an address that is then aligned. *)
Lemma push_slice_spec {T} size align (enc : T -> list Z) vs sp s :
  0 < align -> 0 <= size -> (forall v, length (enc v) = Z.to_nat size) -> ok s ->
  (sp - Z.of_nat (length vs) * size) mod align <= sp - Z.of_nat (length vs) * size - lo -> sp <= hi ->
  let sp' := sp - Z.of_nat (length vs) * size - (sp - Z.of_nat (length vs) * size) mod align in
  exists s', push_slice store size align enc vs (sp, s) = Ret (sp', s') /\ ok s'
    /\ at_bytes (load s') sp' (concat (enc <$> vs)) /\ kept sp s s'.
Proof.
  intros Ha Hs Henc Hok Hroom Hsp. set (n := Z.of_nat (length vs) * size) in *. intros sp'.
  assert (Hlen : Z.of_nat (length (concat (enc <$> vs))) = n).
  { subst n. clear -Henc Hs. induction vs as [|v vs IH]; [done|]. rewrite fmap_cons. cbn [concat length]. rewrite length_app, Henc. lia. }
  pose proof (Z.mod_pos_bound (sp - n) align Ha). assert (0 <= n) by lia.
  unfold push_slice. cbn [fst snd]. fold n. rewrite umul_ok by (fold n; lia). fold n. sret.
  rewrite usub_ok by lia. sret. rewrite usub_ok by lia. sret. fold sp'.
  destruct (Hstore s sp' (concat (enc <$> vs))) as (s' & -> & Hok' & Hl); [done|subst sp'; lia|subst sp'; lia|].
  exists s'. split_and!; [done..| |].
  - intros i b Hi. pose proof (lookup_lt_Some _ _ _ Hi). rewrite Hl, (proj2 (Z.leb_le _ _)), (proj2 (Z.ltb_lt _ _)) by lia.
    cbn. by replace (Z.to_nat (sp' + Z.of_nat i - sp')) with i by lia.
  - intros x Hx. rewrite Hl. rewrite (proj2 (Z.ltb_ge _ _)) by (subst sp'; lia). by rewrite andb_false_r.
Qed.

Lemma push_str_spec x sp s :
  ok s -> lo <= sp - (Z.of_nat (String.length x) + 1) -> sp <= hi ->
  let sp' := sp - (Z.of_nat (String.length x) + 1) in
  exists s', push_str store x (sp, s) = Ret (sp', s') /\ ok s' /\ at_str (load s') sp' x /\ kept sp s s'.
Proof.
  intros Hok Hroom Hsp sp'. unfold push_str, push_bytes. pose proof (bytes_length x) as Hx.
  assert (Hc : forall l : list Z, concat ((fun b => [b]) <$> l) = l) by (induction l as [|b l IH]; cbn; by rewrite ?IH).
  destruct (push_slice_spec 1 1 (fun b : Z => [b]) [0] sp s) as (s1 & -> & Hok1 & Hb1 & Hk1);
    [done..|rewrite Z.mod_1_r; cbn; lia|done|].
  rewrite Z.mod_1_r in *. cbn [mbind outcome_bind]. cbn [length] in *.
  destruct (push_slice_spec 1 1 (fun b : Z => [b]) (bytes_of x) (sp - Z.of_nat 1 * 1 - 0) s1) as (s2 & Hp & Hok2 & Hb2 & Hk2);
    [done..|rewrite Z.mod_1_r, Hx; lia|lia|].
  rewrite Z.mod_1_r, Hx, Hc in *. subst sp'. rewrite Hp. exists s2. split_and!; [f_equal; f_equal; lia|done| |].
  - replace (sp - (Z.of_nat (String.length x) + 1)) with (sp - Z.of_nat 1 * 1 - 0 - Z.of_nat (String.length x) * 1 - 0) by lia.
    apply at_bytes_app; [done|]. rewrite Hx. eapply kept_at; [exact Hk2|lia|].
    eapply (eq_rect _ (fun a => at_bytes _ a _)); [exact Hb1|lia].
  - eapply kept_trans; [|exact Hk1|exact Hk2]. lia.
Qed.

Lemma push_strs_spec l : forall sp s,
  ok s -> lo <= sp - str_room l -> sp <= hi ->
  exists ptrs s', push_strs store l (sp, s) = Ret (ptrs, (sp - str_room l, s')) /\ ok s'
    /\ Forall2 (at_str (load s')) ptrs l /\ Forall (fun p => sp - str_room l <= p) ptrs /\ kept sp s s'.
Proof.
  induction l as [|x l IH]; intros sp s Hok Hroom Hsp; cbn [str_room foldr push_strs] in *.
  { exists [], s. rewrite Z.sub_0_r. split_and!; try done. }
  fold (str_room l) in *.
  pose proof (str_room_pos l).
  destruct (push_str_spec x sp s) as (s1 & -> & Hok1 & Hx & Hk1); [done|lia|lia|]. cbn [mbind outcome_bind fst snd].
  destruct (IH (sp - (Z.of_nat (String.length x) + 1)) s1) as (ptrs & s2 & -> & Hok2 & Hl & Hp & Hk2); [done|lia|lia|].
  cbn [mbind outcome_bind fst snd]. do 2 eexists. split; [do 3 f_equal; lia|]. split_and!; [done| | |].
  - constructor; [|done]. by eapply kept_at.
  - constructor; [lia|]. eapply Forall_impl; [exact Hp|]. cbn. intros. lia.
  - eapply kept_trans; [|done..]. lia.
Qed.

(** Words on top of words. *)
Lemma push_words_spec vs ws sp s :
  ok s -> sp mod 8 = 0 -> lo + 8 * Z.of_nat (length vs) <= sp -> sp <= hi -> at_words (load s) sp ws ->
  exists s', push_words store vs (sp, s) = Ret (sp - 8 * Z.of_nat (length vs), s') /\ ok s'
    /\ at_words (load s') (sp - 8 * Z.of_nat (length vs)) (vs ++ ws) /\ kept sp s s'.
Proof.
  intros Hok Hal Hroom Hsp Hws. set (n := 8 * Z.of_nat (length vs)) in *.
  assert (Hm : (sp - Z.of_nat (length vs) * 8) mod 8 = 0) by (by rewrite Zminus_mod, Hal, Z.mod_mul).
  destruct (push_slice_spec 8 8 (to_le 8) vs sp s) as (s' & Hp & Hok' & Hb & Hk);
    [done..|intros; apply to_le_length|done|lia|done|].
  rewrite Hm in *. replace (sp - Z.of_nat (length vs) * 8 - 0) with (sp - n) in * by lia.
  exists s'. split_and!; [done..| |done]. apply at_words_app; [done|]. fold n. replace (sp - n + n) with sp by lia.
  by eapply kept_at.
Qed.

(** The first push aligns the pointer. *)
Lemma push_words_align vs sp s :
  0 <= sp -> 8 * Z.of_nat (length vs) <= sp - sp mod 8 -> sp < 2 ^ 64 ->
  push_words store vs (sp, s) = push_words store vs (sp - sp mod 8, s).
Proof.
  intros Hsp Hr Hh. set (n := 8 * Z.of_nat (length vs)) in *. pose proof (Z.mod_pos_bound sp 8). unfold push_words, push_slice. cbn [fst snd].
  rewrite umul_ok by lia. sret. replace (Z.of_nat (length vs) * 8) with n by lia.
  assert (Hm : (sp - n) mod 8 = sp mod 8).
  { replace (sp - n) with (sp + - Z.of_nat (length vs) * 8) by lia. by rewrite Z.mod_add. }
  assert (Hm' : (sp - sp mod 8 - n) mod 8 = 0).
  { replace (sp - sp mod 8 - n) with (sp / 8 * 8 + - Z.of_nat (length vs) * 8) by (pose proof (Z.div_mod sp 8); lia).
    by rewrite Z.mod_add, Z.mod_mul. }
  rewrite !usub_ok by lia. sret. rewrite Hm, Hm'. rewrite !usub_ok by lia. sret.
  by replace (sp - n - sp mod 8) with (sp - sp mod 8 - n - 0) by lia.
Qed.

Lemma push_aux_spec l : forall ws sp s,
  ok s -> sp mod 8 = 0 -> lo + 16 * Z.of_nat (length l) <= sp -> sp <= hi -> at_words (load s) sp ws ->
  let sp' := sp - 16 * Z.of_nat (length l) in
  exists s', foldM (fun w kv => push_words store [kv.1; kv.2] w) (sp, s) l = Ret (sp', s') /\ ok s'
    /\ at_words (load s') sp' (concat ((fun kv => [kv.1; kv.2]) <$> reverse l) ++ ws) /\ kept sp s s' /\ sp' mod 8 = 0.
Proof.
  induction l as [|[k v] l IH]; intros ws sp s Hok Hal Hroom Hsp Hws sp'; cbn [foldM length] in *.
  { exists s. subst sp'. rewrite Z.sub_0_r. split_and!; try done. }
  cbn [fst snd]. destruct (push_words_spec [k; v] ws sp s) as (s1 & -> & Hok1 & Hw1 & Hk1); [done..|cbn [length]; lia|done|done|].
  cbn [mbind outcome_bind length] in *. change (8 * Z.of_nat 2) with 16 in *.
  assert (Hal' : (sp - 16) mod 8 = 0) by (by rewrite Zminus_mod, Hal).
  destruct (IH ([k; v] ++ ws) (sp - 16) s1) as (s2 & Hf & Hok2 & Hw2 & Hk2 & Hm2); [done..|lia|lia|done|].
  replace (sp - 16 - 16 * Z.of_nat (length l)) with sp' in * by (subst sp'; lia).
  exists s2. split_and!; [done..| | |done].
  - rewrite reverse_cons, fmap_app, concat_app, <- app_assoc. done.
  - eapply kept_trans; [|done..]. lia.
Qed.

(** One more push of words. *)
Ltac words s1 Hok1 Hw1 Hk1 Hm1 := match goal with
  | Hw : at_words (load ?s) ?sp ?ws, Hm : ?sp mod 8 = 0, Hok : ok ?s |- context [push_words store ?vs (?sp, ?s)] =>
      destruct (push_words_spec vs ws sp s Hok Hm) as (s1 & -> & Hok1 & Hw1 & Hk1); [cbn [length]; lia|lia|done|];
      assert (Hm1 : (sp - 8 * Z.of_nat (length vs)) mod 8 = 0)
        by (rewrite Zminus_mod, Hm, Z.mul_comm, Z.mod_mul by lia; done);
      clear Hm; cbn [mbind outcome_bind length fst snd] in Hm1, Hw1 |- *
  end.

(** The pointers and the auxiliary vector below the strings. *)
Lemma push_tables_spec envp argv aux base s :
  ok s -> base <= hi ->
  lo + 7 + 8 * (5 + Z.of_nat (length argv) + Z.of_nat (length envp) + 2 * Z.of_nat (length aux)) <= base ->
  exists sp s',
    (w ← push_words store [0; 0] (base, s);
     w ← foldM (fun w kv => push_words store [kv.1; kv.2] w) w aux;
     w ← push_words store [0] w;
     w ← push_words store envp w;
     w ← push_words store [0] w;
     w ← push_words store argv w;
     push_words store [Z.of_nat (length argv)] w) = Ret (sp, s')
    /\ ok s' /\ kept base s s' /\ sp mod 8 = 0
    /\ at_words (load s') sp (Z.of_nat (length argv) :: argv ++ [0] ++ envp ++ [0]
                               ++ concat ((fun kv => [kv.1; kv.2]) <$> reverse aux) ++ [0; 0]).
Proof.
  intros Hok Hb Hroom. pose proof (Z.mod_pos_bound base 8). rewrite push_words_align by (cbn [length]; lia).
  set (b := base - base mod 8). assert (Hm : b mod 8 = 0).
  { subst b. pose proof (Z.div_mod base 8). replace (base - base mod 8) with (base / 8 * 8) by lia. by apply Z.mod_mul. }
  assert (Hw : at_words (load s) b []) by (by intros [] ?).
  words s1 Hok1 Hw1 Hk1 Hm1. change (8 * Z.of_nat 2) with 16 in *.
  destruct (push_aux_spec aux ([0; 0] ++ []) _ _ Hok1 Hm1) as (s2 & -> & Hok2 & Hw2 & Hk2 & Hm2); [lia|lia|done|].
  cbn [mbind outcome_bind].
  words s3 Hok3 Hw3 Hk3 Hm3. words s4 Hok4 Hw4 Hk4 Hm4. words s5 Hok5 Hw5 Hk5 Hm5. words s6 Hok6 Hw6 Hk6 Hm6. words s7 Hok7 Hw7 Hk7 Hm7.
  do 2 eexists. split_and!; [done|done| |done|].
  - assert (kept b s s7) as Hk; [|intros x Hx; apply Hk; lia].
    refine (kept_trans _ _ _ _ _ _ Hk1 (kept_trans _ _ _ _ _ _ Hk2 (kept_trans _ _ _ _ _ _ Hk3 (kept_trans _ _ _ _ _ _ Hk4 (kept_trans _ _ _ _ _ _ Hk5 (kept_trans _ _ _ _ _ _ Hk6 Hk7)))))); lia.
  - done.
Qed.

Lemma push_at_spec i top s :
  args i ≠ [] -> ok s -> lo + room i <= top -> top <= hi ->
  exists sp s', push_at store i top s = Ret (sp, s') /\ ok s' /\ startup (load s') sp i /\ kept top s s'.
Proof.
  intros Hne Hok Hroom Htop. unfold room, word_count in Hroom. unfold push_at.
  pose proof (str_room_pos (envs i)). pose proof (str_room_pos (args i)).
  assert (exists a0, args i !! 0%nat = Some a0 /\ str_room (take 1 (args i)) = Z.of_nat (String.length a0) + 1)
    as (a0 & -> & Ht1) by (destruct (args i) as [|a0 rest]; [done|]; exists a0; split; [done|]; unfold str_room; change (take 1 (a0 :: rest)) with [a0]; cbn; lia).
  rewrite Ht1 in Hroom. sret.
  destruct (push_str_spec a0 top s) as (s1 & -> & Hok1 & _ & Hk1); [done|lia|lia|]. cbn [mbind outcome_bind].
  destruct (push_strs_spec (envs i) (top - (Z.of_nat (String.length a0) + 1)) s1) as (envp & s2 & -> & Hok2 & Henv & Hpe & Hk2);
    [done|lia|lia|]. cbn [mbind outcome_bind fst snd].
  destruct (push_strs_spec (args i) (top - (Z.of_nat (String.length a0) + 1) - str_room (envs i)) s2)
    as (argv & s3 & -> & Hok3 & Harg & Hpa & Hk3); [done|lia|lia|]. cbn [mbind outcome_bind fst snd].
  pose proof (Forall2_length _ _ _ Henv). pose proof (Forall2_length _ _ _ Harg).
  assert (length (btree_iter (auxv i)) = size (auxv i)) by (by rewrite btree_perm, length_map_to_list).
  destruct (push_tables_spec envp argv (btree_iter (auxv i)) (top - (Z.of_nat (String.length a0) + 1) - str_room (envs i) - str_room (args i)) s3)
    as (sp & s4 & -> & Hok4 & Hk4 & Hm & Hw); [done|lia|lia|].
  exists sp, s4. split_and!; [done..| |].
  - split; [done|]. exists argv, envp. split; [exact Hw|]. split.
    + by eapply kept_strs.
    + eapply (kept_strs _ s3); [exact Hk4| |by eapply kept_strs]. eapply Forall_impl; [exact Hpe|]. cbn. intros. lia.
  - eapply kept_trans; [|exact Hk1|eapply kept_trans; [|exact Hk2|eapply kept_trans; [|exact Hk3|exact Hk4]]]; lia.
Qed.
End writer_laws.
