(* ===== verification/Mmio.v ===== *)
(** * Device registers ([drivers/common.rs], the crate [tock_registers])

    A device is a state with reads and writes of named registers; a read may
    change the device too.  The bit fields of [register_bitfields!] come from
    the crate and are used through the interface [Tock].  The offsets given to
    [register_structs!] are data of the source and are checked here. *)

From S2P Require Import Prelude.

(** ** Registers *)

(** What [Deref] of an [MMIODerefWrapper] gives access to: [get] and [set] of
    the registers of a device. *)
Class Registers (R D : Type) := {
  reg_get : R -> D -> Z * D;
  reg_set : R -> Z -> D -> D;
}.

(** ** Bit fields *)

(** [Field::val], [FieldValue + FieldValue], the value [write] stores,
    [matches_all], [matches_any] and [read] of a field.  A field is given by
    its [OFFSET] and [NUMBITS]. *)
Class Tock := {
  FieldValue : Type;
  field_val : Z -> Z -> Z -> FieldValue;
  fv_plus : FieldValue -> FieldValue -> FieldValue;
  fv_value : FieldValue -> Z;
  matches_all : Z -> FieldValue -> bool;
  matches_any : Z -> FieldValue -> bool;
  field_read : Z -> Z -> Z -> Z;
}.

(** Their documented meaning. *)
Class TockSpec `{Tock} := {
  fv_value_val o n v : 0 <= o -> 0 < n -> fv_value (field_val o n v) = Z.shiftl (v mod 2 ^ n) o;
  fv_value_plus a b : fv_value (fv_plus a b) = Z.lor (fv_value a) (fv_value b);
  matches_all_bit r o : 0 <= o -> matches_all r (field_val o 1 1) = Z.testbit r o;
  matches_any_bits r o o' : 0 <= o -> 0 <= o' -> o ≠ o' ->
    matches_any r (fv_plus (field_val o 1 1) (field_val o' 1 1)) = Z.testbit r o || Z.testbit r o';
  field_read_spec o n r : 0 <= o -> 0 < n -> field_read o n r = (Z.shiftr r o) mod 2 ^ n;
}.

Section fields.
Context `{Tock}.

(** [FIELD::SET] and [FIELD::CLEAR] of a one-bit field. *)
Definition SET (o : Z) : FieldValue := field_val o 1 1.
Definition CLEAR (o n : Z) : FieldValue := field_val o n 0.

(** [register.write(value)] and [register.read(field)]. *)
Definition reg_write {R D} `{Registers R D} (r : R) (v : FieldValue) (d : D) : D := reg_set r (fv_value v) d.
Definition reg_read {R D} `{Registers R D} (r : R) (o n : Z) (d : D) : Z * D :=
  let '(v, d) := reg_get r d in (field_read o n v, d).
End fields.

(** ** Register maps *)

(** An entry of [register_structs!]: its offset, and the bytes of the register
    or of the array of registers; padding has none of its own. *)
Inductive Entry := Reg (offset bytes : Z) | Reserved (offset : Z).
Definition entry_offset (e : Entry) : Z := match e with Reg o _ | Reserved o => o end.

(** Does every entry start where the one before it ends?  Padding ends at the
    next entry, so it only has to lie in front of it. *)
Fixpoint contiguous (l : list Entry) (end_ : Z) : bool :=
  match l with
  | [] => true
  | e :: l =>
      let next := match l with e' :: _ => entry_offset e' | [] => end_ end in
      (match e with Reg o n => o + n =? next | Reserved o => o <? next end) && contiguous l end_
  end.

(** In such a map no two registers share a byte. *)
Definition entry_end (e : Entry) : Z := match e with Reg o n => o + n | Reserved o => o end.
Definition sized (e : Entry) : Prop := match e with Reg _ n => 0 < n | Reserved _ => True end.

Lemma contiguous_apart l end_ : forall e,
  contiguous (e :: l) end_ = true -> Forall sized l -> Forall (fun e' => entry_end e <= entry_offset e') l.
Proof.
  induction l as [|e' l IH]; intros e Hc Hs; [done|]. apply Forall_cons in Hs as [He' Hs].
  cbn [contiguous] in Hc. apply andb_true_iff in Hc as [He Hc].
  assert (entry_end e <= entry_offset e') by (destruct e; cbn [entry_end]; bool_to_prop; lia).
  constructor; [done|]. eapply Forall_impl; [exact (IH e' Hc Hs)|]. cbn. intros e''.
  destruct e'; cbn [entry_end entry_offset sized] in *; lia.
Qed.

(** ** Field declarations *)

(** A register of [register_bitfields!] with its fields: name, offset and
    number of bits. *)
Definition Fields (R : Type) : Type := list (R * list (string * (Z * Z))).

(** The fields lie inside the [w] bits of the register and share no bit. *)
Definition field_in (w : Z) (f : string * (Z * Z)) : bool := (0 <=? f.2.1) && (0 <? f.2.2) && (f.2.1 + f.2.2 <=? w).
Definition fields_apart (f g : string * (Z * Z)) : bool := (f.2.1 + f.2.2 <=? g.2.1) || (g.2.1 + g.2.2 <=? f.2.1).
Fixpoint all_apart (l : list (string * (Z * Z))) : bool :=
  match l with [] => true | f :: l => forallb (fields_apart f) l && all_apart l end.
Definition fields_ok {R} (w : Z) (fs : Fields R) : bool := forallb (fun r => forallb (field_in w) r.2 && all_apart r.2) fs.

(** The offset and the width of a field. *)
Fixpoint field_of (name : string) (l : list (string * (Z * Z))) : option (Z * Z) :=
  match l with [] => None | (n, f) :: l => if String.eqb n name then Some f else field_of name l end.
Fixpoint lookup_field {R} `{EqDecision R} (fs : Fields R) (r : R) (name : string) : option (Z * Z) :=
  match fs with [] => None | (r', l) :: fs => if decide (r = r') then field_of name l else lookup_field fs r name end.

Lemma all_apart_lookup l : forall i j f g, all_apart l = true -> (i < j)%nat -> l !! i = Some f -> l !! j = Some g -> fields_apart f g = true.
Proof.
  induction l as [|h l IH]; intros [|i] [|j] f g Ha Hij Hi Hj; try done; try lia; cbn [all_apart lookup list_lookup] in *;
    apply andb_true_iff in Ha as [Hh Ha].
  - injection Hi as <-. rewrite forallb_forall in Hh. apply Hh. apply list_elem_of_In. by eapply list_elem_of_lookup_2.
  - apply (IH i j); try done. lia.
Qed.

(** A value written to one field of a register leaves every other declared
    field zero: [write] of a field value sets no bit outside of its field. *)
Lemma field_write_apart `{TockSpec} l i j f g v :
  forallb (field_in 32) l = true -> all_apart l = true -> i <> j -> l !! i = Some f -> l !! j = Some g ->
  field_read g.2.1 g.2.2 (fv_value (field_val f.2.1 f.2.2 v)) = 0.
Proof.
  intros Hin Ha Hij Hi Hj.
  assert (Hap : fields_apart f g = true).
  { destruct (Nat.lt_trichotomy i j) as [Hlt|[?|Hlt]]; [by apply (all_apart_lookup l i j)|done|].
    unfold fields_apart. rewrite orb_comm. exact (all_apart_lookup l j i g f Ha Hlt Hj Hi). }
  assert (field_in 32 f = true /\ field_in 32 g = true) as [Hf Hg].
  { rewrite forallb_forall in Hin. split; apply Hin, list_elem_of_In; by eapply list_elem_of_lookup_2. }
  unfold field_in, fields_apart in *. bool_to_prop. rewrite fv_value_val, field_read_spec by lia.
  apply Z.bits_inj'. intros n Hn. rewrite Z.bits_0. destruct (Z.lt_ge_cases n g.2.2).
  - rewrite Z.mod_pow2_bits_low, Z.shiftr_spec, Z.shiftl_spec by lia.
    destruct (Z.lt_ge_cases (n + g.2.1) f.2.1); [apply Z.testbit_neg_r; lia|]. apply Z.mod_pow2_bits_high. lia.
  - apply Z.mod_pow2_bits_high. lia.
Qed.

(** ** The fields of the crate as masks *)
#[export] Instance MaskTock : Tock := {|
  FieldValue := Z * Z;
  field_val o n v := (Z.shiftl (Z.ones n) o, Z.shiftl (v mod 2 ^ n) o);
  fv_plus a b := (Z.lor a.1 b.1, Z.lor a.2 b.2);
  fv_value := snd;
  matches_all r v := Z.land r v.1 =? v.2;
  matches_any r v := negb (Z.land r v.1 =? 0);
  field_read o n r := (Z.shiftr r o) mod 2 ^ n;
|}.

Lemma land_bit r o : 0 <= o -> Z.land r (Z.shiftl 1 o) = if Z.testbit r o then Z.shiftl 1 o else 0.
Proof.
  intros Ho. apply Z.bits_inj'. intros n Hn. rewrite Z.land_spec, Z.shiftl_1_l, Z.pow2_bits_eqb by lia.
  destruct (Z.eqb_spec o n) as [<-|Hne].
  - destruct (Z.testbit r o); [by rewrite Z.pow2_bits_true|by rewrite Z.bits_0].
  - rewrite andb_false_r. destruct (Z.testbit r o); [by rewrite Z.pow2_bits_false|by rewrite Z.bits_0].
Qed.

#[export] Instance MaskTockSpec : TockSpec.
Proof.
  split.
  - done.
  - done.
  - intros r o Ho. change ((Z.land r (Z.shiftl 1 o) =? Z.shiftl 1 o) = Z.testbit r o). rewrite land_bit by done.
    assert (0 < Z.shiftl 1 o) by (rewrite Z.shiftl_1_l; lia).
    destruct (Z.testbit r o); [apply Z.eqb_refl|apply Z.eqb_neq; lia].
  - intros r o o' Ho Ho' Hne. change (negb (Z.land r (Z.lor (Z.shiftl 1 o) (Z.shiftl 1 o')) =? 0) = (Z.testbit r o || Z.testbit r o')).
    rewrite Z.land_lor_distr_r, !land_bit by done.
    assert (0 < Z.shiftl 1 o) by (rewrite Z.shiftl_1_l; lia). assert (0 < Z.shiftl 1 o') by (rewrite Z.shiftl_1_l; lia).
    destruct (Z.testbit r o), (Z.testbit r o'); cbn [orb]; rewrite ?Z.lor_0_r, ?Z.lor_0_l; try done;
      rewrite (proj2 (Z.eqb_neq _ _)); try done; [intros [? ?]%Z.lor_eq_0_iff| |]; lia.
  - done.
Qed.
