(* ===== verification/Uart.v ===== *)
(** * The serial port ([drivers/serial/pl011_uart.rs], [bsp/virt/uart.rs])

    The driver of the PL011.  The device itself is the interface [Registers]
    with the behaviour its reference manual documents ([Pl011Spec]): a
    transmitter that accepts a character when it is not full, a receiver with
    a queue, and control registers.  The loops that wait for the device are
    given a number of turns; a loop that uses them up is reported as a panic. *)

From S2P Require Import Prelude Mmio.

(** [RegisterBlock] *)
Inductive UartReg := DR | FR | IBRD | FBRD | LCR_H | CR | IFLS | IMSC | RIS | MIS | ICR.
#[export] Instance UartReg_dec : EqDecision UartReg.
Proof. solve_decision. Defined.

Definition uart_map : list Entry :=
  [Reg 0x00 4; Reserved 0x04; Reg 0x18 4; Reserved 0x1c; Reg 0x24 4; Reg 0x28 4; Reg 0x2c 4; Reg 0x30 4; Reg 0x34 4;
   Reg 0x38 4; Reg 0x3c 4; Reg 0x40 4; Reg 0x44 4].

(** The bits of [FR], [IMSC], [MIS] and [CR] the driver uses. *)
Definition BUSY : Z := 3.
Definition RXFE : Z := 4.
Definition TXFF : Z := 5.
Definition RXIM : Z := 4.
Definition RTIM : Z := 6.
Definition UARTEN : Z := 0.
Definition TXE : Z := 8.
Definition RXE : Z := 9.

(** The fields of [register_bitfields!], and the named values the driver writes. *)
Definition uart_fields : Fields UartReg :=
  [(FR, [("TXFE", (7, 1)); ("TXFF", (5, 1)); ("RXFE", (4, 1)); ("BUSY", (3, 1))]);
   (IBRD, [("BAUD_DIVINT", (0, 16))]); (FBRD, [("BAUD_DIVFRAC", (0, 6))]);
   (LCR_H, [("WLEN", (5, 2)); ("FEN", (4, 1))]);
   (CR, [("RXE", (9, 1)); ("TXE", (8, 1)); ("UARTEN", (0, 1))]);
   (IFLS, [("RXIFLSEL", (3, 5))]);
   (IMSC, [("RTIM", (6, 1)); ("RXIM", (4, 1))]); (MIS, [("RTMIS", (6, 1)); ("RXMIS", (4, 1))]);
   (ICR, [("ALL", (0, 11))])]%string.
Definition EightBit : Z := 3.
Definition FifosEnabled : Z := 1.
Definition OneEigth : Z := 0.

Inductive BlockingMode := Blocking | NonBlocking.

(** [struct Pl011UartInner] *)
Record Pl011UartInner (D : Type) := mkUart { registers : D; chars_written : Z; chars_read : Z }.
Arguments mkUart {D}.
Arguments registers {D}.
Arguments chars_written {D}.
Arguments chars_read {D}.

Section uart.
Context `{BuildMode, Tock} {D : Type} `{Registers UartReg D}.
Abbreviation uart := (Pl011UartInner D).
Implicit Types (self : uart) (d : D) (fuel : nat).

(** [Pl011UartInner::new] *)
Definition uart_new d : uart := mkUart d 0 0.
Definition with_regs self d : uart := mkUart d (chars_written self) (chars_read self).

(** [while self.registers.FR.matches_all(FR::...::SET) { cpu::nop(); }] *)
Fixpoint spin fuel (bit : Z) d : outcome D :=
  match fuel with
  | O => Panic "the device does not answer"
  | S fuel => let '(v, d) := reg_get FR d in if matches_all v (SET bit) then spin fuel bit d else Ret d
  end.

(** [flush] *)
Definition uart_flush fuel self : outcome uart := d ← spin fuel BUSY (registers self); Ret (with_regs self d).

(** [write_char]; a [char] is its scalar value. *)
Definition write_char fuel self (c : Z) : outcome uart :=
  d ← spin fuel TXFF (registers self);
  n ← uadd (chars_written self) 1;
  Ret (mkUart (reg_set DR c d) n (chars_read self)).

(** [read_char_converting] *)
Definition read_char_converting fuel self (blocking_mode : BlockingMode) : outcome (option Z * uart) :=
  let '(v, d) := reg_get FR (registers self) in
  let read d :=
    let '(v, d) := reg_get DR d in
    let ret := as_u8 v in
    n ← uadd (chars_read self) 1;
    Ret (Some (if ret =? 13 then 10 else ret), mkUart d (chars_written self) n) in
  if matches_all v (SET RXFE) then
    match blocking_mode with
    | NonBlocking => Ret (None, with_regs self d)
    | Blocking => d ← spin fuel RXFE d; read d
    end
  else read d.

(** [fmt::Write::write_str] *)
Definition write_str fuel self (s : list Z) : outcome uart := foldM (write_char fuel) self s.

(** [init] *)
Definition uart_init fuel self : outcome uart :=
  self ← uart_flush fuel self;
  let d := registers self in
  let d := reg_set CR 0 d in
  let d := reg_write ICR (CLEAR 0 11) d in
  let d := reg_write IBRD (field_val 0 16 3) d in
  let d := reg_write FBRD (field_val 0 6 16) d in
  let d := reg_write LCR_H (fv_plus (field_val 5 2 EightBit) (field_val 4 1 FifosEnabled)) d in
  let d := reg_write IFLS (field_val 3 5 OneEigth) d in
  let d := reg_write IMSC (fv_plus (SET RXIM) (SET RTIM)) d in
  let d := reg_write CR (fv_plus (fv_plus (SET UARTEN) (SET TXE)) (SET RXE)) d in
  Ret (with_regs self d).

(** The loop of [handle_interrupt]: every character is echoed.  [fuel] is the
    number of turns of this loop, [spins] of the waits inside. *)
Fixpoint echo fuel (spins : nat) self : outcome uart :=
  match fuel with
  | O => Panic "the line does not fall silent"
  | S fuel =>
      x ← read_char_converting spins self NonBlocking;
      match x.1 with
      | Some c => self ← write_char spins x.2 c; echo fuel spins self
      | None => Ret x.2
      end
  end.

(** [Driver::handle_interrupt] *)
Definition handle_interrupt fuel (spins : nat) self : outcome uart :=
  let '(pending, d) := reg_get MIS (registers self) in
  let d := reg_write ICR (CLEAR 0 11) d in
  let self := with_regs self d in
  if matches_any pending (fv_plus (SET 4) (SET 6)) then echo fuel spins self else Ret self.

(** [SerialDriver::read_char], [clear_rx], [get_status] *)
Definition read_char spins self : outcome (Z * uart) :=
  x ← read_char_converting spins self Blocking;
  c ← expect "called unwrap on a None value" x.1;
  Ret (c, x.2).
Fixpoint clear_rx fuel (spins : nat) self : outcome uart :=
  match fuel with
  | O => Panic "the line does not fall silent"
  | S fuel => x ← read_char_converting spins self NonBlocking;
              match x.1 with Some _ => clear_rx fuel spins x.2 | None => Ret x.2 end
  end.
Definition get_status self : Z * uart := let '(v, d) := reg_get MIS (registers self) in (v, with_regs self d).
End uart.

(** [MiniUART] of [bsp/virt/uart.rs], which [print!] uses: the low byte of
    every character is stored to the data register, without waiting. *)
Definition MINI_UART_BASE : Z := 0x09000000.
Definition mini_write_str {D} `{Registers UartReg D} (d : D) (s : list Z) : D :=
  foldl (fun d c => reg_set DR (as_u8 c) d) d s.

(** The declared fields do not overlap, and the offsets above are theirs. *)
Lemma uart_fields_ok :
  fields_ok 32 uart_fields = true
  /\ Forall (fun x => lookup_field uart_fields x.1.1 x.1.2 = Some (x.2, 1))
       [((FR, "BUSY"), BUSY); ((FR, "RXFE"), RXFE); ((FR, "TXFF"), TXFF); ((IMSC, "RXIM"), RXIM); ((IMSC, "RTIM"), RTIM);
        ((CR, "UARTEN"), UARTEN); ((CR, "TXE"), TXE); ((CR, "RXE"), RXE)]%string.
Proof. split; [done|]. by repeat constructor. Qed.

(** ** The device, as its reference manual describes it *)

(** [sent] are the characters the transmitter has accepted, [on_wire] those
    it has sent; [rxq] is the receive queue, [taken] what was read from it and
    [ahead] how many characters the line will still bring; [wait] bounds how
    often the flags can be polled until the transmitter is idle; [room] means
    that it can accept a character.  [conf] are the control registers,
    [latched] the divisor in use and [raw] the raw interrupt status. *)
Class Pl011View (D : Type) := {
  sent : D -> list Z; on_wire : D -> list Z; rxq : D -> list Z; taken : D -> list Z; ahead : D -> nat;
  wait : D -> nat; max_wait : nat; room : D -> Prop;
  conf : UartReg -> D -> Z; latched : D -> Z * Z; raw : D -> Z;
}.

(** The widths of the control registers. *)
Definition ctl_width (r : UartReg) : option Z :=
  match r with IBRD => Some 16 | FBRD => Some 6 | LCR_H => Some 8 | CR => Some 16 | IFLS => Some 6 | IMSC => Some 11 | _ => None end.

Section views.
Context `{Pl011View D}.

(** Characters may arrive at any moment. *)
Definition arrives (q : list Z) (d d' : D) : Prop := exists new, rxq d' = q ++ new /\ ahead d = (length new + ahead d')%nat.
Definition same_data (d d' : D) : Prop := sent d' = sent d /\ taken d' = taken d /\ arrives (rxq d) d d'.
Definition same_conf (d d' : D) : Prop := (forall r, conf r d' = conf r d) /\ latched d' = latched d.
Definition keeps_raw (d d' : D) : Prop := forall n, Z.testbit (raw d) n = true -> Z.testbit (raw d') n = true.
End views.

Class Pl011Spec (D : Type) `{Registers UartReg D, Pl011View D} := {
  wait_bound d : (wait d <= max_wait)%nat;
  fr_get_spec d : let '(v, d') := reg_get FR d in
    same_data d d' /\ same_conf d d' /\ keeps_raw d d'
    /\ (Z.testbit v RXFE = true <-> rxq d = [])
    /\ (if Z.testbit v TXFF then (wait d' < wait d)%nat else room d')
    /\ (if Z.testbit v BUSY then (wait d' < wait d)%nat else on_wire d' = sent d');
  mis_get_spec d : let '(v, d') := reg_get MIS d in same_data d d' /\ same_conf d d';
  dr_get_spec d c q : rxq d = c :: q ->
    let '(v, d') := reg_get DR d in
    as_u8 v = c /\ sent d' = sent d /\ taken d' = taken d ++ [c] /\ arrives q d d';
  dr_set_spec d v : room d ->
    let d' := reg_set DR v d in sent d' = sent d ++ [as_u8 v] /\ taken d' = taken d /\ arrives (rxq d) d d';
  ctl_set_spec r n v d : ctl_width r = Some n -> 0 <= v < 2 ^ n ->
    let d' := reg_set r v d in
    sent d' = sent d /\ taken d' = taken d /\ (on_wire d = sent d -> on_wire d' = sent d') /\ keeps_raw d d'
    /\ conf r d' = v /\ (forall r', r' ≠ r -> conf r' d' = conf r' d)
    /\ latched d' = match r with LCR_H => (conf IBRD d, conf FBRD d) | _ => latched d end;
  icr_set_spec v d : let d' := reg_set ICR v d in
    same_data d d' /\ same_conf d d' /\ (on_wire d = sent d -> on_wire d' = sent d')
    /\ forall n, Z.testbit (raw d') n = true <-> Z.testbit (raw d) n = true /\ Z.testbit v n = false;
}.

Section uart_laws.
Context `{BuildMode, TS : TockSpec} {D : Type} `{PS : Pl011Spec D}.
Implicit Types (self : Pl011UartInner D) (d : D).

Lemma arrives_trans q d1 d2 d3 : arrives q d1 d2 -> arrives (rxq d2) d2 d3 -> arrives q d1 d3.
Proof. intros (n1 & Hq1 & Ha1) (n2 & Hq2 & Ha2). exists (n1 ++ n2). rewrite Hq2, Hq1, app_assoc, length_app. split; [done|lia]. Qed.

Lemma same_data_trans d1 d2 d3 : same_data d1 d2 -> same_data d2 d3 -> same_data d1 d3.
Proof. intros (? & ? & ?) (? & ? & ?). split_and!; [congruence..|by eapply arrives_trans]. Qed.

(** Waiting for the transmitter ends, and leaves the data alone. *)
Lemma spin_tx fuel : forall d, (wait d < fuel)%nat ->
  exists d', spin fuel TXFF d = Ret d' /\ same_data d d' /\ room d'.
Proof.
  induction fuel as [|fuel IH]; intros d Hf; [lia|]. cbn [spin]. pose proof (fr_get_spec d) as Hfr.
  destruct (reg_get FR d) as [v d1]. destruct Hfr as (Hs & _ & _ & _ & Hx & _). unfold SET. rewrite matches_all_bit by done.
  destruct (Z.testbit v TXFF); [|by eauto].
  destruct (IH d1) as (d' & Hd & Hs' & Hr); [lia|]. exists d'. split_and!; [done|by eapply same_data_trans|done].
Qed.

Lemma spin_busy fuel : forall d, (wait d < fuel)%nat ->
  exists d', spin fuel BUSY d = Ret d' /\ same_data d d' /\ same_conf d d' /\ keeps_raw d d' /\ on_wire d' = sent d'.
Proof.
  induction fuel as [|fuel IH]; intros d Hf; [lia|]. cbn [spin]. pose proof (fr_get_spec d) as Hfr.
  destruct (reg_get FR d) as [v d1]. destruct Hfr as (Hs & Hc & Hk & _ & _ & Hx). unfold SET. rewrite matches_all_bit by done.
  destruct (Z.testbit v BUSY); [|by eauto 10].
  destruct (IH d1) as (d' & Hd & Hs' & [Hc1 Hc2] & Hk' & Hw); [lia|]. destruct Hc as [Hc3 Hc4].
  exists d'. split_and!; [done|by eapply same_data_trans| |intros n Hn; auto|done].
  split; [|congruence]. intros r. by rewrite Hc1, Hc3.
Qed.

Lemma write_char_spec fuel self c :
  (max_wait < fuel)%nat -> 0 <= chars_written self < 2 ^ 64 - 1 ->
  exists d', write_char fuel self c = Ret (mkUart d' (chars_written self + 1) (chars_read self))
    /\ sent d' = sent (registers self) ++ [as_u8 c] /\ taken d' = taken (registers self)
    /\ arrives (rxq (registers self)) (registers self) d'.
Proof.
  intros Hf Hn. unfold write_char. pose proof (wait_bound (registers self)).
  destruct (spin_tx fuel (registers self)) as (d1 & -> & (Hs & Ht & Ha) & Hr); [lia|]. sret.
  rewrite uadd_ok by lia. sret. eexists. split; [done|]. destruct (dr_set_spec d1 c Hr) as (Hs' & Ht' & Ha').
  split_and!; [congruence..|by eapply arrives_trans].
Qed.

Lemma write_str_spec fuel s : forall self,
  (max_wait < fuel)%nat -> 0 <= chars_written self -> chars_written self + Z.of_nat (length s) < 2 ^ 64 ->
  exists d', write_str fuel self s = Ret (mkUart d' (chars_written self + Z.of_nat (length s)) (chars_read self))
    /\ sent d' = sent (registers self) ++ (as_u8 <$> s) /\ taken d' = taken (registers self)
    /\ arrives (rxq (registers self)) (registers self) d'.
Proof.
  unfold write_str. induction s as [|c s IH]; intros self Hf Hn Hl; cbn [foldM length fmap list_fmap] in *.
  { exists (registers self). rewrite Z.add_0_r, app_nil_r. destruct self. split_and!; try done. exists []. by rewrite app_nil_r. }
  destruct (write_char_spec fuel self c Hf) as (d1 & -> & Hs1 & Ht1 & Ha1); [lia|]. sret.
  destruct (IH (mkUart d1 (chars_written self + 1) (chars_read self))) as (d' & -> & Hs & Ht & Ha); cbn in *; [done|lia|lia|].
  exists d'. split_and!; [do 2 f_equal; lia| |congruence|by eapply arrives_trans]. rewrite Hs, Hs1, <- app_assoc. done.
Qed.

(** The driver sends what it is given: [write_str] returns, however full
    the transmitter is, as long as the device works off its queue, and the
    transmitter has then accepted exactly the low bytes of the characters, in
    order and each once; nothing is taken from the receiver. *)
Theorem uart_write_exact fuel s self :
  (max_wait < fuel)%nat -> 0 <= chars_written self -> chars_written self + Z.of_nat (length s) < 2 ^ 64 ->
  exists self', write_str fuel self s = Ret self' /\ chars_written self' = chars_written self + Z.of_nat (length s)
    /\ chars_read self' = chars_read self
    /\ sent (registers self') = sent (registers self) ++ (as_u8 <$> s) /\ taken (registers self') = taken (registers self).
Proof.
  intros Hf Hn Hl. destruct (write_str_spec fuel s self Hf Hn Hl) as (d' & -> & Hs & Ht & _).
  by exists (mkUart d' (chars_written self + Z.of_nat (length s)) (chars_read self)).
Qed.

Definition converted (c : Z) : Z := if c =? 13 then 10 else c.

(** One turn of the echo loop. *)
Lemma read_nonblocking spins self :
  0 <= chars_read self < 2 ^ 64 - 1 ->
  match rxq (registers self) with
  | [] => exists d', read_char_converting spins self NonBlocking = Ret (None, with_regs self d') /\ same_data (registers self) d'
  | c :: q => exists d', read_char_converting spins self NonBlocking
                = Ret (Some (converted c), mkUart d' (chars_written self) (chars_read self + 1))
                /\ sent d' = sent (registers self) /\ taken d' = taken (registers self) ++ [c] /\ arrives q (registers self) d'
  end.
Proof.
  intros Hn. unfold read_char_converting. pose proof (fr_get_spec (registers self)) as Hfr.
  destruct (reg_get FR (registers self)) as [v d1]. destruct Hfr as ((Hs & Ht & Ha) & _ & _ & He & _). unfold SET.
  rewrite matches_all_bit by done. destruct (rxq (registers self)) as [|c q] eqn:Hq.
  - rewrite (proj2 He) by done. exists d1. split; [done|]. split_and!; try done. by rewrite Hq.
  - destruct (Z.testbit v RXFE); [by discriminate (proj1 He)|]. destruct Ha as (new & Hq1 & Hah).
    pose proof (dr_get_spec d1 c (q ++ new) Hq1) as Hdr. destruct (reg_get DR d1) as [v' d2].
    destruct Hdr as (-> & Hs2 & Ht2 & (new2 & Hq2 & Hah2)). rewrite uadd_ok by lia. sret.
    exists d2. split_and!; [done|congruence|congruence|]. exists (new ++ new2). rewrite Hq2, app_assoc, length_app. split; [done|lia].
Qed.

Lemma echo_spec spins fuel : forall self,
  (max_wait < spins)%nat -> (length (rxq (registers self)) + ahead (registers self) < fuel)%nat ->
  0 <= chars_read self -> 0 <= chars_written self ->
  chars_read self + Z.of_nat (length (rxq (registers self)) + ahead (registers self)) < 2 ^ 64 - 1 ->
  chars_written self + Z.of_nat (length (rxq (registers self)) + ahead (registers self)) < 2 ^ 64 - 1 ->
  exists self' chars, echo fuel spins self = Ret self' /\ (exists late, chars = rxq (registers self) ++ late)
    /\ taken (registers self') = taken (registers self) ++ chars
    /\ sent (registers self') = sent (registers self) ++ ((fun c => as_u8 (converted c)) <$> chars).
Proof.
  induction fuel as [|fuel IH]; intros self Hsp Hf Hr Hw Hr1 Hw1; [lia|]. cbn [echo].
  pose proof (read_nonblocking spins self ltac:(lia)) as Hrd. destruct (rxq (registers self)) as [|c q] eqn:Hq; cbn [length] in *.
  - destruct Hrd as (d' & -> & Hs & Ht & _). sret. exists (with_regs self d'), []. cbn. rewrite !app_nil_r. eauto 10.
  - destruct Hrd as (d1 & -> & Hs1 & Ht1 & (new & Hq1 & Ha1)). cbn [mbind outcome_bind fst snd].
    destruct (write_char_spec spins (mkUart d1 (chars_written self) (chars_read self + 1)) (converted c) Hsp)
      as (d2 & -> & Hs2 & Ht2 & (new2 & Hq2 & Ha2)); [cbn; lia|]. cbn [mbind outcome_bind registers chars_written chars_read] in *.
    rewrite Hq1 in Hq2.
    assert (Hm : (length (rxq d2) + ahead d2 = length q + ahead (registers self))%nat) by (rewrite Hq2, !length_app; lia).
    destruct (IH (mkUart d2 (chars_written self + 1) (chars_read self + 1))) as (self' & chars & He & (late & Hl) & Ht & Hs);
      cbn [registers chars_written chars_read] in *; [done|lia..|].
    exists self', (c :: chars). split_and!; [done| | |].
    + exists (new ++ new2 ++ late). rewrite Hl, Hq2. cbn. by rewrite <- !app_assoc.
    + rewrite Ht, Ht2, Ht1, <- app_assoc. done.
    + rewrite Hs, Hs2, Hs1, <- app_assoc. done.
Qed.

(** The interrupt handler returns once the line is silent.  On a receive
    or a time-out interrupt it takes every character the receiver holds, and
    those that arrive meanwhile, and echoes each of them in order, carriage
    returns as line feeds; on any other interrupt it takes none.  No character
    goes anywhere else. *)
Lemma uart_interrupt_spec fuel spins self :
  let d := registers self in
  (max_wait < spins)%nat -> (length (rxq d) + ahead d < fuel)%nat -> 0 <= chars_read self -> 0 <= chars_written self ->
  chars_read self + Z.of_nat (length (rxq d) + ahead d) < 2 ^ 64 - 1 ->
  chars_written self + Z.of_nat (length (rxq d) + ahead d) < 2 ^ 64 - 1 ->
  exists self' chars, handle_interrupt fuel spins self = Ret self'
    /\ taken (registers self') = taken d ++ chars
    /\ sent (registers self') = sent d ++ ((fun c => as_u8 (converted c)) <$> chars)
    /\ (if Z.testbit (reg_get MIS d).1 4 || Z.testbit (reg_get MIS d).1 6 then exists late, chars = rxq d ++ late else chars = []).
Proof.
  intros d Hsp Hf Hr Hw Hr1 Hw1. unfold handle_interrupt. fold d. pose proof (mis_get_spec d) as Hmis.
  destruct (reg_get MIS d) as [v d1]. destruct Hmis as [(Hs1 & Ht1 & (n1 & Hq1 & Ha1)) _]. cbn [fst].
  unfold reg_write, SET. set (w := fv_value (CLEAR 0 11)). destruct (icr_set_spec w d1) as ((Hs2 & Ht2 & (n2 & Hq2 & Ha2)) & _).
  rewrite matches_any_bits by done. set (d2 := reg_set ICR w d1) in *.
  assert (Hm : (length (rxq d2) + ahead d2 = length (rxq d) + ahead d)%nat) by (rewrite Hq2, Hq1, !length_app; lia).
  destruct (Z.testbit v 4 || Z.testbit v 6)%bool.
  - destruct (echo_spec spins fuel (with_regs self d2)) as (self' & chars & -> & (late & Hl) & Ht & Hs);
      cbn [registers with_regs chars_read chars_written] in *; [done|lia..|].
    exists self', chars. split_and!; [done|congruence|congruence|]. exists (n1 ++ n2 ++ late).
    rewrite Hl, Hq2, Hq1, <- !app_assoc. done.
  - exists (with_regs self d2), []. cbn. rewrite !app_nil_r. split_and!; [done|congruence|congruence|done].
Qed.

Lemma ctl_write_spec r n v x d :
  ctl_width r = Some n -> fv_value v = x -> 0 <= x < 2 ^ n ->
  let d' := reg_write r v d in
  sent d' = sent d /\ taken d' = taken d /\ (on_wire d = sent d -> on_wire d' = sent d') /\ keeps_raw d d'
  /\ conf r d' = x /\ (forall r', r' ≠ r -> conf r' d' = conf r' d)
  /\ latched d' = match r with LCR_H => (conf IBRD d, conf FBRD d) | _ => latched d end.
Proof. intros Hr <- Hv. by apply (ctl_set_spec r n). Qed.

(** [init] returns with the port set up: divisor 3 + 16/64 (latched by the
    write of the line control register that comes last), eight bits with the
    queues enabled, the receive and time-out interrupts unmasked, receiver and
    transmitter on.  Nothing that was queued is lost: it is on the wire before
    the port is turned off.  But the interrupts that were pending stay
    pending: the zeros written to the clear register clear none. *)
Lemma uart_init_spec fuel self :
  (max_wait < fuel)%nat ->
  exists self', uart_init fuel self = Ret self'
    /\ let d := registers self in let d' := registers self' in
       latched d' = (3, 16) /\ conf LCR_H d' = 0x70 /\ conf IFLS d' = 0 /\ conf IMSC d' = 0x50 /\ conf CR d' = 0x301
       /\ sent d' = sent d /\ on_wire d' = sent d /\ taken d' = taken d /\ keeps_raw d d'.
Proof.
  intros Hf. unfold uart_init, uart_flush. pose proof (wait_bound (registers self)).
  destruct (spin_busy fuel (registers self)) as (d0 & -> & (Hs0 & Ht0 & _) & _ & Hk0 & Hw0); [lia|]. cbn [mbind outcome_bind registers with_regs].
  destruct (ctl_set_spec CR 16 0 d0) as (Hs1 & Ht1 & Hw1 & Hk1 & _); [done|lia|].
  set (d1 := reg_set CR 0 d0) in *. unfold reg_write at 7.
  assert (Hz : fv_value (CLEAR 0 11) = 0) by (unfold CLEAR; by rewrite fv_value_val).
  destruct (icr_set_spec (fv_value (CLEAR 0 11)) d1) as ((Hs2 & Ht2 & _) & _ & Hw2 & Hk2). set (d2 := reg_set ICR _ d1) in *.
  assert (Hk2' : keeps_raw d1 d2) by (intros n Hn; apply Hk2; rewrite Hz, Z.bits_0; done).
  destruct (ctl_write_spec IBRD 16 (field_val 0 16 3) 3 d2) as (Hs3 & Ht3 & Hw3 & Hk3 & Hc3 & Ho3 & _); [done|by rewrite fv_value_val|lia|].
  set (d3 := reg_write IBRD _ d2) in *.
  destruct (ctl_write_spec FBRD 6 (field_val 0 6 16) 16 d3) as (Hs4 & Ht4 & Hw4 & Hk4 & Hc4 & Ho4 & _); [done|by rewrite fv_value_val|lia|].
  set (d4 := reg_write FBRD _ d3) in *.
  destruct (ctl_write_spec LCR_H 8 (fv_plus (field_val 5 2 3) (field_val 4 1 1)) 0x70 d4) as (Hs5 & Ht5 & Hw5 & Hk5 & Hc5 & Ho5 & Hl5);
    [done|by rewrite fv_value_plus, !fv_value_val|lia|]. set (d5 := reg_write LCR_H _ d4) in *.
  destruct (ctl_write_spec IFLS 6 (field_val 3 5 0) 0 d5) as (Hs6 & Ht6 & Hw6 & Hk6 & Hc6 & Ho6 & Hl6); [done|by rewrite fv_value_val|lia|].
  set (d6 := reg_write IFLS _ d5) in *.
  destruct (ctl_write_spec IMSC 11 (fv_plus (SET RXIM) (SET RTIM)) 0x50 d6) as (Hs7 & Ht7 & Hw7 & Hk7 & Hc7 & Ho7 & Hl7);
    [done|unfold SET; by rewrite fv_value_plus, !fv_value_val|lia|]. set (d7 := reg_write IMSC _ d6) in *.
  destruct (ctl_write_spec CR 16 (fv_plus (fv_plus (SET UARTEN) (SET TXE)) (SET RXE)) 0x301 d7) as (Hs8 & Ht8 & Hw8 & Hk8 & Hc8 & Ho8 & Hl8);
    [done|unfold SET; by rewrite !fv_value_plus, !fv_value_val|lia|]. set (d8 := reg_write CR _ d7) in *.
  eexists. split; [reflexivity|]. cbn [registers with_regs]. split_and!.
  - rewrite Hl8, Hl7, Hl6, Hl5, Hc4, (Ho4 IBRD) by done. by rewrite Hc3.
  - by rewrite Ho8, Ho7, Ho6 by done.
  - by rewrite Ho8, Ho7 by done.
  - by rewrite Ho8 by done.
  - done.
  - congruence.
  - rewrite Hw8 by auto 10. congruence.
  - congruence.
  - intros n Hn. auto 20.
Qed.
End uart_laws.

(** ** A concrete port

    One character fits the transmitter, which sends it when it is polled; the
    characters of a script arrive one at a time. *)
Record Port := mkPort {
  p_wire : list Z; p_hold : option Z; p_rx : list Z; p_taken : list Z; p_script : list Z;
  p_conf : UartReg -> Z; p_latched : Z * Z; p_raw : Z;
}.

Definition port_flags (p : Port) : Z :=
  match p_rx p, p_hold p with [], Some _ => 0x38 | [], None => 0x10 | _, Some _ => 0x28 | _, None => 0 end.
Definition port_poll (p : Port) : Port :=
  mkPort (p_wire p ++ option_list (p_hold p)) None (p_rx p ++ take 1 (p_script p)) (p_taken p) (drop 1 (p_script p))
    (p_conf p) (p_latched p) (p_raw p).

#[export] Instance PortRegs : Registers UartReg Port := {|
  reg_get r p :=
    match r with
    | FR => (port_flags p, port_poll p)
    | DR => match p_rx p with
            | c :: q => (c, mkPort (p_wire p) (p_hold p) q (p_taken p ++ [c]) (p_script p) (p_conf p) (p_latched p) (p_raw p))
            | [] => (0, p)
            end
    | MIS => (Z.land (p_raw p) (p_conf p IMSC), p)
    | _ => (p_conf p r, p)
    end;
  reg_set r v p :=
    match r with
    | DR => mkPort (p_wire p) (Some (as_u8 v)) (p_rx p) (p_taken p) (p_script p) (p_conf p) (p_latched p) (p_raw p)
    | ICR => mkPort (p_wire p) (p_hold p) (p_rx p) (p_taken p) (p_script p) (p_conf p) (p_latched p) (Z.ldiff (p_raw p) v)
    | _ => mkPort (p_wire p) (p_hold p) (p_rx p) (p_taken p) (p_script p) (fun r' => if decide (r' = r) then v else p_conf p r')
             (match r with LCR_H => (p_conf p IBRD, p_conf p FBRD) | _ => p_latched p end) (p_raw p)
    end;
|}.

#[export] Instance PortView : Pl011View Port := {|
  sent p := p_wire p ++ option_list (p_hold p); on_wire := p_wire;
  rxq p := as_u8 <$> p_rx p; taken p := as_u8 <$> p_taken p; ahead p := length (p_script p);
  wait p := match p_hold p with Some _ => 1%nat | None => O end; max_wait := 1; room p := p_hold p = None;
  conf r p := p_conf p r; latched := p_latched; raw := p_raw;
|}.

Lemma port_poll_data p : same_data p (port_poll p).
Proof.
  split_and!; [cbn; by rewrite app_nil_r|done|]. exists (as_u8 <$> take 1 (p_script p)). split.
  - cbn [rxq PortView port_poll p_rx]. by rewrite fmap_app.
  - cbn [ahead PortView port_poll p_script]. rewrite length_fmap, length_take, length_drop. lia.
Qed.

#[export] Instance PortSpec : Pl011Spec Port.
Proof.
  assert (Hid : forall p : Port, arrives (rxq p) p p) by (intros p; exists []; by rewrite app_nil_r).
  split.
  - intros p. cbn. destruct (p_hold p); lia.
  - intros p. cbn [reg_get PortRegs]. split; [apply port_poll_data|]. split; [done|]. split; [by intros n|].
    unfold port_flags. cbn [rxq PortView wait room on_wire sent port_poll p_hold p_wire].
    destruct (p_rx p), (p_hold p); cbn; repeat split; try done; try lia; by rewrite !app_nil_r.
  - intros p. split; [|done]. split_and!; [done|done|apply Hid].
  - intros p c q Hq. cbn [rxq PortView] in Hq. cbn [reg_get PortRegs]. destruct (p_rx p) as [|c' q'] eqn:Hr; [done|].
    cbn in Hq. injection Hq as <- <-. split_and!; try done; [cbn; by rewrite fmap_app|]. exists []. by rewrite app_nil_r.
  - intros p v Hr. cbn in Hr. split_and!; [cbn; by rewrite Hr, app_nil_r|done|]. exists []. by rewrite app_nil_r.
  - intros r n v p Hw Hv. destruct r; try done; split_and!; try done; try (by intros m); try (by cbn; rewrite decide_True);
      intros r' Hne; cbn; by rewrite decide_False.
  - intros v p. split; [split_and!; [done|done|exists []; by rewrite app_nil_r]|]. split; [done|]. split; [done|]. intros n. cbn [raw PortView reg_set PortRegs p_raw].
    rewrite Z.ldiff_spec, andb_true_iff, negb_true_iff. done.
Qed.

Section concrete.
#[local] Instance debug : BuildMode := true.

Definition port0 : Port := mkPort [] (Some 33) [104; 13] [] [105] (fun _ => 0x50) (0, 0) 0x10.
Definition uart0 : Pl011UartInner Port := uart_new port0.

Lemma uart_write_exact_witness :
  exists self', write_str 2 uart0 [72; 0x2713] = Ret self' /\ chars_written self' = 2 /\ chars_read self' = 0
    /\ sent (registers self') = [33; 72; 0x13] /\ taken (registers self') = [].
Proof. refine (uart_write_exact 2 [72; 0x2713] uart0 _ _ _); cbn; lia. Defined.

End concrete.
