(* ===== verification/DeviceTree.v ===== *)
(** * The device tree ([drivers/device_tree.rs])

    Queries on the flattened device tree the firmware passes to the kernel.
    The tree is parsed by the crate [fdt_rs], whose iterators may fail at any
    element; a property is its bytes, and numbers in it are big-endian. *)

From S2P Require Import Prelude.

(** ** The crate *)

(** The iterators of the crate are lists whose elements may be errors; [find]
    and [any] stop at the first one. *)
Class Fdt := {
  Dt : Type; Node : Type; Prop_ : Type; FdtError : Type;
  fdt_new : list Z -> result Dt FdtError;
  fdt_root : Dt -> result (option Node) FdtError;
  fdt_nodes : Dt -> list (result Node FdtError);
  node_props : Node -> list (result Prop_ FdtError);
  prop_name : Prop_ -> result string FdtError;
  prop_str : Prop_ -> result string FdtError;
  prop_length : Prop_ -> Z;
  prop_u32 : Prop_ -> Z -> result Z FdtError;
  prop_u64 : Prop_ -> Z -> result Z FdtError;
}.

(** The header and the bytes of a tree; [DevTree::new] keeps the slice it is
    given, and [buf] returns it. *)
Class FdtRaw `{Fdt} := {
  MIN_HEADER_SIZE : nat;
  read_totalsize : list Z -> result Z FdtError;
  fdt_buf : Dt -> list Z;
  fdt_totalsize : Dt -> Z;
}.
Class FdtRawSpec `{FdtRaw} := { fdt_buf_new l dt : fdt_new l = Ok dt -> fdt_buf dt = l }.

(** Big-endian numbers. *)
Definition be_word (bytes : list Z) : Z := foldl (fun n b => n * 256 + b) 0 bytes.

(** The documented behaviour of the readers: word [i] of the property, if it
    is there. *)
Class FdtSpec `{Fdt} := {
  prop_bytes : Prop_ -> list Z;
  prop_bytes_u8 p : Forall is_u8 (prop_bytes p);
  prop_length_spec p : prop_length p = Z.of_nat (length (prop_bytes p));
  prop_u32_spec p i : 0 <= i -> 4 * (i + 1) <= prop_length p ->
    prop_u32 p i = Ok (be_word (take 4 (drop (Z.to_nat (4 * i)) (prop_bytes p))));
  prop_u64_spec p i : 0 <= i -> 8 * (i + 1) <= prop_length p ->
    prop_u64 p i = Ok (be_word (take 8 (drop (Z.to_nat (8 * i)) (prop_bytes p))));
}.

(** [Result::ok] *)
Definition ok {A E} (r : result A E) : option A := match r with Ok a => Some a | Err _ => None end.

(** [FallibleIterator::find] and [any] with a predicate that may fail. *)
Fixpoint find_r {A E} (f : A -> result bool E) (l : list (result A E)) : result (option A) E :=
  match l with
  | [] => Ok None
  | Err e :: _ => Err e
  | Ok x :: l => match f x with Err e => Err e | Ok true => Ok (Some x) | Ok false => find_r f l end
  end.
Definition any_r {A E} (f : A -> result bool E) (l : list (result A E)) : result bool E :=
  match find_r f l with Ok o => Ok (match o with Some _ => true | None => false end) | Err e => Err e end.

Section device_tree.
Context `{BuildMode} `{FD : Fdt}.
Implicit Types (dt : Dt) (node : Node) (prop : Prop_).

(** [core::slice::from_raw_parts] with the bytes at virtual addresses. *)
Fixpoint from_raw_parts (read : Z -> outcome Z) (addr : Z) (len : nat) : outcome (list Z) :=
  match len with
  | O => Ret []
  | S len => b ← read addr; l ← from_raw_parts read (addr + 1) len; Ret (b :: l)
  end.

(** [DeviceTree::from_raw], [DeviceTree::new] *)
Definition from_raw `{!FdtRaw} (read : Z -> outcome Z) (addr : Z) : outcome (result Dt FdtError) :=
  fdt_header ← from_raw_parts read addr MIN_HEADER_SIZE;
  match read_totalsize fdt_header with
  | Err e => Ret (Err e)
  | Ok len => fdt ← from_raw_parts read addr (Z.to_nat len); Ret (fdt_new fdt)
  end.
Definition dt_new (buf : list Z) : result Dt FdtError := fdt_new buf.

(** [DeviceTree::root] *)
Definition dt_root dt : option Node := match ok (fdt_root dt) with Some o => o | None => None end.

(** [DeviceTree::find_node], [find_node_with_prop] *)
Definition find_node dt (predict : Node -> result bool FdtError) : option Node :=
  match ok (find_r predict (fdt_nodes dt)) with Some o => o | None => None end.
Definition find_node_with_prop dt (predict : Prop_ -> result bool FdtError) : option Node :=
  find_node dt (fun node => any_r predict (node_props node)).

(** [|prop| Ok(prop.name()?.eq(name) && prop.str()?.eq(value))] *)
Definition prop_is (name value : string) prop : result bool FdtError :=
  match prop_name prop with
  | Err e => Err e
  | Ok n => if bool_decide (n = name)
            then match prop_str prop with Err e => Err e | Ok s => Ok (bool_decide (s = value)) end
            else Ok false
  end.

(** [utils::find_prop_by_name], [read_node_prop_u32], [read_node_prop_u64] *)
Definition find_prop_by_name node (name : string) : option Prop_ :=
  match ok (find_r (fun prop => match prop_name prop with Ok n => Ok (bool_decide (n = name)) | Err e => Err e end) (node_props node)) with
  | Some o => o
  | None => None
  end.
Definition read_node_prop_u32 node (name : string) (index : Z) : option Z :=
  prop ← find_prop_by_name node name; ok (prop_u32 prop index).
Definition read_node_prop_u64 node (name : string) (index : Z) : option Z :=
  prop ← find_prop_by_name node name; ok (prop_u64 prop index).

(** [root_size_cells], [root_address_cells], [node_size_cells],
    [node_address_cells] *)
Definition root_size_cells dt : option Z := r ← dt_root dt; read_node_prop_u32 r "#size-cells" 0.
Definition root_address_cells dt : option Z := r ← dt_root dt; read_node_prop_u32 r "#address-cells" 0.
Definition node_size_cells dt node : option Z :=
  match read_node_prop_u32 node "#size-cells" 0 with Some n => Some n | None => root_size_cells dt end.
Definition node_address_cells dt node : option Z :=
  match read_node_prop_u32 node "#address-cells" 0 with Some n => Some n | None => root_address_cells dt end.

(** [struct RegRangeIter] *)
Record RegRangeIter := mkIter { reg_prop : Prop_; cells : Z; curr_range : Z; range_count : Z }.

(** [node_reg_range_iter] *)
Definition node_reg_range_iter dt node : outcome (option RegRangeIter) :=
  match node_address_cells dt node, node_size_cells dt node with
  | Some address_cells, Some size_cells =>
      _ ← assert_ (negb overflow_checks || (address_cells =? size_cells)) "assertion failed";
      match find_prop_by_name node "reg" with
      | None => Ret None
      | Some reg_prop =>
          _ ← assert_ (negb (address_cells =? 0)) "attempt to divide by zero";
          Ret (Some (mkIter reg_prop address_cells 0 (prop_length reg_prop / 4 / address_cells / 2)))
      end
  | _, _ => Ret None
  end.

(** [RegRangeIter::next]: the range, if there is one, and the iterator. *)
Definition range_next (self : RegRangeIter) : outcome (option (Z * Z) * RegRangeIter) :=
  if curr_range self =? range_count self then Ret (None, self)
  else
    curr ← umul (curr_range self) 2;
    n ← uadd (curr_range self) 1;
    let self := mkIter (reg_prop self) (cells self) n (range_count self) in
    pair ← (if cells self =? 1 then
              Ret (a ← ok (prop_u32 (reg_prop self) curr); l ← ok (prop_u32 (reg_prop self) (curr + 1)); Some (a, l))
            else if cells self =? 2 then
              Ret (a ← ok (prop_u64 (reg_prop self) curr); l ← ok (prop_u64 (reg_prop self) (curr + 1)); Some (a, l))
            else Panic "internal error: entered unreachable code");
    match pair with
    | None => Ret (None, self)
    | Some (addr, len) => e ← uadd addr len; Ret (Some (addr, e), self)
    end.

(** All ranges, with a number of turns. *)
Fixpoint ranges (fuel : nat) (self : RegRangeIter) : outcome (list (Z * Z)) :=
  match fuel with
  | O => Ret []
  | S fuel =>
      x ← range_next self;
      match x.1 with
      | Some r => l ← ranges fuel x.2; Ret (r :: l)
      | None => Ret []
      end
  end.

(** [struct InterruptCell], [node_interrupt_cell] *)
Record InterruptCell := mkCell { cell_type : Z; interrupt_number : Z; cell_flag : Z }.
Definition node_interrupt_cell node : outcome (option InterruptCell) :=
  match find_prop_by_name node "interrupts" with
  | None => Ret None
  | Some prop =>
      _ ← assert_ (12 <=? prop_length prop) "assertion failed";
      Ret (t ← ok (prop_u32 prop 0); n ← ok (prop_u32 prop 1); f ← ok (prop_u32 prop 2); Some (mkCell t n f))
  end.

(** [InterruptCell::irq_number], in [u32] *)
Definition irq_number (self : InterruptCell) : outcome Z :=
  if cell_type self =? 0 then arith 0 32 (interrupt_number self + 32) "attempt to add with overflow"
  else if cell_type self =? 1 then arith 0 32 (interrupt_number self + 16) "attempt to add with overflow"
  else Panic "internal error: entered unreachable code".

(** [DeviceTree::probe_memory] *)
Definition probe_memory dt : outcome (option (Z * Z)) :=
  match find_node_with_prop dt (prop_is "device_type" "memory") with
  | None => Ret None
  | Some mem_node =>
      it ← node_reg_range_iter dt mem_node;
      match it with
      | None => Ret None
      | Some it => x ← range_next it; Ret x.1
      end
  end.
End device_tree.

(** Reading memory that is mapped. *)
Lemma from_raw_parts_ok (read : Z -> outcome Z) (ram : Z -> Z) (base : Z) n : forall addr,
  (forall i, addr <= i < addr + Z.of_nat n -> read i = Ret (ram (i + base))) ->
  from_raw_parts read addr n = Ret (ram <$> seqZ (addr + base) (Z.of_nat n)).
Proof.
  induction n as [|n IH]; intros addr Hr; cbn [from_raw_parts]; [done|]. rewrite Hr by lia. sret. rewrite IH by (intros; apply Hr; lia). sret.
  rewrite (seqZ_cons (addr + base)) by lia. cbn. replace (Z.succ (addr + base)) with (addr + 1 + base) by lia.
  by replace (Z.pred (Z.of_nat (S n))) with (Z.of_nat n) by lia.
Qed.

(** ** What the ranges are *)

(** The [reg] property decoded in one go: pairs of an address and a length of
    [cells] words each. *)
Fixpoint decode_reg (fuel : nat) (width : nat) (bytes : list Z) : list (Z * Z) :=
  match fuel with
  | O => []
  | S fuel =>
      if (length bytes <? 2 * width)%nat then []
      else
        let addr := be_word (take width bytes) in
        let len := be_word (take width (drop width bytes)) in
        (addr, addr + len) :: decode_reg fuel width (drop (2 * width) bytes)
  end.

Section ranges.
Context `{BM : BuildMode} `{FS : FdtSpec}.
Implicit Types prop : Prop_.

Definition word_at (c : Z) prop (i : Z) : Z := be_word (take (Z.to_nat (4 * c)) (drop (Z.to_nat (4 * c * i)) (prop_bytes prop))).

Lemma range_next_spec prop c i n :
  c = 1 \/ c = 2 -> 0 <= i < n -> 8 * c * n <= prop_length prop -> prop_length prop < 2 ^ 64 ->
  word_at c prop (2 * i) + word_at c prop (2 * i + 1) < 2 ^ 64 -> 0 <= word_at c prop (2 * i) + word_at c prop (2 * i + 1) ->
  range_next (mkIter prop c i n)
  = Ret (Some (word_at c prop (2 * i), word_at c prop (2 * i) + word_at c prop (2 * i + 1)), mkIter prop c (i + 1) n).
Proof.
  intros Hc Hi Hlen Hmax Hsum Hsum0. unfold range_next. cbn [curr_range range_count cells reg_prop].
  rewrite (proj2 (Z.eqb_neq _ _)) by lia. rewrite umul_ok by lia. sret. rewrite uadd_ok by lia. sret.
  replace (i * 2) with (2 * i) by lia.
  destruct Hc as [->| ->]; cbn [Z.eqb Pos.eqb].
  - rewrite !prop_u32_spec by lia. change (be_word (take 4 (drop (Z.to_nat (4 * (2 * i))) (prop_bytes prop)))) with (word_at 1 prop (2 * i)).
    change (be_word (take 4 (drop (Z.to_nat (4 * (2 * i + 1))) (prop_bytes prop)))) with (word_at 1 prop (2 * i + 1)).
    cbn [ok mbind option_bind outcome_bind]. by rewrite uadd_ok by lia.
  - rewrite !prop_u64_spec by lia. change (be_word (take 8 (drop (Z.to_nat (8 * (2 * i))) (prop_bytes prop)))) with (word_at 2 prop (2 * i)).
    change (be_word (take 8 (drop (Z.to_nat (8 * (2 * i + 1))) (prop_bytes prop)))) with (word_at 2 prop (2 * i + 1)).
    cbn [ok mbind option_bind outcome_bind]. by rewrite uadd_ok by lia.
Qed.

Lemma be_fold_nonneg bytes : forall n, 0 <= n -> Forall is_u8 bytes -> 0 <= foldl (fun n b => n * 256 + b) n bytes.
Proof.
  induction bytes as [|b bytes IH]; intros n Hn Hb; cbn [foldl]; [done|]. apply Forall_cons in Hb as [Hb Hbs].
  apply IH; [|done]. unfold is_u8 in Hb. lia.
Qed.

Lemma be_word_nonneg bytes : Forall is_u8 bytes -> 0 <= be_word bytes.
Proof. by apply be_fold_nonneg. Qed.

(** The iterator at position [i] against the bytes from there on. *)
Lemma ranges_decode prop c n m : forall i fuel fuel',
  c = 1 \/ c = 2 -> n = prop_length prop / (8 * c) -> prop_length prop < 2 ^ 64 -> 0 <= i -> n = i + Z.of_nat m ->
  (m < fuel)%nat -> (m < fuel')%nat ->
  let l := decode_reg fuel' (Z.to_nat (4 * c)) (drop (Z.to_nat (8 * c * i)) (prop_bytes prop)) in
  Forall (fun r => r.2 < 2 ^ 64) l -> ranges fuel (mkIter prop c i n) = Ret l.
Proof.
  induction m as [|m IH]; intros i fuel fuel' Hc Hn Hmax Hi Hnm Hf Hf' l Hl; subst l; pose proof (prop_length_spec prop) as Hlen;
    (destruct fuel as [|fuel], fuel' as [|fuel']; [lia..|]); cbn [ranges decode_reg] in *;
    pose proof (Z.div_mod (prop_length prop) (8 * c)); pose proof (Z.mod_pos_bound (prop_length prop) (8 * c));
    rewrite length_drop in *.
  - unfold range_next. cbn [curr_range range_count]. rewrite (proj2 (Z.eqb_eq _ _)) by lia. cbn [mbind outcome_bind fst].
    rewrite (proj2 (Nat.ltb_lt _ _)) by nia. done.
  - assert (8 * c * (i + 1) <= prop_length prop) by nia.
    rewrite (proj2 (Nat.ltb_ge _ _)) in * by nia. apply Forall_cons in Hl as [Hr Hl]. cbn [snd] in Hr.
    rewrite !drop_drop in *.
    assert (Hw1 : word_at c prop (2 * i) = be_word (take (Z.to_nat (4 * c)) (drop (Z.to_nat (8 * c * i)) (prop_bytes prop)))).
    { unfold word_at. do 3 f_equal. lia. }
    assert (Hw2 : word_at c prop (2 * i + 1) = be_word (take (Z.to_nat (4 * c)) (drop (Z.to_nat (8 * c * i) + Z.to_nat (4 * c)) (prop_bytes prop)))).
    { unfold word_at. do 3 f_equal. nia. }
    rewrite <- Hw1, <- Hw2 in *.
    rewrite range_next_spec; [|done|lia|nia|lia|done|].
    2:{ rewrite Hw1, Hw2. apply Z.add_nonneg_nonneg; apply be_word_nonneg, Forall_take, Forall_drop, prop_bytes_u8. }
    cbn [mbind outcome_bind fst snd].
    replace (Z.to_nat (8 * c * i) + 2 * Z.to_nat (4 * c))%nat with (Z.to_nat (8 * c * (i + 1))) in * by nia.
    rewrite (IH (i + 1) fuel fuel') by (done || lia). done.
Qed.

(** C29. The iterator over a [reg] property yields what the property says: on a
    node whose property can be read, with one or two cells per number and the
    same for sizes, collecting its ranges gives the same list as decoding the
    bytes of the property in one go, every pair of an address and a length
    once and in order, and it ends. *)
Theorem reg_ranges_decoded dt node prop c :
  node_address_cells dt node = Some c -> node_size_cells dt node = Some c -> c = 1 \/ c = 2 ->
  find_prop_by_name node "reg" = Some prop -> prop_length prop < 2 ^ 64 ->
  let l := decode_reg (S (length (prop_bytes prop))) (Z.to_nat (4 * c)) (prop_bytes prop) in
  Forall (fun r => r.2 < 2 ^ 64) l ->
  exists it, node_reg_range_iter dt node = Ret (Some it) /\ forall fuel, range_count it < Z.of_nat fuel -> ranges fuel it = Ret l.
Proof.
  intros Ha Hs Hc Hp Hmax l Hl. unfold node_reg_range_iter. rewrite Ha, Hs, Hp, Z.eqb_refl, orb_true_r. cbn [assert_ mbind outcome_bind].
  rewrite (proj2 (Z.eqb_neq _ _)) by lia. cbn [negb assert_ mbind outcome_bind]. eexists. split; [done|]. cbn [range_count]. intros fuel Hf.
  pose proof (prop_length_spec prop). rewrite !Z.div_div in * by lia. replace (4 * (c * 2)) with (8 * c) in * by lia.
  assert (0 <= prop_length prop / (8 * c) <= prop_length prop).
  { split; [apply Z.div_pos; lia|]. apply Z.div_le_upper_bound; nia. }
  rewrite (ranges_decode prop c _ (Z.to_nat (prop_length prop / (8 * c))) 0 fuel (S (length (prop_bytes prop)))); try done; try lia.
  - by rewrite Z.mul_0_r.
  - by rewrite Z.mul_0_r.
Qed.

(** Interrupt numbers: shared peripheral interrupts start at 32, private
    ones at 16, and the two ranges do not meet. *)
Lemma irq_numbers_apart n m :
  0 <= n <= 987 -> 0 <= m <= 15 ->
  irq_number (mkCell 0 n 0) = Ret (n + 32) /\ irq_number (mkCell 1 m 0) = Ret (m + 16) /\ m + 16 < n + 32.
Proof.
  intros Hn Hm. unfold irq_number, arith. cbn [cell_type interrupt_number]. cbn [Z.eqb].
  rewrite !(proj2 (Z.leb_le _ _)), !(proj2 (Z.ltb_lt _ _)) by lia. cbn. split_and!; [done..|lia].
Qed.
End ranges.

(** ** A concrete tree *)
Module FlatTree.
(** A node is a list of named properties; the first node is the root. *)
Definition T_node : Type := list (string * list Z).
Definition bytes (p : string * list Z) : list Z := as_u8 <$> p.2.
Definition word (width : nat) (p : string * list Z) (i : Z) : result Z unit :=
  if (0 <=? i) && (Z.of_nat width * (i + 1) <=? Z.of_nat (length (bytes p)))
  then Ok (be_word (take width (drop (Z.to_nat (Z.of_nat width * i)) (bytes p)))) else Err tt.
Fixpoint text (l : list Z) : string :=
  match l with b :: l => if b =? 0 then EmptyString else String (Ascii.ascii_of_N (Z.to_N b)) (text l) | [] => EmptyString end.

#[export] Instance fdt : Fdt := {|
  Dt := list T_node; Node := T_node; Prop_ := string * list Z; FdtError := unit;
  fdt_new _ := Err tt;
  fdt_root dt := Ok (head dt);
  fdt_nodes dt := Ok <$> dt;
  node_props n := Ok <$> n;
  prop_name p := Ok p.1;
  prop_str p := Ok (text p.2);
  prop_length p := Z.of_nat (length (bytes p));
  prop_u32 := word 4;
  prop_u64 := word 8;
|}.

#[export] Program Instance spec : FdtSpec := {| prop_bytes := bytes |}.
Next Obligation. intros p. unfold bytes. apply Forall_fmap, Forall_true. intros b. unfold is_u8, as_u8. cbn. apply Z.mod_pos_bound. lia. Qed.
Next Obligation. done. Qed.
Next Obligation.
  intros p i Hi Hl. cbn [prop_u32 fdt prop_length] in *. unfold word. rewrite (proj2 (Z.leb_le _ _)), (proj2 (Z.leb_le _ _)) by lia. done.
Qed.
Next Obligation.
  intros p i Hi Hl. cbn [prop_u64 fdt prop_length] in *. unfold word. rewrite (proj2 (Z.leb_le _ _)), (proj2 (Z.leb_le _ _)) by lia. done.
Qed.

(** The memory of the virt board: 128 MiB at 1 GiB, two cells each. *)
Definition root : T_node := [("#address-cells"%string, [0; 0; 0; 2]); ("#size-cells"%string, [0; 0; 0; 2])].
Definition memory : T_node :=
  [("device_type"%string, [109; 101; 109; 111; 114; 121; 0]);
   ("reg"%string, [0; 0; 0; 0; 0x40; 0; 0; 0; 0; 0; 0; 0; 8; 0; 0; 0])].
Definition tree : list T_node := [root; memory].
End FlatTree.

Section concrete.
#[local] Instance debug : BuildMode := true.
#[local] Existing Instance FlatTree.fdt.
#[local] Existing Instance FlatTree.spec.

Lemma reg_ranges_decoded_witness :
  exists it, node_reg_range_iter FlatTree.tree FlatTree.memory = Ret (Some it)
    /\ forall fuel, range_count it < Z.of_nat fuel -> ranges fuel it = Ret [(0x40000000, 0x48000000)].
Proof.
  refine (reg_ranges_decoded (FS := FlatTree.spec) FlatTree.tree FlatTree.memory ("reg"%string, [0; 0; 0; 0; 0x40; 0; 0; 0; 0; 0; 0; 0; 8; 0; 0; 0]) 2 _ _ _ _ _ _).
  - reflexivity.
  - reflexivity.
  - by right.
  - reflexivity.
  - reflexivity.
  - by repeat constructor.
Defined.

Lemma probe_memory_example : probe_memory FlatTree.tree = Ret (Some (0x40000000, 0x48000000)).
Proof. reflexivity. Qed.
End concrete.
