(* ===== verification/Gic.v ===== *)
(** * The interrupt controller ([drivers/irq/gicv2])

    The distributor decides which interrupts are forwarded and to whom, the
    CPU interface hands them to the processor; [GicV2] dispatches them to the
    drivers that registered for them.  The hardware is the interface
    [Registers] with the behaviour of the GICv2 specification. *)

From S2P Require Import Prelude Mmio.

(** ** The distributor ([gicd.rs]) *)

(** The registers of [SharedRegisterBlock] and [BankedRegisterBlock]. *)
Inductive GicdReg :=
| GICD_CTLR | TYPER | ISENABLER (i : nat) | ICENABLER (i : nat) | ISPENDR (i : nat) | IPRIORITYR (i : nat) | ITARGETSR (i : nat)
| BANKED_ISENABLER | BANKED_ITARGETSR (i : nat).
#[export] Instance GicdReg_dec : EqDecision GicdReg.
Proof. solve_decision. Defined.

(** The offsets as they are declared. *)
Definition gicd_shared_map : list Entry :=
  [Reg 0x000 4; Reg 0x004 4; Reserved 0x008; Reg 0x104 (4 * 31); Reg 0x180 (4 * 32); Reserved 0x108; Reg 0x200 (4 * 32);
   Reg 0x400 (4 * 255); Reg 0x820 (4 * 248)].
Definition gicd_banked_map : list Entry := [Reserved 0x000; Reg 0x100 4; Reserved 0x104; Reg 0x800 (4 * 8)].

(** The fields of [register_bitfields!]. *)
Definition bytes4 : list (string * (Z * Z)) := [("Offset3", (24, 8)); ("Offset2", (16, 8)); ("Offset1", (8, 8)); ("Offset0", (0, 8))]%string.
Definition gicd_fields : Fields GicdReg :=
  [(GICD_CTLR, [("Enable"%string, (0, 1))]); (TYPER, [("ITLinesNumber"%string, (0, 5))]); (ITARGETSR 0, bytes4); (IPRIORITYR 0, bytes4)].
Lemma gicd_fields_ok : fields_ok 32 gicd_fields = true.
Proof. done. Qed.

(** The maps contradict themselves: padding behind the enable registers is
    declared in front of them, and the blocks end inside their last array. *)
Lemma gicd_maps_broken : contiguous gicd_shared_map 0x824 = false /\ contiguous gicd_banked_map 0x804 = false.
Proof. done. Qed.

Section gicd.
Context `{BuildMode, Tock} {D : Type} `{Registers GicdReg D}.
Implicit Types d : D.

(** [SharedRegisters::num_irqs] *)
Definition num_irqs d : outcome (Z * D) :=
  let '(n, d) := reg_read TYPER 0 5 d in
  n ← uadd n 1; n ← umul n 32; Ret (n, d).

(** [implemented_itargets_slice]: the length of the slice. *)
Definition implemented_itargets d : outcome (Z * D) :=
  x ← num_irqs d;
  _ ← assert_ (36 <=? x.1) "assertion failed";
  x ← num_irqs x.2;
  n ← usub x.1 32;
  spi_itargetsr_max_index ← usub (Z.shiftr n 2) 1;
  _ ← assert_ (spi_itargetsr_max_index <=? 248) "range end index out of range for slice";
  Ret (spi_itargetsr_max_index, x.2).

(** [local_gic_target_mask] *)
Definition local_gic_target_mask d : Z * D := reg_read (BANKED_ITARGETSR 0) 0 8 d.

(** One mask in all four fields of a target register. *)
Definition all_targets (mask : Z) : FieldValue :=
  fv_plus (fv_plus (fv_plus (field_val 24 8 mask) (field_val 16 8 mask)) (field_val 8 8 mask)) (field_val 0 8 mask).

(** [GicD::boot_core_init] *)
Definition boot_core_init d : outcome D :=
  let '(mask, d) := local_gic_target_mask d in
  x ← implemented_itargets d;
  let d := foldl (fun d i => reg_write (ITARGETSR i) (all_targets mask) d) x.2 (seq 0 (Z.to_nat x.1)) in
  x ← num_irqs d;
  let n := x.1 / 32 in
  _ ← assert_ ((1 <=? n) && (n <=? 32)) "slice index out of range";
  let d := foldl (fun d i => reg_set (ICENABLER i) (2 ^ 32 - 1) d) x.2 (seq 1 (Z.to_nat n - 1)) in
  Ret (reg_write GICD_CTLR (SET 0) d).

(** [GicD::enable] *)
Definition gicd_enable d (irq_num : Z) : outcome D :=
  let enable_reg_index := Z.shiftr irq_num 5 in
  let enable_bit := Z.shiftl 1 (irq_num mod 32) in
  if irq_num <=? 31 then
    let '(v, d) := reg_get BANKED_ISENABLER d in Ret (reg_set BANKED_ISENABLER (Z.lor v enable_bit) d)
  else
    i ← usub enable_reg_index 1;
    _ ← assert_ (i <? 31) "index out of bounds";
    let '(v, d) := reg_get (ISENABLER (Z.to_nat i)) d in
    Ret (reg_set (ISENABLER (Z.to_nat i)) (Z.lor v enable_bit) d).
End gicd.

(** ** The CPU interface ([gicc.rs]) *)

Inductive GiccReg := GICC_CTLR | PMR | IAR | EOIR.
Definition gicc_map : list Entry := [Reg 0x000 4; Reg 0x004 4; Reserved 0x008; Reg 0x00c 4; Reg 0x010 4].
Definition gicc_fields : Fields GiccReg :=
  [(GICC_CTLR, [("Enable", (0, 1))]); (PMR, [("Priority", (0, 8))]); (IAR, [("InterruptID", (0, 10))]); (EOIR, [("EOIINTID", (0, 10))])]%string.
Lemma gicc_ok : contiguous gicc_map 0x014 = true /\ fields_ok 32 gicc_fields = true.
Proof. done. Qed.

Section gicc.
Context `{Tock} {C : Type} `{Registers GiccReg C}.

Definition priority_accept_all (c : C) : C := reg_write PMR (field_val 0 8 255) c.
Definition gicc_enable (c : C) : C := reg_write GICC_CTLR (SET 0) c.
Definition pending_irq_number (c : C) : Z * C := reg_read IAR 0 10 c.
Definition mark_completed (c : C) (irq_num : Z) : C := reg_write EOIR (field_val 0 10 irq_num) c.
End gicc.

(** ** [GicV2] *)

Definition BOOT_CORE_ID : Z := 0.

(** [struct GicV2]; a driver is a reference. *)
Record GicV2 (D C : Type) := mkGic { gicd : D; gicc : C; irq_map : gmap Z (list nat) }.
Arguments mkGic {D C}.
Arguments gicd {D C}.
Arguments gicc {D C}.
Arguments irq_map {D C}.

Section gic.
Context `{BuildMode, Tock} {D C : Type} `{Registers GicdReg D, Registers GiccReg C}.
Abbreviation gic := (GicV2 D C).
Implicit Types self : gic.

(** [GicV2::new] *)
Definition gic_new (d : D) (c : C) : gic := mkGic d c ∅.

(** [Driver::init], on the processor [cpu_id] *)
Definition gic_init (cpu_id : Z) self : outcome gic :=
  d ← (if cpu_id =? BOOT_CORE_ID then boot_core_init (gicd self) else Ret (gicd self));
  Ret (mkGic d (gicc_enable (priority_accept_all (gicc self))) (irq_map self)).

(** [IrqManager::register_and_enable_local_irq] *)
Definition register_and_enable_local_irq self (irq_num : Z) (driver : nat) : outcome gic :=
  let map := <[irq_num := default [] (irq_map self !! irq_num) ++ [driver]]> (irq_map self) in
  d ← gicd_enable (gicd self) irq_num;
  Ret (mkGic d (gicc self) map).

(** [IrqManager::handle_pending_irqs]; [handle] is [handle_interrupt] of the
    drivers, on the state [S] of the rest of the kernel. *)
Definition handle_pending_irqs {S} (handle : S -> nat -> outcome S) self (s : S) : outcome (gic * S) :=
  let '(irq_number, c) := pending_irq_number (gicc self) in
  let self := mkGic (gicd self) c (irq_map self) in
  if irq_number =? 1023 then Ret (self, s)
  else
    match irq_map self !! irq_number with
    | Some drivers =>
        s ← foldM handle s drivers;
        Ret (mkGic (gicd self) (mark_completed (gicc self) (as_u32 irq_number)) (irq_map self), s)
    | None => Panic "No handler registered for IRQ"
    end.
End gic.

(** ** The hardware *)

(** [enabled] and [target] of an interrupt, whether the distributor forwards
    interrupts at all, and the number of lines it implements (in blocks of
    32, the first not counted). *)
Class GicdView (D : Type) := {
  enabled : D -> Z -> bool; target : D -> Z -> Z; forwarding : D -> bool; lines : D -> Z; own_mask : D -> Z;
}.
Definition irqs `{GicdView D} (d : D) : Z := 32 * (lines d + 1).

(** Nothing else changes. *)
Definition same_routing `{GicdView D} (d d' : D) : Prop :=
  (forall x, target d' x = target d x) /\ lines d' = lines d /\ own_mask d' = own_mask d /\ forwarding d' = forwarding d.

Class GicdSpec (D : Type) `{Registers GicdReg D, GicdView D} := {
  lines_range d : 0 <= lines d <= 31;
  own_mask_range d : 0 <= own_mask d < 256;
  typer_get d : exists v, reg_get TYPER d = (v, d) /\ v mod 32 = lines d;
  own_mask_get d : exists v, reg_get (BANKED_ITARGETSR 0) d = (v, d) /\ v mod 256 = own_mask d;
  isenabler_get d i : (i < 31)%nat -> exists v, reg_get (ISENABLER i) d = (v, d)
    /\ forall b, 0 <= b < 32 -> 32 * (Z.of_nat i + 1) + b < irqs d -> Z.testbit v b = enabled d (32 * (Z.of_nat i + 1) + b);
  banked_get d : exists v, reg_get BANKED_ISENABLER d = (v, d) /\ forall b, 0 <= b < 32 -> Z.testbit v b = enabled d b;
  isenabler_set d i v : (i < 31)%nat -> let d' := reg_set (ISENABLER i) v d in
    same_routing d d' /\ forall x, 0 <= x < irqs d ->
      enabled d' x = ((x / 32 =? Z.of_nat i + 1) && Z.testbit v (x mod 32)) || enabled d x;
  banked_set d v : let d' := reg_set BANKED_ISENABLER v d in
    same_routing d d' /\ forall x, 0 <= x < irqs d -> enabled d' x = ((x / 32 =? 0) && Z.testbit v (x mod 32)) || enabled d x;
  icenabler_set d i v : (i < 32)%nat -> let d' := reg_set (ICENABLER i) v d in
    same_routing d d' /\ forall x, 0 <= x < irqs d ->
      enabled d' x = negb ((x / 32 =? Z.of_nat i) && Z.testbit v (x mod 32)) && enabled d x;
  itargetsr_set d i v : (i < 248)%nat -> let d' := reg_set (ITARGETSR i) v d in
    lines d' = lines d /\ own_mask d' = own_mask d /\ forwarding d' = forwarding d /\ (forall x, enabled d' x = enabled d x)
    /\ forall x, 32 <= x < irqs d -> target d' x =
         if (x - 32) / 4 =? Z.of_nat i then (Z.shiftr v (8 * (x mod 4))) mod 256 else target d x;
  ctlr_set d v : let d' := reg_set GICD_CTLR v d in
    (forall x, target d' x = target d x) /\ lines d' = lines d /\ own_mask d' = own_mask d
    /\ (forall x, enabled d' x = enabled d x) /\ forwarding d' = Z.testbit v 0;
}.

Section gicd_laws.
Context `{BM : BuildMode, TS : TockSpec} {D : Type} `{GS : GicdSpec D}.
Implicit Types d : D.

Lemma num_irqs_spec d : num_irqs d = Ret (irqs d, d).
Proof.
  unfold num_irqs, reg_read. destruct (typer_get d) as (v & -> & Hv). rewrite field_read_spec, Z.shiftr_0_r by lia.
  change (2 ^ 5) with 32. rewrite Hv. pose proof (lines_range d). rewrite uadd_ok by lia. sret. rewrite umul_ok by lia. sret.
  unfold irqs. do 2 f_equal. lia.
Qed.

(** The four fields of a target register hold the mask. *)
Lemma target_fields mask k : 0 <= mask < 256 -> 0 <= k < 4 -> Z.shiftr (fv_value (all_targets mask)) (8 * k) mod 256 = mask.
Proof.
  intros Hm Hk. unfold all_targets. rewrite !fv_value_plus, !fv_value_val by lia. change (2 ^ 8) with 256.
  rewrite (Z.mod_small mask) by lia.
  assert (Hall : forallb (fun m => forallb (fun k => Z.shiftr (Z.lor (Z.lor (Z.lor (Z.shiftl m 24) (Z.shiftl m 16))
    (Z.shiftl m 8)) (Z.shiftl m 0)) (8 * k) mod 256 =? m) (seqZ 0 4)) (seqZ 0 256) = true) by (vm_compute; reflexivity).
  rewrite forallb_forall in Hall. specialize (Hall mask ltac:(apply list_elem_of_In, elem_of_seqZ; lia)).
  rewrite forallb_forall in Hall. specialize (Hall k ltac:(apply list_elem_of_In, elem_of_seqZ; lia)). by apply Z.eqb_eq.
Qed.

(** Writing the first [n] target registers. *)
Lemma route_spec mask n : forall d, (n <= 248)%nat -> 0 <= mask < 256 ->
  let d' := foldl (fun d i => reg_write (ITARGETSR i) (all_targets mask) d) d (seq 0 n) in
  lines d' = lines d /\ own_mask d' = own_mask d /\ forwarding d' = forwarding d /\ (forall x, enabled d' x = enabled d x)
  /\ forall x, 32 <= x < irqs d -> target d' x = if x <? 32 + 4 * Z.of_nat n then mask else target d x.
Proof.
  induction n as [|n IH]; intros d Hn Hm.
  { cbn. do 4 (split; [done|]). intros x Hx. by rewrite (proj2 (Z.ltb_ge _ _)) by lia. }
  rewrite seq_S, foldl_app. cbn [foldl Nat.add]. specialize (IH d ltac:(lia) Hm). cbv zeta in IH. revert IH.
  generalize (foldl (fun d i => reg_write (ITARGETSR i) (all_targets mask) d) d (seq 0 n)). intros e (Hl & Ho & Hf & He & Ht).
  unfold reg_write. destruct (itargetsr_set e n (fv_value (all_targets mask)) ltac:(lia)) as (Hl' & Ho' & Hf' & He' & Ht').
  cbv zeta. rewrite Hl', Ho', Hf'. do 3 (split; [done|]). split; [intros x; by rewrite He'|]. intros x Hx.
  rewrite Ht' by (unfold irqs in *; lia). pose proof (Z.div_mod (x - 32) 4). pose proof (Z.mod_pos_bound (x - 32) 4).
  destruct (Z.eqb_spec ((x - 32) / 4) (Z.of_nat n)).
  - rewrite target_fields by (try apply Z.mod_pos_bound; lia). by rewrite (proj2 (Z.ltb_lt _ _)) by lia.
  - rewrite Ht by done. destruct (Z.ltb_spec x (32 + 4 * Z.of_nat n)), (Z.ltb_spec x (32 + 4 * Z.of_nat (S n))); try done; lia.
Qed.

(** Clearing the enable bits of the blocks [1 .. n]. *)
Lemma disable_spec n : forall d, (n <= 31)%nat ->
  let d' := foldl (fun d i => reg_set (ICENABLER i) (2 ^ 32 - 1) d) d (seq 1 n) in
  same_routing d d' /\ forall x, 0 <= x < irqs d -> enabled d' x = negb ((32 <=? x) && (x <? 32 * (Z.of_nat n + 1))) && enabled d x.
Proof.
  induction n as [|n IH]; intros d Hn.
  { cbn. split; [done|]. intros x Hx. destruct (Z.leb_spec 32 x); cbn [andb]; [|done].
    by rewrite (proj2 (Z.ltb_ge _ _)) by lia. }
  rewrite seq_S, foldl_app. cbn [foldl]. specialize (IH d ltac:(lia)). cbv zeta in IH. revert IH.
  generalize (foldl (fun d i => reg_set (ICENABLER i) (2 ^ 32 - 1) d) d (seq 1 n)). intros e ((Ht & Hl & Ho & Hf) & He).
  destruct (icenabler_set e (1 + n) (2 ^ 32 - 1) ltac:(lia)) as ((Ht' & Hl' & Ho' & Hf') & He'). cbv zeta. split.
  { split; [intros x; by rewrite Ht'|]. by rewrite Hl', Ho', Hf'. }
  intros x Hx. rewrite He' by (unfold irqs in *; lia). rewrite He by done.
  change (2 ^ 32 - 1) with (Z.ones 32). pose proof (Z.div_mod x 32). pose proof (Z.mod_pos_bound x 32).
  rewrite Z.ones_spec_low by lia. rewrite andb_true_r.
  destruct (Z.eqb_spec (x / 32) (Z.of_nat (1 + n))), (Z.leb_spec 32 x), (Z.ltb_spec x (32 * (Z.of_nat n + 1))),
    (Z.ltb_spec x (32 * (Z.of_nat (S n) + 1))); cbn [andb negb]; try done; lia.
Qed.

(** The distributor [d] after its initialisation. *)
Definition routed d d' : Prop :=
  forwarding d' = true /\ lines d' = lines d /\ own_mask d' = own_mask d
  /\ (forall x, 32 <= x < irqs d -> enabled d' x = false)
  /\ (forall x, 0 <= x < 32 -> enabled d' x = enabled d x)
  /\ (forall x, 32 <= x < irqs d - 4 -> target d' x = own_mask d)
  /\ (forall x, irqs d - 4 <= x < irqs d -> target d' x = target d x).

Lemma boot_core_init_spec d :
  (lines d = 0 -> exists m, boot_core_init d = Panic m)
  /\ (lines d <> 0 -> exists d', boot_core_init d = Ret d' /\ routed d d').
Proof.
  unfold boot_core_init, local_gic_target_mask, reg_read. destruct (own_mask_get d) as (v & -> & Hv).
  rewrite field_read_spec, Z.shiftr_0_r by lia. change (2 ^ 8) with 256. rewrite Hv.
  unfold implemented_itargets. rewrite num_irqs_spec. sret. pose proof (lines_range d). pose proof (own_mask_range d).
  split; intros Hl; unfold irqs.
  { rewrite Hl. by eexists. }
  cbn [fst snd]. rewrite (proj2 (Z.leb_le 36 _)) by lia. cbn [assert_ mbind outcome_bind fst snd]. rewrite num_irqs_spec. sret.
  cbn [fst snd]. unfold irqs at 1. rewrite usub_ok by lia. sret. rewrite Z.shiftr_div_pow2 by lia. change (2 ^ 2) with 4.
  replace ((32 * (lines d + 1) - 32) / 4) with (8 * lines d) by (apply Z.div_unique_exact; lia).
  rewrite usub_ok by lia. sret. rewrite (proj2 (Z.leb_le _ 248)) by lia.
  cbn [assert_ mbind outcome_bind fst snd].
  destruct (route_spec (own_mask d) (Z.to_nat (8 * lines d - 1)) d ltac:(lia) ltac:(lia)) as (Hl1 & Ho1 & Hf1 & He1 & Ht1).
  revert Hl1 Ho1 Hf1 He1 Ht1. generalize (foldl (fun d0 i => reg_write (ITARGETSR i) (all_targets (own_mask d)) d0) d
    (seq 0 (Z.to_nat (8 * lines d - 1)))). intros e Hl1 Ho1 Hf1 He1 Ht1.
  rewrite num_irqs_spec. sret. cbn [fst snd]. unfold irqs at 1 2 3. rewrite Hl1, (Z.mul_comm 32), Z.div_mul by lia.
  rewrite (proj2 (Z.leb_le 1 _)), (proj2 (Z.leb_le _ 32)) by lia. cbn [andb assert_ mbind outcome_bind].
  destruct (disable_spec (Z.to_nat (lines d + 1) - 1) e ltac:(lia)) as ((Ht2 & Hl2 & Ho2 & Hf2) & He2).
  revert Ht2 Hl2 Ho2 Hf2 He2. generalize (foldl (fun d0 i => reg_set (ICENABLER i) (2 ^ 32 - 1) d0) e
    (seq 1 (Z.to_nat (lines d + 1) - 1))). intros f Ht2 Hl2 Ho2 Hf2 He2.
  unfold reg_write, SET. rewrite fv_value_val by lia. destruct (ctlr_set f (Z.shiftl (1 mod 2 ^ 1) 0)) as (Ht3 & Hl3 & Ho3 & He3 & Hf3).
  eexists. split; [done|]. split; [by rewrite Hf3|]. split; [by rewrite Hl3, Hl2|]. split; [by rewrite Ho3, Ho2|].
  unfold irqs in *.
  split; [|split; [|split]]; intros x Hx.
  - rewrite He3, He2 by lia. by rewrite (proj2 (Z.leb_le 32 x)), (proj2 (Z.ltb_lt x _)) by lia.
  - rewrite He3, He2 by lia. rewrite (proj2 (Z.leb_gt 32 x)) by lia. cbn [andb negb]. by rewrite He1.
  - rewrite Ht3, Ht2, Ht1 by lia. by rewrite (proj2 (Z.ltb_lt _ _)) by lia.
  - rewrite Ht3, Ht2, Ht1 by lia. by rewrite (proj2 (Z.ltb_ge _ _)) by lia.
Qed.

(** [GicD::enable] enables exactly the interrupt it is given, private or
    shared. *)
Lemma gicd_enable_spec d irq :
  0 <= irq < irqs d ->
  exists d', gicd_enable d irq = Ret d' /\ same_routing d d'
    /\ forall x, 0 <= x < irqs d -> enabled d' x = (x =? irq) || enabled d x.
Proof.
  intros Hirq. pose proof (lines_range d). unfold irqs in *. unfold gicd_enable.
  assert (Hd : irq = 32 * (irq / 32) + irq mod 32) by (apply Z.div_mod; lia). pose proof (Z.mod_pos_bound irq 32).
  assert (Hbit : forall v x, 0 <= x -> Z.testbit (Z.lor v (Z.shiftl 1 (irq mod 32))) (x mod 32)
            = Z.testbit v (x mod 32) || (irq mod 32 =? x mod 32)).
  { intros v x Hx. pose proof (Z.mod_pos_bound x 32). rewrite Z.lor_spec, Z.shiftl_1_l, Z.pow2_bits_eqb by lia. done. }
  assert (Hfin : forall v k d', (forall b, 0 <= b < 32 -> 32 * k + b < 32 * (lines d + 1) -> Z.testbit v b = enabled d (32 * k + b)) ->
    k = irq / 32 -> (forall x, 0 <= x < 32 * (lines d + 1) -> enabled d' x
       = ((x / 32 =? k) && Z.testbit (Z.lor v (Z.shiftl 1 (irq mod 32))) (x mod 32)) || enabled d x) ->
    forall x, 0 <= x < 32 * (lines d + 1) -> enabled d' x = (x =? irq) || enabled d x).
  { intros v k d' Hv -> Hs x Hx. rewrite Hs, Hbit by lia. pose proof (Z.mod_pos_bound x 32). pose proof (Z.div_mod x 32).
    destruct (Z.eqb_spec (x / 32) (irq / 32)) as [Hq|Hq]; cbn [andb].
    - rewrite Hv by lia. rewrite <- Hq. replace (32 * (x / 32) + x mod 32) with x by lia.
      destruct (Z.eqb_spec (irq mod 32) (x mod 32)), (Z.eqb_spec x irq); try lia; by destruct (enabled d x).
    - destruct (Z.eqb_spec x irq); [congruence|done]. }
  rewrite Z.shiftr_div_pow2 by lia. change (2 ^ 5) with 32. destruct (Z.leb_spec irq 31) as [Hp|Hp].
  - destruct (banked_get d) as (v & -> & Hv). destruct (banked_set d (Z.lor v (Z.shiftl 1 (irq mod 32)))) as [Hr Hs].
    eexists. split; [done|]. split; [done|]. apply (Hfin v 0); [|lia|done]. intros b Hb _. by rewrite Hv.
  - rewrite usub_ok by lia. sret. rewrite (proj2 (Z.ltb_lt _ _)) by lia. cbn [assert_ mbind outcome_bind].
    destruct (isenabler_get d (Z.to_nat (irq / 32 - 1))) as (v & -> & Hv); [lia|].
    destruct (isenabler_set d (Z.to_nat (irq / 32 - 1)) (Z.lor v (Z.shiftl 1 (irq mod 32)))) as [Hr Hs]; [lia|].
    rewrite Z2Nat.id in * by lia. replace (irq / 32 - 1 + 1) with (irq / 32) in * by lia.
    eexists. split; [done|]. split; [done|]. by apply (Hfin v (irq / 32)).
Qed.
End gicd_laws.

(** The CPU interface: the priority below which interrupts are signalled,
    whether they are signalled at all, the interrupt that the next read of
    [IAR] acknowledges, and those acknowledged and not completed, the latest
    first. *)
Class GiccView (C : Type) := {
  priority_mask : C -> Z; signalling : C -> bool; pending : C -> option Z; active : C -> list Z;
}.
Class GiccSpec (C : Type) `{Registers GiccReg C, GiccView C} := {
  pending_range c i : pending c = Some i -> 0 <= i < 1020;
  iar_get c : exists v c', reg_get IAR c = (v, c') /\ v mod 1024 = default 1023 (pending c)
    /\ active c' = option_list (pending c) ++ active c /\ priority_mask c' = priority_mask c /\ signalling c' = signalling c;
  eoir_set c v l : active c = v mod 1024 :: l -> let c' := reg_set EOIR v c in
    active c' = l /\ priority_mask c' = priority_mask c /\ signalling c' = signalling c;
  pmr_set c v : let c' := reg_set PMR v c in
    active c' = active c /\ priority_mask c' = v mod 256 /\ signalling c' = signalling c;
  gicc_ctlr_set c v : let c' := reg_set GICC_CTLR v c in
    active c' = active c /\ priority_mask c' = priority_mask c /\ signalling c' = Z.testbit v 0;
}.

Section gic_laws.
Context `{BM : BuildMode, TS : TockSpec} {D C : Type} `{GS : GicdSpec D, CS : GiccSpec C}.
Abbreviation gic := (GicV2 D C).
Implicit Types self : gic.

Lemma gicc_init_spec (c : C) : let c' := gicc_enable (priority_accept_all c) in
  active c' = active c /\ priority_mask c' = 255 /\ signalling c' = true.
Proof.
  unfold gicc_enable, priority_accept_all, reg_write, SET. rewrite !fv_value_val by lia.
  destruct (pmr_set c (Z.shiftl (255 mod 2 ^ 8) 0)) as (Ha & Hp & Hs).
  destruct (gicc_ctlr_set (reg_set PMR (Z.shiftl (255 mod 2 ^ 8) 0) c) (Z.shiftl (1 mod 2 ^ 1) 0)) as (Ha' & Hp' & Hs').
  cbv zeta. rewrite Ha', Hp', Hs', Ha, Hp. done.
Qed.

(** [GicV2::init].  On the boot processor of a machine with shared
    interrupts all of these end up disabled, all but the last four routed to
    the boot processor (those keep the target they had), private interrupts
    keep their state and forwarding is on; without shared interrupts it
    panics.  On any other processor the distributor is left alone.  On both
    the CPU interface signals interrupts of every priority above the lowest,
    and no registration is lost. *)
Theorem gic_init_routes cpu self :
  (cpu = BOOT_CORE_ID -> lines (gicd self) = 0 -> exists m, gic_init cpu self = Panic m)
  /\ (cpu <> BOOT_CORE_ID \/ lines (gicd self) <> 0 -> exists self', gic_init cpu self = Ret self'
       /\ irq_map self' = irq_map self /\ priority_mask (gicc self') = 255 /\ signalling (gicc self') = true
       /\ active (gicc self') = active (gicc self)
       /\ (if cpu =? BOOT_CORE_ID then routed (gicd self) (gicd self') else gicd self' = gicd self)).
Proof.
  destruct (boot_core_init_spec (gicd self)) as [Hp Hr]. unfold gic_init. split.
  - intros -> Hl. destruct (Hp Hl) as [m Hm]. exists m. cbn. by rewrite Hm.
  - intros Hc. destruct (gicc_init_spec (gicc self)) as (Ha & Hpm & Hs). destruct (Z.eqb_spec cpu BOOT_CORE_ID) as [->|].
    + destruct Hr as (d' & -> & Hd'); [by destruct Hc|]. by eexists.
    + by eexists.
Qed.

Lemma register_spec self irq driver :
  0 <= irq < irqs (gicd self) ->
  exists self', register_and_enable_local_irq self irq driver = Ret self' /\ gicc self' = gicc self
    /\ irq_map self' = <[irq := default [] (irq_map self !! irq) ++ [driver]]> (irq_map self)
    /\ same_routing (gicd self) (gicd self')
    /\ forall x, 0 <= x < irqs (gicd self) -> enabled (gicd self') x = (x =? irq) || enabled (gicd self) x.
Proof.
  intros Hirq. unfold register_and_enable_local_irq. destruct (gicd_enable_spec _ _ Hirq) as (d' & -> & Hr & He).
  sret. eexists. split; [done|]. done.
Qed.

(** A pending interrupt with drivers: it is acknowledged, handled by each of
    them in order and completed. *)
Lemma dispatch_spec {S} (handle : S -> nat -> outcome S) self (s : S) i drivers :
  pending (gicc self) = Some i -> irq_map self !! i = Some drivers ->
  match foldM handle s drivers with
  | Ret s' => exists self', handle_pending_irqs handle self s = Ret (self', s')
                /\ active (gicc self') = active (gicc self) /\ irq_map self' = irq_map self /\ gicd self' = gicd self
  | Panic m => handle_pending_irqs handle self s = Panic m
  end.
Proof.
  intros Hi Hl. unfold handle_pending_irqs, pending_irq_number, reg_read. pose proof (pending_range _ _ Hi) as Hr.
  destruct (iar_get (gicc self)) as (v & c' & -> & Hv & Ha & _). rewrite field_read_spec, Z.shiftr_0_r by lia.
  change (2 ^ 10) with 1024. rewrite Hi in *. cbn [option_list app] in Ha. rewrite Hv. change (default 1023 (Some i)) with i.
  rewrite (proj2 (Z.eqb_neq i 1023)) by lia. cbn [irq_map Gic.gicd Gic.gicc]. rewrite Hl.
  destruct (foldM handle s _) as [s'|m]; [|done]. sret. unfold mark_completed, reg_write. rewrite fv_value_val by lia.
  unfold as_u32. rewrite (Z.mod_small i) by lia. rewrite Z.shiftl_0_r. change (2 ^ 10) with 1024. rewrite (Z.mod_small i 1024) by lia.
  destruct (eoir_set c' i (active (gicc self))) as (Ha' & _); [by rewrite Ha, Z.mod_small by lia|].
  eexists. split; [done|]. done.
Qed.

(** Nothing pending, and a pending interrupt nobody registered for. *)
Lemma dispatch_other {S} (handle : S -> nat -> outcome S) self (s : S) :
  (pending (gicc self) = None -> exists self', handle_pending_irqs handle self s = Ret (self', s) /\ active (gicc self') = active (gicc self))
  /\ (forall i, pending (gicc self) = Some i -> irq_map self !! i = None -> exists m, handle_pending_irqs handle self s = Panic m).
Proof.
  unfold handle_pending_irqs, pending_irq_number, reg_read. destruct (iar_get (gicc self)) as (v & c' & -> & Hv & Ha & _).
  rewrite field_read_spec, Z.shiftr_0_r by lia. change (2 ^ 10) with 1024. rewrite Hv. split; [intros Hi|intros i Hi Hl]; rewrite Hi in *.
  - by eexists.
  - pose proof (pending_range _ _ Hi) as Hr. change (default 1023 (Some i)) with i. rewrite (proj2 (Z.eqb_neq i 1023)) by lia.
    cbn [irq_map]. rewrite Hl. by eexists.
Qed.

(** C28. Interrupt dispatch.  When no interrupt is pending nothing happens.  A
    pending interrupt is acknowledged, the handlers of all the drivers
    registered for it run once each in the order of their registration, and
    then it is completed, so that none stays active; when a driver registers
    for an interrupt just before, its handler is the last of them.  An
    interrupt without drivers panics. *)
Theorem irq_dispatch {S} (handle : S -> nat -> outcome S) self (s : S) irq driver :
  0 <= irq < irqs (gicd self) ->
  exists self1, register_and_enable_local_irq self irq driver = Ret self1 /\ enabled (gicd self1) irq = true
    /\ match pending (gicc self1) with
       | None => exists self2, handle_pending_irqs handle self1 s = Ret (self2, s) /\ active (gicc self2) = active (gicc self)
       | Some i =>
           let drivers := default [] (irq_map self !! i) ++ (if i =? irq then [driver] else []) in
           if decide (i <> irq /\ irq_map self !! i = None)
           then exists m, handle_pending_irqs handle self1 s = Panic m
           else match foldM handle s drivers with
                | Ret s' => exists self2, handle_pending_irqs handle self1 s = Ret (self2, s')
                              /\ active (gicc self2) = active (gicc self) /\ irq_map self2 = irq_map self1
                | Panic m => handle_pending_irqs handle self1 s = Panic m
                end
       end.
Proof.
  intros Hirq. destruct (register_spec self irq driver Hirq) as (self1 & Hreg & Hc & Hm & _ & He).
  exists self1. split; [done|]. split; [by rewrite He, Z.eqb_refl by lia|]. rewrite Hc.
  destruct (dispatch_other handle self1 s) as [Hnone Hpanic]. rewrite Hc in *.
  destruct (pending (gicc self)) as [i|] eqn:Hi; [|by apply Hnone]. cbv zeta.
  assert (Hl : irq_map self1 !! i = if decide (i <> irq /\ irq_map self !! i = None) then None
      else Some (default [] (irq_map self !! i) ++ (if i =? irq then [driver] else []))).
  { rewrite Hm. destruct (Z.eqb_spec i irq) as [->|Hne].
    - rewrite lookup_insert_eq. by rewrite decide_False by tauto.
    - rewrite lookup_insert_ne by done. destruct (irq_map self !! i) as [l|] eqn:E.
      + rewrite decide_False by (intros [_ ?]; done). cbn. by rewrite app_nil_r.
      + by rewrite decide_True by done. }
  destruct (decide _); [by apply (Hpanic i)|].
  pose proof (dispatch_spec handle self1 s i _ ltac:(by rewrite Hc) Hl) as Hd. destruct (foldM handle s _) as [s'|m]; [|done].
  destruct Hd as (self2 & Hh & Ha & Hmap & _). exists self2. rewrite Hc in Ha. done.
Qed.
End gic_laws.

(** ** A controller *)

(** The enable bits of all interrupts in one number. *)
Record Dist := mkDist { d_lines : Z; d_mask : Z; d_enabled : Z; d_target : Z -> Z; d_fwd : bool }.
#[export] Instance Dist_view : GicdView Dist := {|
  enabled d x := Z.testbit (d_enabled d) x; target := d_target; forwarding := d_fwd;
  lines d := d_lines d mod 32; own_mask d := d_mask d mod 256;
|}.

Definition block (v k : Z) : Z := Z.shiftl (v mod 2 ^ 32) (32 * k).
Definition with_enabled (d : Dist) (e : Z) : Dist := mkDist (d_lines d) (d_mask d) e (d_target d) (d_fwd d).

#[export] Instance Dist_regs : Registers GicdReg Dist := {|
  reg_get r d := match r with
    | TYPER => (d_lines d mod 32, d)
    | ISENABLER i => (Z.shiftr (d_enabled d) (32 * (Z.of_nat i + 1)) mod 2 ^ 32, d)
    | BANKED_ISENABLER => (d_enabled d mod 2 ^ 32, d)
    | BANKED_ITARGETSR _ => (d_mask d mod 256, d)
    | _ => (0, d)
    end;
  reg_set r v d := match r with
    | GICD_CTLR => mkDist (d_lines d) (d_mask d) (d_enabled d) (d_target d) (Z.testbit v 0)
    | ISENABLER i => with_enabled d (Z.lor (block v (Z.of_nat i + 1)) (d_enabled d))
    | BANKED_ISENABLER => with_enabled d (Z.lor (block v 0) (d_enabled d))
    | ICENABLER i => with_enabled d (Z.ldiff (d_enabled d) (block v (Z.of_nat i)))
    | ITARGETSR i => mkDist (d_lines d) (d_mask d) (d_enabled d)
        (fun x => if (x - 32) / 4 =? Z.of_nat i then (Z.shiftr v (8 * (x mod 4))) mod 256 else d_target d x) (d_fwd d)
    | _ => d
    end;
|}.

Lemma block_bit v k x : 0 <= k -> 0 <= x -> Z.testbit (block v k) x = (x / 32 =? k) && Z.testbit v (x mod 32).
Proof.
  intros Hk Hx. unfold block. rewrite Z.shiftl_spec by done. pose proof (Z.div_mod x 32). pose proof (Z.mod_pos_bound x 32).
  destruct (Z.eqb_spec (x / 32) k) as [<-|Hne]; cbn [andb].
  - rewrite Z.mod_pow2_bits_low by lia. f_equal. lia.
  - destruct (Z.lt_ge_cases x (32 * k)); [apply Z.testbit_neg_r; lia|]. apply Z.mod_pow2_bits_high. nia.
Qed.

#[export] Instance Dist_spec : GicdSpec Dist.
Proof.
  split; intros d; unfold same_routing, irqs; cbn [lines own_mask enabled target forwarding Dist_view].
  - pose proof (Z.mod_pos_bound (d_lines d) 32). lia.
  - apply Z.mod_pos_bound. lia.
  - eexists. split; [done|]. by rewrite Z.mod_mod.
  - eexists. split; [done|]. by rewrite Z.mod_mod.
  - intros i Hi. eexists. split; [done|]. intros b Hb _. rewrite Z.mod_pow2_bits_low, Z.shiftr_spec by lia. f_equal. lia.
  - eexists. split; [done|]. intros b Hb. by rewrite Z.mod_pow2_bits_low by lia.
  - intros i v Hi. split; [done|]. intros x Hx. cbn. by rewrite Z.lor_spec, block_bit by lia.
  - intros v. split; [done|]. intros x Hx. cbn -[Z.div]. by rewrite Z.lor_spec, block_bit by lia.
  - intros i v Hi. split; [done|]. intros x Hx. cbn -[Z.div]. rewrite Z.ldiff_spec, block_bit by lia. apply andb_comm.
  - intros i v Hi. done.
  - done.
Qed.

(** A CPU interface with a queue of pending interrupts. *)
Record Iface := mkIface { c_mask : Z; c_on : bool; c_queue : list Z; c_active : list Z }.
Definition c_pending (c : Iface) : option Z :=
  match c_queue c with i :: _ => if (0 <=? i) && (i <? 1020) then Some i else None | [] => None end.
#[export] Instance Iface_view : GiccView Iface :=
  {| priority_mask := c_mask; signalling := c_on; pending := c_pending; active := c_active |}.
#[export] Instance Iface_regs : Registers GiccReg Iface := {|
  reg_get r c := match r with
    | IAR => (default 1023 (c_pending c), mkIface (c_mask c) (c_on c) (tail (c_queue c)) (option_list (c_pending c) ++ c_active c))
    | _ => (0, c)
    end;
  reg_set r v c := match r with
    | GICC_CTLR => mkIface (c_mask c) (Z.testbit v 0) (c_queue c) (c_active c)
    | PMR => mkIface (v mod 256) (c_on c) (c_queue c) (c_active c)
    | EOIR => mkIface (c_mask c) (c_on c) (c_queue c) (tail (c_active c))
    | IAR => c
    end;
|}.
#[export] Instance Iface_spec : GiccSpec Iface.
Proof.
  assert (Hp : forall c i, c_pending c = Some i -> 0 <= i < 1020).
  { intros c i. unfold c_pending. destruct (c_queue c); [done|]. destruct (_ && _) eqn:E; [|done]. intros [= <-].
    bool_to_prop. lia. }
  split; intros c; try done.
  - apply Hp.
  - eexists _, _. split; [done|]. cbn. destruct (c_pending c) as [i|] eqn:E; [|done]. cbn.
    apply Hp in E. by rewrite Z.mod_small by lia.
  - intros v l Hl. cbn in *. by rewrite Hl.
Qed.

Section concrete.
#[local] Instance debug : BuildMode := true.

Definition gic0 : GicV2 Dist Iface :=
  mkGic (mkDist 2 1 (Z.lor (2 ^ 40) (2 ^ 3)) (fun _ => 9) false) (mkIface 0 false [33; 30] []) {[30 := [7%nat]]}.

Lemma gic_init_routes_witness :
  exists self', gic_init 0 gic0 = Ret self' /\ target (gicd self') 33 = 1 /\ target (gicd self') 92 = 9.
Proof.
  destruct (proj2 (gic_init_routes 0 gic0)) as (self' & Hi & _ & _ & _ & _ & Hr); [by right|].
  destruct Hr as (_ & _ & _ & _ & _ & Ht & Ht'). exists self'. split; [exact Hi|].
  split; [by rewrite Ht by (split; vm_compute; congruence)|by rewrite Ht' by (split; vm_compute; congruence)].
Defined.

Lemma irq_dispatch_witness :
  exists self1 self2, register_and_enable_local_irq gic0 33 8 = Ret self1
    /\ handle_pending_irqs (fun s d => Ret (s ++ [d])) self1 [] = Ret (self2, [8%nat]) /\ active (gicc self2) = [].
Proof.
  destruct (irq_dispatch (fun s d => Ret (s ++ [d])) gic0 [] 33 8) as (self1 & Hreg & _ & Hd); [split; vm_compute; congruence|].
  exists self1. assert (Hc : gicc self1 = gicc gic0) by (by vm_compute in Hreg; simplify_eq).
  rewrite Hc in Hd. destruct Hd as (self2 & Hh & Ha & _). by exists self2.
Defined.
End concrete.
