(* ===== verification/GicV3.v ===== *)
(** * The GICv3 ([drivers/irq/gicv3])

    The driver of the newer interrupt controller, which the build leaves out
    at present: a distributor for shared interrupts, a redistributor per
    processor for private ones, and a CPU interface in system registers.
    Writes take effect with a delay that the registers announce (RWP), so the
    driver waits for them.  The hardware is the interface [Registers] with the
    behaviour of the GICv3 specification. *)

From S2P Require Import Prelude Mmio Gic.

(** ** Registers *)

(** [RegisterBlock] of the distributor, as far as the driver uses it. *)
Inductive G3dReg :=
| D_CTLR | D_TYPER | D_IGROUPR (i : nat) | D_ISENABLER (i : nat) | D_ICENABLER (i : nat) | D_ICPENDR (i : nat) | D_IGRPMODR (i : nat)
| D_IROUTER (i : nat).

(** [RdBasedRegisterBlock] and [SgiBasedRegisterBlock] of the redistributor. *)
Inductive G3rReg := R_CTLR | R_WAKER | R_IGROUPR0 | R_ISENABLER0 | R_ICENABLER0 | R_IPRIORITYR (i : nat).

(** The offsets as they are declared. *)
Definition gicd3_map : list Entry :=
  [Reg 0x0000 4; Reg 0x0004 4; Reg 0x0008 4; Reg 0x0040 4; Reg 0x0048 4; Reg 0x0080 (4 * 32); Reg 0x0100 (4 * 32); Reg 0x0180 (4 * 32);
   Reg 0x0200 (4 * 32); Reg 0x0280 (4 * 32); Reg 0x0400 (4 * 255); Reg 0x0820 (4 * 248); Reg 0x0c00 (4 * 64); Reg 0x0d00 (4 * 32);
   Reg 0x6000 (8 * 1020)].
Definition gicr_rd_map : list Entry := [Reg 0x0000 4; Reg 0x0008 4; Reg 0x0014 4].
Definition gicr_sgi_map : list Entry := [Reg 0x0080 4; Reg 0x0100 4; Reg 0x0180 4; Reg 0x0280 4; Reg 0x0400 (4 * 8); Reg 0x0c04 4].

(** The fields of [register_bitfields!]. *)
Definition gicd3_fields : Fields string :=
  [("CTLR", [("EnableGrp0", (0, 1)); ("EnableGrp1", (1, 1)); ("ARE", (4, 1)); ("RWP", (31, 1))]); ("CLRSPI_NSR", [("INTID", (0, 12))]);
   ("TYPER", [("ITLinesNumber", (0, 5)); ("CPUNumber", (5, 3)); ("ESPI_range", (27, 5))]);
   ("ITARGETSR", [("Offset3", (24, 8)); ("Offset2", (16, 8)); ("Offset1", (8, 8)); ("Offset0", (0, 8))])]%string.
Definition gicr_fields : Fields string :=
  [("CTLR", [("EnableLPIs", (0, 1)); ("RWP", (3, 1))]); ("WAKER", [("ProcessorSleep", (1, 1)); ("ChildrenAsleep", (2, 1))])]%string.

(** The fields are disjoint; the maps leave out the padding between the
    registers. *)
Lemma gicv3_fields_ok : fields_ok 32 gicd3_fields = true /\ fields_ok 32 gicr_fields = true.
Proof. done. Qed.
Lemma gicv3_maps_broken :
  contiguous gicd3_map 0xfffc = false /\ contiguous gicr_rd_map 0x0100 = false /\ contiguous gicr_sgi_map 0x0E00 = false.
Proof. done. Qed.

(** ** Waiting for writes *)

(** The loops of [wait_for_rwp]: [count] starts at a million, and the loop
    panics when it becomes negative. *)
Definition RWP_COUNT : nat := Z.to_nat 1000000.
Fixpoint rwp_loop {D} (busy : D -> bool * D) (count : nat) (d : D) : outcome D :=
  let '(b, d) := busy d in
  if b : bool then match count with O => Panic "arm_gicv3: rwp timeout" | S count => rwp_loop busy count d end else Ret d.

Section distributor.
Context `{BuildMode, Tock} {D : Type} `{Registers G3dReg D}.
Implicit Types d : D.

(** [Registers::num_irqs], [Registers::wait_for_rwp] *)
Definition num_irqs3 d : outcome (Z * D) :=
  let '(n, d) := reg_read D_TYPER 0 5 d in
  n ← uadd n 1; n ← umul n 32; Ret (n, d).
Definition gicd_wait d : outcome D := rwp_loop (fun d => let '(v, d) := reg_read D_CTLR 31 1 d in (negb (v =? 0), d)) RWP_COUNT d.

(** The loops of [boot_core_init]: over the blocks of 32 shared interrupts,
    and over the shared interrupts. *)
Definition mask_blocks (n : nat) d : outcome D :=
  foldM (fun d i =>
    _ ← assert_ (i <? 32)%nat "index out of bounds";
    let d := reg_set (D_ICENABLER i) (2 ^ 32 - 1) d in
    let d := reg_set (D_ICPENDR i) (2 ^ 32 - 1) d in
    let d := reg_set (D_IGROUPR i) (2 ^ 32 - 1) d in
    Ret (reg_set (D_IGRPMODR i) (2 ^ 32 - 1) d)) d (seq 1 (n - 1)).
Definition route_all (n : nat) d : outcome D :=
  foldM (fun d i => _ ← assert_ (i <? 1020)%nat "index out of bounds"; Ret (reg_set (D_IROUTER i) 0 d)) d (seq 32 (n - 32)).

(** [GicD::boot_core_init] *)
Definition boot_core_init3 d : outcome D :=
  let d := reg_set D_CTLR 0 d in
  d ← gicd_wait d;
  x ← num_irqs3 d;
  let '(gic_max_int, d) := x in
  d ← mask_blocks (Z.to_nat (gic_max_int / 32)) d;
  d ← gicd_wait d;
  let d := reg_write D_CTLR (fv_plus (fv_plus (SET 0) (SET 1)) (SET 4)) d in
  d ← route_all (Z.to_nat gic_max_int) d;
  gicd_wait d.

(** [GicD::enable] *)
Definition gicd3_enable d (irq_num : Z) : outcome D :=
  let enable_reg_index := Z.shiftr irq_num 5 in
  let enable_bit := Z.shiftl 1 (irq_num mod 32) in
  _ ← assert_ (enable_reg_index <? 32) "index out of bounds";
  let '(v, d) := reg_get (D_ISENABLER (Z.to_nat enable_reg_index)) d in
  Ret (reg_set (D_ISENABLER (Z.to_nat enable_reg_index)) (Z.lor v enable_bit) d).
End distributor.

Section redistributor.
Context `{Tock} {D : Type} `{Registers G3rReg D}.
Implicit Types d : D.

(** [GicR::wait_for_rwp], [GicR::enable] *)
Definition gicr_wait d : outcome D := rwp_loop (fun d => let '(v, d) := reg_read R_CTLR 3 1 d in (negb (v =? 0), d)) RWP_COUNT d.
Definition gicr_enable d (irq_num : Z) : outcome D := gicr_wait (reg_set R_ISENABLER0 (Z.shiftl 1 irq_num) d).

(** [GicR::wakeup]; the loop has no bound in the source and takes [fuel]. *)
Fixpoint awake_loop (fuel : nat) d : outcome D :=
  let '(v, d) := reg_read R_WAKER 2 1 d in
  if v =? 0 then Ret d else match fuel with O => Panic "still asleep" | S fuel => awake_loop fuel d end.
Definition wakeup (fuel : nat) d : outcome D := awake_loop fuel (reg_write R_WAKER (CLEAR 1 1) d).

(** [GicR::init] *)
Definition PR_SGI : Z := Z.lor (Z.lor (Z.lor (Z.shiftl 0x90 24) (Z.shiftl 0x90 16)) (Z.shiftl 0x90 8)) 0x90.
Definition PR_PPI : Z := Z.lor (Z.lor (Z.lor (Z.shiftl 0xa0 24) (Z.shiftl 0xa0 16)) (Z.shiftl 0xa0 8)) 0xa0.
Definition gicr_init (fuel : nat) d : outcome D :=
  d ← wakeup fuel d;
  let d := foldl (fun d i => reg_set (R_IPRIORITYR i) PR_SGI d) d (seq 0 4) in
  let d := foldl (fun d i => reg_set (R_IPRIORITYR i) PR_PPI d) d (seq 4 4) in
  let d := reg_set R_ICENABLER0 0xffff0000 d in
  let d := reg_set R_ISENABLER0 0x0000ffff d in
  let d := reg_set R_IGROUPR0 0xffffffff d in
  gicr_wait d.
End redistributor.

(** ** The system registers and [GicV3] *)

(** The [ICC_*] registers of the crate [aarch64]. *)
Class Icc (C : Type) := {
  get_sre : C -> bool; set_sre : bool -> C -> C; set_priority : Z -> C -> C; set_eoi_mode : bool -> C -> C;
  set_igrpen1 : bool -> C -> C; get_pending_interrupt : C -> Z * C; eoir_completed : Z -> C -> C;
}.

Record GicV3 (D R C : Type) := mkGic3 { g3_gicd : D; g3_gicr : R; g3_icc : C; g3_map : gmap Z (list nat) }.
Arguments mkGic3 {D R C}.
Arguments g3_gicd {D R C}.
Arguments g3_gicr {D R C}.
Arguments g3_icc {D R C}.
Arguments g3_map {D R C}.

Section gic.
Context `{BuildMode, Tock} {D R C : Type} `{Registers G3dReg D, Registers G3rReg R, Icc C}.
Abbreviation gic := (GicV3 D R C).
Implicit Types self : gic.

(** [GicV3::new], [GicV3::gicc_init] *)
Definition gic3_new (d : D) (r : R) (c : C) : gic := mkGic3 d r c ∅.
Definition gicc3_init (c : C) : C :=
  let c := if negb (get_sre c) then set_sre true c else c in
  set_igrpen1 true (set_eoi_mode true (set_priority 0xff c)).

(** [Driver::init] on the processor [cpu_id]. *)
Definition gic3_init (fuel : nat) (cpu_id : Z) self : outcome gic :=
  d ← (if cpu_id =? BOOT_CORE_ID then boot_core_init3 (g3_gicd self) else Ret (g3_gicd self));
  r ← gicr_init fuel (g3_gicr self);
  Ret (mkGic3 d r (gicc3_init (g3_icc self)) (g3_map self)).

(** [IrqManager::register_and_enable_local_irq] *)
Definition register3 self (irq_num : Z) (driver : nat) : outcome gic :=
  let map := <[irq_num := default [] (g3_map self !! irq_num) ++ [driver]]> (g3_map self) in
  if irq_num <=? 31 then r ← gicr_enable (g3_gicr self) irq_num; Ret (mkGic3 (g3_gicd self) r (g3_icc self) map)
  else d ← gicd3_enable (g3_gicd self) irq_num; Ret (mkGic3 d (g3_gicr self) (g3_icc self) map).

(** [IrqManager::handle_pending_irqs]; [handle] is [handle_interrupt] of the
    drivers, on the state [S] of the rest of the kernel. *)
Definition handle_pending3 {S} (handle : S -> nat -> outcome S) self (s : S) : outcome (gic * S) :=
  let '(irq_num, c) := get_pending_interrupt (g3_icc self) in
  let self := mkGic3 (g3_gicd self) (g3_gicr self) c (g3_map self) in
  if irq_num =? 1023 then Ret (self, s)
  else
    match g3_map self !! irq_num with
    | Some drivers =>
        s ← foldM handle s drivers;
        Ret (mkGic3 (g3_gicd self) (g3_gicr self) (eoir_completed (as_u32 irq_num) (g3_icc self)) (g3_map self), s)
    | None => Panic "No handler registered for IRQ"
    end.
End gic.

(** ** The hardware *)

(** A field of one bit that is not zero. *)
Lemma flag_read `{TockSpec} v o : 0 <= o -> negb (field_read o 1 v =? 0) = Z.testbit v o.
Proof.
  intros Ho. rewrite field_read_spec by lia. change (2 ^ 1) with 2. rewrite <- (Z.bit0_mod (Z.shiftr v o)), Z.shiftr_spec by lia.
  rewrite Z.add_0_l. by destruct (Z.testbit v o).
Qed.

(** The loops end when the flag is lowered in time, and panic otherwise. *)
Section waiting.
Context {D : Type} (busy : D -> bool * D) (left_ : D -> nat) (R : D -> D -> Prop) `{!PreOrder R}.
Hypothesis busy_read : forall d, exists d', busy d = (negb (left_ d =? 0)%nat, d') /\ R d d' /\ left_ d' = pred (left_ d).

Lemma rwp_loop_done count : forall d, (left_ d <= count)%nat -> exists d', rwp_loop busy count d = Ret d' /\ R d d'.
Proof.
  induction count as [|count IH]; intros d Hd; cbn [rwp_loop]; destruct (busy_read d) as (d' & -> & HR & Hl);
    destruct (Nat.eqb_spec (left_ d) 0) as [|Hn]; cbn [negb]; [by exists d'|lia|by exists d'|].
  destruct (IH d' ltac:(lia)) as (e & -> & He). exists e. split; [done|]. by transitivity d'.
Qed.
Lemma rwp_loop_timeout count : forall d, (count < left_ d)%nat -> exists m, rwp_loop busy count d = Panic m.
Proof.
  induction count as [|count IH]; intros d Hd; cbn [rwp_loop]; destruct (busy_read d) as (d' & -> & HR & Hl);
    rewrite (proj2 (Nat.eqb_neq _ _)) by lia; cbn [negb]; [by eexists|]. apply IH. lia.
Qed.
End waiting.

(** The bits the distributor keeps for every interrupt, the affinity it is
    routed to, which of the bits 0, 1 and 4 of the control register are set,
    the lines, and the number of reads for which a write stays pending. *)
Inductive Bank := BEnabled | BPending | BGroup | BModifier.
Class G3dView (D : Type) := {
  d3_bit : Bank -> D -> Z -> bool; d3_router : D -> Z -> Z; d3_on : D -> Z -> bool; d3_lines : D -> Z; d3_busy : D -> nat;
}.
Definition irqs3 `{G3dView D} (d : D) : Z := 32 * (d3_lines d + 1).
Definition same3 `{G3dView D} (d d' : D) : Prop :=
  (forall b x, d3_bit b d' x = d3_bit b d x) /\ (forall x, d3_router d' x = d3_router d x) /\ (forall b, d3_on d' b = d3_on d b)
  /\ d3_lines d' = d3_lines d.

(** What a word written to a register of bits does to them: the bank, the
    block of 32 interrupts, and the new bit from the one written and the old. *)
Definition effect (r : G3dReg) : option (Bank * nat * (bool -> bool -> bool)) :=
  match r with
  | D_ISENABLER i => Some (BEnabled, i, orb)
  | D_ICENABLER i => Some (BEnabled, i, fun w o => negb w && o)
  | D_ICPENDR i => Some (BPending, i, fun w o => negb w && o)
  | D_IGROUPR i => Some (BGroup, i, fun w _ => w)
  | D_IGRPMODR i => Some (BModifier, i, fun w _ => w)
  | _ => None
  end.
#[export] Instance Bank_eq : EqDecision Bank.
Proof. solve_decision. Defined.

Class G3dSpec (D : Type) `{Registers G3dReg D, G3dView D} := {
  d3_lines_range d : 0 <= d3_lines d <= 31;
  d3_typer d : exists v, reg_get D_TYPER d = (v, d) /\ v mod 32 = d3_lines d;
  d3_rwp d : exists v d', reg_get D_CTLR d = (v, d') /\ Z.testbit v 31 = negb (d3_busy d =? 0)%nat /\ same3 d d' /\ d3_busy d' = pred (d3_busy d);
  d3_isenabler d i : (0 < i < 32)%nat -> exists v, reg_get (D_ISENABLER i) d = (v, d)
    /\ forall b, 0 <= b < 32 -> 32 * Z.of_nat i + b < irqs3 d -> Z.testbit v b = d3_bit BEnabled d (32 * Z.of_nat i + b);
  d3_bank_set d r b i f v : effect r = Some (b, i, f) -> (0 < i < 32)%nat -> let d' := reg_set r v d in
    (forall b' x, 0 <= x < irqs3 d -> d3_bit b' d' x =
       if decide (b' = b) then if x / 32 =? Z.of_nat i then f (Z.testbit v (x mod 32)) (d3_bit b d x) else d3_bit b d x else d3_bit b' d x)
    /\ (forall x, d3_router d' x = d3_router d x) /\ (forall c, d3_on d' c = d3_on d c) /\ d3_lines d' = d3_lines d;
  (* the routing registers only exist once affinity routing is enabled *)
  d3_router_set d i v : d3_on d 4 = true -> (32 <= i < 1020)%nat -> let d' := reg_set (D_IROUTER i) v d in
    (forall b x, d3_bit b d' x = d3_bit b d x) /\ (forall c, d3_on d' c = d3_on d c) /\ d3_lines d' = d3_lines d
    /\ forall x, d3_router d' x = if x =? Z.of_nat i then v else d3_router d x;
  d3_ctlr_set d v : let d' := reg_set D_CTLR v d in
    (forall b x, d3_bit b d' x = d3_bit b d x) /\ d3_lines d' = d3_lines d
    /\ forall c, c ∈ [0; 1; 4] -> Z.testbit v c = true -> d3_on d' c = true;
}.

Section distributor_laws.
Context `{BM : BuildMode, TS : TockSpec} {D : Type} `{GS : G3dSpec D}.
Implicit Types d : D.

#[local] Instance same3_preorder : PreOrder (same3 (D := D)).
Proof.
  split; [done|]. intros x y z (E1 & E2 & E3 & E4) (F1 & F2 & F3 & F4).
  split; [|split; [|split]]; intros; etrans; eauto.
Qed.

Lemma gicd_wait_read d :
  exists d', (let '(v, d) := reg_read D_CTLR 31 1 d in (negb (v =? 0), d)) = (negb (d3_busy d =? 0)%nat, d') /\ same3 d d' /\ d3_busy d' = pred (d3_busy d).
Proof.
  unfold reg_read. destruct (d3_rwp d) as (v & d' & -> & Hv & Hs & Hb). exists d'. by rewrite flag_read, Hv by lia.
Qed.

Lemma num_irqs3_spec d : num_irqs3 d = Ret (irqs3 d, d).
Proof.
  unfold num_irqs3, reg_read. destruct (d3_typer d) as (v & -> & Hv). rewrite field_read_spec, Z.shiftr_0_r by lia.
  change (2 ^ 5) with 32. rewrite Hv. pose proof (d3_lines_range d). rewrite uadd_ok by lia. sret. rewrite umul_ok by lia. sret.
  unfold irqs3. do 2 f_equal. lia.
Qed.

(** A write that is never finished stops the kernel. *)
Lemma gicd_wait_timeout d : (RWP_COUNT < d3_busy d)%nat -> exists m, gicd_wait d = Panic m.
Proof. apply (rwp_loop_timeout _ d3_busy same3 gicd_wait_read). Qed.

(** From here on every write is finished within a million reads. *)
Hypothesis settles : forall d, (d3_busy d <= RWP_COUNT)%nat.

Lemma gicd_wait_spec d : exists d', gicd_wait d = Ret d' /\ same3 d d'.
Proof. apply (rwp_loop_done _ d3_busy same3 gicd_wait_read), settles. Qed.

(** The bits after the masking of the blocks below [n]. *)
Definition masked_bit (b : Bank) : bool := match b with BEnabled | BPending => false | BGroup | BModifier => true end.
Definition masked (n : Z) d d' : Prop :=
  (forall b x, 0 <= x < irqs3 d -> d3_bit b d' x = if (32 <=? x) && (x <? 32 * n) then masked_bit b else d3_bit b d x)
  /\ (forall x, d3_router d' x = d3_router d x) /\ (forall c, d3_on d' c = d3_on d c) /\ d3_lines d' = d3_lines d.

Lemma mask_block d i : (0 < i < 32)%nat ->
  let d1 := reg_set (D_ICENABLER i) (2 ^ 32 - 1) d in let d2 := reg_set (D_ICPENDR i) (2 ^ 32 - 1) d1 in
  let d3 := reg_set (D_IGROUPR i) (2 ^ 32 - 1) d2 in let d4 := reg_set (D_IGRPMODR i) (2 ^ 32 - 1) d3 in
  (forall b x, 0 <= x < irqs3 d -> d3_bit b d4 x = if x / 32 =? Z.of_nat i then masked_bit b else d3_bit b d x)
  /\ (forall x, d3_router d4 x = d3_router d x) /\ (forall c, d3_on d4 c = d3_on d c) /\ d3_lines d4 = d3_lines d.
Proof.
  intros Hi d1 d2 d3 d4.
  destruct (d3_bank_set d (D_ICENABLER i) _ i _ (2 ^ 32 - 1) eq_refl Hi) as (B1 & R1 & O1 & L1).
  destruct (d3_bank_set d1 (D_ICPENDR i) _ i _ (2 ^ 32 - 1) eq_refl Hi) as (B2 & R2 & O2 & L2).
  destruct (d3_bank_set d2 (D_IGROUPR i) _ i _ (2 ^ 32 - 1) eq_refl Hi) as (B3 & R3 & O3 & L3).
  destruct (d3_bank_set d3 (D_IGRPMODR i) _ i _ (2 ^ 32 - 1) eq_refl Hi) as (B4 & R4 & O4 & L4).
  fold d1 in B1, R1, O1, L1. fold d2 in B2, R2, O2, L2. fold d3 in B3, R3, O3, L3. fold d4 in B4, R4, O4, L4.
  split; [|split; [intros; by rewrite R4, R3, R2, R1|split; [intros; by rewrite O4, O3, O2, O1|by rewrite L4, L3, L2, L1]]].
  intros b x Hx. unfold irqs3 in *. rewrite B4, !B3, !B2, !B1 by (rewrite ?L3, ?L2, ?L1; lia).
  change (2 ^ 32 - 1) with (Z.ones 32). pose proof (Z.mod_pos_bound x 32). rewrite Z.ones_spec_low by lia. cbn [negb andb].
  destruct b; cbn; by destruct (x / 32 =? Z.of_nat i).
Qed.

Lemma mask_blocks_spec n : forall d, (n <= 31)%nat -> exists d', mask_blocks (S n) d = Ret d' /\ masked (Z.of_nat (S n)) d d'.
Proof.
  unfold mask_blocks. cbn [Nat.sub]. rewrite Nat.sub_0_r. induction n as [|n IH]; intros d Hn.
  { exists d. split; [done|]. split; [|done]. intros b x Hx. destruct (Z.leb_spec 32 x), (Z.ltb_spec x (32 * Z.of_nat 1)); try done; lia. }
  destruct (IH d ltac:(lia)) as (e & He & Hb & Hr & Ho & Hl). rewrite seq_S, foldM_app, He. cbn [mbind outcome_bind foldM].
  change (1 + n)%nat with (S n). rewrite (proj2 (Nat.ltb_lt (S n) 32)) by lia. cbn [assert_ mbind outcome_bind]. eexists. split; [done|].
  destruct (mask_block e (S n) ltac:(lia)) as (Hb' & Hr' & Ho' & Hl').
  split; [|split; [intros; by rewrite Hr'|split; [intros; by rewrite Ho'|by rewrite Hl']]].
  intros b x Hx. rewrite Hb' by (unfold irqs3 in *; lia). rewrite Hb by done. pose proof (Z.div_mod x 32). pose proof (Z.mod_pos_bound x 32).
  destruct (Z.eqb_spec (x / 32) (Z.of_nat (S n))), (Z.leb_spec 32 x), (Z.ltb_spec x (32 * Z.of_nat (S n))),
    (Z.ltb_spec x (32 * Z.of_nat (S (S n)))); cbn [andb]; try done; try lia; by destruct b.
Qed.
(** Routing the interrupts up to [n], once affinity routing is on. *)
Lemma route_all_spec n : forall d, d3_on d 4 = true -> (n <= 988)%nat -> exists d', route_all (32 + n) d = Ret d'
  /\ (forall b x, d3_bit b d' x = d3_bit b d x) /\ (forall c, d3_on d' c = d3_on d c) /\ d3_lines d' = d3_lines d
  /\ forall x, 32 <= x -> d3_router d' x = if x <? 32 + Z.of_nat n then 0 else d3_router d x.
Proof.
  unfold route_all. rewrite Nat.add_comm, Nat.add_sub. induction n as [|n IH]; intros d Hare Hn.
  { exists d. do 4 (split; [done|]). intros x Hx. by rewrite (proj2 (Z.ltb_ge _ _)) by lia. }
  destruct (IH d Hare ltac:(lia)) as (e & He & Hb & Ho & Hl & Hr). rewrite seq_S, foldM_app, He. cbn [mbind outcome_bind foldM].
  rewrite (proj2 (Nat.ltb_lt _ _)) by lia. cbn [assert_ mbind outcome_bind]. eexists. split; [done|].
  destruct (d3_router_set e (32 + n) 0 ltac:(by rewrite Ho) ltac:(lia)) as (Hb' & Ho' & Hl' & Hr').
  split; [intros; by rewrite Hb'|]. split; [intros; by rewrite Ho'|]. split; [by rewrite Hl'|].
  intros x Hx. rewrite Hr', Hr by lia.
  destruct (Z.eqb_spec x (Z.of_nat (32 + n))), (Z.ltb_spec x (32 + Z.of_nat n)), (Z.ltb_spec x (32 + Z.of_nat (S n))); try done; lia.
Qed.

(** There are 1020 routing registers. *)
Lemma route_all_panic n d : d3_on d 4 = true -> (1020 < n)%nat -> exists m, route_all n d = Panic m.
Proof.
  intros Hare Hn. destruct (route_all_spec 988 d Hare ltac:(lia)) as (e & He & _). unfold route_all in *.
  replace (n - 32)%nat with (988 + S (n - 1021))%nat by lia. rewrite seq_app, foldM_app.
  change (32 + 988 - 32)%nat with 988%nat in He. rewrite He. by eexists.
Qed.

(** The distributor [d] after its initialisation. *)
Definition routed3 d d' : Prop :=
  d3_on d' 0 = true /\ d3_on d' 1 = true /\ d3_on d' 4 = true /\ d3_lines d' = d3_lines d
  /\ (forall x, 32 <= x < irqs3 d -> d3_bit BEnabled d' x = false /\ d3_bit BPending d' x = false /\ d3_bit BGroup d' x = true
       /\ d3_router d' x = 0)
  /\ (forall b x, 0 <= x < 32 -> d3_bit b d' x = d3_bit b d x).

(** The distributor up to the routing: disabled, masked and enabled again. *)
Lemma boot_core_prefix d : exists e, (forall k : D -> outcome D,
    (d1 ← gicd_wait (reg_set D_CTLR 0 d); x ← num_irqs3 d1; let '(n, d2) := x in d3 ← mask_blocks (Z.to_nat (n / 32)) d2; d4 ← gicd_wait d3;
     d5 ← route_all (Z.to_nat n) (reg_write D_CTLR (fv_plus (fv_plus (SET 0) (SET 1)) (SET 4)) d4); k d5)
    = (d5 ← route_all (Z.to_nat (irqs3 d)) e; k d5))
  /\ d3_lines e = d3_lines d /\ (forall c, c ∈ [0; 1; 4] -> d3_on e c = true)
  /\ forall b x, 0 <= x < irqs3 d -> d3_bit b e x = if 32 <=? x then masked_bit b else d3_bit b d x.
Proof.
  destruct (d3_ctlr_set d 0) as (Hb0 & Hl0 & _). pose proof (d3_lines_range d).
  destruct (gicd_wait_spec (reg_set D_CTLR 0 d)) as (d1 & -> & Hb1 & _ & _ & Hl1). cbn [mbind outcome_bind]. rewrite num_irqs3_spec.
  cbn [mbind outcome_bind]. unfold irqs3. rewrite Hl1, Hl0, (Z.mul_comm 32), Z.div_mul by lia.
  replace (Z.to_nat (d3_lines d + 1)) with (S (Z.to_nat (d3_lines d))) by lia.
  destruct (mask_blocks_spec (Z.to_nat (d3_lines d)) d1 ltac:(lia)) as (d3 & -> & Hb3 & _ & _ & Hl3). cbn [mbind outcome_bind].
  destruct (gicd_wait_spec d3) as (d4 & -> & Hb4 & _ & _ & Hl4). cbn [mbind outcome_bind].
  unfold reg_write, SET. rewrite !fv_value_plus, !fv_value_val by lia.
  destruct (d3_ctlr_set d4 (Z.lor (Z.lor (Z.shiftl (1 mod 2 ^ 1) 0) (Z.shiftl (1 mod 2 ^ 1) 1)) (Z.shiftl (1 mod 2 ^ 1) 4))) as (Hb5 & Hl5 & Ho5).
  eexists. split; [done|]. split; [by rewrite Hl5, Hl4, Hl3, Hl1|]. split.
  { intros c Hc. apply Ho5; [done|]. rewrite !elem_of_cons in Hc. by destruct Hc as [->|[->|[->|?%elem_of_nil]]]. }
  intros b x Hx. rewrite Hb5, Hb4, Hb3, Hb1, Hb0 by (unfold irqs3; rewrite Hl1, Hl0; lia).
  rewrite (proj2 (Z.ltb_lt _ _)) by lia. by rewrite andb_true_r.
Qed.

Lemma boot_core_init3_spec d :
  (d3_lines d = 31 -> exists m, boot_core_init3 d = Panic m)
  /\ (d3_lines d <> 31 -> exists d', boot_core_init3 d = Ret d' /\ routed3 d d').
Proof.
  destruct (boot_core_prefix d) as (e & Hpre & Hl & Ho & Hb). unfold boot_core_init3. rewrite (Hpre gicd_wait).
  pose proof (d3_lines_range d). assert (Hare : d3_on e 4 = true) by (apply Ho; set_solver). unfold irqs3. split; intros H31.
  - destruct (route_all_panic (Z.to_nat (32 * (d3_lines d + 1))) e Hare ltac:(lia)) as [m ->]. by exists m.
  - destruct (route_all_spec (Z.to_nat (32 * d3_lines d)) e Hare ltac:(lia)) as (f & Hf & Hbf & Hof & Hlf & Hrf).
    replace (Z.to_nat (32 * (d3_lines d + 1))) with (32 + Z.to_nat (32 * d3_lines d))%nat by lia. rewrite Hf. cbn [mbind outcome_bind].
    destruct (gicd_wait_spec f) as (d' & -> & Hb' & Hr' & Ho' & Hl'). exists d'. split; [done|]. unfold routed3, irqs3.
    do 3 (split; [rewrite Ho', Hof; apply Ho; set_solver|]). split; [by rewrite Hl', Hlf|]. split.
    + intros x Hx. rewrite !Hb', !Hbf, !Hb, Hr', Hrf by (unfold irqs3; lia).
      by rewrite (proj2 (Z.leb_le _ _)), (proj2 (Z.ltb_lt _ _)) by lia.
    + intros b x Hx. rewrite Hb', Hbf, Hb by (unfold irqs3; lia). by rewrite (proj2 (Z.leb_gt _ _)) by lia.
Qed.
(** [GicD::enable] enables the shared interrupt it is given and no other. *)
Lemma gicd3_enable_spec d irq : 32 <= irq < irqs3 d ->
  exists d', gicd3_enable d irq = Ret d' /\ d3_lines d' = d3_lines d /\ (forall x, d3_router d' x = d3_router d x)
    /\ forall b x, 0 <= x < irqs3 d -> d3_bit b d' x = (bool_decide (b = BEnabled) && (x =? irq)) || d3_bit b d x.
Proof.
  intros Hirq. pose proof (d3_lines_range d). unfold irqs3 in *. unfold gicd3_enable. rewrite Z.shiftr_div_pow2 by lia. change (2 ^ 5) with 32.
  pose proof (Z.div_mod irq 32). pose proof (Z.mod_pos_bound irq 32).
  rewrite (proj2 (Z.ltb_lt _ _)) by lia. cbn [assert_ mbind outcome_bind].
  destruct (d3_isenabler d (Z.to_nat (irq / 32)) ltac:(lia)) as (v & -> & Hv).
  destruct (d3_bank_set d (D_ISENABLER (Z.to_nat (irq / 32))) _ _ _ (Z.lor v (Z.shiftl 1 (irq mod 32))) eq_refl ltac:(lia))
    as (Hb & Hr & Ho & Hl).
  eexists. split; [done|]. split; [done|]. split; [done|]. intros b x Hx. rewrite Hb by (unfold irqs3; lia).
  rewrite Z2Nat.id in * by lia. case_bool_decide as Hbe; [subst b; rewrite decide_True by done|by rewrite decide_False]. cbn [andb].
  pose proof (Z.div_mod x 32). pose proof (Z.mod_pos_bound x 32). rewrite Z.lor_spec, Z.shiftl_1_l, Z.pow2_bits_eqb by lia.
  destruct (Z.eqb_spec (x / 32) (irq / 32)) as [Hq|Hq].
  - rewrite Hv by (unfold irqs3; lia). rewrite <- Hq. replace (32 * (x / 32) + x mod 32) with x by lia.
    destruct (Z.eqb_spec (irq mod 32) (x mod 32)), (Z.eqb_spec x irq); try lia; by destruct (d3_bit BEnabled d x).
  - by destruct (Z.eqb_spec x irq); [congruence|].
Qed.
End distributor_laws.

(** The redistributor: the enable and group bits and the priority of the
    private interrupts, whether the processor asks it to sleep, and the number
    of reads for which it stays asleep and a write pending. *)
Class G3rView (D : Type) := {
  r3_enabled : D -> Z -> bool; r3_group : D -> Z -> bool; r3_priority : D -> Z -> Z;
  r3_sleep : D -> bool; r3_asleep : D -> nat; r3_busy : D -> nat;
}.
Definition same3r `{G3rView D} (d d' : D) : Prop :=
  (forall x, r3_enabled d' x = r3_enabled d x) /\ (forall x, r3_group d' x = r3_group d x) /\ (forall x, r3_priority d' x = r3_priority d x)
  /\ r3_sleep d' = r3_sleep d.

Class G3rSpec (D : Type) `{Registers G3rReg D, G3rView D} := {
  r3_rwp d : exists v d', reg_get R_CTLR d = (v, d') /\ Z.testbit v 3 = negb (r3_busy d =? 0)%nat /\ same3r d d' /\ r3_busy d' = pred (r3_busy d);
  r3_waker d : exists v d', reg_get R_WAKER d = (v, d') /\ Z.testbit v 2 = negb (r3_asleep d =? 0)%nat /\ same3r d d'
    /\ (r3_sleep d = false -> r3_asleep d' = pred (r3_asleep d));
  r3_waker_set d v : let d' := reg_set R_WAKER v d in r3_sleep d' = Z.testbit v 1
    /\ (forall x, r3_enabled d' x = r3_enabled d x) /\ (forall x, r3_group d' x = r3_group d x) /\ (forall x, r3_priority d' x = r3_priority d x);
  r3_isenabler_set d v : let d' := reg_set R_ISENABLER0 v d in r3_sleep d' = r3_sleep d
    /\ (forall x, 0 <= x < 32 -> r3_enabled d' x = Z.testbit v x || r3_enabled d x)
    /\ (forall x, r3_group d' x = r3_group d x) /\ (forall x, r3_priority d' x = r3_priority d x);
  r3_icenabler_set d v : let d' := reg_set R_ICENABLER0 v d in r3_sleep d' = r3_sleep d
    /\ (forall x, 0 <= x < 32 -> r3_enabled d' x = negb (Z.testbit v x) && r3_enabled d x)
    /\ (forall x, r3_group d' x = r3_group d x) /\ (forall x, r3_priority d' x = r3_priority d x);
  r3_group_set d v : let d' := reg_set R_IGROUPR0 v d in r3_sleep d' = r3_sleep d
    /\ (forall x, 0 <= x < 32 -> r3_group d' x = Z.testbit v x)
    /\ (forall x, r3_enabled d' x = r3_enabled d x) /\ (forall x, r3_priority d' x = r3_priority d x);
  r3_priority_set d i v : (i < 8)%nat -> let d' := reg_set (R_IPRIORITYR i) v d in r3_sleep d' = r3_sleep d
    /\ (forall x, 0 <= x < 32 -> r3_priority d' x = if x / 4 =? Z.of_nat i then Z.shiftr v (8 * (x mod 4)) mod 256 else r3_priority d x)
    /\ (forall x, r3_enabled d' x = r3_enabled d x) /\ (forall x, r3_group d' x = r3_group d x);
}.

Section redistributor_laws.
Context `{TS : TockSpec} {D : Type} `{RS : G3rSpec D}.
Implicit Types d : D.

#[local] Instance same3r_preorder : PreOrder (same3r (D := D)).
Proof.
  split; [done|]. intros x y z (E1 & E2 & E3 & E4) (F1 & F2 & F3 & F4).
  split; [|split; [|split]]; intros; etrans; eauto.
Qed.

Lemma gicr_wait_spec d : (forall d, (r3_busy d <= RWP_COUNT)%nat) -> exists d', gicr_wait d = Ret d' /\ same3r d d'.
Proof.
  intros Hs. apply (rwp_loop_done _ r3_busy same3r); [|apply Hs]. intros e. unfold reg_read. destruct (r3_rwp e) as (v & e' & -> & Hv & Hr & Hb).
  exists e'. by rewrite flag_read, Hv by lia.
Qed.

(** Once the processor is marked awake, so is the redistributor after a while. *)
Lemma awake_loop_spec fuel : forall d, r3_sleep d = false -> (r3_asleep d <= fuel)%nat -> exists d', awake_loop fuel d = Ret d' /\ same3r d d'.
Proof.
  induction fuel as [|fuel IH]; intros d Hs Hd; cbn [awake_loop]; unfold reg_read; destruct (r3_waker d) as (v & d' & -> & Hv & Hr & Ha);
    pose proof (flag_read v 2 ltac:(lia)) as Hf; rewrite Hv in Hf; specialize (Ha Hs);
    destruct (Nat.eqb_spec (r3_asleep d) 0) as [|Hn]; cbn [negb] in Hf.
  - destruct (_ =? 0); [|done]. by exists d'.
  - lia.
  - destruct (_ =? 0); [|done]. by exists d'.
  - destruct (_ =? 0); [done|]. destruct (IH d') as (e & -> & He); [by destruct Hr as (_ & _ & _ & ->)|lia|].
    exists e. split; [done|]. by transitivity d'.
Qed.

(** The priorities of the registers [a .. a + n - 1]. *)
Lemma priorities_spec p v n : forall a d, (a + n <= 8)%nat -> (forall k, 0 <= k < 4 -> Z.shiftr v (8 * k) mod 256 = p) ->
  let d' := foldl (fun d i => reg_set (R_IPRIORITYR i) v d) d (seq a n) in
  r3_sleep d' = r3_sleep d /\ (forall x, r3_enabled d' x = r3_enabled d x) /\ (forall x, r3_group d' x = r3_group d x)
  /\ forall x, 0 <= x < 32 -> r3_priority d' x = if (4 * Z.of_nat a <=? x) && (x <? 4 * Z.of_nat (a + n)) then p else r3_priority d x.
Proof.
  induction n as [|n IH]; intros a d Ha Hv.
  { cbn. do 3 (split; [done|]). intros x Hx. destruct (Z.leb_spec (4 * Z.of_nat a) x), (Z.ltb_spec x (4 * Z.of_nat (a + 0))); try done; lia. }
  rewrite seq_S, foldl_app. cbn [foldl]. specialize (IH a d ltac:(lia) Hv). cbv zeta in IH. revert IH.
  generalize (foldl (fun d i => reg_set (R_IPRIORITYR i) v d) d (seq a n)). intros e (Hs & He & Hg & Hp).
  destruct (r3_priority_set e (a + n) v ltac:(lia)) as (Hs' & Hp' & He' & Hg'). cbv zeta.
  split; [by rewrite Hs'|]. split; [intros; by rewrite He'|]. split; [intros; by rewrite Hg'|]. intros x Hx. rewrite Hp' by lia.
  pose proof (Z.div_mod x 4). pose proof (Z.mod_pos_bound x 4).
  destruct (Z.eqb_spec (x / 4) (Z.of_nat (a + n))).
  - rewrite Hv by lia. by rewrite (proj2 (Z.leb_le _ _)), (proj2 (Z.ltb_lt _ _)) by lia.
  - rewrite Hp by lia. destruct (Z.leb_spec (4 * Z.of_nat a) x), (Z.ltb_spec x (4 * Z.of_nat (a + n))), (Z.ltb_spec x (4 * Z.of_nat (a + S n))); try done; lia.
Qed.
(** The redistributor [d'] after [GicR::init]: software-generated interrupts
    are enabled with priority 0x90, the other private ones disabled with
    priority 0xa0, all of them in group 1. *)
Definition private_ready d' : Prop :=
  r3_sleep d' = false /\ forall x, 0 <= x < 32 ->
    r3_group d' x = true /\ r3_enabled d' x = (x <? 16) /\ r3_priority d' x = if x <? 16 then 0x90 else 0xa0.

Lemma enable_masks x : 0 <= x < 32 ->
  Z.testbit 0xffff0000 x = (16 <=? x) /\ Z.testbit 0x0000ffff x = (x <? 16) /\ Z.testbit 0xffffffff x = true.
Proof.
  intros Hx. assert (Hall : forallb (fun x => Bool.eqb (Z.testbit 0xffff0000 x) (16 <=? x) && Bool.eqb (Z.testbit 0x0000ffff x) (x <? 16)
    && Z.testbit 0xffffffff x) (seqZ 0 32) = true) by (vm_compute; reflexivity).
  rewrite forallb_forall in Hall. specialize (Hall x ltac:(apply list_elem_of_In, elem_of_seqZ; lia)).
  apply andb_true_iff in Hall as [[E1%eqb_prop E2%eqb_prop]%andb_true_iff E3]. done.
Qed.
Lemma priority_bytes k : 0 <= k < 4 -> Z.shiftr PR_SGI (8 * k) mod 256 = 0x90 /\ Z.shiftr PR_PPI (8 * k) mod 256 = 0xa0.
Proof. intros Hk. assert (k = 0 \/ k = 1 \/ k = 2 \/ k = 3) as [->|[->|[->| ->]]] by lia; done. Qed.

Lemma gicr_init_spec d : (forall d, (r3_busy d <= RWP_COUNT)%nat) ->
  exists fuel, forall fuel', (fuel <= fuel')%nat -> exists d', gicr_init fuel' d = Ret d' /\ private_ready d'.
Proof.
  intros Hset. unfold gicr_init, wakeup, reg_write, CLEAR. rewrite fv_value_val by lia. change (Z.shiftl (0 mod 2 ^ 1) 1) with 0.
  destruct (r3_waker_set d 0) as (Hs0 & _ & _ & _). exists (r3_asleep (reg_set R_WAKER 0 d)). intros fuel Hf.
  destruct (awake_loop_spec fuel (reg_set R_WAKER 0 d) Hs0 Hf) as (d1 & -> & _ & _ & _ & Hs1). cbn [mbind outcome_bind].
  destruct (priorities_spec 0x90 PR_SGI 4 0 d1 ltac:(lia) (fun k Hk => proj1 (priority_bytes k Hk))) as (Hs2 & _ & _ & Hp2).
  revert Hs2 Hp2. generalize (foldl (fun d i => reg_set (R_IPRIORITYR i) PR_SGI d) d1 (seq 0 4)). intros d2 Hs2 Hp2.
  destruct (priorities_spec 0xa0 PR_PPI 4 4 d2 ltac:(lia) (fun k Hk => proj2 (priority_bytes k Hk))) as (Hs3 & _ & _ & Hp3).
  revert Hs3 Hp3. generalize (foldl (fun d i => reg_set (R_IPRIORITYR i) PR_PPI d) d2 (seq 4 4)). intros d3 Hs3 Hp3.
  destruct (r3_icenabler_set d3 0xffff0000) as (Hs4 & He4 & _ & Hp4). revert Hs4 He4 Hp4. generalize (reg_set R_ICENABLER0 0xffff0000 d3). intros d4 Hs4 He4 Hp4.
  destruct (r3_isenabler_set d4 0x0000ffff) as (Hs5 & He5 & _ & Hp5). revert Hs5 He5 Hp5. generalize (reg_set R_ISENABLER0 0x0000ffff d4). intros d5 Hs5 He5 Hp5.
  destruct (r3_group_set d5 0xffffffff) as (Hs6 & Hg6 & He6 & Hp6). revert Hs6 Hg6 He6 Hp6. generalize (reg_set R_IGROUPR0 0xffffffff d5). intros d6 Hs6 Hg6 He6 Hp6.
  destruct (gicr_wait_spec d6 Hset) as (d' & -> & He7 & Hg7 & Hp7 & Hs7). exists d'. split; [done|].
  split; [by rewrite Hs7, Hs6, Hs5, Hs4, Hs3, Hs2, Hs1, Hs0|]. intros x Hx. destruct (enable_masks x Hx) as (M1 & M2 & M3).
  rewrite Hg7, He7, Hp7, Hg6, He6, Hp6, Hp5, He5, Hp4, He4, Hp3, Hp2, M1, M2, M3 by lia. split; [done|].
  destruct (Z.leb_spec 16 x), (Z.ltb_spec x 16), (Z.leb_spec (4 * Z.of_nat 4) x), (Z.ltb_spec x (4 * Z.of_nat (4 + 4))),
    (Z.leb_spec (4 * Z.of_nat 0) x), (Z.ltb_spec x (4 * Z.of_nat (0 + 4))); try lia; done.
Qed.

(** [GicR::enable]: the private interrupt is enabled and no other. *)
Lemma gicr_enable_spec d irq : (forall d, (r3_busy d <= RWP_COUNT)%nat) -> 0 <= irq < 32 ->
  exists d', gicr_enable d irq = Ret d' /\ forall x, 0 <= x < 32 -> r3_enabled d' x = (x =? irq) || r3_enabled d x.
Proof.
  intros Hset Hirq. unfold gicr_enable. destruct (r3_isenabler_set d (Z.shiftl 1 irq)) as (_ & He & _).
  destruct (gicr_wait_spec (reg_set R_ISENABLER0 (Z.shiftl 1 irq) d) Hset) as (d' & -> & He' & _). exists d'. split; [done|].
  intros x Hx. rewrite He', He, Z.shiftl_1_l, Z.pow2_bits_eqb by lia. by rewrite Z.eqb_sym.
Qed.
End redistributor_laws.

(** The CPU interface: whether its registers are in use, its priority mask,
    whether a completed interrupt is only dropped in priority ([EOImode]) and
    has to be deactivated apart, whether group 1 is signalled, the interrupt
    the next acknowledge returns, and the active ones, the latest first.  An
    interrupt that is still active is not signalled again. *)
Class IccView (C : Type) := {
  i3_sre : C -> bool; i3_mask : C -> Z; i3_eoi_mode : C -> bool; i3_grp1 : C -> bool; i3_pending : C -> option Z; i3_active : C -> list Z;
}.
Definition same3i `{IccView C} (c c' : C) : Prop :=
  i3_sre c' = i3_sre c /\ i3_mask c' = i3_mask c /\ i3_eoi_mode c' = i3_eoi_mode c /\ i3_grp1 c' = i3_grp1 c.
Class IccSpec (C : Type) `{Icc C, IccView C} := {
  i3_pending_spec c i : i3_pending c = Some i -> 0 <= i < 1020 /\ i ∉ i3_active c;
  i3_get_sre c : get_sre c = i3_sre c;
  i3_set_sre b c : i3_sre (set_sre b c) = b /\ i3_active (set_sre b c) = i3_active c;
  i3_set_priority v c : let c' := set_priority v c in i3_mask c' = v /\ i3_sre c' = i3_sre c /\ i3_active c' = i3_active c;
  i3_set_eoi_mode b c : let c' := set_eoi_mode b c in
    i3_eoi_mode c' = b /\ i3_mask c' = i3_mask c /\ i3_sre c' = i3_sre c /\ i3_active c' = i3_active c;
  i3_set_igrpen1 b c : let c' := set_igrpen1 b c in
    i3_grp1 c' = b /\ i3_eoi_mode c' = i3_eoi_mode c /\ i3_mask c' = i3_mask c /\ i3_sre c' = i3_sre c /\ i3_active c' = i3_active c;
  i3_iar c : exists c', get_pending_interrupt c = (default 1023 (i3_pending c), c') /\ same3i c c'
    /\ i3_active c' = option_list (i3_pending c) ++ i3_active c;
  i3_eoir c i l : i3_active c = i :: l -> same3i c (eoir_completed i c)
    /\ i3_active (eoir_completed i c) = if i3_eoi_mode c then i :: l else l;
}.

Section gic_laws.
Context `{BM : BuildMode, TS : TockSpec} {D R C : Type} `{GS : G3dSpec D, RS : G3rSpec R, IS : IccSpec C}.
Abbreviation gic := (GicV3 D R C).
Implicit Types self : gic.

Lemma gicc3_init_spec (c : C) : let c' := gicc3_init c in
  i3_sre c' = true /\ i3_mask c' = 255 /\ i3_eoi_mode c' = true /\ i3_grp1 c' = true /\ i3_active c' = i3_active c.
Proof.
  unfold gicc3_init. set (c1 := if negb (get_sre c) then set_sre true c else c).
  assert (i3_sre c1 = true /\ i3_active c1 = i3_active c) as [Hs Ha].
  { subst c1. rewrite i3_get_sre. destruct (i3_sre c) eqn:E; cbn [negb]; [done|]. apply i3_set_sre. }
  destruct (i3_set_priority 0xff c1) as (Hm2 & Hs2 & Ha2). destruct (i3_set_eoi_mode true (set_priority 0xff c1)) as (He3 & Hm3 & Hs3 & Ha3).
  destruct (i3_set_igrpen1 true (set_eoi_mode true (set_priority 0xff c1))) as (Hg4 & He4 & Hm4 & Hs4 & Ha4).
  cbv zeta. by rewrite Hs4, Hs3, Hs2, Hs, Hm4, Hm3, Hm2, He4, He3, Hg4, Ha4, Ha3, Ha2, Ha.
Qed.

(** [GicV3::init], when every write is finished within a million reads.
    On the boot processor all shared interrupts end up disabled, not pending,
    in group 1 and routed to processor 0, private ones of the distributor are
    left alone and the distributor forwards with affinity routing; a
    controller with all 1024 lines makes it panic, since there are 1020
    routing registers.  Any other processor leaves the distributor alone.  On
    all of them the redistributor is awake with the software-generated
    interrupts enabled and the other private ones disabled, and the CPU
    interface is on.  No registration is lost. *)
Theorem gic3_init_routes cpu self :
  (forall d : D, (d3_busy d <= RWP_COUNT)%nat) -> (forall r : R, (r3_busy r <= RWP_COUNT)%nat) ->
  exists fuel, forall fuel', (fuel <= fuel')%nat ->
    if (cpu =? BOOT_CORE_ID) && (d3_lines (g3_gicd self) =? 31) then exists m, gic3_init fuel' cpu self = Panic m
    else exists self', gic3_init fuel' cpu self = Ret self'
      /\ (if cpu =? BOOT_CORE_ID then routed3 (g3_gicd self) (g3_gicd self') else g3_gicd self' = g3_gicd self)
      /\ private_ready (g3_gicr self') /\ g3_icc self' = gicc3_init (g3_icc self)
      /\ i3_sre (g3_icc self') = true /\ i3_mask (g3_icc self') = 255 /\ i3_grp1 (g3_icc self') = true
      /\ g3_map self' = g3_map self.
Proof.
  intros Hd Hr. destruct (gicr_init_spec (g3_gicr self) Hr) as [fuel Hf]. exists fuel. intros fuel' Hle.
  destruct (Hf fuel' Hle) as (r' & Er & Hr'). destruct (gicc3_init_spec (g3_icc self)) as (Hs & Hm & _ & Hg & _).
  destruct (boot_core_init3_spec Hd (g3_gicd self)) as [Hp Hok]. unfold gic3_init.
  destruct (Z.eqb_spec cpu BOOT_CORE_ID); cbn [andb]; [destruct (Z.eqb_spec (d3_lines (g3_gicd self)) 31) as [H31|H31]|].
  - destruct (Hp H31) as [m ->]. by exists m.
  - destruct (Hok H31) as (d' & -> & Hd'). sret. rewrite Er. sret. eexists. split; [done|]. done.
  - sret. rewrite Er. sret. eexists. split; [done|]. done.
Qed.

(** What happens to the controller over time: a pending interrupt is handled,
    a driver registers, or the hardware changes what is pending. *)
Inductive gic3_step {S} (handle : S -> nat -> outcome S) : gic * S -> gic * S -> Prop :=
| G3Handle self s self' s' : handle_pending3 handle self s = Ret (self', s') -> gic3_step handle (self, s) (self', s')
| G3Register self s irq drv self' : register3 self irq drv = Ret self' -> gic3_step handle (self, s) (self', s)
| G3Signal self s c' : same3i (g3_icc self) c' -> i3_active c' = i3_active (g3_icc self) ->
    gic3_step handle (self, s) (mkGic3 (g3_gicd self) (g3_gicr self) c' (g3_map self), s).

(** One dispatch with [EOImode] set leaves what it acknowledged active. *)
Lemma handle_pending3_active {S} (handle : S -> nat -> outcome S) self s self' s' :
  i3_eoi_mode (g3_icc self) = true -> handle_pending3 handle self s = Ret (self', s') ->
  i3_eoi_mode (g3_icc self') = true /\ i3_active (g3_icc self') = option_list (i3_pending (g3_icc self)) ++ i3_active (g3_icc self).
Proof.
  intros He. unfold handle_pending3. destruct (i3_iar (g3_icc self)) as (c' & -> & (_ & _ & He' & _) & Ha).
  destruct (i3_pending (g3_icc self)) as [i|] eqn:Hi; cbn [option_list app] in *.
  - destruct (i3_pending_spec _ _ Hi) as [Hr _]. change (default 1023 (Some i)) with i. rewrite (proj2 (Z.eqb_neq i 1023)) by lia. cbn [g3_map g3_icc].
    destruct (g3_map self !! i) as [drivers|]; [|done]. intros Hk. destruct (foldM handle s drivers) as [s1|]; [|done]. cbn in Hk.
    unfold as_u32 in Hk. rewrite Z.mod_small in Hk by lia. injection Hk as <- <-. cbn [g3_icc].
    destruct (i3_eoir c' i _ Ha) as [(_ & _ & -> & _) ->]. by rewrite He', He.
  - intros Hk. cbn in Hk. injection Hk as <- <-. cbn [g3_icc]. by rewrite He', He.
Qed.

Lemma gic3_step_active {S} (handle : S -> nat -> outcome S) a b :
  rtc (gic3_step handle) a b -> i3_eoi_mode (g3_icc a.1) = true ->
  i3_eoi_mode (g3_icc b.1) = true /\ i3_active (g3_icc a.1) ⊆ i3_active (g3_icc b.1).
Proof.
  induction 1 as [|a b c Hstep _ IH]; intros He; [done|].
  assert (i3_eoi_mode (g3_icc b.1) = true /\ i3_active (g3_icc a.1) ⊆ i3_active (g3_icc b.1)) as [Hb Hab].
  { destruct Hstep as [self s self' s' Hk|self s irq drv self' Hk|self s c' (_ & _ & Hm & _) Ha]; cbn [fst g3_icc] in *.
    - destruct (handle_pending3_active _ _ _ _ _ He Hk) as [-> ->]. split; [done|]. intros j Hj. apply elem_of_app. by right.
    - unfold register3 in Hk. destruct (irq <=? 31).
      + destruct (gicr_enable _ _); [|done]. by injection Hk as <-.
      + destruct (gicd3_enable _ _); [|done]. by injection Hk as <-.
    - by rewrite Hm, Ha. }
  destruct (IH Hb) as [Hc Hbc]. split; [done|]. by etrans.
Qed.

(** With [gicc_init] an interrupt arrives once.  The initialisation sets
    [EOImode], in which the end-of-interrupt register only drops the running
    priority, and nothing deactivates interrupts: once an interrupt has been
    handled it stays active whatever is handled, registered or signalled
    afterwards, so it is never delivered again. *)
Theorem gic3_delivers_once {S} (handle : S -> nat -> outcome S) fuel cpu self0 self s0 s i x y z :
  gic3_init fuel cpu self0 = Ret self -> rtc (gic3_step handle) (self, s0) x ->
  i3_pending (g3_icc x.1) = Some i -> handle_pending3 handle x.1 x.2 = Ret (y, s) ->
  rtc (gic3_step handle) (y, s) z -> i ∈ i3_active (g3_icc z.1) /\ i3_pending (g3_icc z.1) <> Some i.
Proof.
  intros Hinit Hx Hi Hk Hz.
  assert (He : i3_eoi_mode (g3_icc self) = true).
  { unfold gic3_init in Hinit. destruct (if cpu =? BOOT_CORE_ID then _ else _); [|done]. cbn in Hinit. destruct (gicr_init _ _); [|done]. cbn in Hinit.
    injection Hinit as <-. apply gicc3_init_spec. }
  destruct (gic3_step_active _ _ _ Hx He) as [Hex _]. destruct (handle_pending3_active _ _ _ _ _ Hex Hk) as [Hey Hay].
  destruct (gic3_step_active _ _ _ Hz Hey) as [_ Hyz]. rewrite Hi in Hay.
  assert (Hin : i ∈ i3_active (g3_icc z.1)) by (apply Hyz; cbn [fst]; rewrite Hay; set_solver).
  split; [done|]. intros Hp. by destruct (i3_pending_spec _ _ Hp).
Qed.
End gic_laws.

(** ** A controller *)

(** The bits of all interrupts of a bank in one number; the read after a write
    finds it pending. *)
Record Dist3 := mkDist3 { m_lines : Z; m_bits : Bank -> Z; m_router : Z -> Z; m_ctlr : Z; m_busy : bool }.
#[export] Instance Dist3_view : G3dView Dist3 := {|
  d3_bit b d x := Z.testbit (m_bits d b) x; d3_router := m_router; d3_on d b := Z.testbit (m_ctlr d) b;
  d3_lines d := m_lines d mod 32; d3_busy d := Nat.b2n (m_busy d);
|}.
Definition with_bank (d : Dist3) (b : Bank) (v : Z) : Dist3 :=
  mkDist3 (m_lines d) (fun b' => if decide (b' = b) then v else m_bits d b') (m_router d) (m_ctlr d) true.
Definition with_block (old : Z) (i : nat) (v : Z) : Z := Z.lor (block v (Z.of_nat i)) (Z.ldiff old (block (Z.ones 32) (Z.of_nat i))).
#[export] Instance Dist3_regs : Registers G3dReg Dist3 := {|
  reg_get r d := match r with
    | D_TYPER => (m_lines d mod 32, d)
    | D_CTLR => (Z.shiftl (Z.b2z (m_busy d)) 31, mkDist3 (m_lines d) (m_bits d) (m_router d) (m_ctlr d) false)
    | D_ISENABLER i => (Z.shiftr (m_bits d BEnabled) (32 * Z.of_nat i) mod 2 ^ 32, d)
    | _ => (0, d)
    end;
  reg_set r v d := match r with
    | D_CTLR => mkDist3 (m_lines d) (m_bits d) (m_router d) v true
    | D_ISENABLER i => with_bank d BEnabled (Z.lor (block v (Z.of_nat i)) (m_bits d BEnabled))
    | D_ICENABLER i => with_bank d BEnabled (Z.ldiff (m_bits d BEnabled) (block v (Z.of_nat i)))
    | D_ICPENDR i => with_bank d BPending (Z.ldiff (m_bits d BPending) (block v (Z.of_nat i)))
    | D_IGROUPR i => with_bank d BGroup (with_block (m_bits d BGroup) i v)
    | D_IGRPMODR i => with_bank d BModifier (with_block (m_bits d BModifier) i v)
    | D_IROUTER i => mkDist3 (m_lines d) (m_bits d) (fun x => if x =? Z.of_nat i then v else m_router d x) (m_ctlr d) true
    | D_TYPER => d
    end;
|}.

Lemma with_block_bit old i v x : 0 <= x ->
  Z.testbit (with_block old i v) x = if x / 32 =? Z.of_nat i then Z.testbit v (x mod 32) else Z.testbit old x.
Proof.
  intros Hx. unfold with_block. rewrite Z.lor_spec, Z.ldiff_spec, !block_bit by lia. pose proof (Z.mod_pos_bound x 32).
  rewrite Z.ones_spec_low by lia. destruct (x / 32 =? Z.of_nat i); cbn [andb negb orb]; [|by rewrite andb_true_r].
  by rewrite andb_false_r, orb_false_r.
Qed.

#[export] Instance Dist3_spec : G3dSpec Dist3.
Proof.
  split; intros d; unfold same3, irqs3; cbn [d3_bit d3_router d3_on d3_lines d3_busy Dist3_view].
  - pose proof (Z.mod_pos_bound (m_lines d) 32). lia.
  - eexists. split; [done|]. by rewrite Z.mod_mod.
  - eexists _, _. split; [done|]. by destruct (m_busy d).
  - intros i Hi. eexists. split; [done|]. intros b Hb _. rewrite Z.mod_pow2_bits_low, Z.shiftr_spec by lia. f_equal. lia.
  - intros r b i f v Hr Hi. destruct r; try discriminate Hr; injection Hr as <- <- <-; split; try done; intros b' x Hx; cbn -[Z.div Z.modulo];
      (destruct (decide _) as [->|]; [|done]); rewrite ?with_block_bit, ?Z.lor_spec, ?Z.ldiff_spec, ?block_bit by lia; try done;
      destruct (x / 32 =? Z.of_nat _); cbn [andb negb orb]; try done; by rewrite ?andb_true_r, ?(andb_comm (negb _)).
  - done.
  - done.
Qed.

(** A redistributor that wakes up after two reads. *)
Record Redist := mkRedist { q_enabled : Z; q_group : Z; q_priority : Z -> Z; q_sleep : bool; q_asleep : nat; q_busy : bool }.
#[export] Instance Redist_view : G3rView Redist := {|
  r3_enabled d x := Z.testbit (q_enabled d) x; r3_group d x := Z.testbit (q_group d) x; r3_priority := q_priority;
  r3_sleep := q_sleep; r3_asleep := q_asleep; r3_busy d := Nat.b2n (q_busy d);
|}.
#[export] Instance Redist_regs : Registers G3rReg Redist := {|
  reg_get r d := match r with
    | R_CTLR => (Z.shiftl (Z.b2z (q_busy d)) 3, mkRedist (q_enabled d) (q_group d) (q_priority d) (q_sleep d) (q_asleep d) false)
    | R_WAKER => (if (q_asleep d =? 0)%nat then 0 else 4,
        mkRedist (q_enabled d) (q_group d) (q_priority d) (q_sleep d) (if q_sleep d then q_asleep d else pred (q_asleep d)) (q_busy d))
    | _ => (0, d)
    end;
  reg_set r v d := match r with
    | R_WAKER => mkRedist (q_enabled d) (q_group d) (q_priority d) (Z.testbit v 1) 2 (q_busy d)
    | R_ISENABLER0 => mkRedist (Z.lor v (q_enabled d)) (q_group d) (q_priority d) (q_sleep d) (q_asleep d) true
    | R_ICENABLER0 => mkRedist (Z.ldiff (q_enabled d) v) (q_group d) (q_priority d) (q_sleep d) (q_asleep d) true
    | R_IGROUPR0 => mkRedist (q_enabled d) v (q_priority d) (q_sleep d) (q_asleep d) true
    | R_IPRIORITYR i => mkRedist (q_enabled d) (q_group d)
        (fun x => if x / 4 =? Z.of_nat i then Z.shiftr v (8 * (x mod 4)) mod 256 else q_priority d x) (q_sleep d) (q_asleep d) true
    | R_CTLR => d
    end;
|}.
#[export] Instance Redist_spec : G3rSpec Redist.
Proof.
  split; intros d; unfold same3r; cbn [r3_enabled r3_group r3_priority r3_sleep r3_asleep r3_busy Redist_view]; try done.
  - eexists _, _. split; [done|]. by destruct (q_busy d).
  - eexists _, _. split; [done|]. split; [by destruct (q_asleep d)|]. split; [done|]. cbn. by intros ->.
  - intros v. split; [done|]. split; [|done]. intros x Hx. cbn. apply Z.lor_spec.
  - intros v. split; [done|]. split; [|done]. intros x Hx. cbn. rewrite Z.ldiff_spec. apply andb_comm.
Qed.

(** A CPU interface with a queue of pending interrupts. *)
Record Iface3 := mkIface3 { k_sre : bool; k_mask : Z; k_eoi : bool; k_grp1 : bool; k_queue : list Z; k_active : list Z }.
Definition k_pending (c : Iface3) : option Z :=
  match k_queue c with i :: _ => if decide ((0 <= i < 1020) /\ i ∉ k_active c) then Some i else None | [] => None end.
#[export] Instance Iface3_view : IccView Iface3 := {|
  i3_sre := k_sre; i3_mask := k_mask; i3_eoi_mode := k_eoi; i3_grp1 := k_grp1; i3_pending := k_pending; i3_active := k_active;
|}.
#[export] Instance Iface3_regs : Icc Iface3 := {|
  get_sre := k_sre;
  set_sre b c := mkIface3 b (k_mask c) (k_eoi c) (k_grp1 c) (k_queue c) (k_active c);
  set_priority v c := mkIface3 (k_sre c) v (k_eoi c) (k_grp1 c) (k_queue c) (k_active c);
  set_eoi_mode b c := mkIface3 (k_sre c) (k_mask c) b (k_grp1 c) (k_queue c) (k_active c);
  set_igrpen1 b c := mkIface3 (k_sre c) (k_mask c) (k_eoi c) b (k_queue c) (k_active c);
  get_pending_interrupt c := (default 1023 (k_pending c),
    mkIface3 (k_sre c) (k_mask c) (k_eoi c) (k_grp1 c) (tail (k_queue c)) (option_list (k_pending c) ++ k_active c));
  eoir_completed i c := mkIface3 (k_sre c) (k_mask c) (k_eoi c) (k_grp1 c) (k_queue c) (if k_eoi c then k_active c else tail (k_active c));
|}.
#[export] Instance Iface3_spec : IccSpec Iface3.
Proof.
  split; intros; try done.
  - cbn in *. unfold k_pending in *. destruct (k_queue c); [done|]. destruct (decide _) as [E|]; [|done]. by simplify_eq.
  - by eexists.
  - split; [done|]. cbn in *. rewrite H. by destruct (k_eoi c).
Qed.

Section concrete.
#[local] Instance debug3 : BuildMode := true.

Definition gicv3_0 : GicV3 Dist3 Redist Iface3 :=
  mkGic3 (mkDist3 2 (fun b => match b with BGroup => 0 | _ => 2 ^ 40 + 2 ^ 3 end) (fun _ => 9) 0 false)
    (mkRedist (2 ^ 30) 0 (fun _ => 0) true 5 false) (mkIface3 false 0 false false [33; 33] []) {[33 := [7%nat]]}.

Lemma gic3_init_routes_witness :
  exists fuel self', gic3_init fuel 0 gicv3_0 = Ret self' /\ d3_bit BEnabled (g3_gicd self') 40 = false
    /\ d3_router (g3_gicd self') 33 = 0 /\ r3_enabled (g3_gicr self') 30 = false.
Proof.
  destruct (gic3_init_routes 0 gicv3_0) as [fuel Hf].
  - intros d. unfold RWP_COUNT. destruct d as [????[]]; cbn; lia.
  - intros r. unfold RWP_COUNT. destruct r as [?????[]]; cbn; lia.
  - destruct (Hf fuel (le_n _)) as (self' & Hi & (_ & _ & _ & _ & Hs & _) & (_ & Hp) & _). exists fuel, self'. split; [exact Hi|].
    destruct (Hs 40 ltac:(split; vm_compute; congruence)) as [He _]. split; [exact He|].
    destruct (Hs 33 ltac:(split; vm_compute; congruence)) as (_ & _ & _ & Hr). split; [exact Hr|].
    destruct (Hp 30 ltac:(lia)) as (_ & Hen & _). exact Hen.
Defined.

(** Interrupt 33 is signalled twice and handled once. *)
Definition log_driver (s : list nat) (d : nat) : outcome (list nat) := Ret (s ++ [d]).
Definition gicv3_1 := match gic3_init 9 1 gicv3_0 with Ret g => g | Panic _ => gicv3_0 end.
Definition gicv3_2 := match handle_pending3 log_driver gicv3_1 [] with Ret g => g | Panic _ => (gicv3_0, []) end.

Lemma gic3_delivers_once_witness :
  gicv3_2.2 = [7%nat] /\ k_queue (g3_icc gicv3_2.1) = [33] /\ i3_pending (g3_icc gicv3_2.1) <> Some 33.
Proof.
  do 2 (split; [vm_compute; reflexivity|]).
  refine (proj2 (gic3_delivers_once log_driver 9 1 gicv3_0 gicv3_1 [] gicv3_2.2 33 (gicv3_1, []) gicv3_2.1 (gicv3_2.1, gicv3_2.2) _ _ _ _ _));
    [vm_compute; reflexivity|apply rtc_refl|vm_compute; reflexivity|vm_compute; reflexivity|apply rtc_refl].
Defined.
End concrete.
