(* ===== verification/Rtc.v ===== *)
(** * Clock and GPIO ([drivers/rtc/pl031.rs], [drivers/gpio/pl061.rs])

    The PL031 real-time clock with its alarm, and the PL061 GPIO block, over
    the interface [Registers] with the behaviour of their manuals. *)

From S2P Require Import Prelude Mmio.

(** ** PL031 *)

Inductive RtcReg := RTC_DR | RTC_MR | RTC_LR | RTC_CR | RTC_IMSC | RTC_RIS | RTC_MIS | RTC_ICR.
#[export] Instance RtcReg_dec : EqDecision RtcReg.
Proof. solve_decision. Defined.

Definition rtc_map : list Entry := [Reg 0x00 4; Reg 0x04 4; Reg 0x08 4; Reg 0x0c 4; Reg 0x10 4; Reg 0x14 4; Reg 0x18 4; Reg 0x1c 4].
Definition rtc_fields : Fields RtcReg :=
  [(RTC_CR, [("RTCEN", (0, 1))]); (RTC_IMSC, [("RTCIMSC", (0, 1))]); (RTC_RIS, [("RTCRIS", (0, 1))]);
   (RTC_MIS, [("RTCMIS", (0, 1))]); (RTC_ICR, [("RTCICR", (0, 1))])]%string.
Lemma rtc_map_ok : contiguous rtc_map 0x20 = true /\ fields_ok 32 rtc_fields = true.
Proof. done. Qed.

Section pl031.
Context `{BuildMode, Tock} {R : Type} `{Registers RtcReg R}.
Implicit Types r : R.

(** [RtcDriver::read_epoch] *)
Definition rtc_read_epoch r : TimeSpec * R := let '(v, r) := reg_get RTC_DR r in (mkTime v 0, r).

(** [Pl031Rtc::set_next] *)
Definition set_next r : outcome R :=
  let '(t, r) := rtc_read_epoch r in
  x ← arith 0 32 (as_u32 (secs t) + 2) "attempt to add with overflow";
  Ret (reg_set RTC_MR x r).

(** [Driver::init] *)
Definition rtc_init r : R :=
  let r := reg_set RTC_CR 0 r in
  let r := reg_write RTC_ICR (SET 0) r in
  let r := reg_write RTC_IMSC (CLEAR 0 1) r in
  reg_write RTC_CR (SET 0) r.

(** [Driver::handle_interrupt] *)
Definition rtc_handle_interrupt r : outcome R := Panic "not yet implemented".
End pl031.

(** The clock: its seconds, the alarm, whether it runs, whether its interrupt
    reaches the controller, and whether the alarm has gone off. *)
Class Pl031View (R : Type) := {
  seconds : R -> Z; alarm : R -> Z; running : R -> bool; unmasked : R -> bool; rung : R -> bool;
}.
Class Pl031Spec (R : Type) `{Registers RtcReg R, Pl031View R} := {
  seconds_range r : 0 <= seconds r < 2 ^ 32;
  rtc_dr_get r : exists r', reg_get RTC_DR r = (seconds r, r') /\ running r' = running r /\ unmasked r' = unmasked r
    /\ seconds r' = seconds r;
  rtc_mr_set r v : let r' := reg_set RTC_MR v r in
    alarm r' = v mod 2 ^ 32 /\ seconds r' = seconds r /\ running r' = running r /\ unmasked r' = unmasked r;
  rtc_cr_set r v : let r' := reg_set RTC_CR v r in
    running r' = Z.testbit v 0 /\ unmasked r' = unmasked r /\ rung r' = rung r /\ alarm r' = alarm r;
  rtc_icr_set r v : let r' := reg_set RTC_ICR v r in
    rung r' = rung r && negb (Z.testbit v 0) /\ running r' = running r /\ unmasked r' = unmasked r /\ alarm r' = alarm r;
  rtc_imsc_set r v : let r' := reg_set RTC_IMSC v r in
    unmasked r' = Z.testbit v 0 /\ running r' = running r /\ rung r' = rung r /\ alarm r' = alarm r;
}.

Section pl031_laws.
Context `{BM : BuildMode, TS : TockSpec} {R : Type} `{RS : Pl031Spec R}.
Implicit Types r : R.

(** [init] starts the clock with its alarm acknowledged and its interrupt
    masked: the bit it clears is the one that lets interrupts through. *)
Lemma rtc_init_spec r : let r' := rtc_init r in
  running r' = true /\ unmasked r' = false /\ rung r' = false /\ alarm r' = alarm r.
Proof.
  unfold rtc_init, reg_write, SET, CLEAR. rewrite !fv_value_val by lia.
  destruct (rtc_cr_set r 0) as (_ & _ & _ & Ha). set (r1 := reg_set RTC_CR 0 r) in *.
  destruct (rtc_icr_set r1 (Z.shiftl (1 mod 2 ^ 1) 0)) as (Hr2 & _ & _ & Ha2). set (r2 := reg_set RTC_ICR _ r1) in *.
  destruct (rtc_imsc_set r2 (Z.shiftl (0 mod 2 ^ 1) 0)) as (Hu3 & _ & Hr3 & Ha3). set (r3 := reg_set RTC_IMSC _ r2) in *.
  destruct (rtc_cr_set r3 (Z.shiftl (1 mod 2 ^ 1) 0)) as (Hn4 & Hu4 & Hr4 & Ha4). cbv zeta.
  rewrite Hn4, Hu4, Hr4, Ha4, Hu3, Hr3, Ha3, Hr2, Ha2, Ha. cbn. by rewrite andb_false_r.
Qed.

(** The alarm two seconds ahead, up to the last two seconds of the counter. *)
Lemma set_next_spec r :
  seconds r + 2 < 2 ^ 32 -> exists r', set_next r = Ret r' /\ alarm r' = seconds r + 2 /\ seconds r' = seconds r.
Proof.
  intros Hs. pose proof (seconds_range r). unfold set_next, rtc_read_epoch. destruct (rtc_dr_get r) as (r' & -> & _ & _ & Hr').
  cbn [secs]. unfold as_u32. rewrite Z.mod_small by lia. unfold arith. rewrite (proj2 (Z.leb_le _ _)), (proj2 (Z.ltb_lt _ _)) by lia.
  destruct (rtc_mr_set r' (seconds r + 2)) as (Ha & Hs' & _). eexists. split; [done|]. rewrite Ha, Hs', Z.mod_small by lia. done.
Qed.
End pl031_laws.

(** ** PL061 *)

Inductive GpioReg := GPIO_DATA | GPIO_DIR | GPIO_IS | GPIO_IBE | GPIO_IEV | GPIO_IE | GPIO_RIS | GPIO_MIS | GPIO_IC | GPIO_AFSEL.
#[export] Instance GpioReg_dec : EqDecision GpioReg.
Proof. solve_decision. Defined.

Definition gpio_map : list Entry :=
  [Reg 0x000 1; Reg 0x400 1; Reg 0x404 1; Reg 0x408 1; Reg 0x40c 1; Reg 0x410 1; Reg 0x414 1; Reg 0x418 1; Reg 0x41c 1; Reg 0x420 1].
Lemma gpio_map_broken : contiguous gpio_map 0x424 = false.
Proof. done. Qed.

Section pl061.
Context {G : Type} `{Registers GpioReg G}.

(** [Pl061Gpio::init] and [get_raw_status] *)
Definition gpio_init (g : G) : G :=
  let g := reg_set GPIO_IC 1 g in
  let g := reg_set GPIO_IEV 255 g in
  let g := reg_set GPIO_IE 255 g in
  let g := reg_set GPIO_IS 255 g in
  reg_set GPIO_AFSEL 255 g.
Definition gpio_get_raw_status (g : G) : Z * G := reg_get GPIO_RIS g.
End pl061.

(** ** A clock *)
Record Clock := mkClock { k_time : Z; k_alarm : Z; k_on : bool; k_irq : bool; k_rung : bool }.
#[export] Instance Clock_view : Pl031View Clock :=
  {| seconds c := k_time c mod 2 ^ 32; alarm := k_alarm; running := k_on; unmasked := k_irq; rung := k_rung |}.
#[export] Instance Clock_regs : Registers RtcReg Clock := {|
  reg_get r c := match r with RTC_DR => (k_time c mod 2 ^ 32, c) | _ => (0, c) end;
  reg_set r v c := match r with
    | RTC_MR => mkClock (k_time c) (v mod 2 ^ 32) (k_on c) (k_irq c) (k_rung c)
    | RTC_CR => mkClock (k_time c) (k_alarm c) (Z.testbit v 0) (k_irq c) (k_rung c)
    | RTC_IMSC => mkClock (k_time c) (k_alarm c) (k_on c) (Z.testbit v 0) (k_rung c)
    | RTC_ICR => mkClock (k_time c) (k_alarm c) (k_on c) (k_irq c) (k_rung c && negb (Z.testbit v 0))
    | _ => c
    end;
|}.
#[export] Instance Clock_spec : Pl031Spec Clock.
Proof. split; intros r; try done; [apply Z.mod_pos_bound; lia|]. by eexists. Qed.
