(* ===== verification/Paging.v ===== *)
(** * Pages, addresses and frames ([memory/mod.rs], [memory/paging.rs])

    Module [Addr] holds the address arithmetic of [memory/mod.rs], [Pages] the
    [Page] and [PageRange] types, [Frames] the [FrameAllocator] trait with its
    laws and the [GlobalFrameAlloc] implementation over the buddy allocator
    (the [allocators] crate, a parameter), and [Table] the [Entry] and
    [PageTable] traits with the laws their doc comments state. *)

From S2P Require Import Prelude.

(** ** Constants and address conversions *)
Module Addr.

Definition PAGE_SIZE : Z := Z.shiftl 1 12.
Definition MEMORY_OFFSET : Z := 0x40000000.
Definition KERNEL_OFFSET : Z := 0xffff000000000000.
Definition PHYSICAL_MEMORY_OFFSET : Z := 0xffff800000000000.
Definition USER_STACK_SIZE : Z := 1 * 1024 * 1024.
Definition USER_STACK_OFFSET : Z := 0x0000800000000000 - USER_STACK_SIZE.

(** [phys_to_virt] *)
Definition phys_to_virt `{BuildMode} (addr : Z) : outcome Z := uadd addr PHYSICAL_MEMORY_OFFSET.

(** [virt_to_phys] *)
Definition virt_to_phys `{BuildMode} (addr : Z) : outcome Z := usub addr PHYSICAL_MEMORY_OFFSET.

(** [as_lower_range] *)
Definition as_lower_range (addr : Z) : Z := Z.land addr (unot KERNEL_OFFSET).

(** [as_upper_range] *)
Definition as_upper_range (addr : Z) : Z := Z.lor addr KERNEL_OFFSET.

Lemma PAGE_SIZE_eq : PAGE_SIZE = 4096.
Proof. reflexivity. Qed.

(** [addr & !(PAGE_SIZE - 1)] *)
Definition page_down (addr : Z) : Z := Z.land addr (unot (PAGE_SIZE - 1)).

(** [(addr + PAGE_SIZE - 1) & !(PAGE_SIZE - 1)] *)
Definition page_up `{BuildMode} (addr : Z) : outcome Z :=
  a ← uadd addr PAGE_SIZE; b ← usub a 1; Ret (Z.land b (unot (PAGE_SIZE - 1))).

Definition aligned (a : Z) : Prop := a mod 4096 = 0.

(** A frame address: page aligned, within the 2^47 bytes of physical memory
    that are mapped at [PHYSICAL_MEMORY_OFFSET]. *)
Definition frame_addr (a : Z) : Prop := aligned a /\ 0 <= a < 2 ^ 47.

Lemma page_down_eq a : is_u64 a -> page_down a = a - a mod 4096.
Proof. intros. apply (land_unot_ones a 12); [done | lia]. Qed.

Lemma page_up_ok `{BuildMode} a :
  0 <= a -> a + 4096 < 2 ^ 64 ->
  exists r, page_up a = Ret r /\ aligned r /\ a <= r < a + 4096.
Proof.
  intros H0 H1. unfold page_up. rewrite PAGE_SIZE_eq.
  rewrite uadd_ok by lia; sret.
  rewrite usub_ok by lia; sret.
  eexists; split; [done|].
  change (4096 - 1) with (2 ^ 12 - 1).
  rewrite land_unot_ones by (unfold is_u64; lia).
  change (2 ^ 12) with 4096. unfold aligned.
  pose proof (Z.mod_pos_bound (a + 4096 - 1) 4096).
  split; [|lia].
  rewrite Zminus_mod_idemp_r. by rewrite Z.sub_diag.
Qed.

Lemma page_up_aligned `{BuildMode} a :
  0 <= a -> a + 4096 < 2 ^ 64 -> aligned a -> page_up a = Ret a.
Proof.
  intros H0 H1 Ha. destruct (page_up_ok a) as (r & -> & Hr & Hb); [done..|].
  f_equal. unfold aligned in *.
  apply Zmod_divides in Ha as [x ->]; [|lia].
  apply Zmod_divides in Hr as [y ->]; [|lia]. lia.
Qed.

End Addr.

Import Addr.

(** ** [Page] and [PageRange] ([memory/paging.rs]) *)
Module Pages.

Record Page := mkPage { number : Z }.
Record PageRange := mkRange { start : Page; end_ : Page }.

Section pages.
Context `{BuildMode}.

(** [Page::start_address] *)
Definition start_address (p : Page) : outcome Z := umul (number p) PAGE_SIZE.

(** [Page::of_addr] *)
Definition of_addr (addr : Z) : Page := mkPage (addr / PAGE_SIZE).

(** [impl Add<usize> for Page] *)
Definition add (p : Page) (rhs : Z) : outcome Page :=
  n ← uadd (number p) rhs; Ret (mkPage n).

(** [Page::range_of] *)
Definition range_of (begin end0 : Z) : outcome PageRange :=
  e ← usub end0 1; Ret (mkRange (of_addr begin) (of_addr e)).

(** [Iterator::next] of [PageRange]: the end page is included. *)
Definition next (r : PageRange) : outcome (option Page * PageRange) :=
  if number (start r) <=? number (end_ r) then
    s ← add (start r) 1; Ret (Some (start r), mkRange s (end_ r))
  else Ret (None, r).

(** [for page in range { body }]: [next] until it answers [None]. *)
Fixpoint for_pages {S : Type} (fuel : nat) (body : S -> Page -> outcome S)
    (r : PageRange) (s : S) : outcome S :=
  match fuel with
  | O => Panic "for_pages: out of fuel"
  | Datatypes.S fuel =>
      x ← next r;
      match x with
      | (None, _) => Ret s
      | (Some p, r') => s' ← body s p; for_pages fuel body r' s'
      end
  end.

(** One [next] per page and one that answers [None]. *)
Definition range_fuel (r : PageRange) : nat :=
  Datatypes.S (Z.to_nat (number (end_ r) - number (start r) + 1)).

(** The loop over [Page::range_of begin end]. *)
Definition for_range {S : Type} (begin end0 : Z) (body : S -> Page -> outcome S)
    (s : S) : outcome S :=
  r ← range_of begin end0; for_pages (range_fuel r) body r s.

(** The pages a range yields, in order. *)
Definition pages (lo hi : Z) : list Page := mkPage <$> seqZ lo (hi - lo).

Lemma for_pages_S {S} fuel (body : S -> Page -> outcome S) r s :
  for_pages (Datatypes.S fuel) body r s =
  x ← next r;
  match x with
  | (None, _) => Ret s
  | (Some p, r') => s' ← body s p; for_pages fuel body r' s'
  end.
Proof. done. Qed.

Lemma for_pages_foldM {S} (body : S -> Page -> outcome S) lo hi s :
  0 <= lo -> hi + 1 < 2 ^ 64 ->
  for_pages (range_fuel (mkRange (mkPage lo) (mkPage hi))) body (mkRange (mkPage lo) (mkPage hi)) s
  = foldM body s (pages lo (hi + 1)).
Proof.
  unfold range_fuel, pages; cbn [number start end_].
  replace (hi + 1 - lo) with (hi - lo + 1) by lia.
  remember (Z.to_nat (hi - lo + 1)) as n eqn:Hn. revert lo s Hn.
  induction n as [|n IH]; intros lo s Hn Hlo Hhi.
  - unfold seqZ. rewrite <- Hn. rewrite for_pages_S. unfold next; cbn [number start end_].
    rewrite (proj2 (Z.leb_gt _ _)) by lia. done.
  - rewrite for_pages_S. unfold next; cbn [number start end_].
    rewrite (proj2 (Z.leb_le _ _)) by lia.
    unfold add; cbn [number]. ostep.
    rewrite seqZ_cons by lia. cbn [fmap list_fmap foldM].
    destruct (body s (mkPage lo)) as [s'|]; cbn [mbind outcome_bind]; [|done].
    rewrite (IH (lo + 1)) by lia. by replace (Z.pred (hi - lo + 1)) with (hi - (lo + 1) + 1) by lia.
Qed.

(** The loop over a page-aligned byte range visits its pages in order. *)
Lemma for_range_foldM {S} (body : S -> Page -> outcome S) lo hi s :
  0 <= lo -> 0 < hi -> hi * 4096 <= 2 ^ 64 ->
  for_range (lo * 4096) (hi * 4096) body s = foldM body s (pages lo hi).
Proof.
  intros. unfold for_range, range_of. ostep.
  unfold of_addr. rewrite PAGE_SIZE_eq, Z.div_mul by lia.
  replace ((hi * 4096 - 1) / 4096) with (hi - 1).
  2:{ apply (Z.div_unique _ _ _ 4095); lia. }
  rewrite for_pages_foldM by lia. by replace (hi - 1 + 1) with hi by lia.
Qed.

Lemma start_address_ok n : 0 <= n -> n * 4096 < 2 ^ 64 -> start_address (mkPage n) = Ret (n * 4096).
Proof. intros. unfold start_address; cbn. apply umul_ok. lia. Qed.

Lemma of_addr_page n : of_addr (n * 4096) = mkPage n.
Proof. unfold of_addr. rewrite PAGE_SIZE_eq. f_equal. apply Z.div_mul; lia. Qed.

Lemma pages_cons lo hi : lo < hi -> pages lo hi = mkPage lo :: pages (lo + 1) hi.
Proof.
  intros. unfold pages. rewrite seqZ_cons by lia. cbn [fmap list_fmap].
  by replace (Z.pred (hi - lo)) with (hi - (lo + 1)) by lia.
Qed.

Lemma pages_nil lo hi : hi <= lo -> pages lo hi = [].
Proof. intros. unfold pages, seqZ. by replace (Z.to_nat (hi - lo)) with O by lia. Qed.

Lemma elem_of_pages p lo hi : p ∈ pages lo hi <-> lo <= number p < hi.
Proof.
  unfold pages. rewrite list_elem_of_fmap. split.
  - intros (n & -> & Hn). apply elem_of_seqZ in Hn. cbn. lia.
  - intros Hp. exists (number p). destruct p; cbn in *. split; [done|].
    apply elem_of_seqZ. lia.
Qed.
End pages.
End Pages.

(** ** [FrameAllocator] and [GlobalFrameAlloc] ([memory/mod.rs]) *)
Module Frames.

(** The trait.  The allocator is shared kernel state, threaded explicitly. *)
Class FrameAllocator (A : Type) := {
  alloc : A -> Z -> outcome (option Z * A);
  dealloc : A -> Z -> Z -> outcome A;
}.

(** What the doc comments of the trait promise, for one frame at a time (the
    only use in the kernel): [owned] is the set of frame addresses handed out
    and not given back, [avail] a number of frames that can still be taken. *)
Class FrameAllocatorSpec (A : Type) `{FrameAllocator A} := {
  owned : A -> gset Z;
  avail : A -> nat;
  owned_frames : forall a f, f ∈ owned a -> frame_addr f;
  alloc_spec : forall a, (0 < avail a)%nat ->
    exists f a', alloc a 1 = Ret (Some f, a') /\ frame_addr f /\ f ∉ owned a
                 /\ owned a' = ({[f]} ∪ owned a) /\ avail a = S (avail a');
}.

(** Frames that are given back can be taken again.  This is a class of its own
    because an allocator may keep the one promise and not the other. *)
Class FrameReturnSpec (A : Type) `{FrameAllocatorSpec A} : Type := {
  dealloc_spec : forall a f, f ∈ owned a ->
    exists a', dealloc a f 1 = Ret a' /\ owned a' = owned a ∖ {[f]} /\ avail a' = S (avail a);
}.

(** The buddy allocator of the [allocators] crate works on frame numbers. *)
Class BuddyAllocator (B : Type) := {
  buddy_alloc : B -> Z -> option Z * B;
  buddy_dealloc : B -> Z -> Z -> B;
  buddy_insert : B -> Z -> Z -> B;
}.

Section global.
Context `{BuildMode} {B : Type} `{BuddyAllocator B}.

(** [GlobalFrameAlloc::alloc] *)
Definition global_alloc (b : B) (count : Z) : outcome (option Z * B) :=
  match buddy_alloc b count with
  | (Some id, b') =>
      x ← umul id PAGE_SIZE; frame ← uadd x MEMORY_OFFSET; Ret (Some frame, b')
  | (None, b') => Ret (None, b')
  end.

(** [GlobalFrameAlloc::dealloc] *)
Definition global_dealloc (b : B) (target count : Z) : outcome B :=
  Ret (buddy_dealloc b (target / PAGE_SIZE) count).

#[export] Instance GlobalFrameAlloc : FrameAllocator B :=
  {| alloc := global_alloc; dealloc := global_dealloc |}.

(** [init_frame_allocator] of [arch/aarch64/memory.rs]: the frames between
    the end of the kernel image and the end of the memory, numbered from the
    start of the memory. *)
Definition init_frame_allocator (b : B) (image_end mem_start mem_end : Z) : outcome B :=
  x ← usub (as_lower_range image_end) mem_start;
  y ← usub (if mem_start <=? mem_end then mem_end - mem_start else 0) 1;
  page_end ← uadd (y / PAGE_SIZE) 1;
  Ret (buddy_insert b (x / PAGE_SIZE) page_end).

(** The frame number that comes back is not the one handed out: it is
    [MEMORY_OFFSET / PAGE_SIZE] too large. *)
Lemma global_dealloc_shift (b b' : B) (id : Z) :
  buddy_alloc b 1 = (Some id, b') ->
  0 <= id -> id * 4096 + MEMORY_OFFSET < 2 ^ 64 ->
  exists f, alloc b 1 = Ret (Some f, b')
            /\ dealloc b' f 1 = Ret (buddy_dealloc b' (id + 262144) 1).
Proof.
  intros Hb Hid Hr. change MEMORY_OFFSET with (262144 * 4096) in *.
  exists (id * 4096 + 262144 * 4096). cbn. unfold global_alloc, global_dealloc.
  rewrite Hb. change MEMORY_OFFSET with (262144 * 4096).
  rewrite PAGE_SIZE_eq, umul_ok by lia. sret.
  ostep. split; [done|].
  rewrite <- Z.mul_add_distr_r, Z.div_mul by lia. done.
Qed.
End global.
End Frames.

Import Frames.

(** ** [Entry] and [PageTable] ([memory/paging.rs]) *)
Module Table.

(** The trait [Entry]; [update] (a TLB invalidation of the entry's page) is an
    operation of the table below. *)
Class Entry (E : Type) := {
  accessed : E -> bool;
  dirty : E -> bool;
  writable : E -> bool;
  present : E -> bool;
  clear_accessed : E -> E;
  clear_dirty : E -> E;
  set_writable : bool -> E -> E;
  set_present : bool -> E -> E;
  target : E -> Z;
  set_target : Z -> E -> E;
  writable_shared : E -> bool;
  readonly_shared : E -> bool;
  set_shared : bool -> E -> E;
  clear_shared : E -> E;
  swapped : E -> bool;
  set_swapped : bool -> E -> E;
  user : E -> bool;
  set_user : bool -> E -> E;
  execute : E -> bool;
  set_execute : bool -> E -> E;
  mmio : E -> Z;
  set_mmio : Z -> E -> E;
}.

(** The laws the memory handlers rely on: each setter is read back by its
    getter and leaves the other attributes alone, except that [set_user]
    decides which bit [execute] reads.  [accessible] holds of an entry the
    processor can use at all, and [sealed] of one whose protection bits agree
    with the attributes the getters read. *)
Class EntrySpec (E : Type) `{Entry E} := {
  accessible : E -> Prop;
  sealed : E -> Prop;
  accessible_set_present b e : accessible e -> accessible (set_present b e);
  sealed_set_all u w x v e : accessible e -> sealed (set_mmio v (set_execute x (set_writable w (set_user u e))));
  sealed_set_present b e : sealed e -> sealed (set_present b e);
  sealed_set_target a e : frame_addr a -> sealed e -> sealed (set_target a e);
  user_set_user b e : user (set_user b e) = b;
  user_set_writable b e : user (set_writable b e) = user e;
  user_set_execute b e : user (set_execute b e) = user e;
  user_set_present b e : user (set_present b e) = user e;
  user_set_mmio v e : user (set_mmio v e) = user e;
  user_set_target a e : frame_addr a -> user (set_target a e) = user e;
  writable_set_user b e : writable (set_user b e) = writable e;
  writable_set_writable b e : writable (set_writable b e) = b;
  writable_set_execute b e : writable (set_execute b e) = writable e;
  writable_set_present b e : writable (set_present b e) = writable e;
  writable_set_mmio v e : writable (set_mmio v e) = writable e;
  writable_set_target a e : frame_addr a -> writable (set_target a e) = writable e;
  execute_set_execute b e : execute (set_execute b e) = b;
  execute_set_present b e : execute (set_present b e) = execute e;
  execute_set_mmio v e : execute (set_mmio v e) = execute e;
  execute_set_target a e : frame_addr a -> execute (set_target a e) = execute e;
  present_set_user b e : present (set_user b e) = present e;
  present_set_writable b e : present (set_writable b e) = present e;
  present_set_execute b e : present (set_execute b e) = present e;
  present_set_present b e : present (set_present b e) = b;
  present_set_mmio v e : present (set_mmio v e) = present e;
  present_set_target a e : frame_addr a -> present (set_target a e) = present e;
  target_set_user b e : target (set_user b e) = target e;
  target_set_writable b e : target (set_writable b e) = target e;
  target_set_execute b e : target (set_execute b e) = target e;
  target_set_present b e : target (set_present b e) = target e;
  target_set_mmio v e : target (set_mmio v e) = target e;
  target_set_target a e : frame_addr a -> target (set_target a e) = a;
}.

(** The trait [PageTable] with the constructor of [PageTableExt].  A table maps
    page numbers to entries; [map] may take frames for intermediate tables from
    the allocator.  [set_entry] is a write through the [&mut dyn Entry] that
    [map] or [get_entry] returned, [update] is [Entry::update] on it, and
    [page_frame] the frame whose bytes [get_page_slice_mut] returns. *)
Class PageTable (E A T : Type) := {
  pt_new : A -> outcome (T * A);
  pt_map : T -> A -> Z -> Z -> outcome (T * A);
  pt_unmap : T -> Z -> outcome T;
  pt_get_entry : T -> Z -> option E;
  pt_set_entry : T -> Z -> E -> T;
  pt_update : T -> Z -> T;
  pt_page_frame : T -> Z -> outcome Z;
}.

(** [view] is the mapping of a table, [stale] the set of pages whose entry was
    written and not yet invalidated in the TLB, and [page_ok] says which page
    numbers the table translates (a table serves one half of the address
    space).  [get_entry] of a page that is not mapped may find an unused
    entry, so nothing is promised about it. *)
Class PageTableSpec (E A T : Type) `{EntrySpec E, FrameAllocatorSpec A, PageTable E A T} := {
  view : T -> gmap Z E;
  stale : T -> gset Z;
  page_ok : Z -> Prop;
  new_spec a : (0 < avail a)%nat ->
    exists t a', pt_new a = Ret (t, a') /\ view t = ∅ /\ stale t = ∅
                 /\ owned a ⊆ owned a' /\ avail a = S (avail a');
  map_spec t a p tgt :
    0 <= p < 2 ^ 52 -> page_ok p -> frame_addr tgt -> view t !! p = None -> (3 <= avail a)%nat ->
    exists t' a' e, pt_map t a (p * 4096) tgt = Ret (t', a')
      /\ view t' = <[p := e]> (view t) /\ present e = true /\ target e = tgt /\ accessible e
      /\ stale t' = stale t ∖ {[p]} /\ owned a ⊆ owned a' /\ (avail a <= avail a' + 3)%nat;
  unmap_spec t p e :
    0 <= p < 2 ^ 52 -> view t !! p = Some e -> present e = true ->
    exists t', pt_unmap t (p * 4096) = Ret t'
      /\ view t' = delete p (view t) /\ stale t' = stale t ∖ {[p]};
  get_entry_spec t addr e : view t !! (addr / 4096) = Some e -> pt_get_entry t addr = Some e;
  set_entry_view t addr e : is_Some (view t !! (addr / 4096)) ->
    view (pt_set_entry t addr e) = <[addr / 4096 := e]> (view t);
  set_entry_stale t addr e : stale (pt_set_entry t addr e) = {[addr / 4096]} ∪ stale t;
  update_view t addr : view (pt_update t addr) = view t;
  update_stale t addr : stale (pt_update t addr) = stale t ∖ {[addr / 4096]};
  page_frame_spec t addr e :
    view t !! (addr / 4096) = Some e -> present e = true -> frame_addr (target e) -> pt_page_frame t addr = Ret (target e);
}.

End Table.
