(* ===== verification/FrameUse.v ===== *)
(** * Which frames the allocator hands out ([memory/mod.rs])

    [GlobalFrameAlloc] translates between the frame numbers of the buddy
    allocator and physical addresses.  Here it runs against the documented
    behaviour of the buddy allocator: what it hands out after
    [init_frame_allocator], and what becomes of a frame that is given back. *)

From S2P Require Import Prelude Paging.
Import Addr Frames.

(** The buddy allocator, for one frame at a time: the numbers that are free. *)
Class BuddySpec (B : Type) `{BuddyAllocator B} := {
  free : B -> gset Z;
  buddy_alloc_some b : free b <> ∅ ->
    exists id b', buddy_alloc b 1 = (Some id, b') /\ id ∈ free b /\ free b' = free b ∖ {[id]};
  buddy_alloc_none b : free b = ∅ -> exists b', buddy_alloc b 1 = (None, b') /\ free b' = ∅;
  buddy_dealloc_spec b id : id ∉ free b -> free (buddy_dealloc b id 1) = {[id]} ∪ free b;
  buddy_insert_spec b s e : free b = ∅ -> 0 <= s -> free (buddy_insert b s e) = list_to_set (seqZ s (e - s));
}.

Section frames.
Context `{BM : BuildMode} {B : Type} `{BS : BuddySpec B}.
Implicit Types b : B.

(** Taking [n] frames, one after the other. *)
Fixpoint alloc_all (n : nat) b : outcome (list Z * B) :=
  match n with
  | O => Ret ([], b)
  | S n =>
      x ← alloc b 1;
      f ← expect "out of memory" x.1;
      y ← alloc_all n x.2;
      Ret (f :: y.1, y.2)
  end.

(** The address of a frame number; all numbers the allocator has fit. *)
Definition address (id : Z) : Z := id * PAGE_SIZE + MEMORY_OFFSET.
Definition ids_ok b : Prop := forall id, id ∈ free b -> 0 <= id /\ address id < 2 ^ 64.

Lemma address_inj i j : address i = address j -> i = j.
Proof. unfold address. rewrite PAGE_SIZE_eq. lia. Qed.

Lemma alloc_one b : ids_ok b -> free b <> ∅ ->
  exists id b', alloc b 1 = Ret (Some (address id), b') /\ id ∈ free b /\ free b' = free b ∖ {[id]} /\ ids_ok b'.
Proof.
  intros Hok Hne. destruct (buddy_alloc_some b Hne) as (id & b' & Hb & Hid & Hf). exists id, b'.
  destruct (Hok id Hid) as [H0 H64]. cbn. unfold global_alloc. rewrite Hb. unfold address, MEMORY_OFFSET in *. rewrite PAGE_SIZE_eq in *.
  rewrite umul_ok by lia. sret. rewrite uadd_ok by lia. sret. split_and!; try done. intros j Hj. apply Hok. set_solver.
Qed.

(** All the free frames can be taken, each once. *)
Lemma alloc_all_spec n : forall b, ids_ok b -> size (free b) = n ->
  exists l b', alloc_all n b = Ret (l, b') /\ free b' = ∅ /\ NoDup l /\ forall f, f ∈ l <-> exists id, id ∈ free b /\ f = address id.
Proof.
  induction n as [|n IH]; intros b Hok Hn.
  { exists [], b. apply size_empty_inv, leibniz_equiv in Hn. split_and!; [done|done|constructor|]. intros f. rewrite Hn. set_solver. }
  destruct (alloc_one b Hok) as (id & b' & Ha & Hid & Hf & Hok'); [intros E; by rewrite E, size_empty in Hn|].
  destruct (IH b' Hok') as (l & b'' & Hl & He & Hnd & Hin).
  { rewrite Hf, size_difference by set_solver. rewrite size_singleton. lia. }
  exists (address id :: l), b''. cbn [alloc_all]. rewrite Ha. sret. cbn [expect mbind outcome_bind fst snd]. rewrite Hl. sret.
  split_and!; try done.
  - constructor; [|done]. intros (j & Hj & E)%Hin. apply address_inj in E. subst j. rewrite Hf in Hj. set_solver.
  - intros f. rewrite elem_of_cons, Hin, Hf. split.
    + intros [->|(j & Hj & ->)]; [by exists id|]. exists j. set_solver.
    + intros (j & Hj & ->). destruct (decide (j = id)) as [->|]; [by left|]. right. exists j. set_solver.
Qed.

(** The frames free after [init_frame_allocator]: those from the end of the
    image to the end of the memory. *)
Definition memory_ok (image_end mem_start mem_end : Z) : Prop :=
  mem_start = MEMORY_OFFSET /\ as_lower_range image_end mod PAGE_SIZE = 0 /\ mem_end mod PAGE_SIZE = 0
  /\ mem_start <= as_lower_range image_end < mem_end /\ mem_end < 2 ^ 63.

Lemma init_frames b image_end mem_start mem_end : free b = ∅ -> memory_ok image_end mem_start mem_end ->
  exists b', init_frame_allocator b image_end mem_start mem_end = Ret b' /\ ids_ok b'
    /\ forall id, id ∈ free b' <-> as_lower_range image_end <= address id /\ address id + PAGE_SIZE <= mem_end.
Proof.
  intros Hb (-> & Hi & He & Hm & H63). unfold init_frame_allocator, ids_ok, address, MEMORY_OFFSET in *. rewrite PAGE_SIZE_eq in *.
  set (i := as_lower_range image_end) in *. rewrite (usub_ok i) by lia. sret. rewrite (proj2 (Z.leb_le _ _)) by lia.
  rewrite usub_ok by lia. sret. pose proof (Z.div_mod i 4096) as Hd. pose proof (Z.div_mod mem_end 4096) as Hd'.
  assert (Hs : (i - 0x40000000) / 4096 = i / 4096 - 0x40000) by (symmetry; apply Z.div_unique_exact; lia).
  assert (Hp : (mem_end - 0x40000000 - 1) / 4096 = mem_end / 4096 - 0x40000 - 1) by (symmetry; apply Z.div_unique with 4095; lia).
  rewrite Hp, uadd_ok by lia. sret. eexists. split; [done|].
  assert (Hin : forall id, id ∈ free (buddy_insert b ((i - 0x40000000) / 4096) (mem_end / 4096 - 0x40000 - 1 + 1))
    <-> i <= id * 4096 + 0x40000000 /\ id * 4096 + 0x40000000 + 4096 <= mem_end).
  { intros id. rewrite buddy_insert_spec, elem_of_list_to_set, elem_of_seqZ, Hs by (done || lia). lia. }
  split; [|done]. intros id Hid%Hin. lia.
Qed.

(** C22. The frames of the kernel.  After [init_frame_allocator] as many frames
    can be taken as there are pages between the end of the kernel image and
    the end of the memory; they are different, aligned, and none of them
    overlaps the image or lies outside of the memory. *)
Theorem frames_outside_image b image_end mem_start mem_end :
  free b = ∅ -> memory_ok image_end mem_start mem_end ->
  exists b' l b'', init_frame_allocator b image_end mem_start mem_end = Ret b' /\ alloc_all (size (free b')) b' = Ret (l, b'')
    /\ NoDup l /\ forall f, f ∈ l <-> f mod PAGE_SIZE = 0 /\ as_lower_range image_end <= f /\ f + PAGE_SIZE <= mem_end.
Proof.
  intros Hb Hm. destruct (init_frames b _ _ _ Hb Hm) as (b' & Hi & Hok & Hin).
  destruct (alloc_all_spec _ b' Hok eq_refl) as (l & b'' & Hl & _ & Hnd & Hf). exists b', l, b''. split_and!; try done.
  intros f. rewrite Hf. unfold address, MEMORY_OFFSET in *. rewrite PAGE_SIZE_eq in *. split.
  - intros (id & Hid & ->). apply Hin in Hid. split; [|done]. change 0x40000000 with (0x40000 * 4096). by rewrite <- Z.mul_add_distr_r, Z.mod_mul.
  - intros (Ha & Hr). pose proof (Z.div_mod f 4096). exists (f / 4096 - 0x40000). rewrite Hin. lia.
Qed.

(** *** The contract of a frame allocator *)

(** The numbers whose addresses a descriptor can hold, 47 bits of them. *)
Definition MAX_ID : Z := 0x7fffc0000.
Definition valid_id (id : Z) : bool := (0 <=? id) && (id <? MAX_ID).
Definition all_valid b : bool := forallb valid_id (elements (free b)).

Lemma valid_id_address id : valid_id id = true <-> 0 <= id /\ MEMORY_OFFSET <= address id < 2 ^ 47.
Proof. unfold valid_id, address, MAX_ID, MEMORY_OFFSET. rewrite PAGE_SIZE_eq, andb_true_iff, Z.leb_le, Z.ltb_lt. lia. Qed.

Lemma valid_id_frame id : valid_id id = true -> frame_addr (address id).
Proof.
  intros (_ & Hr)%valid_id_address. split; [|unfold MEMORY_OFFSET in *; lia]. unfold aligned, address, MEMORY_OFFSET. rewrite PAGE_SIZE_eq.
  change 0x40000000 with (0x40000 * 4096). rewrite <- Z.mul_add_distr_r. apply Z.mod_mul. lia.
Qed.

Lemma all_valid_spec b : all_valid b = true <-> forall id, id ∈ free b -> valid_id id = true.
Proof.
  unfold all_valid. rewrite forallb_forall. split; intros Hall id Hid; apply Hall; [by apply list_elem_of_In, elem_of_elements|].
  by apply elem_of_elements, list_elem_of_In.
Qed.

Lemma all_valid_ids b : all_valid b = true -> ids_ok b.
Proof. intros Hall id Hid. apply (proj1 (all_valid_spec b) Hall), valid_id_address in Hid. lia. Qed.

(** A frame is handed out when it is not free. *)
Definition frames_owned b : gset Z := list_to_set (address <$> seqZ 0 MAX_ID) ∖ set_map address (free b).
Definition frames_avail b : nat := if all_valid b then size (free b) else O.

Lemma elem_of_owned b f : f ∈ frames_owned b <-> exists id, f = address id /\ valid_id id = true /\ id ∉ free b.
Proof.
  unfold frames_owned. rewrite elem_of_difference, elem_of_list_to_set, list_elem_of_fmap. split.
  - intros [(id & -> & Hid%elem_of_seqZ) Hn]. exists id. split_and!; [done| |].
    + unfold valid_id. rewrite andb_true_iff, Z.leb_le, Z.ltb_lt. lia.
    + intros Hf. apply Hn, elem_of_map. by exists id.
  - intros (id & -> & Hv & Hn). split.
    + exists id. split; [done|]. apply elem_of_seqZ. unfold valid_id in Hv. rewrite andb_true_iff, Z.leb_le, Z.ltb_lt in Hv. lia.
    + intros (j & E & Hj)%elem_of_map. by apply address_inj in E as ->.
Qed.

(** As long as frames are only taken, [GlobalFrameAlloc] keeps the contract that
    the address spaces rely on.  It does not return frames ([FrameReturnSpec]),
    as the next theorem shows. *)
#[export] Program Instance GlobalFrameAllocSpec : FrameAllocatorSpec B := {| owned := frames_owned; avail := frames_avail |}.
Next Obligation. intros b f (id & -> & Hid & _)%elem_of_owned. by apply valid_id_frame. Qed.
Next Obligation.
  intros b Hav. cbn beta in Hav. unfold frames_avail in *. destruct (all_valid b) eqn:Hall; [|lia].
  destruct (alloc_one b (all_valid_ids b Hall)) as (id & b' & Ha & Hid & Hf & _); [intros E; rewrite E, size_empty in Hav; lia|].
  exists (address id), b'. pose proof (proj1 (all_valid_spec b) Hall) as Hv. split_and!; [done|by apply valid_id_frame, Hv| | |].
  - intros (j & E & _ & Hj)%elem_of_owned. by apply address_inj in E as <-.
  - apply set_eq. intros f. rewrite elem_of_union, elem_of_singleton, !elem_of_owned, Hf. split.
    + intros (j & -> & Hj & Hn). destruct (decide (j = id)) as [->|Hne]; [by left|]. right. exists j. split_and!; [done..|]. set_solver.
    + intros [->|(j & -> & Hj & Hn)]; [exists id; split_and!; [done|by apply Hv|set_solver]|]. exists j. split_and!; [done..|set_solver].
  - assert (all_valid b' = true) as ->; [apply all_valid_spec; rewrite Hf; set_solver|].
    rewrite Hf, size_difference, size_singleton by set_solver. assert (size (free b) <> 0)%nat by lia. lia.
Qed.

Lemma owned_spec b f : f ∈ owned b <-> exists id, f = address id /\ valid_id id = true /\ id ∉ free b.
Proof. exact (elem_of_owned b f). Qed.
Lemma avail_spec b : all_valid b = true -> avail b = size (free b).
Proof. intros Hv. change (frames_avail b = size (free b)). unfold frames_avail. by rewrite Hv. Qed.

End frames.

(** ** An allocator *)
#[export] Instance SetBuddy : BuddyAllocator (gset Z) := {|
  buddy_alloc b _ := match elements b with id :: _ => (Some id, b ∖ {[id]}) | [] => (None, b) end;
  buddy_dealloc b id _ := {[id]} ∪ b;
  buddy_insert b s e := b ∪ list_to_set (seqZ s (e - s));
|}.
#[export] Instance SetBuddySpec : BuddySpec (gset Z).
Proof.
  refine {| free := id |}; intros b; unfold id; cbn.
  - intros Hne. destruct (elements b) as [|i l] eqn:E; [by apply elements_empty_inv, leibniz_equiv in E|].
    exists i, (b ∖ {[i]}). split; [done|]. split; [|done]. apply elem_of_elements. rewrite E. by left.
  - intros ->. rewrite elements_empty. by eexists.
  - done.
  - intros s e -> _. by rewrite union_empty_l_L.
Defined.

Section concrete.
#[local] Instance debug : BuildMode := true.

Lemma frames_outside_image_witness :
  exists b' l b'', init_frame_allocator (∅ : gset Z) 0xffff000040082000 0x40000000 0x40084000 = Ret b'
    /\ alloc_all (size (free b')) b' = Ret (l, b'') /\ 0x40082000 ∈ l /\ 0x40081000 ∉ l.
Proof.
  destruct (frames_outside_image (∅ : gset Z) 0xffff000040082000 0x40000000 0x40084000) as (b' & l & b'' & Hi & Hl & _ & Hin); [reflexivity|by repeat split|].
  exists b', l, b''. split; [exact Hi|]. split; [exact Hl|]. split; [apply Hin; by repeat split|].
  intros [_ [Hlo _]]%Hin. by vm_compute in Hlo.
Defined.

End concrete.
