(* ===== verification/Handler.v ===== *)
(** * Memory handlers ([memory/handler/*.rs]) and [MemoryAttr]

    The four implementations of the trait [MemoryHandler] over the interfaces
    of [Paging.v].  A handler works on a page table and on the [world]: the
    frame allocator and the contents of the physical frames, which
    [get_page_slice_mut] exposes. *)

From S2P Require Import Prelude Paging.
Import Addr Frames Table.

(** ** [MemoryAttr] ([memory/memory_set.rs]) *)
Module Attr.

Record MemoryAttr := mkAttr { user : bool; readonly : bool; execute : bool; mmio : Z }.

(** [MemoryAttr::default] (derived) and the builder methods. *)
Definition default : MemoryAttr := mkAttr false false false 0.
Definition user_ (self : MemoryAttr) : MemoryAttr := mkAttr true (readonly self) (execute self) (mmio self).
Definition readonly_ (self : MemoryAttr) : MemoryAttr := mkAttr (user self) true (execute self) (mmio self).
Definition writable_ (self : MemoryAttr) : MemoryAttr := mkAttr (user self) false (execute self) (mmio self).
Definition execute_ (self : MemoryAttr) : MemoryAttr := mkAttr (user self) (readonly self) true (mmio self).
Definition mmio_ (self : MemoryAttr) (value : Z) : MemoryAttr := mkAttr (user self) (readonly self) (execute self) value.

End Attr.
Abbreviation MemoryAttr := Attr.MemoryAttr.

(** The kernel state a handler touches besides the page table. *)
Record world (A : Type) := mkWorld { fa : A; mem : Z -> list Z }.
Arguments mkWorld {A}.
Arguments fa {A}.
Arguments mem {A}.

Definition with_fa {A} (w : world A) (a : A) : world A := mkWorld a (mem w).
Definition set_page {A} (w : world A) (f : Z) (data : list Z) : world A :=
  mkWorld (fa w) (fun g => if f =? g then data else mem w g).

(** The number of bytes of a page, as a length. *)
Definition page_len : nat := Z.to_nat PAGE_SIZE.

Lemma page_len_Z : Z.of_nat page_len = 4096.
Proof. unfold page_len. rewrite PAGE_SIZE_eq. lia. Qed.

(** [lia] with the value of [page_len]. *)
Ltac plia := pose proof page_len_Z; lia.

(** Every frame holds one page of bytes. *)
Definition mem_wf {A} (w : world A) : Prop := forall f, length (mem w f) = page_len.

(** The trait [Read] of [memory/handler/file.rs]: the number of bytes read and
    the buffer afterwards. *)
Class Read (F : Type) := read_at : F -> Z -> list Z -> outcome (Z * list Z).

(** [File]'s fields besides the allocator. *)
Record FileMap (F : Type) := mkFile { file : F; mem_start : Z; file_start : Z; file_end : Z }.
Arguments mkFile {F}.
Arguments file {F}.
Arguments mem_start {F}.
Arguments file_start {F}.
Arguments file_end {F}.

(** [Box<dyn MemoryHandler>]: one of the four handlers. *)
Inductive MemoryHandler (F : Type) : Type :=
| Linear (offset : Z)
| ByFrame
| Delay
| File (f : FileMap F).
Arguments Linear {F}.
Arguments ByFrame {F}.
Arguments Delay {F}.
Arguments File {F}.

(** The arguments of a call of [PageTable::flush_cache_copy_user]. *)
Record Flush := mkFlush { fl_start : Z; fl_end : Z; fl_execute : bool }.

Section handlers.
Context `{BuildMode} {E A T F : Type}.
Context `{EI : Entry E, FI : FrameAllocator A, PI : !PageTable E A T, RI : Read F}.

(** [MemoryAttr::apply] on the entry of [addr], read as [e]. *)
Definition apply (self : MemoryAttr) (t : T) (addr : Z) (e : E) : T :=
  let e := set_user (Attr.user self) e in
  let e := set_writable (negb (Attr.readonly self)) e in
  let e := set_execute (Attr.execute self) e in
  let e := set_mmio (Attr.mmio self) e in
  pt_update (pt_set_entry t addr e) addr.

(** [pt.map(addr, target)] with the entry it returns. *)
Definition map_entry (t : T) (w : world A) (addr tgt : Z) : outcome (T * world A * E) :=
  x ← pt_map t (fa w) addr tgt;
  e ← expect "fail to get entry" (pt_get_entry x.1 addr);
  Ret (x.1, with_fa w x.2, e).

(** [allocator.alloc(1).expect(msg)] *)
Definition alloc_frame (w : world A) (msg : string) : outcome (Z * world A) :=
  x ← alloc (fa w) 1; f ← expect msg x.1; Ret (f, with_fa w x.2).

(** [allocator.dealloc(target, 1)] *)
Definition dealloc_frame (w : world A) (f : Z) : outcome (world A) :=
  a ← dealloc (fa w) f 1; Ret (with_fa w a).

(** *** [Linear] *)
Definition linear_map (offset : Z) (t : T) (w : world A) (addr : Z) (attr : MemoryAttr) : outcome (T * world A) :=
  x ← iadd (as_i64 addr) offset;
  m ← map_entry t w addr (as_u64 x);
  Ret (apply attr m.1.1 addr m.2, m.1.2).

Definition linear_unmap (t : T) (w : world A) (addr : Z) : outcome (T * world A) :=
  t ← pt_unmap t addr; Ret (t, w).

Definition linear_clone_map (offset : Z) (t src : T) (w : world A) (addr : Z) (attr : MemoryAttr) : outcome (T * world A) :=
  linear_map offset t w addr attr.

(** *** [ByFrame] *)
Definition byframe_map (t : T) (w : world A) (addr : Z) (attr : MemoryAttr) : outcome (T * world A) :=
  x ← alloc_frame w "failed to allocate frame";
  m ← map_entry t x.2 addr x.1;
  Ret (apply attr m.1.1 addr m.2, m.1.2).

Definition byframe_unmap (t : T) (w : world A) (addr : Z) : outcome (T * world A) :=
  e ← expect "fail to get entry" (pt_get_entry t addr);
  w ← dealloc_frame w (target e);
  t ← pt_unmap t addr;
  Ret (t, w).

(** [pt.get_page_slice_mut(addr).copy_from_slice(data)] *)
Definition copy_page (t : T) (w : world A) (addr : Z) (data : list Z) : outcome (world A) :=
  f ← pt_page_frame t addr; Ret (set_page w f data).

(** [get_page_slice_mut(addr)] as a value *)
Definition page_slice (t : T) (w : world A) (addr : Z) : outcome (list Z) :=
  f ← pt_page_frame t addr; Ret (mem w f).

Definition byframe_clone_map (t src : T) (w : world A) (addr : Z) (attr : MemoryAttr) : outcome (T * world A) :=
  m ← byframe_map t w addr attr;
  data ← page_slice src m.2 addr;
  w ← copy_page m.1 m.2 addr data;
  Ret (m.1, w).

(** *** [Delay] and the eager clone that [File] shares with it *)
Definition delay_map (t : T) (w : world A) (addr : Z) (attr : MemoryAttr) : outcome (T * world A) :=
  m ← map_entry t w addr 0;
  let e := set_present false m.2 in
  let t := pt_set_entry m.1.1 addr e in
  Ret (apply attr t addr e, m.1.2).

Definition delay_unmap (t : T) (w : world A) (addr : Z) : outcome (T * world A) :=
  e ← expect "failed to get entry" (pt_get_entry t addr);
  w ← (if present e then dealloc_frame w (target e) else Ret w);
  let t := pt_set_entry t addr (set_present true e) in
  t ← pt_unmap t addr;
  Ret (t, w).

(** The eager branch of [clone_map]: allocate, map, copy, flush.  The call that
    flushes the caches is part of the result. *)
Definition eager_clone (t src : T) (w : world A) (addr : Z) (attr : MemoryAttr) : outcome (T * world A * option Flush) :=
  data ← page_slice src w addr;
  x ← alloc_frame w "failed to alloc frame";
  m ← map_entry t x.2 addr x.1;
  let t := apply attr m.1.1 addr m.2 in
  w ← copy_page t m.1.2 addr data;
  end_ ← uadd addr (Z.of_nat (length data));
  Ret (t, w, Some (mkFlush addr end_ (Attr.execute attr))).

Definition delay_clone_map (t src : T) (w : world A) (addr : Z) (attr : MemoryAttr) : outcome (T * world A * option Flush) :=
  e ← expect "failed to get entry" (pt_get_entry src addr);
  if present e then eager_clone t src w addr attr else x ← delay_map t w addr attr; Ret (x, None).

Definition delay_handle_page_fault (t : T) (w : world A) (addr : Z) : outcome (bool * T * world A * option Flush) :=
  e ← expect "failed to get entry" (pt_get_entry t addr);
  if present e then Ret (false, t, w, None)
  else
    x ← alloc_frame w "failed to alloc frame";
    let e := set_present true (set_target x.1 e) in
    let t := pt_update (pt_set_entry t addr e) addr in
    data ← page_slice t x.2 addr;
    w ← copy_page t x.2 addr (replicate (length data) 0);
    end_ ← uadd addr (Z.of_nat (length data));
    Ret (true, t, w, Some (mkFlush addr end_ false)).

(** *** [File] *)
Definition file_map (t : T) (w : world A) (addr : Z) (attr : MemoryAttr) : outcome (T * world A) :=
  m ← map_entry t w addr 0;
  let e := set_present false m.2 in
  let t := pt_set_entry m.1.1 addr e in
  Ret (apply attr t addr e, m.1.2).

Definition file_unmap (t : T) (w : world A) (addr : Z) : outcome (T * world A) :=
  e ← expect "failed to get entry" (pt_get_entry t addr);
  w ← (if present e then dealloc_frame w (target e) else Ret w);
  let t := pt_set_entry t addr (set_present true e) in
  t ← pt_unmap t addr;
  Ret (t, w).

Definition file_clone_map (t src : T) (w : world A) (addr : Z) (attr : MemoryAttr) : outcome (T * world A * option Flush) :=
  e ← expect "failed to get entry" (pt_get_entry src addr);
  if present e && negb (Attr.readonly attr) then eager_clone t src w addr attr
  else x ← file_map t w addr attr; Ret (x, None).

(** [File::fill_data]: the number of bytes [read_at] reports. *)
Definition fill_data (self : FileMap F) (t : T) (w : world A) (addr : Z) : outcome (Z * world A) :=
  f ← pt_page_frame t addr;
  let data := mem w f in
  a ← uadd addr (file_start self);
  file_offset ← usub a (mem_start self);
  d ← isub (as_i64 (file_end self)) (as_i64 file_offset);
  let read_size := as_u64 (Z.max (Z.min d (as_i64 PAGE_SIZE)) 0) in
  x ← read_at (file self) file_offset (take (Z.to_nat read_size) data);
  let data := x.2 ++ drop (Z.to_nat read_size) data in
  let read_size := x.1 in
  data ← (if read_size =? PAGE_SIZE then Ret data
          else if read_size <=? Z.of_nat (length data) then
            Ret (take (Z.to_nat read_size) data
                 ++ replicate (length data - Z.to_nat read_size) 0)
          else Panic "range start index out of range for slice");
  Ret (read_size, set_page w f data).

Definition file_handle_page_fault (self : FileMap F) (t : T) (w : world A) (addr0 : Z) : outcome (bool * T * world A * option Flush) :=
  let addr := page_down addr0 in
  e ← expect "failed to get entry" (pt_get_entry t addr);
  if present e then Ret (false, t, w, None)
  else
    let execute := execute e in
    x ← alloc_frame w "failed to alloc frame";
    let e := set_present true (set_target x.1 e) in
    let t := pt_update (pt_set_entry t addr e) addr in
    r ← fill_data self t x.2 addr;
    end_ ← uadd addr r.1;
    Ret (true, t, r.2, Some (mkFlush addr end_ execute)).

(** *** The trait object *)
Definition handler_map (h : MemoryHandler F) (t : T) (w : world A) (addr : Z) (attr : MemoryAttr) : outcome (T * world A) :=
  match h with
  | Linear offset => linear_map offset t w addr attr
  | ByFrame => byframe_map t w addr attr
  | Delay => delay_map t w addr attr
  | File _ => file_map t w addr attr
  end.

Definition handler_unmap (h : MemoryHandler F) (t : T) (w : world A) (addr : Z) : outcome (T * world A) :=
  match h with
  | Linear _ => linear_unmap t w addr
  | ByFrame => byframe_unmap t w addr
  | Delay => delay_unmap t w addr
  | File _ => file_unmap t w addr
  end.

Definition handler_clone_flush (h : MemoryHandler F) (t src : T) (w : world A) (addr : Z) (attr : MemoryAttr) : outcome (T * world A * option Flush) :=
  match h with
  | Linear offset => x ← linear_clone_map offset t src w addr attr; Ret (x, None)
  | ByFrame => x ← byframe_clone_map t src w addr attr; Ret (x, None)
  | Delay => delay_clone_map t src w addr attr
  | File _ => file_clone_map t src w addr attr
  end.

Definition handler_fault_flush (h : MemoryHandler F) (t : T) (w : world A) (addr : Z) : outcome (bool * T * world A * option Flush) :=
  match h with
  | Linear _ | ByFrame => Ret (false, t, w, None)
  | Delay => delay_handle_page_fault t w addr
  | File f => file_handle_page_fault f t w addr
  end.

(** The same without the caches, which nothing but instruction fetches sees. *)
Definition handler_clone_map h t src w addr attr : outcome (T * world A) :=
  x ← handler_clone_flush h t src w addr attr; Ret x.1.
Definition handler_page_fault h t w addr : outcome (bool * T * world A) :=
  x ← handler_fault_flush h t w addr; Ret x.1.
End handlers.

(** ** What a mapped page looks like *)
Section specs.
Context `{BuildMode} {E A T F : Type}.
Context `{ES : EntrySpec E, FS : FrameAllocatorSpec A, FR : !FrameReturnSpec A, PI : !PageTable E A T, !PageTableSpec E A T, RI : Read F}.
Implicit Types (t : T) (w : world A) (e : E) (h : MemoryHandler F) (p : Z).

(** The entry carries the area's permissions. *)
Definition attrs_ok (at_ : MemoryAttr) (e : E) : Prop :=
  sealed e /\ user e = Attr.user at_ /\ writable e = negb (Attr.readonly at_) /\ execute e = Attr.execute at_.

(** The target of page [p] under a linear mapping. *)
Definition linear_target (offset p : Z) : Z := as_u64 (as_i64 (p * 4096) + offset).

Definition handler_ok h p e : Prop :=
  match h with
  | Linear offset => present e = true /\ target e = linear_target offset p
  | ByFrame => present e = true
  | Delay | File _ => True
  end.

(** Does the page hold a frame of the allocator? *)
Definition uses_frame h e : bool :=
  match h with
  | Linear _ => false
  | ByFrame => true
  | Delay | File _ => present e
  end.

(** When mapping page [p] makes sense: the table translates it, and a linear
    mapping does not overflow and its target is a frame. *)
Definition mappable h p : Prop :=
  page_ok p /\ match h with
  | Linear offset => is_i64 (as_i64 (p * 4096) + offset) /\ frame_addr (linear_target offset p)
  | _ => True
  end.

Lemma page_div p : p * 4096 / 4096 = p.
Proof. apply Z.div_mul. lia. Qed.

Lemma page_down_div addr : is_u64 addr -> page_down addr / 4096 = addr / 4096.
Proof.
  intros Ha. rewrite page_down_eq by done. pose proof (Z.div_mod addr 4096).
  replace (addr - addr mod 4096) with (addr / 4096 * 4096) by lia. apply page_div.
Qed.

(** [apply] on the entry the table holds: the permissions are those of the
    attribute, presence and target are kept, and the page is not stale. *)
Lemma apply_spec at_ t addr e :
  view t !! (addr / 4096) = Some e -> accessible e ->
  exists e', view (apply at_ t addr e) = <[addr / 4096 := e']> (view t)
    /\ attrs_ok at_ e' /\ present e' = present e /\ target e' = target e
    /\ stale (apply at_ t addr e) = stale t ∖ {[addr / 4096]}.
Proof.
  intros He Hus. unfold apply. eexists. split_and!.
  - rewrite update_view, set_entry_view by eauto. done.
  - unfold attrs_ok. split; [by apply sealed_set_all|].
    rewrite user_set_mmio, user_set_execute, user_set_writable, user_set_user.
    rewrite writable_set_mmio, writable_set_execute, writable_set_writable.
    by rewrite execute_set_mmio, execute_set_execute.
  - by rewrite present_set_mmio, present_set_execute, present_set_writable, present_set_user.
  - by rewrite target_set_mmio, target_set_execute, target_set_writable, target_set_user.
  - rewrite update_stale, set_entry_stale. set_solver.
Qed.

Lemma map_entry_spec t w p tgt :
  0 <= p < 2 ^ 52 -> page_ok p -> frame_addr tgt -> view t !! p = None -> (3 <= avail (fa w))%nat ->
  exists t' w' e, map_entry t w (p * 4096) tgt = Ret (t', w', e)
    /\ view t' = <[p := e]> (view t) /\ present e = true /\ target e = tgt /\ accessible e
    /\ stale t' = stale t ∖ {[p]} /\ owned (fa w) ⊆ owned (fa w')
    /\ (avail (fa w) <= avail (fa w') + 3)%nat /\ mem w' = mem w.
Proof.
  intros Hp Hpo Ht Hv Ha.
  destruct (map_spec t (fa w) p tgt Hp Hpo Ht Hv Ha) as (t' & a' & e & Hm & Hview & Hpr & Htg & Hus & Hst & Ho & Hav).
  exists t', (with_fa w a'), e. unfold map_entry. rewrite Hm. cbn [mbind outcome_bind fst snd].
  rewrite (get_entry_spec _ _ e) by (by rewrite page_div, Hview, lookup_insert_eq). done.
Qed.

Lemma alloc_frame_spec w msg :
  (0 < avail (fa w))%nat ->
  exists f w', alloc_frame w msg = Ret (f, w') /\ frame_addr f /\ f ∉ owned (fa w)
    /\ owned (fa w') = ({[f]} ∪ owned (fa w)) /\ avail (fa w) = S (avail (fa w')) /\ mem w' = mem w.
Proof.
  intros Ha. destruct (alloc_spec (fa w) Ha) as (f & a' & Hal & Hf & Hn & Ho & Hav).
  exists f, (with_fa w a'). unfold alloc_frame. rewrite Hal. done.
Qed.

Lemma dealloc_frame_spec w f :
  f ∈ owned (fa w) ->
  exists w', dealloc_frame w f = Ret w' /\ owned (fa w') = owned (fa w) ∖ {[f]}
    /\ avail (fa w') = S (avail (fa w)) /\ mem w' = mem w.
Proof.
  intros Hf. destruct (dealloc_spec (fa w) f Hf) as (a' & Hd & Ho & Hav).
  exists (with_fa w a'). unfold dealloc_frame. rewrite Hd. done.
Qed.

(** Mapping one fresh page: the new entry has the area's permissions, the
    page is not stale, and a frame it uses is fresh. *)
Definition mapped_post h at_ p t w t' w' : Prop :=
  exists e, view t' = <[p := e]> (view t) /\ attrs_ok at_ e /\ handler_ok h p e
    /\ stale t' = stale t ∖ {[p]} /\ owned (fa w) ⊆ owned (fa w')
    /\ (uses_frame h e = true -> target e ∈ owned (fa w') /\ target e ∉ owned (fa w))
    /\ (avail (fa w) <= avail (fa w') + 4)%nat.

Lemma delay_map_spec h at_ t w p :
  (h = Delay \/ exists f, h = File f) ->
  0 <= p < 2 ^ 52 -> page_ok p -> view t !! p = None -> (3 <= avail (fa w))%nat ->
  exists t' w', delay_map t w (p * 4096) at_ = Ret (t', w')
    /\ mapped_post h at_ p t w t' w' /\ mem w' = mem w
    /\ (exists e, view t' !! p = Some e /\ present e = false).
Proof.
  intros Hh Hp Hpo Hv Ha. unfold delay_map.
  destruct (map_entry_spec t w p 0) as (t1 & w1 & e & -> & Hview & _ & _ & Hus & Hst & Ho & Hav & Hmem); [done..|].
  cbn [mbind outcome_bind fst snd].
  set (t2 := pt_set_entry t1 _ _).
  assert (Hv2 : view t2 = <[p := set_present false e]> (view t)).
  { subst t2. rewrite set_entry_view by (rewrite page_div, Hview, lookup_insert_eq; eauto).
    rewrite page_div, Hview. apply insert_insert_eq. }
  destruct (apply_spec at_ t2 (p * 4096) (set_present false e)) as (e' & Hve & Hat & Hpr & _ & Hst').
  { by rewrite page_div, Hv2, lookup_insert_eq. }
  { by apply accessible_set_present. }
  rewrite page_div in Hve, Hst'. rewrite Hv2, insert_insert_eq in Hve.
  rewrite present_set_present in Hpr.
  do 2 eexists; split; [done|]. split_and!; [|done|].
  - exists e'. split_and!; [done..| | | | |lia].
    + by destruct Hh as [-> | [? ->]].
    + rewrite Hst'. subst t2. rewrite set_entry_stale, page_div, Hst. set_solver.
    + done.
    + intros Hu. destruct Hh as [-> | [? ->]]; cbn in Hu; congruence.
  - exists e'. by rewrite Hve, lookup_insert_eq.
Qed.

Lemma eager_map_spec h at_ t w p tgt :
  0 <= p < 2 ^ 52 -> page_ok p -> frame_addr tgt -> view t !! p = None -> (3 <= avail (fa w))%nat ->
  exists t1 w1 e, map_entry t w (p * 4096) tgt = Ret (t1, w1, e) /\
    exists e', view (apply at_ t1 (p * 4096) e) = <[p := e']> (view t)
    /\ attrs_ok at_ e' /\ present e' = true /\ target e' = tgt
    /\ stale (apply at_ t1 (p * 4096) e) = stale t ∖ {[p]}
    /\ owned (fa w) ⊆ owned (fa w1) /\ (avail (fa w) <= avail (fa w1) + 3)%nat /\ mem w1 = mem w.
Proof.
  intros Hp Hpo Ht Hv Ha.
  destruct (map_entry_spec t w p tgt) as (t1 & w1 & e & Hm & Hview & Hpr & Htg & Hus & Hst & Ho & Hav & Hmem); [done..|].
  exists t1, w1, e. split; [done|].
  destruct (apply_spec at_ t1 (p * 4096) e) as (e' & Hve & Hat & Hpr' & Htg' & Hst').
  { by rewrite page_div, Hview, lookup_insert_eq. }
  { done. }
  rewrite page_div in Hve, Hst'. rewrite Hview, insert_insert_eq in Hve.
  exists e'. rewrite Hst', Hst. split_and!; [done| done | congruence | congruence | set_solver | done..].
Qed.

(** Mapping a page with any handler succeeds while frames are left. *)
Lemma handler_map_spec h at_ t w p :
  0 <= p < 2 ^ 52 -> mappable h p -> view t !! p = None -> (4 <= avail (fa w))%nat ->
  exists t' w', handler_map h t w (p * 4096) at_ = Ret (t', w')
    /\ mapped_post h at_ p t w t' w' /\ mem w' = mem w.
Proof.
  intros Hp [Hpo Hm] Hv Ha. destruct h as [offset| | |f]; cbn [handler_map].
  - destruct Hm as [Hi Hf]. unfold linear_map, iadd. rewrite i64_ok by done.
    sret. fold (linear_target offset p).
    destruct (eager_map_spec (Linear offset) at_ t w p (linear_target offset p))
      as (t1 & w1 & e & -> & e' & Hve & Hat & Hpr & Htg & Hst & Ho & Hav & Hmem); [done..|lia|].
    cbn [mbind outcome_bind fst snd]. do 2 eexists; split; [done|]. split; [|done].
    exists e'. split_and!; [done..|lia].
  - unfold byframe_map.
    destruct (alloc_frame_spec w "failed to allocate frame") as (f & w0 & -> & Hf & Hn & Ho0 & Hav0 & Hm0); [lia|].
    cbn [mbind outcome_bind fst snd].
    destruct (eager_map_spec ByFrame at_ t w0 p f)
      as (t1 & w1 & e & -> & e' & Hve & Hat & Hpr & Htg & Hst & Ho & Hav & Hmem); [done..|lia|].
    cbn [mbind outcome_bind fst snd]. do 2 eexists; split; [done|]. split; [|congruence].
    exists e'. split_and!; [done..| | |lia].
    + set_solver.
    + intros _. rewrite Htg. set_solver.
  - destruct (delay_map_spec Delay at_ t w p) as (t1 & w1 & -> & Hpost & Hmem & _); [by left|done..|lia|]. eauto.
  - change (file_map t w (p * 4096) at_) with (delay_map t w (p * 4096) at_).
    destruct (delay_map_spec (File f) at_ t w p) as (t1 & w1 & -> & Hpost & Hmem & _); [by eauto|done..|lia|]. eauto.
Qed.

(** The frames a page gives back when it is unmapped. *)
Definition page_frames h e : gset Z := if uses_frame h e then {[target e]} else ∅.

Lemma delay_unmap_spec t w p e :
  0 <= p < 2 ^ 52 -> view t !! p = Some e ->
  (present e = true -> target e ∈ owned (fa w)) ->
  exists t' w', delay_unmap t w (p * 4096) = Ret (t', w')
    /\ view t' = delete p (view t) /\ stale t' = stale t ∖ {[p]}
    /\ owned (fa w') = owned (fa w) ∖ page_frames Delay e
    /\ (avail (fa w) <= avail (fa w'))%nat /\ mem w' = mem w.
Proof.
  intros Hp Hv Hu. unfold delay_unmap. rewrite (get_entry_spec _ _ e) by (by rewrite page_div). sret.
  assert (Hd : exists w1, (if present e then dealloc_frame w (target e) else Ret w) = Ret w1
            /\ owned (fa w1) = owned (fa w) ∖ page_frames Delay e
            /\ (avail (fa w) <= avail (fa w1))%nat /\ mem w1 = mem w).
  { unfold page_frames; cbn [uses_frame]. destruct (present e).
    - destruct (dealloc_frame_spec w (target e)) as (w1 & -> & Ho & Hav & Hm); [auto|].
      exists w1. split_and!; [done..|lia|done].
    - exists w. split_and!; [done|set_solver|lia|done]. }
  destruct Hd as (w1 & -> & Ho & Hav & Hm). sret.
  set (t1 := pt_set_entry t _ _).
  assert (Hv1 : view t1 = <[p := set_present true e]> (view t)).
  { subst t1. rewrite set_entry_view; rewrite page_div; [done|]. rewrite Hv. eauto. }
  destruct (unmap_spec t1 p (set_present true e)) as (t2 & -> & Hv2 & Hst); [done| |apply present_set_present|].
  { by rewrite Hv1, lookup_insert_eq. }
  sret. do 2 eexists; split; [done|]. split_and!; [| |done..].
  - rewrite Hv2, Hv1. apply delete_insert_eq.
  - rewrite Hst. subst t1. rewrite set_entry_stale, page_div. set_solver.
Qed.

(** Unmapping a page removes exactly its entry and gives its frame back. *)
Lemma handler_unmap_spec h t w p e :
  0 <= p < 2 ^ 52 -> view t !! p = Some e -> handler_ok h p e ->
  (uses_frame h e = true -> target e ∈ owned (fa w)) ->
  exists t' w', handler_unmap h t w (p * 4096) = Ret (t', w')
    /\ view t' = delete p (view t) /\ stale t' = stale t ∖ {[p]}
    /\ owned (fa w') = owned (fa w) ∖ page_frames h e
    /\ (avail (fa w) <= avail (fa w'))%nat /\ mem w' = mem w.
Proof.
  intros Hp Hv Hok Hu.
  destruct h as [offset| | |f]; cbn [handler_unmap]; [| |by apply delay_unmap_spec..].
  - destruct Hok as [Hpr _]. unfold linear_unmap.
    destruct (unmap_spec t p e) as (t2 & -> & Hv2 & Hst); [done..|].
    do 2 eexists; split; [done|]. split_and!; [done..|set_solver|lia|done].
  - unfold byframe_unmap. rewrite (get_entry_spec _ _ e) by (by rewrite page_div). sret.
    destruct (dealloc_frame_spec w (target e)) as (w1 & -> & Ho & Hav & Hm); [auto|].
    sret.
    destruct (unmap_spec t p e) as (t2 & -> & Hv2 & Hst); [done..|].
    do 2 eexists; split; [done|]. split_and!; [done..|lia|done].
Qed.

(** *** Copying pages *)

Lemma mem_set_page_eq w f d : mem (set_page w f d) f = d.
Proof. cbn. by rewrite Z.eqb_refl. Qed.

Lemma mem_set_page_ne w f g d : f ≠ g -> mem (set_page w f d) g = mem w g.
Proof. intros Hne. cbn. by rewrite (proj2 (Z.eqb_neq f g)). Qed.

(** Is the page of the source copied at once? *)
Definition copies h at_ e : bool :=
  match h with
  | Linear _ => false
  | ByFrame => true
  | Delay => present e
  | File _ => present e && negb (Attr.readonly at_)
  end.

(** Cloning page [p], whose source entry is [e]: as for [map], and the new
    frame holds a copy of the source frame; frames in use keep their bytes. *)
Definition cloned_post h at_ p e t w t' w' : Prop :=
  mapped_post h at_ p t w t' w'
  /\ (forall f, f ∈ owned (fa w) -> mem w' f = mem w f)
  /\ (copies h at_ e = true -> exists e', view t' !! p = Some e' /\ present e' = true
        /\ mem w' (target e') = mem w (target e)).

Lemma copy_after_map h at_ p e t src w w0 f t1 w1 e1 :
  uses_frame h e1 = true ->
  f ∉ owned (fa w) -> owned (fa w0) = ({[f]} ∪ owned (fa w)) -> owned (fa w0) ⊆ owned (fa w1) ->
  mem w1 = mem w -> (avail (fa w) <= avail (fa w1) + 4)%nat ->
  view src !! p = Some e -> present e = true -> target e ∈ owned (fa w) ->
  view t1 = <[p := e1]> (view t) -> attrs_ok at_ e1 -> handler_ok h p e1 -> present e1 = true ->
  target e1 = f -> stale t1 = stale t ∖ {[p]} ->
  copy_page t1 w1 (p * 4096) (mem w (target e)) = Ret (set_page w1 f (mem w (target e)))
  /\ cloned_post h at_ p e t w t1 (set_page w1 f (mem w (target e))).
Proof.
  intros Hu Hn Ho0 Ho1 Hm1 Hav Hsrc Hpr Hin Hv Hat Hok Hpr1 Htg Hst.
  assert (Hl : view t1 !! p = Some e1) by (by rewrite Hv, lookup_insert_eq).
  split.
  - unfold copy_page. assert (frame_addr f) by (apply (owned_frames (fa w0)); rewrite Ho0; set_solver).
    rewrite (page_frame_spec t1 (p * 4096) e1) by (rewrite ?page_div, ?Htg; done).
    by rewrite Htg.
  - split_and!.
    + exists e1. cbn [fa set_page]. split_and!; [done..|set_solver| |lia].
      intros _. rewrite Htg. set_solver.
    + intros g Hg. rewrite mem_set_page_ne by (intros ->; done). by rewrite Hm1.
    + intros _. exists e1. split_and!; [done..|]. rewrite Htg. apply mem_set_page_eq.
Qed.

Lemma eager_clone_spec h at_ t src w p e :
  (h = Delay \/ exists f, h = File f) ->
  0 <= p -> p * 4096 + 4096 < 2 ^ 64 -> page_ok p -> mem_wf w ->
  view t !! p = None -> (4 <= avail (fa w))%nat ->
  view src !! p = Some e -> present e = true -> target e ∈ owned (fa w) ->
  exists t' w', eager_clone t src w (p * 4096) at_ = Ret (t', w', Some (mkFlush (p * 4096) (p * 4096 + 4096) (Attr.execute at_)))
    /\ cloned_post h at_ p e t w t' w' /\ mem_wf w'.
Proof.
  intros Hh Hp Hp2 Hpo Hwf Hv Ha Hsrc Hpr Hin. unfold eager_clone, page_slice.
  pose proof (owned_frames _ _ Hin) as Hfr.
  rewrite (page_frame_spec src (p * 4096) e) by (rewrite ?page_div; done). sret.
  destruct (alloc_frame_spec w "failed to alloc frame") as (f & w0 & -> & Hf & Hn & Ho0 & Hav0 & Hm0); [lia|].
  cbn [mbind outcome_bind fst snd].
  destruct (eager_map_spec h at_ t w0 p f)
    as (t1 & w1 & e0 & -> & e1 & Hve & Hat & Hpr1 & Htg & Hst & Ho & Hav & Hmem); [lia|done..|lia|].
  cbn [mbind outcome_bind fst snd].
  destruct (copy_after_map h at_ p e t src w w0 f (apply at_ t1 (p * 4096) e0) w1 e1) as [-> Hpost];
    try done; try congruence; try lia.
  1,2: by destruct Hh as [-> | [? ->]].
  sret.
  rewrite Hwf, uadd_ok by plia. sret. rewrite page_len_Z.
  do 2 eexists; split; [done|]. split; [done|].
  intros g. destruct (Z.eq_dec f g) as [<-|Hne].
  - by rewrite mem_set_page_eq.
  - rewrite mem_set_page_ne by done. rewrite Hmem, Hm0. apply Hwf.
Qed.

Lemma not_copied_post h at_ p e t w t' w' :
  mapped_post h at_ p t w t' w' -> mem w' = mem w -> copies h at_ e = false ->
  cloned_post h at_ p e t w t' w'.
Proof. intros Hp Hm Hc. split_and!; [done|by rewrite Hm|congruence]. Qed.

Lemma byframe_clone_spec at_ t src w p e :
  0 <= p < 2 ^ 52 -> page_ok p -> mem_wf w -> view t !! p = None -> (4 <= avail (fa w))%nat ->
  view src !! p = Some e -> present e = true -> target e ∈ owned (fa w) ->
  exists t' w', byframe_clone_map t src w (p * 4096) at_ = Ret (t', w')
    /\ cloned_post ByFrame at_ p e t w t' w' /\ mem_wf w'.
Proof.
  intros Hp Hpo Hwf Hv Ha Hsrc Hpr Hin. unfold byframe_clone_map, byframe_map.
  destruct (alloc_frame_spec w "failed to allocate frame") as (f & w0 & -> & Hf & Hn & Ho0 & Hav0 & Hm0); [lia|].
  cbn [mbind outcome_bind fst snd].
  destruct (eager_map_spec ByFrame at_ t w0 p f)
    as (t1 & w1 & e0 & -> & e1 & Hve & Hat & Hpr1 & Htg & Hst & Ho & Hav & Hmem); [done..|lia|].
  cbn [mbind outcome_bind fst snd]. unfold page_slice.
  pose proof (owned_frames _ _ Hin) as Hfr.
  rewrite (page_frame_spec src (p * 4096) e) by (rewrite ?page_div; done). sret.
  destruct (copy_after_map ByFrame at_ p e t src w w0 f (apply at_ t1 (p * 4096) e0) w1 e1) as [Hc Hpost];
    try done; try congruence; try lia.
  rewrite Hmem, Hm0, Hc. sret.
  do 2 eexists; split; [done|]. split; [done|].
  intros g. destruct (Z.eq_dec f g) as [<-|Hne].
  - by rewrite mem_set_page_eq.
  - rewrite mem_set_page_ne by done. rewrite Hmem, Hm0. apply Hwf.
Qed.

(** Cloning a page with any handler. *)
Lemma handler_clone_spec h at_ t src w p e :
  0 <= p -> p * 4096 + 4096 < 2 ^ 64 -> mem_wf w -> mappable h p ->
  view t !! p = None -> (4 <= avail (fa w))%nat ->
  view src !! p = Some e -> handler_ok h p e -> (uses_frame h e = true -> target e ∈ owned (fa w)) ->
  exists t' w', handler_clone_map h t src w (p * 4096) at_ = Ret (t', w')
    /\ cloned_post h at_ p e t w t' w' /\ mem_wf w'.
Proof.
  intros Hp Hp2 Hwf Hmp Hv Ha Hsrc Hok Hu. cbn in Hp2. pose proof (proj1 Hmp) as Hpo.
  destruct h as [offset| | |f]; unfold handler_clone_map; cbn [handler_clone_flush handler_ok uses_frame] in *.
  - unfold linear_clone_map.
    destruct (handler_map_spec (Linear offset) at_ t w p) as (t' & w' & Hm & Hpost & Hmem); [lia|done..|].
    cbn [handler_map] in Hm. rewrite Hm. do 2 eexists; split; [done|].
    split; [by apply not_copied_post | unfold mem_wf; by rewrite Hmem].
  - destruct (byframe_clone_spec at_ t src w p e) as (t1 & w1 & -> & Hpost); auto; [lia|]. by exists t1, w1.
  - unfold delay_clone_map. rewrite (get_entry_spec _ _ e) by (by rewrite page_div). sret.
    destruct (present e) eqn:Hpr.
    { destruct (eager_clone_spec Delay at_ t src w p e) as (t1 & w1 & -> & Hpost); auto. by exists t1, w1. }
    destruct (delay_map_spec Delay at_ t w p) as (t1 & w1 & -> & Hpost & Hmem & _); [by left|lia|done|done|lia|].
    do 2 eexists; split; [done|]. split; [by apply not_copied_post | unfold mem_wf; by rewrite Hmem].
  - unfold file_clone_map. rewrite (get_entry_spec _ _ e) by (by rewrite page_div). sret.
    destruct (present e && negb (Attr.readonly at_))%bool eqn:Hc.
    { apply andb_true_iff in Hc as [Hpr _]. destruct (eager_clone_spec (File f) at_ t src w p e) as (t1 & w1 & -> & Hpost); eauto. }
    change (file_map t w (p * 4096) at_) with (delay_map t w (p * 4096) at_).
    destruct (delay_map_spec (File f) at_ t w p) as (t1 & w1 & -> & Hpost & Hmem & _); [by eauto|lia|done|done|lia|].
    do 2 eexists; split; [done|]. split; [by apply not_copied_post | unfold mem_wf; by rewrite Hmem].
Qed.

(** *** Page faults *)

(** A fault on a page that is mapped and not present: the page becomes
    present with a fresh frame and the permissions it had, its entry is
    invalidated in the TLB, and [data] is what the frame then holds. *)
Definition faulted_post p e (data : list Z) t w t' w' : Prop :=
  exists e', view t' = <[p := e']> (view t) /\ present e' = true
    /\ (sealed e -> sealed e') /\ user e' = user e /\ writable e' = writable e /\ execute e' = execute e
    /\ stale t' = stale t ∖ {[p]}
    /\ target e' ∉ owned (fa w) /\ owned (fa w') = ({[target e']} ∪ owned (fa w))
    /\ mem w' (target e') = data
    /\ (forall f, f ≠ target e' -> mem w' f = mem w f) /\ mem_wf w'
    /\ (avail (fa w) <= avail (fa w') + 1)%nat.

(** The entry a fault installs. *)
Lemma fault_entry_spec t w addr e f w0 :
  view t !! (addr / 4096) = Some e -> frame_addr f ->
  f ∉ owned (fa w) -> owned (fa w0) = ({[f]} ∪ owned (fa w)) -> mem w0 = mem w -> mem_wf w ->
  (avail (fa w) <= avail (fa w0) + 1)%nat ->
  let e' := set_present true (set_target f e) in
  let t' := pt_update (pt_set_entry t addr e') addr in
  pt_page_frame t' addr = Ret f
  /\ forall data, length data = page_len -> faulted_post (addr / 4096) e data t w t' (set_page w0 f data).
Proof.
  intros Hv Hf Hn Ho Hm Hwf Hav e' t'.
  assert (Hpr : present e' = true) by apply present_set_present.
  assert (Htg : target e' = f) by (subst e'; by rewrite target_set_present, target_set_target).
  assert (Hv' : view t' = <[addr / 4096 := e']> (view t)).
  { subst t'. rewrite update_view, set_entry_view by eauto. done. }
  split.
  - rewrite <- Htg. apply page_frame_spec; [|done|by rewrite Htg]. by rewrite Hv', lookup_insert_eq.
  - intros data Hlen. exists e'. rewrite Htg. split_and!; [done..| | | | | |done|done| | | |done].
    + intros Hsl. by apply sealed_set_present, sealed_set_target.
    + subst e'. by rewrite user_set_present, user_set_target.
    + subst e'. by rewrite writable_set_present, writable_set_target.
    + subst e'. by rewrite execute_set_present, execute_set_target.
    + subst t'. rewrite update_stale, set_entry_stale. set_solver.
    + apply mem_set_page_eq.
    + intros g Hg. rewrite mem_set_page_ne by done. by rewrite Hm.
    + intros g. destruct (Z.eq_dec f g) as [<-|Hne]; [by rewrite mem_set_page_eq|].
      rewrite mem_set_page_ne by done. rewrite Hm. apply Hwf.
Qed.

Lemma delay_fault_spec t w addr e :
  0 <= addr -> addr + 4096 < 2 ^ 64 -> mem_wf w ->
  view t !! (addr / 4096) = Some e -> present e = false -> (0 < avail (fa w))%nat ->
  exists t' w', delay_handle_page_fault t w addr = Ret (true, t', w', Some (mkFlush addr (addr + 4096) false))
    /\ faulted_post (addr / 4096) e (replicate page_len 0) t w t' w'.
Proof.
  intros Ha Hb Hwf Hv Hpr Hav. unfold delay_handle_page_fault.
  rewrite (get_entry_spec _ _ e) by done. sret. rewrite Hpr.
  destruct (alloc_frame_spec w "failed to alloc frame") as (f & w0 & -> & Hf & Hn & Ho & Hav0 & Hm); [lia|].
  cbn [mbind outcome_bind fst snd].
  destruct (fault_entry_spec t w addr e f w0) as [Hpf Hpost]; [done..|lia|].
  unfold page_slice, copy_page. rewrite Hpf. sret.
  rewrite Hm, Hwf, uadd_ok by plia. sret. rewrite page_len_Z.
  do 2 eexists; split; [done|]. apply Hpost. by rewrite length_replicate.
Qed.

(** *** File contents *)

(** [INode::read_at] on a regular file with the bytes [content f]: it fills
    the buffer as far as the file goes and reports how far. *)
Class ReadSpec := {
  content : F -> list Z;
  read_at_spec f off buf : 0 <= off ->
    let n := Nat.min (length buf) (length (content f) - Z.to_nat off) in
    read_at f off buf = Ret (Z.of_nat n, take n (drop (Z.to_nat off) (content f)) ++ drop n buf);
}.

(** The bytes a page at file offset [off] must show: the file up to
    [file_end], then zeros. *)
Definition file_bytes `{ReadSpec} (self : FileMap F) (off : Z) : list Z :=
  take page_len (drop (Z.to_nat off) (take (Z.to_nat (file_end self)) (content (file self)))).
Definition file_page `{ReadSpec} (self : FileMap F) (off : Z) : list Z :=
  let bytes := file_bytes self off in bytes ++ replicate (page_len - length bytes) 0.

Lemma length_file_page `{ReadSpec} (self : FileMap F) off : length (file_page self off) = page_len.
Proof. unfold file_page, file_bytes. rewrite length_app, length_replicate, length_take. lia. Qed.

(** What [fill_data] leaves in the buffer [data] of one page. *)
Lemma fill_bytes `{ReadSpec} (self : FileMap F) off (data : list Z) :
  0 <= off -> 0 <= file_end self -> length data = page_len ->
  let r := Z.to_nat (Z.max (Z.min (file_end self - off) 4096) 0) in
  let n := Nat.min (length (take r data)) (length (content (file self)) - Z.to_nat off) in
  let data' := (take n (drop (Z.to_nat off) (content (file self))) ++ drop n (take r data)) ++ drop r data in
  (n <= page_len)%nat /\ length data' = page_len /\ n = length (file_bytes self off) /\
  (if (n =? page_len)%nat then data' else take n data' ++ replicate (page_len - n) 0) = file_page self off.
Proof.
  intros Hoff Hend Hlen r n data'.
  assert (Hr : (r <= page_len)%nat) by plia.
  assert (Hn : n = Nat.min r (length (content (file self)) - Z.to_nat off)%nat).
  { subst n. rewrite length_take, Hlen. plia. }
  assert (Htk : length (take n (drop (Z.to_nat off) (content (file self)))) = n).
  { rewrite length_take, length_drop. plia. }
  assert (Hlen' : length data' = page_len).
  { subst data'. rewrite !length_app, Htk, !length_drop, length_take. plia. }
  split; [plia|]. split; [done|].
  assert (Hb : take page_len (drop (Z.to_nat off) (take (Z.to_nat (file_end self)) (content (file self))))
               = take n (drop (Z.to_nat off) (content (file self)))).
  { transitivity (take r (drop (Z.to_nat off) (content (file self)))).
    - destruct (Z.le_gt_cases off (file_end self)).
      + replace (Z.to_nat (file_end self)) with (Z.to_nat off + Z.to_nat (file_end self - off))%nat by plia.
        rewrite <- take_drop_commute, take_take. f_equal. plia.
      + rewrite drop_ge by (rewrite length_take; plia). by replace r with O by plia.
    - rewrite Hn. destruct (Nat.le_gt_cases r (length (content (file self)) - Z.to_nat off)).
      + by rewrite Nat.min_l by plia.
      + rewrite Nat.min_r by plia. rewrite !take_ge; rewrite ?length_drop; done || plia. }
  unfold file_page, file_bytes. rewrite Hb, Htk. split; [done|].
  assert (Hd : take n data' = take n (drop (Z.to_nat off) (content (file self)))).
  { subst data'. rewrite <- app_assoc. by rewrite take_app_length'. }
  destruct (Nat.eqb_spec n page_len) as [Heq|]; [|by rewrite Hd].
  rewrite Heq, Nat.sub_diag; cbn [replicate]. rewrite app_nil_r, <- Heq, <- Hd.
  symmetry. apply take_ge. plia.
Qed.

(** The file offset of the page that starts at [addr]. *)
Definition file_offset_of (self : FileMap F) (addr : Z) : Z := addr + file_start self - mem_start self.

(** The arithmetic of [fill_data] stays in range. *)
Definition file_range_ok (self : FileMap F) (addr : Z) : Prop :=
  0 <= addr /\ addr + 4096 < 2 ^ 64 /\ 0 <= file_start self /\ addr + file_start self < 2 ^ 64
  /\ 0 <= mem_start self /\ 0 <= file_offset_of self addr < 2 ^ 63 /\ 0 <= file_end self < 2 ^ 63.

Lemma fill_data_spec `{ReadSpec} (self : FileMap F) t w addr f :
  file_range_ok self addr -> length (mem w f) = page_len -> pt_page_frame t addr = Ret f ->
  let n := Z.of_nat (length (file_bytes self (file_offset_of self addr))) in
  fill_data self t w addr = Ret (n, set_page w f (file_page self (file_offset_of self addr))) /\ 0 <= n <= 4096.
Proof.
  intros (Ha & Ha2 & Hfs & Has & Hms & Hoff & Hfe) Hlen Hpf nb. unfold fill_data. rewrite Hpf. sret.
  unfold file_offset_of in *.
  ostep. ostep.
  rewrite PAGE_SIZE_eq, !as_i64_small by lia.
  unfold isub. rewrite i64_ok by (unfold is_i64; lia). sret. unfold as_u64. rewrite Z.mod_small by lia.
  set (off := addr + file_start self - mem_start self) in *.
  destruct (fill_bytes self off (mem w f)) as (Hn & Hl & Hnb & Hbytes); [lia..|done|].
  rewrite read_at_spec by lia. cbn [mbind outcome_bind fst snd].
  set (r := Z.to_nat (Z.max (Z.min (file_end self - off) 4096) 0)) in *.
  set (n := Nat.min (length (take r (mem w f))) (length (content (file self)) - Z.to_nat off)) in *.
  set (data := (_ ++ drop r (mem w f))) in *.
  rewrite Hl, Nat2Z.id. rewrite <- page_len_Z.
  assert (nb = Z.of_nat n) as -> by (by rewrite Hnb). split; [|lia]. rewrite <- Hbytes.
  destruct (Nat.eqb_spec n page_len) as [Heq|Hne].
  - by rewrite Heq, Z.eqb_refl.
  - rewrite (proj2 (Z.eqb_neq _ _)), (proj2 (Z.leb_le _ _)) by lia. done.
Qed.

Lemma file_fault_spec `{ReadSpec} (self : FileMap F) t w addr e :
  is_u64 addr -> file_range_ok self (page_down addr) -> mem_wf w ->
  view t !! (addr / 4096) = Some e -> present e = false -> (0 < avail (fa w))%nat ->
  let n := Z.of_nat (length (file_bytes self (file_offset_of self (page_down addr)))) in
  exists t' w', file_handle_page_fault self t w addr = Ret (true, t', w', Some (mkFlush (page_down addr) (page_down addr + n) (execute e)))
    /\ faulted_post (addr / 4096) e (file_page self (file_offset_of self (page_down addr))) t w t' w'.
Proof.
  intros Ha Hr Hwf Hv Hpr Hav n. unfold file_handle_page_fault.
  pose proof (page_down_div addr Ha) as Hpd.
  rewrite (get_entry_spec _ _ e) by (by rewrite Hpd). sret. rewrite Hpr.
  destruct (alloc_frame_spec w "failed to alloc frame") as (f & w0 & -> & Hf & Hn & Ho & Hav0 & Hm); [lia|].
  cbn [mbind outcome_bind fst snd].
  destruct (fault_entry_spec t w (page_down addr) e f w0) as [Hpf Hpost]; [by rewrite Hpd|done..|lia|].
  assert (Hlen : length (mem w0 f) = page_len) by (rewrite Hm; apply Hwf).
  destruct (fill_data_spec self _ w0 (page_down addr) f Hr Hlen Hpf) as (-> & Hnb).
  cbn [mbind outcome_bind fst snd]. destruct Hr as (? & ? & ?).
  ostep.
  do 2 eexists; split; [done|]. rewrite Hpd in Hpost. apply Hpost, length_file_page.
Qed.
End specs.
