(* ===== verification/PageTables.v ===== *)
(** * Page tables of aarch64 ([arch/aarch64/paging.rs])

    The implementation of the traits [Entry] and [PageTable] that the kernel
    runs with.  An entry is a 64-bit descriptor; which bit is which is fixed
    by the [aarch64] crate ([PteLayout]), whose four-level table is the
    interface [OffsetPageTable].  The instances below discharge the laws
    [EntrySpec] and [PageTableSpec] that the memory handlers and memory sets
    are proved against, and [hw_allows] says what the processor makes of the
    bits. *)

From S2P Require Import Prelude Paging Handler.
Import Addr Frames Table.

(** ** The crate's descriptors *)

(** [PageTableFlags] ([EF] in the source): the flags the kernel names. *)
Inductive EF :=
| VALID | AF | WRITE | DIRTY | AP_RO | AP_EL0 | nG | UXN | PXN | SWAPPED | WRITABLE_SHARED | READONLY_SHARED.
#[export] Instance EF_eq_dec : EqDecision EF.
Proof. solve_decision. Defined.

(** Their bit numbers, the accessors of [PageTableEntry], and the memory
    attributes of [memory_attribute]. *)
Class PteLayout := {
  bit : EF -> Z;
  default_page : Z;
  default_block : Z;
  pte_flags : Z -> Z;
  pte_addr : Z -> Z;
  pte_attr : Z -> Z;
  pte_set_addr : Z -> Z -> Z -> Z;
  pte_set_attr : Z -> Z -> Z;
  MairNormal : Z; MairDevice : Z; MairNormalNonCacheable : Z;
}.

(** Flags, address and attribute are disjoint fields of the word, every named
    flag is one bit of the first, and a frame address fits the second. *)
Class PteLayoutSpec `{PteLayout} := {
  flag_mask : Z;
  addr_mask : Z;
  attr_mask : Z;
  masks_u64 : is_u64 flag_mask /\ is_u64 addr_mask /\ is_u64 attr_mask;
  bit_inj :: Inj (=) (=) bit;
  bit_nonneg f : 0 <= bit f;
  bit_in_mask f : Z.testbit flag_mask (bit f) = true;
  addr_not_flag b : Z.testbit flag_mask b = true -> Z.testbit addr_mask b = false;
  attr_not_flag b : Z.testbit flag_mask b = true -> Z.testbit attr_mask b = false;
  attr_not_addr b : Z.testbit addr_mask b = true -> Z.testbit attr_mask b = false;
  flags_spec w : pte_flags w = Z.land w flag_mask;
  addr_spec w : pte_addr w = Z.land w addr_mask;
  attr_spec w : pte_attr w = Z.land w attr_mask;
  frame_in_mask a : frame_addr a -> Z.land a addr_mask = a;
  set_addr_spec a f t : Z.land a addr_mask = a -> pte_set_addr a f t = Z.lor (Z.lor a f) t;
  set_attr_spec w t : Z.land t attr_mask = t -> pte_set_attr w t = Z.lor (Z.ldiff w attr_mask) t;
  mair_in_mask : Forall (fun t => Z.land t attr_mask = t) [MairNormal; MairDevice; MairNormalNonCacheable];
  mair_distinct : NoDup [MairNormal; MairDevice; MairNormalNonCacheable];
  default_page_flags : Z.land default_page flag_mask = default_page
    /\ Z.testbit default_page (bit VALID) = true /\ Z.testbit default_page (bit AF) = true;
  default_block_flags : Z.land default_block flag_mask = default_block;
}.

(** ** [PageEntry] *)

(** The word behind the [&mut PageTableEntry] of a [PageEntry]. *)
Record PageEntry := mkPte { word : Z }.

Section entry.
Context `{PteLayout}.
Implicit Types e : PageEntry.

(** [bitflags]: [contains], [insert], [remove] and [set] of one flag. *)
Definition mask (f : EF) : Z := Z.shiftl 1 (bit f).
Definition contains_flag (bits : Z) (f : EF) : bool := Z.land bits (mask f) =? mask f.
Definition insert_flag (f : EF) (w : Z) : Z := Z.lor w (mask f).
Definition remove_flag (f : EF) (w : Z) : Z := Z.ldiff w (mask f).
Definition set_flag (f : EF) (v : bool) (w : Z) : Z := if v then insert_flag f w else remove_flag f w.

(** [PageEntry::as_flags]: the flags are changed in place, in the whole word. *)
Definition as_flags (f : Z -> Z) e : PageEntry := mkPte (f (word e)).
Definition has e (f : EF) : bool := contains_flag (pte_flags (word e)) f.

Definition pte_present e : bool := has e VALID.
Definition pte_accessed e : bool := has e AF.
Definition pte_writable e : bool := has e WRITE.
Definition read_only e : bool := has e AP_RO.
Definition hw_dirty e : bool := pte_writable e && negb (read_only e).
Definition sw_dirty e : bool := has e DIRTY.
Definition pte_dirty e : bool := hw_dirty e && sw_dirty e.
Definition pte_clear_accessed e : PageEntry := as_flags (remove_flag AF) e.
Definition pte_clear_dirty e : PageEntry := as_flags (insert_flag AP_RO) (as_flags (remove_flag DIRTY) e).
Definition pte_set_writable (value : bool) e : PageEntry :=
  as_flags (set_flag WRITE value) (as_flags (set_flag AP_RO (negb value)) e).
Definition pte_set_present (value : bool) e : PageEntry := as_flags (set_flag VALID value) e.
Definition pte_target e : Z := pte_addr (word e).
Definition pte_set_target (tgt : Z) e : PageEntry :=
  mkPte (pte_set_addr tgt (pte_flags (word e)) (pte_attr (word e))).
Definition pte_writable_shared e : bool := has e WRITABLE_SHARED.
Definition pte_readonly_shared e : bool := has e READONLY_SHARED.
Definition pte_set_shared (w : bool) e : PageEntry :=
  as_flags (set_flag READONLY_SHARED (negb w)) (as_flags (set_flag WRITABLE_SHARED w) e).
Definition pte_clear_shared e : PageEntry :=
  as_flags (remove_flag READONLY_SHARED) (as_flags (remove_flag WRITABLE_SHARED) e).
Definition pte_swapped e : bool := has e SWAPPED.
Definition pte_set_swapped (value : bool) e : PageEntry := as_flags (set_flag SWAPPED value) e.
Definition pte_user e : bool := has e AP_EL0.
Definition pte_set_user (value : bool) e : PageEntry :=
  as_flags (set_flag nG value) (as_flags (set_flag AP_EL0 value) e).
Definition pte_execute e : bool := if pte_user e then negb (has e UXN) else negb (has e PXN).
Definition pte_set_execute (value : bool) e : PageEntry :=
  if pte_user e then as_flags (set_flag PXN true) (as_flags (set_flag UXN (negb value)) e)
  else as_flags (set_flag UXN true) (as_flags (set_flag PXN (negb value)) e).

(** [MMIOType] *)
Inductive MMIOType := Normal | Device | NormalNonCacheable | Unsupported.
Definition mmio_code (m : MMIOType) : Z :=
  match m with Normal => 0 | Device => 1 | NormalNonCacheable => 2 | Unsupported => 3 end.

Definition pte_mmio e : Z :=
  let a := pte_attr (word e) in
  mmio_code (if a =? MairNormal then Normal
             else if a =? MairDevice then Device
             else if a =? MairNormalNonCacheable then NormalNonCacheable
             else Unsupported).
Definition pte_set_mmio (value : Z) e : PageEntry :=
  if value =? 0 then mkPte (pte_set_attr (word e) MairNormal)
  else if value =? 1 then mkPte (pte_set_attr (word e) MairDevice)
  else if value =? 2 then mkPte (pte_set_attr (word e) MairNormalNonCacheable)
  else e.

#[export] Instance PageEntryOps : Entry PageEntry := {|
  accessed := pte_accessed; dirty := pte_dirty; writable := pte_writable; present := pte_present;
  clear_accessed := pte_clear_accessed; clear_dirty := pte_clear_dirty;
  set_writable := pte_set_writable; set_present := pte_set_present;
  target := pte_target; set_target := pte_set_target;
  writable_shared := pte_writable_shared; readonly_shared := pte_readonly_shared;
  set_shared := pte_set_shared; clear_shared := pte_clear_shared;
  swapped := pte_swapped; set_swapped := pte_set_swapped;
  user := pte_user; set_user := pte_set_user; execute := pte_execute; set_execute := pte_set_execute;
  mmio := pte_mmio; set_mmio := pte_set_mmio;
|}.
End entry.

(** The getters and setters come down to single flags. *)
Ltac pte_unfold :=
  unfold pte_present, pte_writable, pte_execute, pte_set_user, pte_set_writable, pte_set_present, pte_set_execute, pte_user.
Ltac decide_flags :=
  repeat match goal with
  | |- context [decide (?f = ?g)] =>
      first [rewrite (decide_True (P := f = g)) by done | rewrite (decide_False (P := f = g)) by done]
  end.

(** ** What the setters do to the fields *)
Section entry_laws.
Context `{PteLayoutSpec}.
Implicit Types e : PageEntry.

Lemma testbit_mask f c : Z.testbit (mask f) c = (bit f =? c).
Proof. unfold mask. rewrite Z.shiftl_1_l. apply Z.pow2_bits_eqb, bit_nonneg. Qed.

Lemma testbit_set_flag f v w c : Z.testbit (set_flag f v w) c = if bit f =? c then v else Z.testbit w c.
Proof.
  unfold set_flag, insert_flag, remove_flag.
  destruct v; rewrite ?Z.lor_spec, ?Z.ldiff_spec, testbit_mask; destruct (bit f =? c), (Z.testbit w c); done.
Qed.

(** A named flag, read in the flags of the entry, is a bit of the word. *)
Lemma has_testbit e f : has e f = Z.testbit (word e) (bit f).
Proof.
  unfold has, contains_flag. rewrite flags_spec. destruct (Z.testbit (word e) (bit f)) eqn:E.
  - apply Z.eqb_eq, Z.bits_inj'. intros n _. rewrite !Z.land_spec, testbit_mask.
    destruct (Z.eqb_spec (bit f) n) as [<-|]; [by rewrite E, bit_in_mask|by rewrite andb_false_r].
  - apply Z.eqb_neq. intros Heq. apply (f_equal (fun z => Z.testbit z (bit f))) in Heq.
    by rewrite !Z.land_spec, E, testbit_mask, Z.eqb_refl in Heq.
Qed.

Lemma has_set_flag e f v g : has (as_flags (set_flag f v) e) g = if decide (f = g) then v else has e g.
Proof.
  rewrite !has_testbit. cbn [as_flags word]. rewrite testbit_set_flag.
  destruct (Z.eqb_spec (bit f) (bit g)) as [Hb|Hb], (decide (f = g)) as [Hf|Hf]; try done; subst.
  - by apply (inj bit) in Hb.
  - done.
Qed.

(** Setting a flag leaves the other fields of the word alone. *)
Lemma field_set_flag m f v w :
  (forall c, Z.testbit flag_mask c = true -> Z.testbit m c = false) -> Z.land (set_flag f v w) m = Z.land w m.
Proof.
  intros Hm. apply Z.bits_inj'. intros n _. rewrite !Z.land_spec, testbit_set_flag.
  destruct (Z.eqb_spec (bit f) n) as [<-|]; [|done]. rewrite (Hm _ (bit_in_mask f)). by rewrite !andb_false_r.
Qed.

Lemma target_set_flag e f v : pte_target (as_flags (set_flag f v) e) = pte_target e.
Proof. unfold pte_target. rewrite !addr_spec. apply field_set_flag, addr_not_flag. Qed.

Lemma attr_set_flag e f v : pte_attr (word (as_flags (set_flag f v) e)) = pte_attr (word e).
Proof. rewrite !attr_spec. apply field_set_flag, attr_not_flag. Qed.

(** A new memory attribute leaves flags and address alone. *)
Lemma has_set_attr w t f : Z.land t attr_mask = t -> has (mkPte (pte_set_attr w t)) f = has (mkPte w) f.
Proof.
  intros Ht. rewrite !has_testbit. cbn [word]. rewrite set_attr_spec, Z.lor_spec, Z.ldiff_spec, <- Ht, Z.land_spec by done.
  rewrite (attr_not_flag _ (bit_in_mask f)). by rewrite andb_true_r, andb_false_r, orb_false_r.
Qed.

Lemma addr_set_attr w t : Z.land t attr_mask = t -> pte_addr (pte_set_attr w t) = pte_addr w.
Proof.
  intros Ht. rewrite !addr_spec, set_attr_spec by done. apply Z.bits_inj'. intros n _.
  rewrite !Z.land_spec, Z.lor_spec, Z.ldiff_spec, <- Ht, Z.land_spec.
  destruct (Z.testbit addr_mask n) eqn:E; [|by rewrite !andb_false_r].
  rewrite (attr_not_addr _ E). by rewrite !andb_true_r, andb_false_r, orb_false_r.
Qed.

(** A new address leaves the flags alone and is read back. *)
Lemma has_set_target a e f : frame_addr a -> has (pte_set_target a e) f = has e f.
Proof.
  intros Ha. pose proof (frame_in_mask a Ha) as Hm. rewrite !has_testbit. unfold pte_set_target. cbn [word].
  rewrite set_addr_spec, !Z.lor_spec, flags_spec, attr_spec, !Z.land_spec by done. rewrite <- Hm, Z.land_spec.
  rewrite (addr_not_flag _ (bit_in_mask f)), (attr_not_flag _ (bit_in_mask f)), (bit_in_mask f).
  by rewrite andb_true_r, !andb_false_r, orb_false_r.
Qed.

(** The address of a descriptor is the one it was built with. *)
Lemma addr_of_built a flags attr :
  Z.land a addr_mask = a -> Z.land flags flag_mask = flags -> Z.land attr attr_mask = attr -> pte_addr (pte_set_addr a flags attr) = a.
Proof.
  intros Ha Hf Ht. rewrite addr_spec, set_addr_spec by done. rewrite <- Ha at 2. rewrite <- Hf, <- Ht. apply Z.bits_inj'. intros n _.
  rewrite !Z.land_spec, !Z.lor_spec, !Z.land_spec. destruct (Z.testbit addr_mask n) eqn:E; [|by rewrite !andb_false_r].
  rewrite (attr_not_addr _ E). destruct (Z.testbit flag_mask n) eqn:F; [by rewrite (addr_not_flag _ F) in E|].
  by rewrite !andb_false_r, !orb_false_r.
Qed.

Lemma target_set_target_pte a e : frame_addr a -> pte_target (pte_set_target a e) = a.
Proof.
  intros Ha. unfold pte_target, pte_set_target. cbn [word]. apply addr_of_built; [by apply frame_in_mask|..].
  - by rewrite flags_spec, <- Z.land_assoc, Z.land_diag.
  - by rewrite attr_spec, <- Z.land_assoc, Z.land_diag.
Qed.

Lemma set_mmio_attr v e :
  pte_set_mmio v e = e \/ exists t, Z.land t attr_mask = t /\ pte_set_mmio v e = mkPte (pte_set_attr (word e) t).
Proof.
  pose proof mair_in_mask as Hm. rewrite !Forall_cons in Hm. destruct Hm as (H1 & H2 & H3 & _).
  unfold pte_set_mmio. repeat case_match; eauto.
Qed.

Lemma has_set_mmio v e f : has (pte_set_mmio v e) f = has e f.
Proof. destruct (set_mmio_attr v e) as [->|(t & Ht & ->)]; [done|]. rewrite has_set_attr by done. by destruct e. Qed.

Lemma target_set_mmio_pte v e : pte_target (pte_set_mmio v e) = pte_target e.
Proof. destruct (set_mmio_attr v e) as [->|(t & Ht & ->)]; [done|]. unfold pte_target. cbn [word]. by apply addr_set_attr. Qed.

(** *** Descriptors are 64-bit words *)

Lemma u64_bits z : is_u64 z <-> 0 <= z /\ forall n, 64 <= n -> Z.testbit z n = false.
Proof.
  unfold is_u64. split.
  - intros Hz. split; [lia|]. intros n Hn. rewrite <- (Z.mod_small z (2 ^ 64)) by lia. apply Z.mod_pow2_bits_high. lia.
  - intros [Hz Hb]. split; [done|]. assert (z mod 2 ^ 64 = z) as <-; [|apply Z.mod_pos_bound; lia].
    apply Z.bits_inj'. intros n Hn. destruct (Z.lt_ge_cases n 64); [by rewrite Z.mod_pow2_bits_low by lia|].
    by rewrite Z.mod_pow2_bits_high, Hb by lia.
Qed.

Lemma lor_u64 a b : is_u64 a -> is_u64 b -> is_u64 (Z.lor a b).
Proof.
  rewrite !u64_bits. intros [Ha Ha'] [Hb Hb']. split; [by apply Z.lor_nonneg|]. intros n Hn. by rewrite Z.lor_spec, Ha', Hb'.
Qed.

Lemma ldiff_u64 a b : is_u64 a -> 0 <= b -> is_u64 (Z.ldiff a b).
Proof.
  rewrite !u64_bits. intros [Ha Ha'] Hb. split; [rewrite Z.ldiff_nonneg; by left|]. intros n Hn. by rewrite Z.ldiff_spec, Ha'.
Qed.

Lemma land_u64 a b : is_u64 b -> is_u64 (Z.land a b).
Proof.
  rewrite !u64_bits. intros [Hb Hb']. split; [apply Z.land_nonneg; by right|]. intros n Hn. by rewrite Z.land_spec, Hb', andb_false_r.
Qed.

Lemma mask_u64 f : is_u64 (mask f).
Proof.
  unfold mask. pose proof (bit_nonneg f). destruct masks_u64 as [Hf _]. apply u64_bits in Hf as [_ Hf].
  assert (bit f < 64). { destruct (Z.lt_ge_cases (bit f) 64) as [|Hge]; [done|]. pose proof (bit_in_mask f). rewrite Hf in *; [done|lia]. }
  rewrite Z.shiftl_1_l. unfold is_u64. split; [lia|]. apply Z.pow_lt_mono_r; lia.
Qed.

Lemma set_flag_u64 f v w : is_u64 w -> is_u64 (set_flag f v w).
Proof.
  intros Hw. pose proof (mask_u64 f) as Hm. unfold set_flag, insert_flag, remove_flag. destruct v; [by apply lor_u64|].
  apply ldiff_u64; [done|]. unfold is_u64 in Hm. lia.
Qed.


(** The access flag is set, so the processor can use the entry. *)
Definition pte_accessible e : Prop := has e AF = true.

(** The hardware's write protection mirrors the software flag, and only one
    of the two execute-never bits is ever open. *)
Definition pte_sealed e : Prop :=
  has e AF = true /\ has e WRITE = negb (has e AP_RO) /\ (if has e AP_EL0 then has e PXN else has e UXN) = true.

(** The interface of the memory handlers holds of the descriptors. *)
#[export] Instance PageEntrySpec : EntrySpec PageEntry.
Proof.
  exists pte_accessible pte_sealed; unfold pte_accessible, pte_sealed;
    cbn [user writable execute present target set_user set_writable set_execute set_present set_mmio set_target PageEntryOps].
  all: intros; rewrite ?has_set_mmio; pte_unfold;
    rewrite ?has_set_mmio, ?target_set_mmio_pte, ?has_set_target, ?target_set_target_pte by done; try done.
  all: rewrite ?target_set_flag, ?has_set_flag; decide_flags; try done.
  all: match goal with
       | |- context [if ?u then as_flags _ _ else _] => destruct u eqn:Hu
       | |- context [if has ?e AP_EL0 then _ else _] => destruct (has e AP_EL0) eqn:Hu
       end.
  all: rewrite ?target_set_flag, ?has_set_flag; decide_flags; rewrite ?Hu, ?negb_involutive; done.
Defined.
End entry_laws.

(** ** What the processor makes of an entry *)

(** The stage 1 permission check of ARMv8 (with [SCTLR_EL1.WXN] clear): an
    access of the kernel ([EL1]) or of a user program ([EL0]). *)
Inductive Access := Load | Store | Fetch.
Inductive Level := EL0 | EL1.

Section hardware.
Context `{PteLayoutSpec}.
Implicit Types e : PageEntry.

Definition hw_allows (l : Level) (x : Access) e : bool :=
  has e VALID && has e AF &&
  match l, x with
  | EL0, Load => has e AP_EL0
  | EL0, Store => has e AP_EL0 && negb (has e AP_RO)
  | EL0, Fetch => negb (has e UXN)
  | EL1, Load => true
  | EL1, Store => negb (has e AP_RO)
  | EL1, Fetch => negb (has e PXN) && negb (has e AP_EL0 && negb (has e AP_RO))
  end.

(** The entry [MemoryAttr::apply] leaves behind. *)
Definition applied (a : MemoryAttr) e : PageEntry :=
  set_mmio (Attr.mmio a) (set_execute (Attr.execute a) (set_writable (negb (Attr.readonly a)) (set_user (Attr.user a) e))).

(** What an attribute is meant to allow. *)
Definition attr_allows (l : Level) (x : Access) (a : MemoryAttr) : bool :=
  match l, x with
  | EL0, Load => Attr.user a
  | EL0, Store => Attr.user a && negb (Attr.readonly a)
  | EL0, Fetch => Attr.user a && Attr.execute a
  | EL1, Load => true
  | EL1, Store => negb (Attr.readonly a)
  | EL1, Fetch => negb (Attr.user a) && Attr.execute a
  end.

Lemma hw_applied l x a e :
  has e VALID = true -> has e AF = true -> hw_allows l x (applied a e) = attr_allows l x a.
Proof.
  intros Hv Ha. unfold hw_allows, applied.
  cbn [user writable execute present target set_user set_writable set_execute set_mmio PageEntryOps].
  rewrite !has_set_mmio. pte_unfold. rewrite !has_set_flag. decide_flags.
  destruct a as [[] [] [] m]; cbn [Attr.user]; rewrite !has_set_flag; decide_flags; rewrite Hv, Ha; by destruct l, x.
Qed.
End hardware.

(** ** The crate's four-level table *)

(** [OffsetPageTable] with the methods of [Mapper] the kernel calls.  A page is
    named by its number, a frame by its address; [map_to] takes the frames of
    the levels below from the allocator it is given, and [write_entry] is a
    write through the reference [get_entry_mut] returned.  [None] stands for
    the error of the method. *)
Class OffsetPageTable (A M : Type) := {
  opt_new : Z -> M;
  opt_map_to : (A -> outcome (option Z * A)) -> M -> A -> Z -> Z -> Z -> Z -> outcome (option M * A);
  opt_unmap : M -> Z -> option M;
  opt_get_entry_mut : M -> Z -> option Z;
  opt_write_entry : M -> Z -> Z -> M;
  opt_translate_page : M -> Z -> option Z;
  opt_map_block : (A -> outcome (option Z * A)) -> M -> A -> Z -> Z -> Z -> Z -> outcome (option M * A);
}.

(** A callback that hands out fresh frames of the allocator. *)
Definition hands_out `{FrameAllocatorSpec A} (allocate : A -> outcome (option Z * A)) : Prop :=
  forall a, (0 < avail a)%nat ->
    exists f a', allocate a = Ret (Some f, a') /\ frame_addr f /\ f ∉ owned a
                 /\ owned a' = ({[f]} ∪ owned a) /\ avail a = S (avail a').

(** [opt_view] are the 4 KiB pages in use with their descriptors.  Three new
    tables are enough for a page, two for a 2 MiB block; [opt_blocks] are the
    blocks, by the number of their 2 MiB page. *)
Class OffsetPageTableSpec (A M : Type) `{FrameAllocatorSpec A, OffsetPageTable A M, PteLayoutSpec} := {
  opt_view : M -> gmap Z Z;
  opt_blocks : M -> gmap Z Z;
  opt_page_ok : Z -> Prop;
  opt_new_spec f : opt_view (opt_new f) = ∅ /\ opt_blocks (opt_new f) = ∅;
  opt_map_to_spec allocate m a p f flags attr :
    hands_out allocate -> 0 <= p < 2 ^ 52 -> opt_page_ok p -> opt_view m !! p = None -> frame_addr f ->
    (3 <= avail a)%nat ->
    exists m' a', opt_map_to allocate m a p f flags attr = Ret (Some m', a')
      /\ opt_view m' = <[p := pte_set_addr f flags attr]> (opt_view m)
      /\ owned a ⊆ owned a' /\ (avail a <= avail a' + 3)%nat;
  opt_unmap_spec m p w :
    opt_view m !! p = Some w -> contains_flag (pte_flags w) VALID = true ->
    exists m', opt_unmap m p = Some m' /\ opt_view m' = delete p (opt_view m);
  opt_get_entry_spec m p w : opt_view m !! p = Some w -> opt_get_entry_mut m p = Some w;
  opt_write_spec m p w : is_Some (opt_view m !! p) ->
    opt_view (opt_write_entry m p w) = <[p := w]> (opt_view m);
  opt_map_to_blocks allocate m a p f flags attr m' a' :
    opt_map_to allocate m a p f flags attr = Ret (Some m', a') -> opt_blocks m' = opt_blocks m;
  opt_write_blocks m p w : opt_blocks (opt_write_entry m p w) = opt_blocks m;
  opt_translate_spec m p w :
    opt_view m !! p = Some w -> contains_flag (pte_flags w) VALID = true -> opt_translate_page m p = Some (pte_addr w);
  opt_map_block_spec allocate m a q f flags attr :
    hands_out allocate -> 0 <= q < 2 ^ 43 -> opt_page_ok (q * 512) -> opt_blocks m !! q = None ->
    (forall p, p / 512 = q -> opt_view m !! p = None) -> (2 <= avail a)%nat ->
    exists m' a', opt_map_block allocate m a q f flags attr = Ret (Some m', a')
      /\ opt_blocks m' = <[q := pte_set_addr f flags attr]> (opt_blocks m) /\ opt_view m' = opt_view m
      /\ owned a ⊆ owned a' /\ (avail a <= avail a' + 2)%nat;
}.

(** ** [PageTableImpl] *)

(** [tlb_stale] are the pages whose entry was changed since the TLB last
    forgot them.  (The field [entry] only stores what [get_entry] returns a
    reference to.) *)
Record PageTableImpl (M : Type) := mkImpl { opt : M; root_frame : Z; tlb_stale : gset Z }.
Arguments mkImpl {M}.
Arguments opt {M}.
Arguments root_frame {M}.
Arguments tlb_stale {M}.

Section impl.
Context `{BuildMode, PteLayout} {A M : Type} `{FrameAllocator A, OffsetPageTable A M}.
Implicit Types t : PageTableImpl M.

(** The crate's [Page::of_addr] (a page number) and [Frame::of_addr] (the
    address of the frame). *)
Definition page_of (addr : Z) : Z := addr / 4096.
Definition frame_of (addr : Z) : Z := addr - addr mod 4096.

(** [FrameAllocatorForAarch64]: [allocate_frame] and [deallocate_frame]. *)
Definition allocate_frame (a : A) : outcome (option Z * A) :=
  x ← alloc a 1; Ret (option_map frame_of x.1, x.2).
Definition deallocate_frame (a : A) (f : Z) : outcome A := dealloc a f 1.

(** [MapperFlush::flush] and [Entry::update]: the TLB forgets a page. *)
Definition flush_page t (p : Z) : PageTableImpl M := mkImpl (opt t) (root_frame t) (tlb_stale t ∖ {[p]}).

(** [PageTableImpl::get_entry] *)
Definition impl_get_entry t (vaddr : Z) : option PageEntry := mkPte <$> opt_get_entry_mut (opt t) (page_of vaddr).

(** A write through the entry. *)
Definition impl_set_entry t (vaddr : Z) (e : PageEntry) : PageTableImpl M :=
  mkImpl (opt_write_entry (opt t) (page_of vaddr) (word e)) (root_frame t) ({[page_of vaddr]} ∪ tlb_stale t).

(** [PageEntry::update] *)
Definition impl_update t (vaddr : Z) : PageTableImpl M := flush_page t (page_of vaddr).

(** The flags and the attribute [map] starts with. *)
Definition map_flags : Z := Z.lor (Z.lor default_page (mask PXN)) (mask UXN).

(** [PageTableImpl::map] *)
Definition impl_map t (a : A) (addr tgt : Z) : outcome (PageTableImpl M * A) :=
  x ← opt_map_to allocate_frame (opt t) a (page_of addr) (frame_of tgt) map_flags MairNormal;
  m ← expect "called unwrap on an Err value" x.1;
  let t := flush_page (mkImpl m (root_frame t) (tlb_stale t)) (page_of addr) in
  _ ← expect "fail to get entry" (impl_get_entry t addr);
  Ret (t, x.2).

(** [PageTableImpl::unmap] *)
Definition impl_unmap t (addr : Z) : outcome (PageTableImpl M) :=
  m ← expect "called unwrap on an Err value" (opt_unmap (opt t) (page_of addr));
  Ret (flush_page (mkImpl m (root_frame t) (tlb_stale t)) (page_of addr)).

(** The frame behind [PageTableImpl::get_page_slice_mut], which reaches it at
    [phys_to_virt]. *)
Definition impl_page_frame t (addr : Z) : outcome Z :=
  f ← expect "called unwrap on an Err value" (opt_translate_page (opt t) (page_of addr));
  _ ← phys_to_virt f;
  Ret f.

(** [frame_to_page_table]: the address the kernel reaches a table at. *)
Definition frame_to_page_table (f : Z) : outcome Z := phys_to_virt f.

(** [PageTableImpl::new_bare] (and [new]: [map_kernel] does nothing) *)
Definition new_bare (a : A) : outcome (PageTableImpl M * A) :=
  x ← alloc a 1;
  tgt ← expect "failed to allocate frame" x.1;
  let f := frame_of tgt in
  _ ← frame_to_page_table f;
  Ret (mkImpl (opt_new f) f ∅, x.2).

(** [PageTableImpl::token] *)
Definition token t : Z := root_frame t.

(** [Drop::drop] *)
Definition impl_drop t (a : A) : outcome A := dealloc a (root_frame t) 1.

#[export] Instance PageTableImplOps : PageTable PageEntry A (PageTableImpl M) := {|
  pt_new := new_bare; pt_map := impl_map; pt_unmap := impl_unmap; pt_get_entry := impl_get_entry;
  pt_set_entry := impl_set_entry; pt_update := impl_update; pt_page_frame := impl_page_frame;
|}.
End impl.

(** ** The interface holds of [PageTableImpl] *)
Section impl_laws.
Context `{BM : BuildMode} {A M : Type} `{OS : OffsetPageTableSpec A M}.
Implicit Types t : PageTableImpl M.

Lemma frame_of_frame f : frame_addr f -> frame_of f = f.
Proof. intros [Ha _]. unfold frame_of. rewrite Ha. lia. Qed.

Lemma allocate_frame_hands_out : hands_out (allocate_frame (A := A)).
Proof.
  intros a Ha. destruct (alloc_spec a Ha) as (f & a' & Hal & Hf & Hrest).
  exists f, a'. unfold allocate_frame. rewrite Hal. cbn. by rewrite frame_of_frame.
Qed.

Lemma mask_in_flags f : Z.land (mask f) flag_mask = mask f.
Proof.
  apply Z.bits_inj'. intros n _. rewrite Z.land_spec, testbit_mask.
  destruct (Z.eqb_spec (bit f) n) as [<-|]; [by rewrite bit_in_mask|done].
Qed.

Lemma map_flags_in_mask : Z.land map_flags flag_mask = map_flags.
Proof.
  unfold map_flags. rewrite !Z.land_lor_distr_l, !mask_in_flags.
  by rewrite (proj1 default_page_flags).
Qed.

(** The descriptor [map] installs: valid, accessible, with the target asked for. *)
Lemma new_entry_spec f :
  frame_addr f ->
  let e := mkPte (pte_set_addr f map_flags MairNormal) in
  has e VALID = true /\ has e AF = true /\ pte_target e = f.
Proof.
  intros Hf e. pose proof (frame_in_mask f Hf) as Hm. pose proof map_flags_in_mask as Hfl.
  assert (Hbit : forall g, Z.testbit default_page (bit g) = true -> has e g = true).
  { intros g Hg. rewrite has_testbit. subst e. cbn [word]. rewrite set_addr_spec, !Z.lor_spec by done.
    unfold map_flags. rewrite !Z.lor_spec, Hg. by rewrite ?orb_true_r, ?orb_true_l. }
  destruct default_page_flags as (_ & Hv & Haf). split_and!; [by apply Hbit..|].
  subst e. unfold pte_target. cbn [word]. apply addr_of_built; [done..|].
  pose proof mair_in_mask as Hall. by apply Forall_cons in Hall as [? _].
Qed.

#[export] Program Instance PageTableImplSpec : PageTableSpec PageEntry A (PageTableImpl M) := {|
  view t := mkPte <$> opt_view (opt t);
  stale := tlb_stale;
  page_ok := opt_page_ok;
|}.
Next Obligation.
  intros a Ha. destruct (alloc_spec a Ha) as (f & a' & Hal & Hf & _ & Ho & Hav).
  cbn [pt_new PageTableImplOps]. unfold new_bare, frame_to_page_table, phys_to_virt. rewrite Hal. cbn [mbind outcome_bind expect fst snd].
  rewrite frame_of_frame by done. destruct Hf as [_ Hf].
  rewrite uadd_ok by (unfold PHYSICAL_MEMORY_OFFSET; lia). sret.
  do 2 eexists. split_and!; [done|..]; cbn [view opt stale tlb_stale]; [|done|set_solver|done].
  by rewrite (proj1 (opt_new_spec f)), fmap_empty.
Qed.
Next Obligation.
  intros t a p tgt Hp Hok Ht Hv Ha. cbn beta in *. rewrite lookup_fmap, fmap_None in Hv.
  cbn [pt_map PageTableImplOps]. unfold impl_map, page_of. rewrite Z.div_mul by lia. rewrite frame_of_frame by done.
  destruct (opt_map_to_spec allocate_frame (opt t) a p tgt map_flags MairNormal) as (m' & a' & -> & Hm & Ho & Hav);
    [apply allocate_frame_hands_out|done..|].
  cbn [mbind outcome_bind fst snd expect]. unfold impl_get_entry, page_of. rewrite Z.div_mul by lia.
  cbn [opt flush_page]. rewrite (opt_get_entry_spec m' p (pte_set_addr tgt map_flags MairNormal)) by (by rewrite Hm, lookup_insert_eq).
  sret. destruct (new_entry_spec tgt Ht) as (Hva & Haf & Htg).
  do 3 eexists. split_and!; [done|cbn [opt flush_page]; by rewrite Hm, fmap_insert|done..].
Qed.
Next Obligation.
  intros t p e Hp Hv Hpr. cbn beta in *. rewrite lookup_fmap in Hv. apply fmap_Some in Hv as (w & Hw & ->).
  destruct (opt_unmap_spec (opt t) p w Hw Hpr) as (m' & Hu & Hm).
  cbn [pt_unmap PageTableImplOps]. unfold impl_unmap, page_of. rewrite Z.div_mul, Hu by lia. sret.
  eexists. split_and!; [done|cbn [opt flush_page]; by rewrite Hm, fmap_delete|done].
Qed.
Next Obligation.
  intros t addr e Hv. cbn beta in *. rewrite lookup_fmap in Hv. apply fmap_Some in Hv as (w & Hw & ->).
  cbn [pt_get_entry PageTableImplOps]. unfold impl_get_entry, page_of. by rewrite (opt_get_entry_spec _ _ w).
Qed.
Next Obligation.
  intros t addr e [x Hx]. cbn beta in *. rewrite lookup_fmap in Hx. apply fmap_Some in Hx as (w & Hw & ->).
  cbn [pt_set_entry PageTableImplOps]. unfold impl_set_entry, page_of. cbn [opt].
  rewrite (opt_write_spec _ _ _ (mk_is_Some _ _ Hw)), fmap_insert. by destruct e.
Qed.
Next Obligation. done. Qed.
Next Obligation. done. Qed.
Next Obligation. done. Qed.
Next Obligation.
  intros t addr e Hv Hpr Hf. cbn beta in *. rewrite lookup_fmap in Hv. apply fmap_Some in Hv as (w & Hw & ->).
  cbn [pt_page_frame PageTableImplOps]. unfold impl_page_frame, page_of.
  rewrite (opt_translate_spec _ _ w Hw Hpr). sret. destruct Hf as [_ Hf]. unfold phys_to_virt.
  cbn [target PageEntryOps] in *. unfold pte_target in *. cbn [word] in *.
  by rewrite uadd_ok by (unfold PHYSICAL_MEMORY_OFFSET; lia).
Qed.
End impl_laws.

(** ** Translation registers ([memory/paging.rs], [arch/aarch64/memory.rs]) *)

(** [TTBR0_EL1], [TTBR1_EL1] and the tables whose entries the TLB may hold for
    the lower half (by token).  Walks go on all the time, so the TLB may hold
    entries of the table in [ttbr0] at any moment. *)
Record Mmu := mkMmu { ttbr0 : Z; ttbr1 : Z; tlb : gset Z }.

(** [ttbr_el1_write], with the frame of the token. *)
Definition ttbr0_write (v : Z) (m : Mmu) : Mmu := mkMmu (frame_of v) (ttbr1 m) ({[frame_of v]} ∪ tlb m).
Definition ttbr1_write (v : Z) (m : Mmu) : Mmu := mkMmu (ttbr0 m) (frame_of v) (tlb m).

(** [PageTableImpl::set_token], [active_token], [flush_tlb] *)
Definition set_token (v : Z) (m : Mmu) : Mmu := ttbr0_write v m.
Definition active_token (m : Mmu) : Z := ttbr0 m.
Definition flush_tlb (m : Mmu) : Mmu := mkMmu (ttbr0 m) (ttbr1 m) {[ttbr0 m]}.

(** The switch at the start of [activate] and [with]. *)
Definition switch_to (old new_ : Z) (m : Mmu) : Mmu := if old =? new_ then m else flush_tlb (set_token new_ m).

(** [PageTableExt::activate] *)
Definition activate {M} (t : PageTableImpl M) (m : Mmu) : Mmu := switch_to (active_token m) (token t) m.

(** [PageTableExt::with], for a closure that may panic. *)
Definition with_table {M S R} (t : PageTableImpl M) (f : Mmu -> S -> outcome (R * Mmu * S)) (m : Mmu) (s : S)
    : outcome (R * Mmu * S) :=
  let old_token := active_token m in
  x ← f (switch_to old_token (token t) m) s;
  let '(r, m, s) := x in
  Ret (r, switch_to (token t) old_token m, s).

(** [PageTableImpl::activate_as_kernel] *)
Definition activate_as_kernel {M} (t : PageTableImpl M) (m : Mmu) : Mmu := flush_tlb (ttbr1_write (token t) m).

(** [set_page_table] of [arch/aarch64/memory.rs], which every poll of a user
    task starts with. *)
Definition set_page_table (vmtoken : Z) (m : Mmu) : Mmu := flush_tlb (ttbr0_write vmtoken m).

(** [PageTableSwitchWrapper::poll] of [process/thread.rs], around the future of
    a user thread. *)
Definition wrapper_poll {S R} (vmtoken : Z) (inner : Mmu -> S -> outcome (R * Mmu * S)) (m : Mmu) (s : S) : outcome (R * Mmu * S) :=
  inner (set_page_table vmtoken m) s.

(** No translation of another table can be used. *)
Definition mmu_clean (m : Mmu) : Prop := tlb m = {[ttbr0 m]} /\ aligned (ttbr0 m).

Lemma frame_of_aligned v : aligned v -> frame_of v = v.
Proof. unfold aligned, frame_of. lia. Qed.

(** The state in which a table with root [v] is active. *)
Definition active_on (v : Z) (m : Mmu) : Mmu := mkMmu v (ttbr1 m) {[v]}.

Lemma switch_to_spec m v : mmu_clean m -> aligned v -> switch_to (ttbr0 m) v m = active_on v m.
Proof.
  intros [Ht Ha] Hv. unfold switch_to, active_on. destruct (Z.eqb_spec (ttbr0 m) v) as [<-|Hn].
  - destruct m. cbn in *. by subst.
  - unfold flush_tlb, set_token, ttbr0_write. cbn. by rewrite frame_of_aligned.
Qed.

(** C30. [PageTableExt::with] runs its closure with this table active and puts
    the old one back: the closure sees [TTBR0_EL1] at the root of the table
    and a TLB without translations of another table, and a closure that
    leaves the registers alone leaves them as they were before the call.  A
    user thread is polled in that state, whatever table was active before, so
    that it can use [with] on any address space and goes on in its own. *)
Theorem with_restores_table {M S R} (t : PageTableImpl M) (f : Mmu -> S -> outcome (R * Mmu * S)) m s r s' :
  mmu_clean m -> aligned (root_frame t) ->
  let inside := active_on (root_frame t) m in
  mmu_clean inside /\ (f inside s = Ret (r, inside, s') -> with_table t f m s = Ret (r, m, s'))
  /\ forall m0 v, aligned v -> f (active_on (root_frame t) (active_on v m0)) s = Ret (r, active_on (root_frame t) (active_on v m0), s') ->
       wrapper_poll v (with_table t f) m0 s = Ret (r, active_on v m0, s').
Proof.
  intros Hm Ht inside. split; [done|].
  assert (Hwith : forall m, mmu_clean m -> f (active_on (root_frame t) m) s = Ret (r, active_on (root_frame t) m, s') ->
    with_table t f m s = Ret (r, m, s')).
  2:{ split; [by apply Hwith|]. intros m0 v Hv Hf. unfold wrapper_poll.
      assert (set_page_table v m0 = active_on v m0) as -> by (unfold set_page_table, active_on, ttbr0_write, flush_tlb; cbn; by rewrite frame_of_aligned).
      by apply Hwith. }
  clear m Hm inside. intros m Hm. set (inside := active_on (root_frame t) m). intros Hf. unfold with_table, active_token, token.
  rewrite switch_to_spec by done. fold inside. rewrite Hf. cbn.
  change (root_frame t) with (ttbr0 inside). rewrite (switch_to_spec inside (ttbr0 m)) by (done || apply Hm).
  destruct m, Hm as [Htl _]. unfold active_on. cbn in *. by rewrite Htl.
Qed.

Lemma with_restores_table_witness :
  let inside := active_on 0x2000 (mkMmu 0x1000 0 {[0x1000]}) in
  mmu_clean inside
  /\ (Ret (ttbr0 inside, inside, tt) = Ret (ttbr0 inside, inside, tt) ->
      with_table (mkImpl tt 0x2000 ∅) (fun m s => Ret (ttbr0 m, m, s)) (mkMmu 0x1000 0 {[0x1000]}) tt
      = Ret (ttbr0 inside, mkMmu 0x1000 0 {[0x1000]}, tt)).
Proof.
  destruct (with_restores_table (mkImpl tt 0x2000 ∅) (fun m s => Ret (ttbr0 m, m, s)) (mkMmu 0x1000 0 {[0x1000]}) tt 0x2000 tt)
    as (Hc & Hw & _); [by split|by split|]. exact (conj Hc Hw).
Defined.
