(* ===== verification/Mock.v ===== *)
(** * A small concrete machine

    A page table, a frame allocator with as many frames as one likes and in-memory files that
    satisfy the interfaces of [Paging] and [Handler]: the inputs on which the
    theorems about memory sets are evaluated. *)

From S2P Require Import Prelude Paging Handler.
Import Addr Frames Table.

(** The frames of a machine with [n] of them. *)
Definition frames (n : nat) : list Z := (fun k => Z.of_nat k * 4096) <$> seq 1 n.
Definition frame_set (n : nat) : gset Z := list_to_set (frames n).

(** The allocator's state is the set of frames handed out. *)
Record Pool (n : nat) := mkMockAlloc { taken : gset Z }.
Arguments mkMockAlloc {n}.
Arguments taken {n}.
Abbreviation MockAlloc := (Pool 64).

Definition mock_alloc {n} (a : Pool n) : option Z * Pool n :=
  match elements (frame_set n ∖ taken a) with
  | f :: _ => (Some f, mkMockAlloc ({[f]} ∪ taken a))
  | [] => (None, a)
  end.

#[export] Instance MockFrameAllocator n : FrameAllocator (Pool n) := {|
  alloc a _ := Ret (mock_alloc a);
  dealloc a f _ := Ret (mkMockAlloc (taken a ∖ {[f]}));
|}.

(** No more than fit the 48-bit physical address space. *)
Definition fits (n : nat) : Prop := Z.of_nat n < 2 ^ 35.

Lemma frame_set_addr n f : fits n -> f ∈ frame_set n -> frame_addr f.
Proof.
  unfold fits, frame_set, frames. rewrite elem_of_list_to_set, list_elem_of_fmap. intros Hn (k & -> & Hk).
  apply elem_of_seq in Hk. unfold frame_addr, aligned. rewrite Z.mod_mul by lia. lia.
Qed.

Lemma size_frame_set n : size (frame_set n) = n.
Proof.
  unfold frame_set. rewrite size_list_to_set; [unfold frames; by rewrite length_fmap, length_seq|].
  apply NoDup_fmap_2; [intros ???; lia|apply NoDup_seq].
Qed.

Section sets.
Context (U X : gset Z) (f : Z).

Lemma size_take : f ∈ U -> f ∉ X -> size (U ∖ X) = S (size (U ∖ ({[f]} ∪ X))).
Proof.
  intros Hf Hn. assert (U ∖ X = {[f]} ∪ (U ∖ ({[f]} ∪ X))) as ->.
  { apply set_eq. intros g. destruct (decide (g = f)); set_solver. }
  rewrite size_union by set_solver. by rewrite size_singleton.
Qed.

Lemma head_elements l : elements (U ∖ X) = f :: l -> f ∈ U /\ f ∉ X.
Proof. intros Hl. apply elem_of_difference, elem_of_elements. rewrite Hl. by constructor. Qed.

Lemma take_owned : f ∈ U -> ({[f]} ∪ X) ∩ U = {[f]} ∪ (X ∩ U).
Proof. set_solver. Qed.

Lemma give_owned : (X ∖ {[f]}) ∩ U = (X ∩ U) ∖ {[f]}.
Proof. set_solver. Qed.

Lemma give_take : f ∈ X -> {[f]} ∪ X ∖ {[f]} = X.
Proof. intros Hf. apply set_eq. intros g. destruct (decide (g = f)); set_solver. Qed.
End sets.

Existing Class fits.
#[export] Instance fits_64 : fits 64.
Proof. done. Qed.

#[export] Program Instance MockFrameAllocatorSpec n {Hn : fits n} : FrameAllocatorSpec (Pool n) := {|
  owned a := taken a ∩ (frame_set n);
  avail a := size ((frame_set n) ∖ taken a);
|}.
Next Obligation. intros n Hfit a f Hf. cbn beta in Hf. apply (frame_set_addr n); [done|]. set_solver. Qed.
Next Obligation.
  intros n Hfit a Ha. cbn beta in Ha. cbn [alloc MockFrameAllocator]. unfold mock_alloc.
  destruct (elements ((frame_set n) ∖ taken a)) as [|f l] eqn:Hl.
  { apply elements_empty_inv, leibniz_equiv in Hl. rewrite Hl, size_empty in Ha. lia. }
  apply head_elements in Hl as [Hf Hn].
  exists f, (mkMockAlloc ({[f]} ∪ taken a)). split_and!; [done|by apply (frame_set_addr n)| | |].
  - intros Hin. apply elem_of_intersection in Hin as [? _]. done.
  - by apply take_owned.
  - by apply size_take.
Qed.

#[export] Instance MockFrameReturnSpec n {Hn : fits n} : FrameReturnSpec (Pool n).
Proof.
  split. intros a f Hf. cbn in Hf. apply elem_of_intersection in Hf as [Hf Hu].
  exists (mkMockAlloc (taken a ∖ {[f]})). split_and!; [done|apply give_owned|].
  cbn [taken avail MockFrameAllocatorSpec]. rewrite (size_take (frame_set n) (taken a ∖ {[f]}) f Hu), give_take; [done..|].
  intros Hin. by apply elem_of_difference in Hin as [_ []]; apply elem_of_singleton.
Qed.

(** ** Entries and tables *)

Record MockEntry := mkMockEntry {
  me_accessed : bool; me_dirty : bool; me_writable : bool; me_present : bool; me_target : Z;
  me_wshared : bool; me_rshared : bool; me_swapped : bool; me_user : bool; me_execute : bool; me_mmio : Z;
}.

#[export] Instance MockEntryOps : Entry MockEntry := {|
  accessed := me_accessed; dirty := me_dirty; writable := me_writable; present := me_present;
  target := me_target; writable_shared := me_wshared; readonly_shared := me_rshared;
  swapped := me_swapped; user := me_user; execute := me_execute; mmio := me_mmio;
  clear_accessed e := mkMockEntry false (me_dirty e) (me_writable e) (me_present e) (me_target e) (me_wshared e) (me_rshared e) (me_swapped e) (me_user e) (me_execute e) (me_mmio e);
  clear_dirty e := mkMockEntry (me_accessed e) false (me_writable e) (me_present e) (me_target e) (me_wshared e) (me_rshared e) (me_swapped e) (me_user e) (me_execute e) (me_mmio e);
  set_writable b e := mkMockEntry (me_accessed e) (me_dirty e) b (me_present e) (me_target e) (me_wshared e) (me_rshared e) (me_swapped e) (me_user e) (me_execute e) (me_mmio e);
  set_present b e := mkMockEntry (me_accessed e) (me_dirty e) (me_writable e) b (me_target e) (me_wshared e) (me_rshared e) (me_swapped e) (me_user e) (me_execute e) (me_mmio e);
  set_target a e := mkMockEntry (me_accessed e) (me_dirty e) (me_writable e) (me_present e) a (me_wshared e) (me_rshared e) (me_swapped e) (me_user e) (me_execute e) (me_mmio e);
  set_shared b e := mkMockEntry (me_accessed e) (me_dirty e) (me_writable e) (me_present e) (me_target e) b (negb b) (me_swapped e) (me_user e) (me_execute e) (me_mmio e);
  clear_shared e := mkMockEntry (me_accessed e) (me_dirty e) (me_writable e) (me_present e) (me_target e) false false (me_swapped e) (me_user e) (me_execute e) (me_mmio e);
  set_swapped b e := mkMockEntry (me_accessed e) (me_dirty e) (me_writable e) (me_present e) (me_target e) (me_wshared e) (me_rshared e) b (me_user e) (me_execute e) (me_mmio e);
  set_user b e := mkMockEntry (me_accessed e) (me_dirty e) (me_writable e) (me_present e) (me_target e) (me_wshared e) (me_rshared e) (me_swapped e) b (me_execute e) (me_mmio e);
  set_execute b e := mkMockEntry (me_accessed e) (me_dirty e) (me_writable e) (me_present e) (me_target e) (me_wshared e) (me_rshared e) (me_swapped e) (me_user e) b (me_mmio e);
  set_mmio v e := mkMockEntry (me_accessed e) (me_dirty e) (me_writable e) (me_present e) (me_target e) (me_wshared e) (me_rshared e) (me_swapped e) (me_user e) (me_execute e) v;
|}.

#[export] Instance MockEntrySpec : EntrySpec MockEntry.
Proof. exists (fun _ => True) (fun _ => True); done. Defined.

Record MockTable := mkMockTable { mt_view : gmap Z MockEntry; mt_stale : gset Z }.

(** A table takes one frame for its root and none for the levels below. *)
#[export] Instance MockPageTable : PageTable MockEntry MockAlloc MockTable := {|
  pt_new a := match mock_alloc a with
              | (Some _, a') => Ret (mkMockTable ∅ ∅, a')
              | (None, _) => Panic "no frame"
              end;
  pt_map t a addr tgt :=
    Ret (mkMockTable (<[addr / 4096 := mkMockEntry false false true true tgt false false false false false 0]> (mt_view t))
           (mt_stale t ∖ {[addr / 4096]}), a);
  pt_unmap t addr := Ret (mkMockTable (delete (addr / 4096) (mt_view t)) (mt_stale t ∖ {[addr / 4096]}));
  pt_get_entry t addr := mt_view t !! (addr / 4096);
  pt_set_entry t addr e := mkMockTable (<[addr / 4096 := e]> (mt_view t)) ({[addr / 4096]} ∪ mt_stale t);
  pt_update t addr := mkMockTable (mt_view t) (mt_stale t ∖ {[addr / 4096]});
  pt_page_frame t addr :=
    match mt_view t !! (addr / 4096) with
    | Some e => if me_present e then Ret (me_target e) else Panic "page not present"
    | None => Panic "page not mapped"
    end;
|}.

#[export] Program Instance MockPageTableSpec : PageTableSpec MockEntry MockAlloc MockTable := {|
  view := mt_view;
  stale := mt_stale;
  page_ok _ := True;
|}.
Next Obligation.
  intros a Ha. destruct (alloc_spec a Ha) as (f & a' & Hal & _ & _ & Ho & Hav).
  cbn [alloc MockFrameAllocator] in Hal. injection Hal as Hal.
  cbn [pt_new MockPageTable]. rewrite Hal. do 2 eexists. split_and!; try done. rewrite Ho. set_solver.
Qed.
Next Obligation.
  intros t a p tgt Hp _ Hf Hv Ha. cbn [pt_map MockPageTable]. rewrite Z.div_mul by lia.
  do 3 eexists. split_and!; try done. lia.
Qed.
Next Obligation.
  intros t p e Hp Hv Hpr. cbn [pt_unmap MockPageTable]. rewrite Z.div_mul by lia. eauto.
Qed.
Next Obligation. done. Qed.
Next Obligation. done. Qed.
Next Obligation. done. Qed.
Next Obligation. done. Qed.
Next Obligation. done. Qed.
Next Obligation. intros t addr e Hv Hpr _. cbn in *. by rewrite Hv, Hpr. Qed.

(** ** Files *)

#[export] Instance MockRead : Read (list Z) := fun f off buf =>
  let n := Nat.min (length buf) (length f - Z.to_nat off) in
  Ret (Z.of_nat n, take n (drop (Z.to_nat off) f) ++ drop n buf).

#[export] Program Instance MockReadSpec : ReadSpec (F := list Z) := {| content f := f |}.
Next Obligation. done. Qed.

(** ** The initial machine *)

(** A release build. *)
Definition release : BuildMode := false.

(** One frame holds the root of the table; every page of memory is zero. *)
Definition world0 : world MockAlloc :=
  mkWorld (mkMockAlloc {[4096]}) (fun _ => replicate page_len 0).
Definition table0 : MockTable := mkMockTable ∅ ∅.

Lemma world0_wf : mem_wf world0.
Proof. intros f. apply length_replicate. Qed.

Lemma world0_avail : (60 <= avail (fa world0))%nat.
Proof. vm_compute. lia. Qed.
