(* ===== verification/MockTables.v ===== *)
(** * Concrete page tables

    Descriptors with the bits of the ARMv8-A manual and a flat table that
    satisfy the interfaces of [PageTables] for the frames of [Mock]. *)

From S2P Require Import Prelude Paging Handler Mock PageTables.
Import Addr Frames Table.

(** Stage 1 descriptors: valid 0, AP 7:6, AF 10, nG 11, DBM 51, PXN 53,
    UXN 54, and the software bits 55 to 58; the attribute index 4:2, the
    shareability 9:8 and the address 47:12. *)
Definition mock_bit (f : EF) : Z :=
  match f with
  | VALID => 0 | AP_EL0 => 6 | AP_RO => 7 | AF => 10 | nG => 11 | WRITE => 51 | PXN => 53 | UXN => 54
  | DIRTY => 55 | SWAPPED => 56 | WRITABLE_SHARED => 57 | READONLY_SHARED => 58
  end.
Definition mock_addr_mask : Z := Z.shiftl (Z.ones 36) 12.
Definition mock_attr_mask : Z := 0x31c.
Definition mock_flag_mask : Z := Z.ldiff (Z.ldiff (Z.ones 64) mock_addr_mask) mock_attr_mask.

#[export] Instance MockLayout : PteLayout := {|
  bit := mock_bit;
  default_page := 0x403;
  default_block := 0x401;
  pte_flags w := Z.land w mock_flag_mask;
  pte_addr w := Z.land w mock_addr_mask;
  pte_attr w := Z.land w mock_attr_mask;
  pte_set_addr a f t := Z.lor (Z.lor a f) t;
  pte_set_attr w t := Z.lor (Z.ldiff w mock_attr_mask) t;
  MairNormal := 0x300; MairDevice := 0x204; MairNormalNonCacheable := 0x208;
|}.

Lemma mock_masks b : Z.testbit mock_flag_mask b = true ->
  Z.testbit mock_addr_mask b = false /\ Z.testbit mock_attr_mask b = false.
Proof.
  unfold mock_flag_mask. rewrite !Z.ldiff_spec, !andb_true_iff, !negb_true_iff. tauto.
Qed.

Lemma frame_masked a : frame_addr a -> Z.land a mock_addr_mask = a.
Proof.
  intros [Ha Hr]. assert (exists k, a = k * 4096) as [k ->] by (exists (a / 4096); unfold aligned in Ha; pose proof (Z.div_mod a 4096); lia). unfold mock_addr_mask.
  change 4096 with (2 ^ 12). rewrite <- Z.shiftl_mul_pow2, <- Z.shiftl_land, Z.land_ones by lia.
  f_equal. apply Z.mod_small. lia.
Qed.

#[export] Program Instance MockLayoutSpec : PteLayoutSpec := {|
  flag_mask := mock_flag_mask; addr_mask := mock_addr_mask; attr_mask := mock_attr_mask;
|}.
Next Obligation. repeat split; vm_compute; congruence. Qed.
Next Obligation. by intros [] []. Qed.
Next Obligation. by intros []. Qed.
Next Obligation. by intros []. Qed.
Next Obligation. intros b Hb. by apply mock_masks. Qed.
Next Obligation. intros b Hb. by apply mock_masks. Qed.
Next Obligation.
  intros b Hb. destruct (Z.testbit mock_attr_mask b) eqn:Ht; [|done]. exfalso.
  assert (Z.land mock_addr_mask mock_attr_mask = 0) as Hz by done.
  assert (Z.testbit 0 b = true) as Hf by (by rewrite <- Hz, Z.land_spec, Hb, Ht). by rewrite Z.bits_0 in Hf.
Qed.
Next Obligation. done. Qed.
Next Obligation. done. Qed.
Next Obligation. done. Qed.
Next Obligation. apply frame_masked. Qed.
Next Obligation. done. Qed.
Next Obligation. done. Qed.
Next Obligation. by repeat constructor. Qed.
Next Obligation. apply (bool_decide_unpack _). by vm_compute. Qed.
Next Obligation. done. Qed.
Next Obligation. done. Qed.

(** A table with its pages and blocks in maps; the levels below the root take
    no frames. *)
Record FlatTable := mkFlat { ft_pages : gmap Z Z; ft_blocks : gmap Z Z }.

#[export] Instance FlatOps A : OffsetPageTable A FlatTable := {|
  opt_new _ := mkFlat ∅ ∅;
  opt_map_to _ m a p f flags attr := Ret (Some (mkFlat (<[p := pte_set_addr f flags attr]> (ft_pages m)) (ft_blocks m)), a);
  opt_unmap m p := Some (mkFlat (delete p (ft_pages m)) (ft_blocks m));
  opt_get_entry_mut m p := ft_pages m !! p;
  opt_write_entry m p w := mkFlat (<[p := w]> (ft_pages m)) (ft_blocks m);
  opt_translate_page m p := pte_addr <$> ft_pages m !! p;
  opt_map_block _ m a q f flags attr := Ret (Some (mkFlat (ft_pages m) (<[q := pte_set_addr f flags attr]> (ft_blocks m))), a);
|}.

#[export] Program Instance FlatSpec `{FS : FrameAllocatorSpec A} : OffsetPageTableSpec A FlatTable := {|
  opt_view := ft_pages; opt_blocks := ft_blocks; opt_page_ok _ := True;
|}.
Next Obligation. done. Qed.
Next Obligation. intros. do 2 eexists. split_and!; try done. lia. Qed.
Next Obligation. intros. by eexists. Qed.
Next Obligation. done. Qed.
Next Obligation. done. Qed.
Next Obligation. intros A FI FS al m a p f flags attr m' a' Heq. cbn in Heq. by injection Heq as <- <-. Qed.
Next Obligation. done. Qed.
Next Obligation. intros A FI FS m p w Hv _. cbn in *. by rewrite Hv. Qed.
Next Obligation. intros. do 2 eexists. split_and!; try done. lia. Qed.

