(* ===== verification/MemorySet.v ===== *)
(** * Memory areas and memory sets ([memory/memory_set.rs])

    [MemoryArea] and [MemorySet] with every operation of the source, generic in
    the page table as the source is.  The abstract view of a set is a
    [vspace]: what each page is mapped with.  [vm_inv] is the invariant that
    ties the area list, the page table and the frame allocator together. *)

From Stdlib Require Import Sorted.
From S2P Require Import Prelude Paging Handler.
Import Addr Frames Table.

Record MemoryArea (F : Type) := mkArea {
  start_addr : Z;
  end_addr : Z;
  attr : MemoryAttr;
  handler : MemoryHandler F;
  name : string;
}.
Arguments mkArea {F}.
Arguments start_addr {F}.
Arguments end_addr {F}.
Arguments attr {F}.
Arguments handler {F}.
Arguments name {F}.

Record MemorySet (F T : Type) := mkSet { areas : list (MemoryArea F); page_table : T }.
Arguments mkSet {F T}.
Arguments areas {F T}.
Arguments page_table {F T}.

(** [VmError] *)
Inductive VmError := InvalidPtr.

Section operations.
Context `{BuildMode} {E A T F : Type}.
Context `{EI : Entry E, FI : FrameAllocator A, PI : !PageTable E A T, RI : Read F}.
Abbreviation area := (MemoryArea F).
Abbreviation mset := (MemorySet F T).

(** *** [impl MemoryArea] *)

(** [MemoryArea::contains] *)
Definition contains (self : area) (addr : Z) : bool :=
  (start_addr self <=? addr) && (addr <? end_addr self).

(** [ptr.add(count)] on a [*const S] with [size_of::<S>() = size]. *)
Definition ptr_add (size ptr count : Z) : Z := (ptr + count * size) mod 2 ^ 64.

(** [MemoryArea::check_read_array] *)
Definition area_check_read_array (size : Z) (self : area) (ptr count : Z) : outcome Z :=
  lo ← Pages.start_address (Pages.of_addr (start_addr self));
  let min_bound := Z.max ptr lo in
  x ← uadd (end_addr self) PAGE_SIZE; y ← usub x 1;
  hi ← Pages.start_address (Pages.of_addr y);
  let max_bound := Z.min (ptr_add size ptr count) hi in
  if min_bound <=? max_bound then usub max_bound min_bound else Ret 0.

(** [MemoryArea::check_write_array] *)
Definition area_check_write_array (size : Z) (self : area) (ptr count : Z) : outcome Z :=
  if Attr.readonly (attr self) then Ret 0 else area_check_read_array size self ptr count.

(** [MemoryArea::is_overlap_with] *)
Definition is_overlap_with (self : area) (start_addr0 end_addr0 : Z) : outcome bool :=
  let p0 := Pages.of_addr (start_addr self) in
  x ← usub (end_addr self) 1; p1 ← Pages.add (Pages.of_addr x) 1;
  let p2 := Pages.of_addr start_addr0 in
  y ← usub end_addr0 1; p3 ← Pages.add (Pages.of_addr y) 1;
  Ret (negb ((Pages.number p1 <=? Pages.number p2) || (Pages.number p3 <=? Pages.number p0))).

(** [MemoryArea::map] *)
Definition area_map (self : area) (pt : T) (w : world A) : outcome (T * world A) :=
  Pages.for_range (start_addr self) (end_addr self)
    (fun s page => a ← Pages.start_address page; handler_map (handler self) s.1 s.2 a (attr self))
    (pt, w).

(** [MemoryArea::unmap] *)
Definition area_unmap (self : area) (pt : T) (w : world A) : outcome (T * world A) :=
  Pages.for_range (start_addr self) (end_addr self)
    (fun s page => a ← Pages.start_address page; handler_unmap (handler self) s.1 s.2 a)
    (pt, w).

(** *** [impl MemorySet] *)

(** [MemorySet::new] *)
Definition new (w : world A) : outcome (mset * world A) :=
  x ← pt_new (fa w); Ret (mkSet [] x.1, with_fa w x.2).

(** The loop of [check_read_array] and [check_write_array]. *)
Fixpoint check_loop (check : area -> outcome Z) (size ptr count valid_size : Z) (l : list area)
    : outcome (result (Z * Z) VmError) :=
  match l with
  | [] => Ret (Err InvalidPtr)
  | a :: l =>
      c ← check a;
      v ← uadd valid_size c;
      n ← umul size count;
      if v =? n then Ret (Ok (ptr, count)) else check_loop check size ptr count v l
  end.

(** [MemorySet::check_read_array]: [Ok] carries the slice's pointer and length. *)
Definition check_read_array (size : Z) (self : mset) (ptr count : Z) : outcome (result (Z * Z) VmError) :=
  check_loop (fun a => area_check_read_array size a ptr count) size ptr count 0 (areas self).

(** [MemorySet::check_write_array] *)
Definition check_write_array (size : Z) (self : mset) (ptr count : Z) : outcome (result (Z * Z) VmError) :=
  check_loop (fun a => area_check_write_array size a ptr count) size ptr count 0 (areas self).

(** [MemorySet::check_read_ptr], [MemorySet::check_write_ptr] *)
Definition check_read_ptr (size : Z) (self : mset) (ptr : Z) : outcome (result Z VmError) :=
  r ← check_read_array size self ptr 1; Ret (match r with Ok s => Ok s.1 | Err e => Err e end).
Definition check_write_ptr (size : Z) (self : mset) (ptr : Z) : outcome (result Z VmError) :=
  r ← check_write_array size self ptr 1; Ret (match r with Ok s => Ok s.1 | Err e => Err e end).

(** [MemorySet::test_free_area] *)
Definition test_free_area (self : mset) (start_addr0 end_addr0 : Z) : outcome bool :=
  o ← findM (fun a => is_overlap_with a start_addr0 end_addr0) (areas self);
  Ret (match o with None => true | Some _ => false end).

(** The iterator chain of [find_free_area], lazily. *)
Fixpoint find_free_loop (self : mset) (len : Z) (candidates : list Z) : outcome Z :=
  match candidates with
  | [] => Panic "failed to find free area ???"
  | c :: l =>
      addr ← page_up c;
      e ← uadd addr len;
      b ← test_free_area self addr e;
      if b : bool then Ret addr else find_free_loop self len l
  end.

(** [MemorySet::find_free_area] *)
Definition find_free_area (self : mset) (addr_hint len : Z) : outcome Z :=
  find_free_loop self len (addr_hint :: (end_addr <$> areas self)).

(** The index [push] inserts at: the first area that starts later. *)
Fixpoint insert_index (start_addr0 : Z) (l : list area) : nat :=
  match l with
  | [] => O
  | other :: l => if start_addr0 <? start_addr other then O else S (insert_index start_addr0 l)
  end.

(** [Vec::insert], for an index within bounds. *)
Definition vec_insert {X} (i : nat) (x : X) (l : list X) : list X := take i l ++ x :: drop i l.

(** [MemorySet::push] *)
Definition push (self : mset) (w : world A) (start_addr0 end_addr0 : Z) (attr0 : MemoryAttr)
    (handler0 : MemoryHandler F) (name0 : string) : outcome (mset * world A) :=
  if end_addr0 <=? start_addr0 then Ret (self, w)
  else
    let s := page_down start_addr0 in
    e ← page_up end_addr0;
    _ ← assert_ (s <? e) "invalid memory area";
    free ← test_free_area self s e;
    _ ← assert_ free "memory area overlap";
    let a := mkArea s e attr0 handler0 name0 in
    m ← area_map a (page_table self) w;
    Ret (mkSet (vec_insert (insert_index s (areas self)) a (areas self)) m.1, m.2).

(** The scan of [pop]: the index and the area that match exactly. *)
Fixpoint pop_scan (start_addr0 end_addr0 : Z) (l : list area) : option (nat * area) :=
  match l with
  | [] => None
  | a :: l =>
      if (start_addr a =? start_addr0) && (end_addr a =? end_addr0) then Some (O, a)
      else '(i, b) ← pop_scan start_addr0 end_addr0 l; Some (S i, b)
  end.

(** [MemorySet::pop] *)
Definition pop (self : mset) (w : world A) (start_addr0 end_addr0 : Z) : outcome (mset * world A) :=
  _ ← assert_ (start_addr0 <=? end_addr0) "invalid memory area";
  match pop_scan start_addr0 end_addr0 (areas self) with
  | Some (i, a) =>
      m ← area_unmap a (page_table self) w;
      Ret (mkSet (delete i (areas self)) m.1, m.2)
  | None => Panic "no memory area found"
  end.

(** A new area with the attributes of [a] over another range. *)
Definition resize (a : area) (s e : Z) : area := mkArea s e (attr a) (handler a) (name a).

(** The [while] loop of [pop_with_split]; [i] is a [usize]. *)
Fixpoint split_loop (fuel : nat) (s e : Z) (i : Z) (l : list area) (pt : T) (w : world A)
    : outcome (mset * world A) :=
  match fuel with
  | O => Panic "split_loop: out of fuel"
  | S fuel =>
      match l !! Z.to_nat i with
      | None => Ret (mkSet l pt, w)
      | Some a =>
          overlap ← is_overlap_with a s e;
          if overlap : bool then
            let removed := delete (Z.to_nat i) l in
            if (s <=? start_addr a) && (end_addr a <=? e) then
              (* subset *)
              m ← area_unmap a pt w;
              split_loop fuel s e (wadd (wsub i 1) 1) removed m.1 m.2
            else if (s <=? start_addr a) && (start_addr a <? e) then
              (* prefix *)
              m ← area_unmap (resize a (start_addr a) e) pt w;
              split_loop fuel s e (wadd i 1)
                (vec_insert (Z.to_nat i) (resize a e (end_addr a)) removed) m.1 m.2
            else if (end_addr a <=? e) && (s <? end_addr a) then
              (* postfix *)
              m ← area_unmap (resize a s (end_addr a)) pt w;
              split_loop fuel s e (wadd i 1)
                (vec_insert (Z.to_nat i) (resize a (start_addr a) s) removed) m.1 m.2
            else
              (* superset *)
              m ← area_unmap (resize a s e) pt w;
              let l' := vec_insert (Z.to_nat i) (resize a (start_addr a) s) removed in
              j ← uadd i 1;
              let l' := vec_insert (Z.to_nat j) (resize a e (end_addr a)) l' in
              split_loop fuel s e (wadd j 1) l' m.1 m.2
          else split_loop fuel s e (wadd i 1) l pt w
      end
  end.

(** [MemorySet::pop_with_split]: every turn of the loop brings the index one
    closer to the end of the list, so [length + 1] turns are enough. *)
Definition pop_with_split (self : mset) (w : world A) (s e : Z) : outcome (mset * world A) :=
  _ ← assert_ (s <=? e) "invalid memory area";
  split_loop (S (length (areas self))) s e 0 (areas self) (page_table self) w.

(** [MemorySet::clear] (and [Drop::drop]) *)
Definition clear (self : mset) (w : world A) : outcome (mset * world A) :=
  m ← foldM (fun s a => area_unmap a s.1 s.2) (page_table self, w) (areas self);
  Ret (mkSet [] m.1, m.2).

(** [MemorySet::translate] *)
Definition translate (self : mset) (addr : Z) : option Z :=
  e ← pt_get_entry (page_table self) addr; if user e then Some (target e) else None.

(** [MemorySet::handle_page_fault], with the call that flushes the caches and
    without it *)
Definition handle_fault_flush (self : mset) (w : world A) (addr : Z) : outcome (bool * mset * world A * option Flush) :=
  match find (fun a => contains a addr) (areas self) with
  | Some a =>
      r ← handler_fault_flush (handler a) (page_table self) w addr;
      Ret (r.1.1.1, mkSet (areas self) r.1.1.2, r.1.2, r.2)
  | None => Ret (false, self, w, None)
  end.
Definition handle_page_fault (self : mset) (w : world A) (addr : Z) : outcome (bool * mset * world A) :=
  x ← handle_fault_flush self w addr; Ret x.1.

(** [MemorySet::clone] *)
Definition clone (self : mset) (w : world A) : outcome (mset * world A) :=
  x ← pt_new (fa w);
  m ← foldM (fun s a =>
         Pages.for_range (start_addr a) (end_addr a)
           (fun s page => addr ← Pages.start_address page;
              handler_clone_map (handler a) s.1 (page_table self) s.2 addr (attr a)) s)
       (x.1, with_fa w x.2) (areas self);
  Ret (mkSet (areas self) m.1, m.2).
End operations.
Arguments vec_insert : simpl never.

(** ** The abstract view and the invariant *)
Section invariant.
Context `{BuildMode} {E A T F : Type}.
Context `{ES : EntrySpec E, FS : FrameAllocatorSpec A, FR : !FrameReturnSpec A, PI : !PageTable E A T, !PageTableSpec E A T, RI : Read F}.
Abbreviation area := (MemoryArea F).
Abbreviation mset := (MemorySet F T).
Implicit Types (t : T) (w : world A) (a : MemoryArea F) (l : list (MemoryArea F)) (p : Z).

(** What a page is mapped with. *)
Definition vspace := Z -> option (MemoryAttr * MemoryHandler F).

(** The vspace [σ] with the pages of [lo, hi) changed to [v]. *)
Definition vs_set (lo hi : Z) (v : option (MemoryAttr * MemoryHandler F)) (σ : vspace) : vspace :=
  fun p => if (lo <=? p) && (p <? hi) then v else σ p.

(** The vspace of an area list: the first area that contains the page. *)
Definition lookup_page l : vspace :=
  fun p => (fun a => (attr a, handler a)) <$> find (fun a => contains a (p * 4096)) l.

(** A page-aligned, non-empty area below the last two pages of the address space. *)
Definition area_wf a : Prop :=
  aligned (start_addr a) /\ aligned (end_addr a) /\ 0 <= start_addr a < end_addr a /\ end_addr a <= 2 ^ 64 - 8192.

Definition before (a b : area) : Prop := end_addr a <= start_addr b.

(** Areas are well formed, sorted by address and disjoint. *)
Definition areas_wf l : Prop := Forall area_wf l /\ StronglySorted before l.

Definition area_mappable a : Prop :=
  forall p, contains a (p * 4096) = true -> mappable (handler a) p.

(** The page table realises the vspace: the same pages are mapped, each entry
    has the permissions of its area, a frame it uses is allocated, belongs to
    no other page and is not in [R] (the frames the rest of the kernel owns),
    and no TLB entry is stale. *)
Record agree (R : gset Z) (σ : vspace) t (own : gset Z) : Prop := {
  agree_page p :
    match σ p, view t !! p with
    | Some (at_, h), Some e =>
        attrs_ok at_ e /\ handler_ok h p e /\ (uses_frame h e = true -> target e ∈ own /\ target e ∉ R)
    | None, None => True
    | _, _ => False
    end;
  agree_inj p q at1 h1 at2 h2 e1 e2 :
    σ p = Some (at1, h1) -> σ q = Some (at2, h2) -> view t !! p = Some e1 -> view t !! q = Some e2 ->
    uses_frame h1 e1 = true -> uses_frame h2 e2 = true -> target e1 = target e2 -> p = q;
  agree_stale : stale t = ∅;
  agree_rest : R ⊆ own;
}.

(** The invariant of a memory set. *)
Definition vm_inv (R : gset Z) (ms : mset) w : Prop :=
  areas_wf (areas ms) /\ Forall area_mappable (areas ms)
  /\ agree R (lookup_page (areas ms)) (page_table ms) (owned (fa w)).

(** *** [agree] under one page operation *)

Lemma agree_ext R σ σ' t own : (forall p, σ p = σ' p) -> agree R σ t own -> agree R σ' t own.
Proof.
  intros Heq [Hp Hi Hs Hr]. split; [|intros *; rewrite <- !Heq; eauto|done..].
  intros p. rewrite <- Heq. apply Hp.
Qed.

#[export] Instance agree_proper R :
  Proper (pointwise_relation Z eq ==> eq ==> eq ==> iff) (agree R).
Proof.
  intros σ σ' Heq t ? <- own ? <-. split; apply agree_ext; [apply Heq | intros p; symmetry; apply Heq].
Qed.

Definition vs_upd (p : Z) (v : option (MemoryAttr * MemoryHandler F)) (σ : vspace) : vspace := vs_set p (p + 1) v σ.

Lemma vs_upd_eq p v σ : vs_upd p v σ p = v.
Proof. unfold vs_upd, vs_set. by rewrite Z.leb_refl, (proj2 (Z.ltb_lt _ _)) by lia. Qed.

Lemma vs_upd_ne p q v σ : p ≠ q -> vs_upd p v σ q = σ q.
Proof.
  intros Hne. unfold vs_upd, vs_set.
  destruct (Z.leb_spec p q), (Z.ltb_spec q (p + 1)); cbn; try done; lia.
Qed.

Lemma agree_map_page R σ t w t' w' h at_ p :
  agree R σ t (owned (fa w)) -> mapped_post h at_ p t w t' w' ->
  agree R (vs_upd p (Some (at_, h)) σ) t' (owned (fa w')).
Proof.
  intros [Hp Hi Hs Hr] (e & Hv & Hat & Hok & Hst & Ho & Hu & _). split.
  - intros q. destruct (Z.eq_dec p q) as [<-|Hne].
    + rewrite vs_upd_eq, Hv, lookup_insert_eq. split_and!; [done..|]. intros Hus. destruct (Hu Hus). set_solver.
    + rewrite vs_upd_ne, Hv, lookup_insert_ne by done. specialize (Hp q).
      destruct (σ q) as [[at' h']|], (view t !! q) as [e'|]; try done.
      destruct Hp as (? & ? & Hin). split_and!; [done..|]. intros Hus. destruct (Hin Hus). set_solver.
  - intros q1 q2 at1 h1 at2 h2 e1 e2. rewrite Hv.
    assert (Hfresh : forall q at' h' e', p ≠ q -> σ q = Some (at', h') -> view t !! q = Some e' ->
              uses_frame h' e' = true -> target e' ∈ owned (fa w)).
    { intros q at' h' e' _ Hσ Hvq Hus. specialize (Hp q). rewrite Hσ, Hvq in Hp. by apply Hp. }
    destruct (Z.eq_dec p q1) as [<-|Hn1], (Z.eq_dec p q2) as [<-|Hn2];
      rewrite ?vs_upd_eq, ?(vs_upd_ne p q1), ?(vs_upd_ne p q2), ?lookup_insert_eq,
        ?(lookup_insert_ne (view t) p q1), ?(lookup_insert_ne (view t) p q2) by done; [done|..|eauto].
    + intros [= <- <-] Hσ [= <-] Hvq Hu1 Hu2 Htg. destruct (Hu Hu1) as [_ []].
      rewrite Htg. eauto.
    + intros Hσ [= <- <-] Hvq [= <-] Hu1 Hu2 Htg. destruct (Hu Hu2) as [_ []].
      rewrite <- Htg. eauto.
  - rewrite Hst, Hs. set_solver.
  - set_solver.
Qed.

Lemma agree_unmap_page R σ t t' own h at_ p e :
  agree R σ t own -> σ p = Some (at_, h) -> view t !! p = Some e ->
  view t' = delete p (view t) -> stale t' = stale t ∖ {[p]} ->
  agree R (vs_upd p None σ) t' (own ∖ page_frames h e).
Proof.
  intros [Hp Hi Hs Hr] Hσ He Hv Hst. split.
  - intros q. destruct (Z.eq_dec p q) as [<-|Hne].
    + by rewrite vs_upd_eq, Hv, lookup_delete_eq.
    + rewrite vs_upd_ne, Hv, lookup_delete_ne by done. pose proof (Hp q) as Hq.
      destruct (σ q) as [[at' h']|] eqn:Hσq, (view t !! q) as [e'|] eqn:Heq; try done.
      destruct Hq as (? & ? & Hin). split_and!; [done..|]. intros Hus. destruct (Hin Hus) as [Ho HR].
      split; [|done]. unfold page_frames. destruct (uses_frame h e) eqn:Hu; [|set_solver].
      apply elem_of_difference. split; [done|]. rewrite elem_of_singleton. intros Htg.
      by pose proof (Hi p q _ _ _ _ _ _ Hσ Hσq He Heq Hu Hus (eq_sym Htg)).
  - intros q1 q2 at1 h1 at2 h2 e1 e2. rewrite Hv.
    destruct (Z.eq_dec p q1) as [<-|Hn1]; [by rewrite vs_upd_eq|].
    destruct (Z.eq_dec p q2) as [<-|Hn2]; [by rewrite (vs_upd_eq p None)|].
    rewrite !vs_upd_ne, !lookup_delete_ne by done. eauto.
  - rewrite Hst, Hs. set_solver.
  - specialize (Hp p). rewrite Hσ, He in Hp. destruct Hp as (_ & _ & Hin).
    unfold page_frames. destruct (uses_frame h e); [|set_solver].
    destruct (Hin eq_refl). set_solver.
Qed.

(** *** [agree] under the loops over the pages of an area *)

Lemma vs_set_empty lo hi v σ p : hi <= lo -> vs_set lo hi v σ p = σ p.
Proof. intros. unfold vs_set. destruct (Z.leb_spec lo p), (Z.ltb_spec p hi); cbn; try done; lia. Qed.

Lemma vs_set_cons lo hi v σ p : lo < hi -> vs_set (lo + 1) hi v (vs_upd lo v σ) p = vs_set lo hi v σ p.
Proof.
  intros. unfold vs_upd, vs_set.
  destruct (Z.leb_spec (lo + 1) p), (Z.leb_spec lo p), (Z.ltb_spec p hi), (Z.ltb_spec p (lo + 1)); cbn; try done; lia.
Qed.

Lemma vs_set_in lo hi v σ p : lo <= p < hi -> vs_set lo hi v σ p = v.
Proof. intros. unfold vs_set. by rewrite (proj2 (Z.leb_le _ _)), (proj2 (Z.ltb_lt _ _)) by lia. Qed.

Lemma vs_set_out lo hi v σ p : p < lo \/ hi <= p -> vs_set lo hi v σ p = σ p.
Proof. intros. unfold vs_set. destruct (Z.leb_spec lo p), (Z.ltb_spec p hi); cbn; try done; lia. Qed.

Lemma map_pages_spec R h at_ n : forall lo hi σ t w,
  n = Z.to_nat (hi - lo) -> 0 <= lo -> hi <= 2 ^ 52 ->
  (forall p, lo <= p < hi -> σ p = None /\ mappable h p) ->
  agree R σ t (owned (fa w)) -> (4 * n <= avail (fa w))%nat ->
  exists t' w', foldM (fun s page => a ← Pages.start_address page; handler_map h s.1 s.2 a at_)
                  (t, w) (Pages.pages lo hi) = Ret (t', w')
    /\ agree R (vs_set lo hi (Some (at_, h)) σ) t' (owned (fa w'))
    /\ owned (fa w) ⊆ owned (fa w') /\ (avail (fa w) <= avail (fa w') + 4 * n)%nat /\ mem w' = mem w.
Proof.
  induction n as [|n IH]; intros lo hi σ t w Hn Hlo Hhi Hfree Hag Hav.
  - rewrite Pages.pages_nil by lia. exists t, w. split_and!; [done| |done|lia|done].
    eapply agree_ext; [|done]. intros p. by rewrite vs_set_empty by lia.
  - rewrite Pages.pages_cons by lia. cbn [foldM].
    rewrite Pages.start_address_ok by lia. cbn [mbind outcome_bind fst snd].
    destruct (Hfree lo) as [Hσ Hmp]; [lia|].
    assert (Hvl : view t !! lo = None).
    { pose proof (agree_page _ _ _ _ Hag lo) as Hp. rewrite Hσ in Hp. by destruct (view t !! lo). }
    destruct (handler_map_spec h at_ t w lo) as (t1 & w1 & -> & Hpost & Hm1); [lia|done|done|lia|].
    sret.
    pose proof (agree_map_page _ _ _ _ _ _ _ _ _ Hag Hpost) as Hag1.
    destruct Hpost as (e & _ & _ & _ & _ & Ho1 & _ & Hav1).
    destruct (IH (lo + 1) hi (vs_upd lo (Some (at_, h)) σ) t1 w1) as (t' & w' & -> & Hag' & Ho' & Hav' & Hm'); try done; [lia..| |lia|].
    { intros p Hp. rewrite vs_upd_ne by lia. apply Hfree. lia. }
    exists t', w'. split_and!; [done| |set_solver|lia|congruence].
    eapply agree_ext; [|done]. intros p. by rewrite vs_set_cons by lia.
Qed.

(** Unmapping the pages [lo, hi) leaves the other entries alone and gives back
    the frames that the pages used. *)
Definition gives_back (lo hi : Z) (σ : vspace) t t' w' : Prop :=
  (forall q, ~ lo <= q < hi -> view t' !! q = view t !! q)
  /\ forall p at_ h e, lo <= p < hi -> σ p = Some (at_, h) -> view t !! p = Some e -> uses_frame h e = true -> target e ∉ owned (fa w').

Lemma gives_back_cons lo hi σ t t1 t' w1 w' e at_ h :
  lo < hi -> σ lo = Some (at_, h) -> view t !! lo = Some e -> view t1 = delete lo (view t) -> page_frames h e ## owned (fa w1) -> owned (fa w') ⊆ owned (fa w1) ->
  gives_back (lo + 1) hi (vs_upd lo None σ) t1 t' w' -> gives_back lo hi σ t t' w'.
Proof.
  intros Hlt Hσ Hv Hv1 Hfr Hsub [Hout Hin]. split.
  - intros q Hq. rewrite Hout, Hv1, lookup_delete_ne by lia. done.
  - intros p at' h' e' Hp Hσp Hvp Hu. destruct (Z.eq_dec p lo) as [->|Hne].
    + rewrite Hσ in Hσp. rewrite Hv in Hvp. injection Hσp as <- <-. injection Hvp as <-. unfold page_frames in Hfr. rewrite Hu in Hfr. set_solver.
    + apply (Hin p at' h'); [lia|by rewrite vs_upd_ne by lia|by rewrite Hv1, lookup_delete_ne by lia|done].
Qed.

Lemma unmap_pages_spec R h n : forall lo hi σ t w,
  n = Z.to_nat (hi - lo) -> 0 <= lo -> hi <= 2 ^ 52 ->
  (forall p, lo <= p < hi -> exists at_, σ p = Some (at_, h)) ->
  agree R σ t (owned (fa w)) ->
  exists t' w', foldM (fun s page => a ← Pages.start_address page; handler_unmap h s.1 s.2 a)
                  (t, w) (Pages.pages lo hi) = Ret (t', w')
    /\ agree R (vs_set lo hi None σ) t' (owned (fa w'))
    /\ owned (fa w') ⊆ owned (fa w) /\ (avail (fa w) <= avail (fa w'))%nat /\ mem w' = mem w /\ gives_back lo hi σ t t' w'.
Proof.
  induction n as [|n IH]; intros lo hi σ t w Hn Hlo Hhi Hused Hag.
  - rewrite Pages.pages_nil by lia. exists t, w. split_and!; [done| |done|lia|done|split; [done|lia]].
    eapply agree_ext; [|done]. intros p. by rewrite vs_set_empty by lia.
  - rewrite Pages.pages_cons by lia. cbn [foldM].
    rewrite Pages.start_address_ok by lia. cbn [mbind outcome_bind fst snd].
    destruct (Hused lo) as [at_ Hσ]; [lia|].
    pose proof (agree_page _ _ _ _ Hag lo) as Hp. rewrite Hσ in Hp.
    destruct (view t !! lo) as [e|] eqn:Hvl; [|done]. destruct Hp as (_ & Hok & Hu).
    destruct (handler_unmap_spec h t w lo e) as (t1 & w1 & -> & Hv1 & Hs1 & Ho1 & Hav1 & Hm1);
      [lia|done|done|by intros Hus; apply Hu|].
    sret.
    pose proof (agree_unmap_page _ _ _ _ _ _ _ _ _ Hag Hσ Hvl Hv1 Hs1) as Hag1. rewrite <- Ho1 in Hag1.
    destruct (IH (lo + 1) hi (vs_upd lo None σ) t1 w1) as (t' & w' & -> & Hag' & Ho' & Hav' & Hm' & Hg'); try done; [lia..| |].
    { intros q Hq. rewrite vs_upd_ne by lia. apply Hused. lia. }
    exists t', w'. split_and!; [done| |set_solver|lia|congruence|].
    { eapply agree_ext; [|done]. intros p. by rewrite vs_set_cons by lia. }
    eapply gives_back_cons; [lia|done..| |done|done]. rewrite Ho1. set_solver.
Qed.

(** *** Areas and their pages *)

Lemma aligned_mul z : aligned z -> z = z / 4096 * 4096.
Proof. unfold aligned. intros Hz. pose proof (Z.div_mod z 4096). lia. Qed.

Lemma aligned_pages z : aligned z -> exists n, z = n * 4096.
Proof. intros Hz. exists (z / 4096). by apply aligned_mul. Qed.

Lemma aligned_of_mul z : aligned (z * 4096).
Proof. unfold aligned. apply Z.mod_mul. lia. Qed.

(** A well-formed area in pages. *)
Lemma area_wf_pages a : area_wf a ->
  exists lo hi, start_addr a = lo * 4096 /\ end_addr a = hi * 4096 /\ 0 <= lo < hi /\ hi + 2 <= 2 ^ 52.
Proof.
  intros (Hs & He & Hse & Hm). exists (start_addr a / 4096), (end_addr a / 4096).
  pose proof (aligned_mul _ Hs). pose proof (aligned_mul _ He). lia.
Qed.

Lemma contains_spec a lo hi p :
  start_addr a = lo * 4096 -> end_addr a = hi * 4096 ->
  contains a (p * 4096) = ((lo <=? p) && (p <? hi))%bool.
Proof.
  intros Hs He. unfold contains. rewrite Hs, He.
  f_equal; apply eq_true_iff_eq; rewrite ?Z.leb_le, ?Z.ltb_lt; lia.
Qed.

Lemma area_map_spec R a lo hi σ t w :
  start_addr a = lo * 4096 -> end_addr a = hi * 4096 -> 0 <= lo < hi -> hi + 1 <= 2 ^ 52 ->
  area_mappable a -> (forall p, lo <= p < hi -> σ p = None) ->
  agree R σ t (owned (fa w)) -> (4 * Z.to_nat (hi - lo) <= avail (fa w))%nat ->
  exists t' w', area_map a t w = Ret (t', w')
    /\ agree R (vs_set lo hi (Some (attr a, handler a)) σ) t' (owned (fa w'))
    /\ owned (fa w) ⊆ owned (fa w') /\ (avail (fa w) <= avail (fa w') + 4 * Z.to_nat (hi - lo))%nat /\ mem w' = mem w.
Proof.
  intros Hs He Hlo Hhi Hmp Hfree Hag Hav. unfold area_map. rewrite Hs, He, Pages.for_range_foldM by lia.
  apply map_pages_spec; try done; [lia..|]. intros p Hp. split; [auto|].
  apply Hmp. rewrite (contains_spec a lo hi p) by done.
  by rewrite (proj2 (Z.leb_le _ _)), (proj2 (Z.ltb_lt _ _)) by lia.
Qed.

Lemma area_unmap_spec R a lo hi σ t w :
  start_addr a = lo * 4096 -> end_addr a = hi * 4096 -> 0 <= lo <= hi -> 0 < hi -> hi + 1 <= 2 ^ 52 ->
  (forall p, lo <= p < hi -> exists at_, σ p = Some (at_, handler a)) ->
  agree R σ t (owned (fa w)) ->
  exists t' w', area_unmap a t w = Ret (t', w')
    /\ agree R (vs_set lo hi None σ) t' (owned (fa w'))
    /\ owned (fa w') ⊆ owned (fa w) /\ (avail (fa w) <= avail (fa w'))%nat /\ mem w' = mem w /\ gives_back lo hi σ t t' w'.
Proof.
  intros Hs He Hlo Hpos Hhi Hused Hag. unfold area_unmap. rewrite Hs, He, Pages.for_range_foldM by lia.
  apply unmap_pages_spec with (n := Z.to_nat (hi - lo)); try done; lia.
Qed.

(** *** Overlap and insertion *)

Definition disjoint_from (s e : Z) a : bool := (end_addr a <=? s) || (e <=? start_addr a).

(** The end of the last page of a range that ends at [e]. *)
Definition range_end (e : Z) : Z := ((e - 1) / 4096 + 1) * 4096.

Lemma range_end_mul n : range_end (n * 4096) = n * 4096.
Proof.
  unfold range_end. replace ((n * 4096 - 1) / 4096) with (n - 1); [lia|].
  apply (Z.div_unique _ _ _ 4095); lia.
Qed.

Lemma is_overlap_with_pages a s e :
  area_wf a -> 0 <= s -> 0 < e < 2 ^ 64 ->
  is_overlap_with a s e = Ret (negb (disjoint_from (s / 4096 * 4096) (range_end e) a)).
Proof.
  intros Ha Hs He. destruct (area_wf_pages a Ha) as (lo & hi & Hlo & Hhi & ? & ?).
  unfold is_overlap_with, disjoint_from. rewrite Hlo, Hhi.
  unfold Pages.add, Pages.of_addr; cbn [Pages.number]. rewrite PAGE_SIZE_eq.
  pose proof (range_end_mul hi) as Hl. unfold range_end in *.
  assert (0 <= (e - 1) / 4096 < 2 ^ 52) by (split; [apply Z.div_pos|apply Z.div_lt_upper_bound]; lia).
  rewrite (usub_ok (hi * 4096)) by lia. sret.
  rewrite (uadd_ok ((hi * 4096 - 1) / 4096)) by lia. sret.
  rewrite (usub_ok e) by lia. sret.
  rewrite (uadd_ok ((e - 1) / 4096)) by lia. cbn [mbind outcome_bind Pages.number].
  rewrite (Z.div_mul lo) by lia. do 3 f_equal; apply eq_true_iff_eq; rewrite !Z.leb_le; lia.
Qed.

Lemma is_overlap_with_spec a s e :
  area_wf a -> aligned s -> aligned e -> 0 <= s -> 0 < e <= 2 ^ 64 - 4096 ->
  is_overlap_with a s e = Ret (negb (disjoint_from s e a)).
Proof.
  intros Ha Hs He Hse Hb. destruct (aligned_pages s Hs) as [ps ->], (aligned_pages e He) as [pe ->].
  by rewrite is_overlap_with_pages, range_end_mul, Z.div_mul by lia || done.
Qed.

Lemma test_free_area_pages (ms : mset) s e :
  Forall area_wf (areas ms) -> 0 <= s -> 0 < e < 2 ^ 64 ->
  test_free_area ms s e = Ret (forallb (disjoint_from (s / 4096 * 4096) (range_end e)) (areas ms)).
Proof.
  intros Hwf Hs He. unfold test_free_area.
  rewrite (findM_ret _ (fun a => negb (disjoint_from (s / 4096 * 4096) (range_end e) a))).
  2:{ intros a Ha. apply is_overlap_with_pages; try done. rewrite Forall_forall in Hwf. by apply Hwf. }
  sret. f_equal. induction (areas ms) as [|a l IH]; [done|]; cbn.
  destruct (disjoint_from _ _ a); cbn; [|done]. apply IH. by inversion Hwf.
Qed.

Lemma test_free_area_spec (ms : mset) s e :
  Forall area_wf (areas ms) -> aligned s -> aligned e -> 0 <= s -> 0 < e <= 2 ^ 64 - 4096 ->
  test_free_area ms s e = Ret (forallb (disjoint_from s e) (areas ms)).
Proof.
  intros Hwf Hs He Hse Hb. destruct (aligned_pages s Hs) as [ps ->], (aligned_pages e He) as [pe ->].
  by rewrite test_free_area_pages, range_end_mul, Z.div_mul by lia || done.
Qed.

Lemma lookup_page_nil p : lookup_page [] p = None.
Proof. done. Qed.

Lemma lookup_page_cons a l p :
  lookup_page (a :: l) p = if contains a (p * 4096) then Some (attr a, handler a) else lookup_page l p.
Proof. unfold lookup_page; cbn. by destruct (contains a (p * 4096)). Qed.

Lemma areas_wf_cons a l : areas_wf (a :: l) <-> area_wf a /\ Forall (before a) l /\ areas_wf l.
Proof.
  unfold areas_wf. rewrite Forall_cons. split.
  - intros [[? ?] Hs]. by apply StronglySorted_inv in Hs as [? ?].
  - intros (? & ? & ? & ?). split; [done|]. by constructor.
Qed.

(** Pages outside every area are unmapped in the abstract view. *)
Lemma lookup_page_free l lo hi p :
  Forall area_wf l -> forallb (disjoint_from (lo * 4096) (hi * 4096)) l = true -> lo <= p < hi ->
  lookup_page l p = None.
Proof.
  induction l as [|a l IH]; [done|]. intros Hwf Hd Hp. cbn in Hd. apply andb_true_iff in Hd as [Hd Hd'].
  inversion Hwf as [|? ? Ha Hl]; subst. rewrite lookup_page_cons, IH by done.
  destruct (area_wf_pages a Ha) as (lo' & hi' & Hs & He & ? & ?).
  rewrite (contains_spec a lo' hi') by done. unfold disjoint_from in Hd. rewrite Hs, He in Hd.
  destruct (Z.leb_spec lo' p), (Z.ltb_spec p hi'); cbn; try done.
  apply orb_true_iff in Hd. rewrite !Z.leb_le in Hd. lia.
Qed.
End invariant.
