(* ===== verification/AddressSpace.v ===== *)
(** * Correctness of the memory set ([memory/memory_set.rs])

    Every operation of [MemorySet] refines an update of the abstract
    [vspace] and preserves [vm_inv]. *)

From Stdlib Require Import Sorted.
From S2P Require Import Prelude Paging Handler MemorySet.
Import Addr Frames Table.

Section lists.
Context {F : Type}.
Implicit Types (a b : MemoryArea F) (l : list (MemoryArea F)) (p : Z).

(** *** [Vec::insert] at the index [push] computes *)

Lemma Forall_vec_insert {X} (P : X -> Prop) i x (l : list X) :
  P x -> Forall P l -> Forall P (vec_insert i x l).
Proof. intros Hx Hl. apply Forall_app; split; [by apply Forall_take|]. constructor; [done|by apply Forall_drop]. Qed.

Lemma vec_insert_cons {X} i (x y : X) (l : list X) : vec_insert (S i) x (y :: l) = y :: vec_insert i x l.
Proof. done. Qed.

Lemma vec_insert_0 {X} (x : X) (l : list X) : vec_insert 0 x l = x :: l.
Proof. done. Qed.

Lemma push_insert_wf a l :
  area_wf a -> areas_wf l -> forallb (disjoint_from (start_addr a) (end_addr a)) l = true ->
  areas_wf (vec_insert (insert_index (start_addr a) l) a l).
Proof.
  intros Ha. induction l as [|b l IH]; intros Hl Hd.
  { unfold vec_insert; cbn. split; repeat constructor; apply Ha. }
  cbn in Hd. apply andb_true_iff in Hd as [Hd Hd']. unfold disjoint_from in Hd.
  apply orb_true_iff in Hd. rewrite !Z.leb_le in Hd.
  apply areas_wf_cons in Hl as Hl'. destruct Hl' as (Hb & Hbl & Hl').
  destruct Ha as (? & ? & ? & ?), Hb as (? & ? & ? & ?). cbn.
  destruct (Z.ltb_spec (start_addr a) (start_addr b)).
  - unfold vec_insert; cbn. apply areas_wf_cons. split_and!; [done| |done].
    assert (before a b) by (unfold before; lia). constructor; [done|].
    eapply Forall_impl; [exact Hbl|]. unfold before in *. intros c Hc. lia.
  - rewrite vec_insert_cons. apply areas_wf_cons. split_and!; [done| |by apply IH].
    apply Forall_vec_insert; [|done]. unfold before. lia.
Qed.

Lemma push_insert_lookup a l lo hi p :
  start_addr a = lo * 4096 -> end_addr a = hi * 4096 ->
  Forall area_wf l -> forallb (disjoint_from (lo * 4096) (hi * 4096)) l = true ->
  lookup_page (vec_insert (insert_index (start_addr a) l) a l) p
  = vs_set lo hi (Some (attr a, handler a)) (lookup_page l) p.
Proof.
  intros Hs He Hl Hd. destruct ((lo <=? p) && (p <? hi))%bool eqn:Hp.
  - assert (Hp' : lo <= p < hi) by (bool_to_prop; lia).
    unfold vs_set. rewrite Hp. induction l as [|b l IH].
    { cbn [insert_index]. rewrite vec_insert_0, lookup_page_cons, (contains_spec a lo hi), Hp by done. done. }
    cbn [insert_index]. destruct (start_addr a <? start_addr b).
    + by rewrite vec_insert_0, lookup_page_cons, (contains_spec a lo hi), Hp by done.
    + rewrite vec_insert_cons, lookup_page_cons. inversion Hl; subst. cbn in Hd.
      apply andb_true_iff in Hd as [Hd Hd']. rewrite IH by done.
      assert (lookup_page [b] p = None) as Hb.
      { apply (lookup_page_free [b] lo hi); [by constructor| |done]. cbn. by rewrite Hd. }
      rewrite lookup_page_cons in Hb. by destruct (contains b _).
  - unfold vs_set. rewrite Hp. clear Hd Hl. induction l as [|b l IH].
    { cbn [insert_index]. rewrite vec_insert_0, lookup_page_cons, (contains_spec a lo hi), Hp by done. done. }
    cbn [insert_index]. destruct (start_addr a <? start_addr b).
    + by rewrite vec_insert_0, lookup_page_cons, (contains_spec a lo hi), Hp by done.
    + rewrite vec_insert_cons, !lookup_page_cons. by rewrite IH.
Qed.

(** Pages nobody maps are a range no area overlaps. *)
Lemma free_disjoint l lo hi :
  Forall area_wf l -> lo < hi -> (forall p, lo <= p < hi -> lookup_page l p = None) ->
  forallb (disjoint_from (lo * 4096) (hi * 4096)) l = true.
Proof.
  intros Hl Hlt Hfree. induction Hl as [|a l Ha Hl IH]; [done|]. cbn.
  destruct (area_wf_pages a Ha) as (lo' & hi' & Hs & He & ? & ?).
  assert (Hstep : forall p, lo <= p < hi -> contains a (p * 4096) = false /\ lookup_page l p = None).
  { intros p Hp. specialize (Hfree p Hp). rewrite lookup_page_cons in Hfree. by destruct (contains a _). }
  rewrite IH by (intros; by apply Hstep). rewrite andb_true_r. unfold disjoint_from. rewrite Hs, He.
  apply orb_true_iff. rewrite !Z.leb_le.
  destruct (Z.le_gt_cases hi' lo); [lia|]. destruct (Z.le_gt_cases hi lo'); [lia|].
  destruct (Hstep (Z.max lo lo')) as [Hc _]; [lia|]. rewrite (contains_spec a lo' hi') in Hc by done.
  apply andb_false_iff in Hc. rewrite Z.leb_gt, Z.ltb_ge in Hc. lia.
Qed.

(** *** Replacing one area by pieces of it *)

Lemma areas_wf_app l1 l2 :
  areas_wf (l1 ++ l2) <-> areas_wf l1 /\ areas_wf l2 /\ Forall (fun a => Forall (before a) l2) l1.
Proof.
  induction l1 as [|a l1 IH]; cbn.
  { split; [|tauto]. intros ?. split_and!; [split; constructor|done|constructor]. }
  rewrite !areas_wf_cons, IH, Forall_app, Forall_cons. tauto.
Qed.

Lemma lookup_page_app l1 l2 p :
  lookup_page (l1 ++ l2) p = match lookup_page l1 p with Some v => Some v | None => lookup_page l2 p end.
Proof.
  induction l1 as [|a l1 IH]; [done|]. cbn [app]. rewrite !lookup_page_cons, IH. by destruct (contains a _).
Qed.

Definition within a b : Prop :=
  start_addr a <= start_addr b /\ end_addr b <= end_addr a /\ attr b = attr a /\ handler b = handler a.

Lemma replace_wf l1 a ps l2 :
  areas_wf (l1 ++ a :: l2) -> areas_wf ps -> Forall (within a) ps -> areas_wf (l1 ++ ps ++ l2).
Proof.
  rewrite !areas_wf_app, areas_wf_cons. intros (H1 & (Ha & H2 & H2') & H12) Hps Hin.
  split_and!; try done.
  - eapply Forall_impl; [exact Hin|]. intros b (? & ? & _). eapply Forall_impl; [exact H2|].
    unfold before. intros c ?. lia.
  - eapply Forall_impl; [exact H12|]. intros c Hc. apply Forall_cons in Hc as [Hc Hc'].
    apply Forall_app. split; [|done]. eapply Forall_impl; [exact Hin|]. unfold before in *. intros b (? & ? & _). lia.
Qed.

Lemma contains_before a b p : before a b -> contains b (p * 4096) = true -> contains a (p * 4096) = false.
Proof. unfold before, contains. intros. bool_to_prop. apply andb_false_iff. rewrite Z.leb_gt, Z.ltb_ge. lia. Qed.

(** Pages of the middle area belong to it alone. *)
Lemma lookup_page_mid l1 a l2 p :
  areas_wf (l1 ++ a :: l2) -> contains a (p * 4096) = true ->
  lookup_page l1 p = None /\ lookup_page l2 p = None /\ lookup_page (l1 ++ a :: l2) p = Some (attr a, handler a).
Proof.
  rewrite areas_wf_app, areas_wf_cons. intros (H1 & (Ha & H2 & H2') & H12) Hp.
  assert (lookup_page l1 p = None) as E1.
  { clear H1. induction H12 as [|b l1 Hb _ IH]; [done|]. apply Forall_cons in Hb as [Hb _].
    by rewrite lookup_page_cons, (contains_before b a), IH. }
  assert (lookup_page l2 p = None) as E2.
  { clear H2' H12. induction H2 as [|b l2 Hb _ IH]; [done|]. rewrite lookup_page_cons, IH.
    destruct (contains b _) eqn:Hc; [|done]. by rewrite (contains_before a b) in Hp. }
  split_and!; try done. by rewrite lookup_page_app, E1, lookup_page_cons, Hp.
Qed.

(** The pages [lo, hi) of [a] are removed and [ps] is what is left of [a]. *)
Definition pieces (lo hi : Z) a (ps : list (MemoryArea F)) : Prop :=
  areas_wf ps /\ Forall (within a) ps /\ forall p, lookup_page ps p = vs_set lo hi None (lookup_page [a]) p.

Lemma replace_lookup l1 a ps l2 lo hi p :
  areas_wf (l1 ++ a :: l2) -> (forall p, lo <= p < hi -> contains a (p * 4096) = true) -> pieces lo hi a ps ->
  lookup_page (l1 ++ ps ++ l2) p = vs_set lo hi None (lookup_page (l1 ++ a :: l2)) p.
Proof.
  intros Hwf Hin (_ & _ & Hps). rewrite !lookup_page_app, Hps. unfold vs_set.
  destruct ((lo <=? p) && (p <? hi))%bool eqn:Hp.
  - destruct (lookup_page_mid l1 a l2 p) as (-> & -> & _); [done| |done]. apply Hin. bool_to_prop. lia.
  - rewrite !lookup_page_app. destruct (lookup_page l1 p); [done|].
    rewrite (lookup_page_cons a l2), lookup_page_cons. by destruct (contains a _).
Qed.

(** The list index never leaves the machine range: areas are disjoint pages. *)
Lemma areas_length_base l base :
  areas_wf l -> Forall (fun a => base <= start_addr a) l -> 0 <= base <= 2 ^ 64 - 4096 ->
  base + Z.of_nat (length l) * 4096 <= 2 ^ 64 - 4096.
Proof.
  revert base. induction l as [|a l IH]; intros base Hwf Hb Hbase; cbn [length]; [lia|].
  apply areas_wf_cons in Hwf as (Ha & Hbl & Hl). apply Forall_cons in Hb as [Hb _].
  destruct (area_wf_pages a Ha) as (lo & hi & Hs & He & ? & ?).
  specialize (IH (end_addr a) Hl Hbl). lia.
Qed.

Lemma areas_length l : areas_wf l -> Z.of_nat (length l) < 2 ^ 52.
Proof.
  intros Hl. assert (Forall (fun a => 0 <= start_addr a) l) as Hb.
  { eapply Forall_impl; [exact (proj1 Hl)|]. unfold area_wf. intros a ?. lia. }
  pose proof (areas_length_base l 0 Hl Hb). lia.
Qed.
End lists.

(** ** The operations against the invariant *)
Section refinement.
Context `{BuildMode} {E A T F : Type}.
Context `{ES : EntrySpec E, FS : FrameAllocatorSpec A, FR : !FrameReturnSpec A, PI : !PageTable E A T, !PageTableSpec E A T, RI : Read F}.
Abbreviation area := (MemoryArea F).
Abbreviation mset := (MemorySet F T).
Implicit Types (t : T) (w : world A) (a : MemoryArea F) (l : list (MemoryArea F)) (p : Z) (ms : MemorySet F T)
  (h : MemoryHandler F).

(** Frames only go back to the allocator, and memory is untouched. *)
Definition released w w' : Prop :=
  owned (fa w') ⊆ owned (fa w) /\ (avail (fa w) <= avail (fa w'))%nat /\ mem w' = mem w.

Lemma released_refl w : released w w.
Proof. done. Qed.

Lemma released_trans w1 w2 w3 : released w1 w2 -> released w2 w3 -> released w1 w3.
Proof. intros (? & ? & ?) (? & ? & ?). split_and!; [set_solver|lia|congruence]. Qed.

(** *** [push] *)

Lemma push_spec R ms w s e lo hi at_ h nm :
  vm_inv R ms w -> s < e -> page_down s = lo * 4096 -> page_up e = Ret (hi * 4096) ->
  0 <= lo < hi -> hi + 2 <= 2 ^ 52 ->
  (forall p, lo <= p < hi -> mappable h p) ->
  (forall p, lo <= p < hi -> lookup_page (areas ms) p = None) ->
  (4 * Z.to_nat (hi - lo) <= avail (fa w))%nat ->
  exists ms' w', push ms w s e at_ h nm = Ret (ms', w') /\ vm_inv R ms' w'
    /\ (forall p, lookup_page (areas ms') p = vs_set lo hi (Some (at_, h)) (lookup_page (areas ms)) p)
    /\ owned (fa w) ⊆ owned (fa w') /\ (avail (fa w) <= avail (fa w') + 4 * Z.to_nat (hi - lo))%nat
    /\ mem w' = mem w.
Proof.
  intros (Hwf & Hmp & Hag) Hse Hlo Hhi Hb Hb' Hh Hfree Hav.
  assert (Hd : forallb (disjoint_from (lo * 4096) (hi * 4096)) (areas ms) = true).
  { apply free_disjoint; [apply Hwf|lia|done]. }
  unfold push. rewrite (proj2 (Z.leb_gt _ _)) by done. rewrite Hlo, Hhi. sret.
  rewrite (proj2 (Z.ltb_lt (lo * 4096) _)) by lia. cbn [assert_ mbind outcome_bind].
  rewrite test_free_area_spec by (first [apply Hwf | apply aligned_of_mul | lia]). rewrite Hd.
  cbn [assert_ mbind outcome_bind].
  set (a := mkArea (lo * 4096) (hi * 4096) at_ h nm).
  assert (Ha : area_wf a) by (unfold area_wf; cbn -[Z.pow]; split_and!; first [apply aligned_of_mul | lia]).
  assert (Hma : area_mappable a).
  { intros p Hp. rewrite (contains_spec a lo hi) in Hp by done. apply Hh. bool_to_prop. lia. }
  destruct (area_map_spec R a lo hi (lookup_page (areas ms)) (page_table ms) w)
    as (t' & w' & -> & Hag' & Hown & Hav' & Hmem); try done; [lia|].
  sret. eexists _, _. split; [done|].
  assert (Hl : forall p, lookup_page (vec_insert (insert_index (lo * 4096) (areas ms)) a (areas ms)) p
                 = vs_set lo hi (Some (at_, h)) (lookup_page (areas ms)) p).
  { intros p. apply (push_insert_lookup a); try done. apply Hwf. }
  split; [|done]. split_and!.
  - by apply (push_insert_wf a).
  - by apply Forall_vec_insert.
  - by eapply agree_ext; [intros p; symmetry; apply Hl|].
Qed.

(** *** Removing pages *)

Lemma resize_id a : resize a (start_addr a) (end_addr a) = a.
Proof. by destruct a. Qed.

Lemma within_mappable a b : within a b -> area_mappable a -> area_mappable b.
Proof.
  intros (? & ? & _ & Hh) Ha p Hp. rewrite Hh. apply Ha. unfold contains in *. bool_to_prop.
  apply andb_true_iff. rewrite Z.leb_le, Z.ltb_lt. lia.
Qed.

(** The state between two turns of a loop that removes areas. *)
Definition set_inv (R : gset Z) l t w : Prop := vm_inv R (mkSet l t) w.

(** Unmapping the pages [lo, hi) of the area [a] and keeping [ps] of it. *)
Lemma unmap_part R l1 a ps l2 lo hi t w :
  set_inv R (l1 ++ a :: l2) t w -> 0 <= lo <= hi -> 0 < hi ->
  start_addr a <= lo * 4096 -> hi * 4096 <= end_addr a -> pieces lo hi a ps ->
  exists t' w', area_unmap (resize a (lo * 4096) (hi * 4096)) t w = Ret (t', w')
    /\ set_inv R (l1 ++ ps ++ l2) t' w'
    /\ (forall p, lookup_page (l1 ++ ps ++ l2) p = vs_set lo hi None (lookup_page (l1 ++ a :: l2)) p)
    /\ released w w' /\ gives_back lo hi (lookup_page (l1 ++ a :: l2)) t t' w'.
Proof.
  intros (Hwf & Hmp & Hag) Hlo Hpos Hs He Hps. cbn in Hwf, Hmp, Hag.
  assert (Hin : forall p, lo <= p < hi -> contains a (p * 4096) = true).
  { intros p Hp. unfold contains. apply andb_true_iff. rewrite Z.leb_le, Z.ltb_lt. lia. }
  assert (area_wf a) as (_ & _ & _ & Hmax).
  { apply areas_wf_app in Hwf as (_ & Hwf & _). by apply areas_wf_cons in Hwf as [? _]. }
  destruct (area_unmap_spec R (resize a (lo * 4096) (hi * 4096)) lo hi
              (lookup_page (l1 ++ a :: l2)) t w) as (t' & w' & Hu & Hag' & Ho & Hav & Hm & Hg); try done; try lia.
  { intros p Hp. exists (attr a). by destruct (lookup_page_mid l1 a l2 p Hwf (Hin p Hp)) as (_ & _ & ->). }
  assert (Hlk := replace_lookup l1 a ps l2 lo hi). exists t', w'. unfold set_inv, vm_inv; cbn [areas page_table]. split_and!; try done.
  - apply (replace_wf l1 a); [done|apply Hps..].
  - apply Forall_app in Hmp as [? [? ?]%Forall_cons]. rewrite !Forall_app. split_and!; try done.
    eapply Forall_impl; [apply Hps|]. intros b Hb. by apply (within_mappable a).
  - eapply agree_ext; [|exact Hag']. intros p. symmetry. by apply Hlk.
  - intros p. by apply Hlk.
Qed.

Lemma pieces_none a lo hi : start_addr a = lo * 4096 -> end_addr a = hi * 4096 -> pieces lo hi a [].
Proof.
  intros Hs He. split_and!; [split; constructor|constructor|].
  intros p. unfold vs_set. rewrite lookup_page_cons, lookup_page_nil, (contains_spec a lo hi) by done. by destruct (_ && _).
Qed.

(** Unmapping a whole area. *)
Lemma unmap_whole R l1 a l2 t w :
  set_inv R (l1 ++ a :: l2) t w ->
  exists lo hi t' w', start_addr a = lo * 4096 /\ end_addr a = hi * 4096
    /\ area_unmap a t w = Ret (t', w') /\ set_inv R (l1 ++ l2) t' w'
    /\ (forall p, lookup_page (l1 ++ l2) p = vs_set lo hi None (lookup_page (l1 ++ a :: l2)) p)
    /\ released w w' /\ gives_back lo hi (lookup_page (l1 ++ a :: l2)) t t' w'.
Proof.
  intros Hinv. assert (area_wf a) as Ha.
  { destruct Hinv as (Hwf & _). apply areas_wf_app in Hwf as (_ & Hwf & _). by apply areas_wf_cons in Hwf as [? _]. }
  destruct (area_wf_pages a Ha) as (lo & hi & Hs & He & ? & ?).
  destruct (unmap_part R l1 a [] l2 lo hi t w) as (t' & w' & Hu & Hrest); try done; try lia.
  { by apply pieces_none. }
  exists lo, hi, t', w'. split_and!; try done; try apply Hrest. by rewrite <- Hs, <- He, resize_id in Hu.
Qed.

(** *** [clear] *)

(** No frame that a page of [l] used is owned any more. *)
Definition all_given_back l t w' : Prop :=
  forall p at_ h e, lookup_page l p = Some (at_, h) -> view t !! p = Some e -> uses_frame h e = true -> target e ∉ owned (fa w').

Lemma clear_loop R l t w :
  set_inv R l t w ->
  exists t' w', foldM (fun s a => area_unmap a s.1 s.2) (t, w) l = Ret (t', w')
    /\ set_inv R [] t' w' /\ released w w' /\ all_given_back l t w'.
Proof.
  revert t w. induction l as [|a l IH]; intros t w Hinv; cbn [foldM fst snd].
  { exists t, w. split_and!; [done..|by intros ? ? ? ?]. }
  destruct (unmap_whole R [] a l t w Hinv) as (lo & hi & t' & w' & _ & _ & -> & Hinv' & Hlk & Hrel & Hout & Hin).
  destruct (IH t' w' Hinv') as (t'' & w'' & Hf & Hinv'' & Hrel'' & Hg). cbn [mbind outcome_bind fst snd]. rewrite Hf.
  exists t'', w''. split_and!; eauto using released_trans. intros p at_ h e Hl Hv Hu.
  destruct (decide (lo <= p < hi)) as [Hp|Hp].
  - assert (target e ∉ owned (fa w')) by by apply (Hin p at_ h e). destruct Hrel'' as [? _]. set_solver.
  - apply (Hg p at_ h); [|by rewrite Hout|done]. cbn [app] in Hlk. rewrite Hlk. unfold vs_set. destruct (_ && _) eqn:Er; [|done]. bool_to_prop. lia.
Qed.

Lemma clear_spec R ms w :
  vm_inv R ms w ->
  exists ms' w', clear ms w = Ret (ms', w') /\ areas ms' = [] /\ view (page_table ms') = ∅
    /\ vm_inv R ms' w' /\ released w w' /\ all_given_back (areas ms) (page_table ms) w'.
Proof.
  intros Hinv. unfold clear.
  destruct (clear_loop R (areas ms) (page_table ms) w) as (t' & w' & -> & Hinv' & Hrel & Hg); [done|].
  cbn [mbind outcome_bind fst snd]. exists (mkSet [] t'), w'. split_and!; try done. cbn [page_table].
  apply map_eq. intros p. destruct Hinv' as (_ & _ & Hag). pose proof (agree_page _ _ _ _ Hag p) as Hp.
  cbn [areas page_table] in Hp. rewrite lookup_page_nil in Hp. rewrite lookup_empty. by destruct (_ !! p).
Qed.

(** *** [pop] *)

Lemma pop_scan_spec s e l i a :
  pop_scan s e l = Some (i, a) ->
  exists l1 l2, l = l1 ++ a :: l2 /\ i = length l1 /\ start_addr a = s /\ end_addr a = e.
Proof.
  revert i. induction l as [|b l IH]; [done|]. intros i; cbn. destruct (_ && _)%bool eqn:Hb.
  - intros [= <- <-]. exists [], l. bool_to_prop. naive_solver.
  - destruct (pop_scan s e l) as [[j c]|] eqn:Hj; [|done]. cbn. intros [= <- <-].
    destruct (IH j eq_refl) as (l1 & l2 & -> & -> & ?). by exists (b :: l1), l2.
Qed.

(** *** [pop_with_split] *)

Lemma pieces_suffix a lo' hi' hi :
  start_addr a = lo' * 4096 -> end_addr a = hi' * 4096 -> area_wf a -> lo' <= hi < hi' ->
  pieces lo' hi a [resize a (hi * 4096) (end_addr a)].
Proof.
  intros Hs He (? & ? & ? & ?) Hhi. split_and!.
  - apply areas_wf_cons. split_and!; [|constructor|split; constructor].
    unfold area_wf; cbn -[Z.pow]. split_and!; try done; [apply aligned_of_mul|lia..].
  - repeat constructor; cbn; lia.
  - intros p. unfold vs_set. rewrite !lookup_page_cons, !lookup_page_nil.
    rewrite (contains_spec a lo' hi'), (contains_spec (resize _ _ _) hi hi') by done. zcases.
Qed.

Lemma pieces_prefix a lo' hi' lo :
  start_addr a = lo' * 4096 -> end_addr a = hi' * 4096 -> area_wf a -> lo' < lo <= hi' ->
  pieces lo hi' a [resize a (start_addr a) (lo * 4096)].
Proof.
  intros Hs He (? & ? & ? & ?) Hhi. split_and!.
  - apply areas_wf_cons. split_and!; [|constructor|split; constructor].
    unfold area_wf; cbn -[Z.pow]. split_and!; try done; [apply aligned_of_mul|lia..].
  - repeat constructor; cbn; lia.
  - intros p. unfold vs_set. rewrite !lookup_page_cons, !lookup_page_nil.
    rewrite (contains_spec a lo' hi'), (contains_spec (resize _ _ _) lo' lo) by done. zcases.
Qed.

Lemma pieces_both a lo' hi' lo hi :
  start_addr a = lo' * 4096 -> end_addr a = hi' * 4096 -> area_wf a -> lo' < lo <= hi -> hi < hi' ->
  pieces lo hi a [resize a (start_addr a) (lo * 4096); resize a (hi * 4096) (end_addr a)].
Proof.
  intros Hs He Hwf Hlo Hhi.
  destruct (pieces_prefix a lo' hi' lo Hs He Hwf) as (Hw1 & Hi1 & _); [lia|].
  destruct (pieces_suffix a lo' hi' hi Hs He Hwf) as (Hw2 & Hi2 & _); [lia|].
  split_and!.
  - apply (areas_wf_app [_] [_]). split_and!; [done..|]. repeat constructor; unfold before; cbn; lia.
  - by apply (Forall_app _ [_] [_]).
  - intros p. unfold vs_set. rewrite !lookup_page_cons, !lookup_page_nil.
    rewrite (contains_spec a lo' hi'), (contains_spec (resize _ _ (lo * 4096)) lo' lo),
      (contains_spec (resize _ _ (end_addr a)) hi hi') by done. zcases.
Qed.

Lemma vs_set_sub (ps pe lo hi p : Z) (σ σ' : vspace) :
  ps <= lo -> hi <= pe -> σ' p = vs_set lo hi None σ p ->
  vs_set ps pe None σ' p = vs_set ps pe (@None (MemoryAttr * MemoryHandler F)) σ p.
Proof. intros ? ? Hp. unfold vs_set in *. rewrite Hp. zcases. Qed.

Lemma lookup_length_app {X} (l1 l2 : list X) : (l1 ++ l2) !! Z.to_nat (Z.of_nat (length l1)) = head l2.
Proof. rewrite Nat2Z.id, lookup_app_r, Nat.sub_diag by lia. by destruct l2. Qed.

Lemma vec_insert_app {X} (l1 l2 : list X) x : vec_insert (length l1) x (l1 ++ l2) = l1 ++ x :: l2.
Proof. unfold vec_insert. by rewrite take_app_length, drop_app_length. Qed.

Lemma vec_insert_app_S {X} (l1 l2 : list X) x y :
  vec_insert (Z.to_nat (Z.of_nat (length l1) + 1)) y (l1 ++ x :: l2) = l1 ++ x :: y :: l2.
Proof.
  replace (Z.to_nat _) with (length (l1 ++ [x])) by (rewrite length_app; cbn; lia).
  by rewrite (cons_middle x l1 l2), app_assoc, vec_insert_app, <- app_assoc.
Qed.

Lemma index_next (i : Z) : 0 <= i < 2 ^ 52 ->
  wadd i 1 = i + 1 /\ wadd (wsub i 1) 1 = i /\ uadd i 1 = Ret (i + 1) /\ wadd (i + 1) 1 = i + 1 + 1.
Proof.
  intros. unfold wadd, wsub. split_and!; try (apply Z.mod_small; lia).
  - rewrite Zplus_mod_idemp_l. replace (i - 1 + 1) with i by lia. apply Z.mod_small; lia.
  - apply uadd_ok; lia.
Qed.

Lemma length_app_S {X} (l : list X) x : Z.of_nat (length (l ++ [x])) = Z.of_nat (length l) + 1.
Proof. rewrite length_app; cbn; lia. Qed.

(** What the loop of [pop_with_split] over [l] returns. *)
Definition split_post R ps pe l t w (r : outcome (mset * world A)) : Prop :=
  exists ms' w', r = Ret (ms', w') /\ vm_inv R ms' w'
    /\ (forall p, lookup_page (areas ms') p = vs_set ps pe None (lookup_page l) p)
    /\ released w w' /\ gives_back ps pe (lookup_page l) t (page_table ms') w'.

Lemma gives_back_trans (ps pe lo hi : Z) (σ σ' : @vspace F) t t' t'' w' w'' :
  ps <= lo -> hi <= pe -> (forall p, σ' p = vs_set lo hi None σ p) -> owned (fa w'') ⊆ owned (fa w') ->
  gives_back lo hi σ t t' w' -> gives_back ps pe σ' t' t'' w'' -> gives_back ps pe σ t t'' w''.
Proof.
  intros Hlo Hhi Hσ Hsub [Ho1 Hi1] [Ho2 Hi2]. split.
  - intros q Hq. rewrite Ho2, Ho1 by lia. done.
  - intros p at_ h e Hp Hl Hv Hu. destruct (decide (lo <= p < hi)) as [Hr|Hr].
    + assert (target e ∉ owned (fa w')) by by apply (Hi1 p at_ h e). set_solver.
    + apply (Hi2 p at_ h e); [done| |by rewrite Ho1|done]. rewrite Hσ. unfold vs_set. destruct (_ && _) eqn:Er; [|done]. bool_to_prop. lia.
Qed.

(** One turn: [rest] is left of [a], and the loop goes on with [k]. *)
Lemma split_turn R ps pe l1 a rest l2 lo hi t w (k : T -> world A -> outcome (mset * world A)) :
  set_inv R (l1 ++ a :: l2) t w -> pieces lo hi a rest -> 0 <= lo <= hi -> 0 < hi ->
  start_addr a <= lo * 4096 -> hi * 4096 <= end_addr a -> ps <= lo -> hi <= pe ->
  (forall t' w', set_inv R (l1 ++ rest ++ l2) t' w' -> split_post R ps pe (l1 ++ rest ++ l2) t' w' (k t' w')) ->
  split_post R ps pe (l1 ++ a :: l2) t w (m ← area_unmap (resize a (lo * 4096) (hi * 4096)) t w; k m.1 m.2).
Proof.
  intros Hinv Hpc ? ? ? ? ? ? Hk.
  destruct (unmap_part R l1 a rest l2 lo hi t w) as (t' & w' & -> & Hinv' & Hlk & Hrel & Hg); try done.
  destruct (Hk t' w' Hinv') as (ms' & w'' & Hr & Hvm & Hlk' & Hrel' & Hg').
  exists ms', w''. cbn [mbind outcome_bind fst snd]. split_and!; try done; [|by eapply released_trans|].
  - intros p. rewrite Hlk'. by apply (vs_set_sub _ _ lo hi).
  - eapply (gives_back_trans ps pe lo hi); [done..|apply Hrel'|exact Hg|exact Hg'].
Qed.

Lemma split_end R ps pe l t w :
  set_inv R l t w -> forallb (disjoint_from (ps * 4096) (pe * 4096)) l = true ->
  split_post R ps pe l t w (Ret (mkSet l t, w)).
Proof.
  intros Hinv Hd. assert (Hnone : forall p, ps <= p < pe -> lookup_page l p = None) by (intros p Hp; apply (lookup_page_free l ps pe); [apply Hinv|done..]).
  exists (mkSet l t), w. split_and!; [done..| |apply released_refl|]; cbn [areas page_table].
  - intros p. unfold vs_set. destruct ((ps <=? p) && (p <? pe))%bool eqn:Hp; [|done]. bool_to_prop. apply Hnone. lia.
  - split; [done|]. intros p at_ h e Hp. by rewrite Hnone.
Qed.

Lemma set_inv_mid R l1 a l2 t w :
  set_inv R (l1 ++ a :: l2) t w -> area_wf a /\ Z.of_nat (length l1) + Z.of_nat (length l2) + 1 < 2 ^ 52.
Proof.
  intros (Hwf & _). pose proof (areas_length _ Hwf) as Hlen. cbn -[Z.pow] in Hlen, Hwf.
  rewrite length_app in Hlen. cbn -[Z.pow] in Hlen. split; [|lia].
  apply areas_wf_app in Hwf as (_ & Hwf & _). by apply areas_wf_cons in Hwf as [? _].
Qed.

(** The four ways an area can overlap the range, with [k] for the rest of the loop. *)
Lemma split_overlap R ps pe l1 a l2 t w (k : Z -> list area -> T -> world A -> outcome (mset * world A)) :
  set_inv R (l1 ++ a :: l2) t w -> 0 <= ps <= pe -> disjoint_from (ps * 4096) (pe * 4096) a = false ->
  (forall rest, forallb (disjoint_from (ps * 4096) (pe * 4096)) rest = true ->
     forall t' w', set_inv R (l1 ++ rest ++ l2) t' w' ->
     split_post R ps pe (l1 ++ rest ++ l2) t' w' (k (Z.of_nat (length l1 + length rest)) (l1 ++ rest ++ l2) t' w')) ->
  let i := Z.of_nat (length l1) in
  let s := ps * 4096 in let e := pe * 4096 in
  split_post R ps pe (l1 ++ a :: l2) t w
    (if (s <=? start_addr a) && (end_addr a <=? e) then m ← area_unmap a t w; k i (l1 ++ l2) m.1 m.2
     else if (s <=? start_addr a) && (start_addr a <? e) then
       m ← area_unmap (resize a (start_addr a) e) t w; k (i + 1) (l1 ++ resize a e (end_addr a) :: l2) m.1 m.2
     else if (end_addr a <=? e) && (s <? end_addr a) then
       m ← area_unmap (resize a s (end_addr a)) t w; k (i + 1) (l1 ++ resize a (start_addr a) s :: l2) m.1 m.2
     else
       m ← area_unmap (resize a s e) t w;
       k (i + 1 + 1) (l1 ++ resize a (start_addr a) s :: resize a e (end_addr a) :: l2) m.1 m.2).
Proof.
  intros Hinv Hps Hda Hk i s e. destruct (set_inv_mid R l1 a l2 t w Hinv) as [Ha _].
  destruct (area_wf_pages a Ha) as (lo & hi & Hs & He & ? & ?).
  unfold disjoint_from in Hda. rewrite Hs, He in Hda. subst i s e. bool_to_prop.
  destruct ((ps * 4096 <=? start_addr a) && (end_addr a <=? pe * 4096))%bool eqn:Hc1.
  { bool_to_prop. rewrite <- (resize_id a) at 2. rewrite Hs, He at 1.
    apply (split_turn R ps pe l1 a [] l2 lo hi); try done; try lia; [by apply pieces_none|].
    intros t' w'. replace (length l1) with (length l1 + 0)%nat by lia. by apply (Hk []). }
  destruct ((ps * 4096 <=? start_addr a) && (start_addr a <? pe * 4096))%bool eqn:Hc2.
  { bool_to_prop. rewrite Hs at 1.
    apply (split_turn R ps pe l1 a [resize a (pe * 4096) (end_addr a)] l2 lo pe); try done; try lia.
    { apply (pieces_suffix a lo hi); try done. lia. }
    rewrite <- Nat2Z.inj_add with (m := 1%nat). apply (Hk [_]). cbn. unfold disjoint_from; cbn. zcases. }
  assert (Hlo : lo < ps).
  { apply andb_false_iff in Hc2. rewrite Z.leb_gt, Z.ltb_ge in Hc2. lia. }
  destruct ((end_addr a <=? pe * 4096) && (ps * 4096 <? end_addr a))%bool eqn:Hc3.
  { bool_to_prop. rewrite He at 1.
    apply (split_turn R ps pe l1 a [resize a (start_addr a) (ps * 4096)] l2 ps hi); try done; try lia.
    { apply (pieces_prefix a lo hi); try done. lia. }
    rewrite <- Nat2Z.inj_add with (m := 1%nat). apply (Hk [_]). cbn. unfold disjoint_from; cbn. zcases. }
  assert (Hhi : pe < hi).
  { apply andb_false_iff in Hc3. rewrite Z.leb_gt, Z.ltb_ge in Hc3. lia. }
  apply (split_turn R ps pe l1 a [resize a (start_addr a) (ps * 4096); resize a (pe * 4096) (end_addr a)] l2 ps pe);
    try done; try lia; [apply (pieces_both a lo hi); try done; lia|].
  replace (Z.of_nat (length l1) + 1 + 1) with (Z.of_nat (length l1 + 2)) by lia.
  apply (Hk [_; _]). cbn. unfold disjoint_from; cbn. zcases.
Qed.

Lemma split_loop_spec R ps pe l2 l1 fuel t w :
  set_inv R (l1 ++ l2) t w -> (length l2 < fuel)%nat ->
  0 <= ps <= pe -> 0 < pe -> pe + 1 <= 2 ^ 52 ->
  forallb (disjoint_from (ps * 4096) (pe * 4096)) l1 = true ->
  split_post R ps pe (l1 ++ l2) t w
    (split_loop fuel (ps * 4096) (pe * 4096) (Z.of_nat (length l1)) (l1 ++ l2) t w).
Proof.
  intros Hinv Hfuel Hps Hpos Hpe Hd. revert l1 fuel t w Hinv Hfuel Hd.
  induction l2 as [|a l2 IH]; intros l1 [|fuel] t w Hinv Hfuel Hd; cbn in Hfuel; try lia;
    cbn [split_loop]; rewrite lookup_length_app; cbn [head].
  { rewrite app_nil_r in *. by apply split_end. }
  destruct (set_inv_mid R l1 a l2 t w Hinv) as [Ha Hlen].
  destruct (index_next (Z.of_nat (length l1))) as (Ei & Ei' & Ej & Ek); [lia|].
  rewrite is_overlap_with_spec by (first [done | apply aligned_of_mul | lia]). sret.
  rewrite Nat2Z.id, delete_middle, Ei, Ei', Ej, !vec_insert_app. sret.
  rewrite vec_insert_app_S, Ek.
  assert (Hgo : forall rest, forallb (disjoint_from (ps * 4096) (pe * 4096)) rest = true ->
    forall t' w', set_inv R (l1 ++ rest ++ l2) t' w' ->
    split_post R ps pe (l1 ++ rest ++ l2) t' w'
      (split_loop fuel (ps * 4096) (pe * 4096) (Z.of_nat (length l1 + length rest)) (l1 ++ rest ++ l2) t' w')).
  { intros rest Hr t' w'. rewrite app_assoc, <- length_app. intros Hi. apply IH; [done|lia|].
    by rewrite forallb_app, Hd, Hr. }
  destruct (disjoint_from (ps * 4096) (pe * 4096) a) eqn:Hda; cbn [negb].
  { rewrite <- Nat2Z.inj_add with (m := 1%nat). apply (Hgo [a]); [cbn; by rewrite Hda|done]. }
  apply (split_overlap R ps pe l1 a l2 t w (fun i l t w => split_loop fuel (ps * 4096) (pe * 4096) i l t w)); done.
Qed.

(** *** [clone] *)

(** The state of a clone of the set with view [σ] and table [src], begun in
    [w0], when the pages of [σd] are done. *)
Record cloning (src : T) (w0 : world A) (σd : @vspace F) t w : Prop := {
  cl_agree : agree (owned (fa w0)) σd t (owned (fa w));
  cl_wf : mem_wf w;
  cl_keep f : f ∈ owned (fa w0) -> mem w f = mem w0 f;
  cl_copied p at_ (h : MemoryHandler F) e : σd p = Some (at_, h) -> view src !! p = Some e -> copies h at_ e = true ->
    exists e', view t !! p = Some e' /\ present e' = true /\ mem w (target e') = mem w0 (target e);
}.

Lemma cloning_ext src w0 σ σ' t w : (forall p, σ p = σ' p) -> cloning src w0 σ t w -> cloning src w0 σ' t w.
Proof.
  intros Heq [Ha Hw Hk Hc]. split; [by eapply agree_ext|done..|]. intros p. rewrite <- Heq. apply Hc.
Qed.

Lemma copies_uses (h : MemoryHandler F) at_ (e e' : E) :
  copies h at_ e = true -> present e' = true -> uses_frame h e' = true.
Proof. by destruct h. Qed.

Lemma clone_page_spec R (σ : vspace) src w0 σd t w p at_ h :
  agree R σ src (owned (fa w0)) -> σ p = Some (at_, h) -> mappable h p ->
  cloning src w0 σd t w -> σd p = None -> 0 <= p -> p + 1 < 2 ^ 52 -> (4 <= avail (fa w))%nat ->
  exists t' w', handler_clone_map h t src w (p * 4096) at_ = Ret (t', w')
    /\ cloning src w0 (vs_upd p (Some (at_, h)) σd) t' w'
    /\ (avail (fa w) <= avail (fa w') + 4)%nat.
Proof.
  intros Hsrc Hσ Hmp [Hag Hwf Hkeep Hcop] Hfree Hp Hp2 Hav.
  pose proof (agree_page _ _ _ _ Hsrc p) as He. rewrite Hσ in He.
  destruct (view src !! p) as [e|] eqn:Hvs; [|done]. destruct He as (_ & Hok & Hu).
  assert (Hvt : view t !! p = None).
  { pose proof (agree_page _ _ _ _ Hag p) as Hpt. rewrite Hfree in Hpt. by destruct (view t !! p). }
  pose proof (agree_rest _ _ _ _ Hag) as Hsub.
  destruct (handler_clone_spec h at_ t src w p e) as (t' & w' & Hc & (Hmap & Hmem & Hcp) & Hwf'); try done; [lia| |].
  { intros Hus. destruct (Hu Hus). set_solver. }
  pose proof (agree_map_page _ _ _ _ _ _ _ _ _ Hag Hmap) as Hag'.
  destruct Hmap as (e0 & Hv & _ & _ & _ & Hown & _ & Hav').
  exists t', w'. split_and!; [done| |done]. split; [done..| |].
  - intros f Hf. rewrite Hmem by set_solver. by apply Hkeep.
  - intros q at' h' e' Hq Hvq Hcq. destruct (Z.eq_dec p q) as [<-|Hne].
    + rewrite vs_upd_eq in Hq. injection Hq as <- <-. rewrite Hvs in Hvq. injection Hvq as <-.
      destruct (Hcp Hcq) as (e1 & ? & ? & Hm). exists e1. split_and!; [done..|]. rewrite Hm. apply Hkeep.
      apply Hu. destruct h; cbn in *; try done. by apply andb_true_iff in Hcq as [? _].
    + rewrite vs_upd_ne in Hq by done. destruct (Hcop q at' h' e' Hq Hvq Hcq) as (e1 & Hv1 & Hpr & Hm1).
      exists e1. rewrite Hv, lookup_insert_ne by done. split_and!; [done..|]. rewrite Hmem; [done|].
      pose proof (agree_page _ _ _ _ Hag q) as Hqp. rewrite Hq, Hv1 in Hqp. apply Hqp. by apply (copies_uses _ at' e').
Qed.

Lemma clone_pages_spec R σ src w0 at_ h n : forall lo hi σd t w,
  n = Z.to_nat (hi - lo) -> 0 <= lo -> hi + 1 <= 2 ^ 52 ->
  agree R σ src (owned (fa w0)) ->
  (forall p, lo <= p < hi -> σ p = Some (at_, h) /\ mappable h p /\ σd p = None) ->
  cloning src w0 σd t w -> (4 * n <= avail (fa w))%nat ->
  exists t' w', foldM (fun s page => addr ← Pages.start_address page;
                         handler_clone_map h s.1 src s.2 addr at_) (t, w) (Pages.pages lo hi) = Ret (t', w')
    /\ cloning src w0 (vs_set lo hi (Some (at_, h)) σd) t' w'
    /\ (avail (fa w) <= avail (fa w') + 4 * n)%nat.
Proof.
  induction n as [|n IH]; intros lo hi σd t w Hn Hlo Hhi Hsrc Hpg Hcl Hav.
  - rewrite Pages.pages_nil by lia. exists t, w. split_and!; [done| |lia].
    eapply cloning_ext; [|done]. intros p. by rewrite vs_set_empty by lia.
  - rewrite Pages.pages_cons by lia. cbn [foldM].
    rewrite Pages.start_address_ok by lia. cbn [mbind outcome_bind fst snd].
    destruct (Hpg lo) as (Hσ & Hmp & Hd); [lia|].
    destruct (clone_page_spec R σ src w0 σd t w lo at_ h) as (t1 & w1 & -> & Hcl1 & Hav1); try done; [lia..|].
    sret.
    destruct (IH (lo + 1) hi (vs_upd lo (Some (at_, h)) σd) t1 w1) as (t' & w' & -> & Hcl' & Hav'); try done; [lia..| |lia|].
    { intros p Hp. rewrite vs_upd_ne by lia. apply Hpg. lia. }
    exists t', w'. split_and!; [done| |lia].
    eapply cloning_ext; [|done]. intros p. by rewrite vs_set_cons by lia.
Qed.

(** The number of pages of an area list. *)
Definition area_pages a : nat := Z.to_nat ((end_addr a - start_addr a) / 4096).
Definition set_pages l : nat := sum_list_with area_pages l.

Lemma lookup_page_snoc l a lo hi p :
  areas_wf (l ++ [a]) -> start_addr a = lo * 4096 -> end_addr a = hi * 4096 ->
  vs_set lo hi (Some (attr a, handler a)) (lookup_page l) p = lookup_page (l ++ [a]) p.
Proof.
  intros Hwf Hs He. unfold vs_set. destruct ((lo <=? p) && (p <? hi))%bool eqn:Hp.
  - destruct (lookup_page_mid l a [] p Hwf) as (_ & _ & ->); [|done]. by rewrite (contains_spec a lo hi).
  - rewrite lookup_page_app, lookup_page_cons, (contains_spec a lo hi), Hp by done.
    by destruct (lookup_page l p).
Qed.

Lemma clone_areas_spec R src w0 l2 : forall l1 t w,
  areas_wf (l1 ++ l2) -> Forall area_mappable l2 -> agree R (lookup_page (l1 ++ l2)) src (owned (fa w0)) ->
  cloning src w0 (lookup_page l1) t w -> (4 * set_pages l2 <= avail (fa w))%nat ->
  exists t' w', foldM (fun s a => Pages.for_range (start_addr a) (end_addr a)
           (fun s page => addr ← Pages.start_address page;
              handler_clone_map (handler a) s.1 src s.2 addr (attr a)) s) (t, w) l2 = Ret (t', w')
    /\ cloning src w0 (lookup_page (l1 ++ l2)) t' w'.
Proof.
  induction l2 as [|a l2 IH]; intros l1 t w Hwf Hmp Hsrc Hcl Hav; cbn [foldM].
  { exists t, w. split; [done|]. by rewrite app_nil_r. }
  assert (Ha : area_wf a).
  { apply areas_wf_app in Hwf as (_ & Hw & _). by apply areas_wf_cons in Hw as [? _]. }
  destruct (area_wf_pages a Ha) as (lo & hi & Hs & He & ? & ?). apply Forall_cons in Hmp as [Hma Hmp].
  assert (Hn : area_pages a = Z.to_nat (hi - lo)).
  { unfold area_pages. rewrite Hs, He, <- Z.mul_sub_distr_r, Z.div_mul; lia. }
  unfold set_pages in Hav; cbn in Hav; fold (set_pages l2) in Hav.
  rewrite Hs, He, Pages.for_range_foldM by lia.
  destruct (clone_pages_spec R (lookup_page (l1 ++ a :: l2)) src w0 (attr a) (handler a) (Z.to_nat (hi - lo))
              lo hi (lookup_page l1) t w) as (t1 & w1 & -> & Hcl1 & Hav1); try done; try lia.
  { intros p Hp. assert (Hc : contains a (p * 4096) = true) by (rewrite (contains_spec a lo hi) by done; zcases).
    destruct (lookup_page_mid l1 a l2 p Hwf Hc) as (? & _ & ?). eauto. }
  sret. rewrite cons_middle, app_assoc in *. apply IH; try done; [|lia].
  eapply cloning_ext; [|exact Hcl1]. intros p. apply lookup_page_snoc; try done.
  by apply areas_wf_app in Hwf as [? _].
Qed.

Lemma agree_mono R (σ : @vspace F) t own own' : own ⊆ own' -> agree R σ t own -> agree R σ t own'.
Proof.
  intros Hsub [Hp Hi Hs Hr]. split; [|eauto|done|set_solver].
  intros p. specialize (Hp p). destruct (σ p) as [[]|], (view t !! p); try done.
  destruct Hp as (? & ? & Hin). split_and!; [done..|]. intros Hu. destruct (Hin Hu). set_solver.
Qed.

Lemma clone_spec R ms w :
  vm_inv R ms w -> mem_wf w -> (4 * set_pages (areas ms) < avail (fa w))%nat ->
  exists ms' w', clone ms w = Ret (ms', w') /\ areas ms' = areas ms
    /\ vm_inv R ms w' /\ vm_inv (owned (fa w)) ms' w'
    /\ cloning (page_table ms) w (lookup_page (areas ms)) (page_table ms') w'.
Proof.
  intros (Hwf & Hmp & Hag) Hmem Hav. unfold clone.
  destruct (new_spec (fa w)) as (t0 & a0 & -> & Hv & Hst & Hown & Hav0); [lia|].
  cbn [mbind outcome_bind fst snd].
  destruct (clone_areas_spec R (page_table ms) w (areas ms) [] t0 (with_fa w a0)) as (t' & w' & -> & Hcl);
    try done; [|cbn; lia|].
  { split; try done. split; [|done..].
    intros p. by rewrite lookup_page_nil, Hv, lookup_empty. }
  sret. exists (mkSet (areas ms) t'), w'.
  pose proof (agree_rest _ _ _ _ (cl_agree _ _ _ _ _ Hcl)) as Hsub.
  unfold vm_inv; cbn [areas page_table fst snd]; split_and!; try done.
  - by eapply agree_mono.
  - apply Hcl.
Qed.

(** *** [handle_page_fault] *)

Lemma fault_mapped_post h at_ p e data t w t' w' :
  attrs_ok at_ e -> (forall e', handler_ok h p e') -> faulted_post p e data t w t' w' -> mapped_post h at_ p t w t' w'.
Proof.
  intros (Hsl & Hu & Hw & Hx) Hok (e' & Hv & Hpr & Hsl' & Hu' & Hw' & Hx' & Hst & Hn & Ho & _ & _ & _ & Hav).
  exists e'. split_and!; try done.
  - unfold attrs_ok. rewrite Hu', Hw', Hx'. auto.
  - set_solver.
  - intros _. rewrite Ho. set_solver.
  - lia.
Qed.

Lemma vs_upd_same p v (σ : @vspace F) q : σ p = v -> vs_upd p v σ q = σ q.
Proof. intros <-. destruct (Z.eq_dec p q) as [<-|]; [by rewrite vs_upd_eq|by rewrite vs_upd_ne]. Qed.

(** Areas are made of whole pages. *)
Lemma contains_page a addr : area_wf a -> contains a addr = contains a (addr / 4096 * 4096).
Proof.
  intros Ha. destruct (area_wf_pages a Ha) as (lo & hi & Hs & He & ? & ?).
  rewrite (contains_spec a lo hi) by done. unfold contains. rewrite Hs, He.
  pose proof (Z.div_mod addr 4096). pose proof (Z.mod_pos_bound addr 4096).
  set (q := addr / 4096) in *. set (r := addr mod 4096) in *. zcases.
Qed.

Lemma find_area_page l addr a :
  Forall area_wf l -> find (fun a => contains a addr) l = Some a ->
  lookup_page l (addr / 4096) = Some (attr a, handler a) /\ area_wf a /\ contains a addr = true.
Proof.
  induction 1 as [|b l Hb Hl IH]; [done|]. cbn [find]. rewrite lookup_page_cons, <- contains_page by done.
  destruct (contains b addr) eqn:Hc; [intros [= <-]|]; auto.
Qed.

(** The bytes a demand-paged area shows in the page of [addr]. *)
Definition fault_data `{!ReadSpec} h addr : list Z :=
  match h with File f => file_page f (file_offset_of f (page_down addr)) | _ => replicate page_len 0 end.

Definition fault_ok h addr : Prop := match h with File f => file_range_ok f (page_down addr) | _ => True end.
Definition is_lazy h : bool := match h with Delay | File _ => true | _ => false end.

(** The call that flushes the caches: the bytes of the file. *)
Definition fault_flush `{!ReadSpec} h addr (execute : bool) : Flush :=
  match h with
  | File f => mkFlush (page_down addr) (page_down addr + Z.of_nat (length (file_bytes f (file_offset_of f (page_down addr))))) execute
  | _ => mkFlush addr (addr + 4096) false
  end.

Lemma lazy_fault_spec `{!ReadSpec} (h : MemoryHandler F) t w addr e :
  is_lazy h = true -> 0 <= addr -> addr + 4096 < 2 ^ 64 -> fault_ok h addr -> mem_wf w ->
  view t !! (addr / 4096) = Some e -> present e = false -> (0 < avail (fa w))%nat ->
  exists t' w', handler_fault_flush h t w addr = Ret (true, t', w', Some (fault_flush h addr (execute e)))
    /\ faulted_post (addr / 4096) e (fault_data h addr) t w t' w'.
Proof.
  destruct h as [| | |f]; try done; intros _ Ha Hb Hok; intros; cbn [handler_fault_flush fault_data fault_ok fault_flush] in *.
  - apply delay_fault_spec; assumption.
  - apply file_fault_spec; [unfold is_u64; lia|assumption..].
Qed.

Lemma present_fault (h : MemoryHandler F) t w addr e :
  view t !! (addr / 4096) = Some e -> is_u64 addr -> present e = true ->
  handler_fault_flush h t w addr = Ret (false, t, w, None).
Proof.
  intros Hv Ha Hpr. destruct h as [| | |f]; cbn [handler_fault_flush]; try done.
  - unfold delay_handle_page_fault. rewrite (get_entry_spec _ _ e) by done. cbn. by rewrite Hpr.
  - unfold file_handle_page_fault. rewrite (get_entry_spec _ _ e) by (by rewrite page_down_div). cbn. by rewrite Hpr.
Qed.

Lemma fault_flush_spec `{!ReadSpec} R ms w addr a e :
  vm_inv R ms w -> mem_wf w -> find (fun a => contains a addr) (areas ms) = Some a ->
  view (page_table ms) !! (addr / 4096) = Some e -> present e = false ->
  is_lazy (handler a) = true -> fault_ok (handler a) addr -> (0 < avail (fa w))%nat ->
  exists ms' w', handle_fault_flush ms w addr = Ret (true, ms', w', Some (fault_flush (handler a) addr (execute e))) /\ areas ms' = areas ms /\ vm_inv R ms' w'
    /\ faulted_post (addr / 4096) e (fault_data (handler a) addr) (page_table ms) w (page_table ms') w'.
Proof.
  intros (Hwf & Hmp & Hag) Hmem Hf Hv Hpr Hlz Hok Hav. unfold handle_fault_flush. rewrite Hf.
  destruct (find_area_page (areas ms) addr a (proj1 Hwf) Hf) as (Hl & (? & ? & ? & ?) & Hc).
  unfold contains in Hc. bool_to_prop.
  destruct (lazy_fault_spec (handler a) (page_table ms) w addr e) as (t' & w' & -> & Hpost); try done; [lia|lia|].
  cbn [mbind outcome_bind fst snd]. exists (mkSet (areas ms) t'), w'. split_and!; try done.
  unfold vm_inv; cbn [areas page_table]. split_and!; try done.
  pose proof (agree_page _ _ _ _ Hag (addr / 4096)) as Hp. rewrite Hl, Hv in Hp.
  eapply agree_ext; [intros p; by apply (vs_upd_same (addr / 4096)); exact Hl|].
  eapply agree_map_page; [exact Hag|]. eapply fault_mapped_post; [apply Hp| |exact Hpost].
  intros e'. by destruct (handler a).
Qed.

Lemma fault_spec `{!ReadSpec} R ms w addr a e :
  vm_inv R ms w -> mem_wf w -> find (fun a => contains a addr) (areas ms) = Some a ->
  view (page_table ms) !! (addr / 4096) = Some e -> present e = false ->
  is_lazy (handler a) = true -> fault_ok (handler a) addr -> (0 < avail (fa w))%nat ->
  exists ms' w', handle_page_fault ms w addr = Ret (true, ms', w') /\ areas ms' = areas ms /\ vm_inv R ms' w'
    /\ faulted_post (addr / 4096) e (fault_data (handler a) addr) (page_table ms) w (page_table ms') w'.
Proof.
  intros. destruct (fault_flush_spec R ms w addr a e) as (ms' & w' & Hf & ?); try done. exists ms', w'. unfold handle_page_fault. by rewrite Hf.
Qed.
End refinement.
