(* ===== verification/UserMemory.v ===== *)
(** * User pointers and free ranges ([memory/memory_set.rs])

    [check_read_array] and [check_write_array] count the bytes of the array
    that each area covers; [find_free_area] tries the hint and then the end of
    every area.  Here both are proved against what they are for. *)

From Stdlib Require Import Sorted.
From S2P Require Import Prelude Paging Handler MemorySet AddressSpace.
Import Addr Frames Table.

Section cover.
Context {F : Type}.
Implicit Types (a : MemoryArea F) (l : list (MemoryArea F)) (x y b : Z).

(** The bytes of [x, y) that [a] holds. *)
Definition overlap x y a : Z := Z.max 0 (Z.min y (end_addr a) - Z.max x (start_addr a)).
Definition overlaps x y l : Z := foldr (fun a n => overlap x y a + n) 0 l.

Definition holds b a : Prop := start_addr a <= b < end_addr a.
Definition covered x y l : Prop := forall b, x <= b < y -> Exists (holds b) l.

Lemma overlaps_cons x y a l : overlaps x y (a :: l) = overlap x y a + overlaps x y l.
Proof. done. Qed.

Lemma overlaps_nonneg x y l : 0 <= overlaps x y l.
Proof. induction l as [|a l IH]; [done|]. rewrite overlaps_cons. unfold overlap. lia. Qed.

Lemma overlaps_empty x y l : y <= x -> overlaps x y l = 0.
Proof. intros Hxy. induction l as [|a l IH]; [done|]. rewrite overlaps_cons, IH. unfold overlap. lia. Qed.

(** Bytes before every area do not matter. *)
Lemma overlaps_skip x z y l :
  Forall (fun a => z <= start_addr a) l -> overlaps x y l = overlaps (Z.max x z) y l.
Proof. induction 1 as [|a l Ha Hl IH]; [done|]. rewrite !overlaps_cons, IH. unfold overlap. lia. Qed.

Lemma covered_after a x y l :
  covered x y (a :: l) -> end_addr a <= x -> covered x y l.
Proof. intros Hc He b Hb. specialize (Hc b Hb). apply Exists_cons in Hc as [[? ?]|?]; [lia|done]. Qed.

(** Disjoint areas cover at most the whole range, and all of it exactly when
    every byte is in some area. *)
Lemma overlaps_covered l : forall x y,
  areas_wf l -> x <= y -> overlaps x y l <= y - x /\ (overlaps x y l = y - x <-> covered x y l).
Proof.
  induction l as [|a l IH]; intros x y Hwf Hxy.
  { cbn. split; [lia|]. split; [intros; intros b ?; lia|].
    intros Hc. destruct (Z.eq_dec x y); [lia|]. specialize (Hc x). rewrite Exists_nil in Hc. lia. }
  apply areas_wf_cons in Hwf as ((_ & _ & Hne & _) & Hbl & Hl).
  rewrite overlaps_cons, (overlaps_skip x (end_addr a)) by done. unfold overlap.
  assert (Hlate : forall b, b < end_addr a -> ~ Exists (holds b) l).
  { intros b Hb He. apply Exists_exists in He as (c & Hc & Hh). rewrite Forall_forall in Hbl.
    specialize (Hbl c Hc). unfold before, holds in *. lia. }
  destruct (Z.le_gt_cases y (end_addr a)) as [Hy|Hy].
  - rewrite (overlaps_empty (Z.max x (end_addr a))) by lia. split; [lia|]. split.
    + intros He b Hb. left. unfold holds. lia.
    + intros Hc. destruct (Z.eq_dec x y); [lia|]. specialize (Hc x). rewrite Exists_cons in Hc.
      destruct Hc as [[? ?]|Hc]; [lia..|]. by apply Hlate in Hc; [|lia].
  - destruct (IH (Z.max x (end_addr a)) y Hl) as [Hle Hiff]; [lia|]. split; [lia|]. split.
    + intros He b Hb. destruct (Z.lt_ge_cases b (end_addr a)); [left; unfold holds; lia|].
      right. apply Hiff; lia.
    + intros Hc. assert (Hr : overlaps (Z.max x (end_addr a)) y l = y - Z.max x (end_addr a)).
      { apply Hiff. intros b Hb. destruct (proj1 (Exists_cons _ _ _) (Hc b ltac:(lia))) as [[? ?]|?]; [lia|done]. }
      destruct (Z.le_gt_cases (end_addr a) x); [lia|]. specialize (Hc x). rewrite Exists_cons in Hc.
      destruct Hc as [[? ?]|Hc]; [lia..|]. by apply Hlate in Hc; [|lia].
Qed.

Lemma filter_areas_wf (ok : MemoryArea F -> bool) l : areas_wf l -> areas_wf (List.filter ok l).
Proof.
  induction l as [|a l IH]; [done|]. rewrite areas_wf_cons. intros (Ha & Hbl & Hl). cbn.
  destruct (ok a); [|by apply IH]. apply areas_wf_cons. split_and!; [done| |by apply IH].
  rewrite List.Forall_forall in *. intros b Hb. apply Hbl. by apply filter_In in Hb as [? _].
Qed.
End cover.

Section checks.
Context `{BuildMode} {F T : Type}.
Implicit Types (a : MemoryArea F) (l : list (MemoryArea F)) (ms : MemorySet F T).

Lemma area_check_spec size a ptr count :
  area_wf a -> is_u64 ptr ->
  area_check_read_array size a ptr count = Ret (overlap ptr (ptr_add size ptr count) a).
Proof.
  intros Ha Hp. destruct (area_wf_pages a Ha) as (lo & hi & Hs & He & ? & ?).
  unfold area_check_read_array, overlap. rewrite Hs, He, PAGE_SIZE_eq.
  ostep. ostep.
  unfold Pages.of_addr. rewrite PAGE_SIZE_eq, Z.div_mul by lia.
  replace ((hi * 4096 + 4096 - 1) / 4096) with hi by (apply (Z.div_unique _ _ _ 4095); lia).
  rewrite !Pages.start_address_ok by lia. sret.
  assert (0 <= ptr_add size ptr count < 2 ^ 64) by (apply Z.mod_pos_bound; lia). unfold is_u64 in Hp.
  destruct (Z.leb_spec (Z.max ptr (lo * 4096)) (Z.min (ptr_add size ptr count) (hi * 4096))).
  - rewrite usub_ok by lia. f_equal. lia.
  - f_equal. lia.
Qed.

(** The loop adds up what the areas that pass [ok] cover. *)
Lemma check_loop_spec (ok : MemoryArea F -> bool) check size ptr count x y l : forall v,
  (forall a, In a l -> check a = Ret (if ok a then overlap x y a else 0)) ->
  0 <= size -> 0 <= count -> size * count < 2 ^ 64 -> 0 <= v -> l ≠ [] ->
  v + overlaps x y (List.filter ok l) <= size * count ->
  check_loop check size ptr count v l
  = Ret (if v + overlaps x y (List.filter ok l) =? size * count then Ok (ptr, count) else Err InvalidPtr).
Proof.
  induction l as [|a l IH]; intros v Hck Hsz Hct Hmax Hv Hne Hle; [done|]. cbn [check_loop].
  rewrite Hck by (by left). sret.
  assert (Hcons : overlaps x y (List.filter ok (a :: l))
            = (if ok a then overlap x y a else 0) + overlaps x y (List.filter ok l)).
  { cbn [List.filter]. destruct (ok a); [by rewrite overlaps_cons|lia]. }
  rewrite Hcons in Hle |- *.
  assert (0 <= if ok a then overlap x y a else 0) by (unfold overlap; destruct (ok a); lia).
  pose proof (overlaps_nonneg x y (List.filter ok l)).
  set (c := if ok a then overlap x y a else 0) in *.
  ostep.
  destruct (Z.eqb_spec (v + c) (size * count)) as [He|Hn].
  { by rewrite (proj2 (Z.eqb_eq _ _)) by lia. }
  destruct l as [|b l']; [cbn in *; by rewrite (proj2 (Z.eqb_neq _ _)) by lia|].
  rewrite IH; try done; try lia; [by rewrite Z.add_assoc|]. intros d Hd. apply Hck. by right.
Qed.

(** Which arrays pass: the areas that pass [ok] hold every byte. *)
Lemma check_array_spec (ok : MemoryArea F -> bool) check size ptr count l :
  areas_wf l ->
  (forall a, In a l -> check a = Ret (if ok a then overlap ptr (ptr_add size ptr count) a else 0)) ->
  is_u64 ptr -> 0 <= size -> 0 <= count -> 0 < size * count < 2 ^ 64 ->
  (check_loop check size ptr count 0 l = Ret (Ok (ptr, count))
     /\ covered ptr (ptr + size * count) (List.filter ok l))
  \/ (check_loop check size ptr count 0 l = Ret (Err InvalidPtr)
     /\ ~ covered ptr (ptr + size * count) (List.filter ok l)).
Proof.
  intros Hwf Hck Hp Hsz Hct Hn. unfold is_u64 in Hp. pose proof (filter_areas_wf ok l Hwf) as Hwf'.
  assert (Hy : ptr_add size ptr count = if ptr + size * count <? 2 ^ 64 then ptr + size * count
                                         else ptr + size * count - 2 ^ 64).
  { unfold ptr_add. rewrite (Z.mul_comm count). destruct (Z.ltb_spec (ptr + size * count) (2 ^ 64)).
    - apply Z.mod_small. lia.
    - symmetry. apply (Z.mod_unique _ _ 1); lia. }
  destruct l as [|a0 l0] eqn:Hl.
  { right. split; [done|]. intros Hc. specialize (Hc ptr). rewrite Exists_nil in Hc. lia. }
  rewrite <- Hl in *. assert (Hne : l ≠ []) by (by subst).
  destruct (Z.ltb_spec (ptr + size * count) (2 ^ 64)).
  - rewrite Hy in Hck. destruct (overlaps_covered (List.filter ok l) ptr (ptr + size * count) Hwf') as [Hle Hiff]; [lia|].
    rewrite (check_loop_spec ok _ _ _ _ _ _ _ _ Hck) by (done || lia).
    destruct (Z.eqb_spec (0 + overlaps ptr (ptr + size * count) (List.filter ok l)) (size * count)) as [He|Hn'].
    + left. split; [done|]. apply Hiff. lia.
    + right. split; [done|]. rewrite <- Hiff. lia.
  - right. pose proof (overlaps_empty ptr (ptr_add size ptr count) (List.filter ok l)) as Hz.
    rewrite (check_loop_spec ok _ _ _ _ _ _ _ _ Hck) by (done || lia).
    rewrite Hz by lia. rewrite (proj2 (Z.eqb_neq _ _)) by lia. split; [done|].
    intros Hc. specialize (Hc (2 ^ 64 - 1)). apply Exists_exists in Hc as (c & Hin & Hc); [|lia].
    destruct Hwf' as [Hwf' _]. rewrite Forall_forall in Hwf'.
    destruct (Hwf' c Hin) as (_ & _ & _ & ?). unfold holds in Hc. lia.
Qed.

(** A byte range passes [check_read_array] exactly when areas hold all of it. *)
Lemma check_read_spec size (ms : MemorySet F T) ptr count :
  areas_wf (areas ms) -> is_u64 ptr -> 0 <= size -> 0 <= count -> 0 < size * count < 2 ^ 64 ->
  (check_read_array size ms ptr count = Ret (Ok (ptr, count))
     /\ forall b, ptr <= b < ptr + size * count -> Exists (holds b) (areas ms))
  \/ (check_read_array size ms ptr count = Ret (Err InvalidPtr)
     /\ ~ forall b, ptr <= b < ptr + size * count -> Exists (holds b) (areas ms)).
Proof.
  intros Hwf Hp Hs Hc Hn. unfold check_read_array.
  pose proof (check_array_spec (fun _ => true) (fun a => area_check_read_array size a ptr count)
                size ptr count (areas ms) Hwf) as Hck.
  rewrite filter_true in Hck. apply Hck; try done. intros a Ha. apply area_check_spec; [|done].
  destruct Hwf as [Hwf _]. rewrite List.Forall_forall in Hwf. by apply Hwf.
Qed.
End checks.

(** ** [find_free_area] *)
Section free_area.
Context `{BuildMode} {F T : Type}.
Implicit Types (a : MemoryArea F) (l : list (MemoryArea F)) (ms : MemorySet F T).

Definition round_up (c : Z) : Z := (c + 4095) / 4096 * 4096.

Lemma page_up_round c : 0 <= c -> c + 4096 < 2 ^ 64 -> page_up c = Ret (round_up c).
Proof.
  intros Hc Hc'. destruct (page_up_ok c Hc Hc') as (r & -> & Hr & Hb). f_equal.
  destruct (aligned_pages r Hr) as [n ->]. unfold round_up. f_equal.
  apply (Z.div_unique _ _ _ (c + 4095 - n * 4096)); lia.
Qed.

(** The pages of [c, c + len) after rounding [c] up are all free. *)
Definition free_at ms (len c : Z) : bool :=
  forallb (disjoint_from (round_up c) (range_end (round_up c + len))) (areas ms).

(** The search returns the first candidate that is free. *)
Lemma find_free_loop_spec ms len cs :
  Forall area_wf (areas ms) -> 0 < len -> Forall (fun c => 0 <= c /\ c + len + 8192 <= 2 ^ 64) cs ->
  find_free_loop ms len cs
  = match find (free_at ms len) cs with Some c => Ret (round_up c) | None => Panic "failed to find free area ???" end.
Proof.
  intros Hwf Hlen. induction 1 as [|c cs [Hc Hc'] _ IH]; [done|]. cbn [find_free_loop find].
  assert (Hr : c <= round_up c < c + 4096).
  { unfold round_up. pose proof (Z.div_mod (c + 4095) 4096). pose proof (Z.mod_pos_bound (c + 4095) 4096). lia. }
  rewrite page_up_round by lia. sret.
  ostep.
  rewrite test_free_area_pages by (done || lia). sret.
  unfold free_at. replace (round_up c / 4096 * 4096) with (round_up c).
  { by destruct (forallb _ _). }
  unfold round_up. by rewrite Z.div_mul by lia.
Qed.

Lemma last_area l : areas_wf l -> l ≠ [] -> exists a, In a l /\ Forall (fun b => end_addr b <= end_addr a) l.
Proof.
  induction l as [|a l IH]; [done|]. intros Hl _. apply areas_wf_cons in Hl as ((_ & _ & Ha & _) & Hb & Hl).
  destruct l as [|b l']; [exists a; split; [by left|repeat constructor; lia]|].
  destruct IH as (c & Hc & Hall); [done..|]. exists c. split; [by right|]. constructor; [|done].
  rewrite List.Forall_forall in Hb. specialize (Hb c Hc). unfold before in Hb.
  destruct Hl as [Hl _]. rewrite List.Forall_forall in Hl. destruct (Hl c Hc) as (_ & _ & ? & _). lia.
Qed.

(** Some candidate is always free: the end of the last area. *)
Lemma find_free_some ms len hint :
  areas_wf (areas ms) -> exists c, find (free_at ms len) (hint :: (end_addr <$> areas ms)) = Some c.
Proof.
  intros Hwf. destruct (find _ _) as [c|] eqn:Hf; [by exists c|]. exfalso.
  assert (Hnone : forall c, In c (hint :: (end_addr <$> areas ms)) -> free_at ms len c = false).
  { intros c. by apply find_none. }
  destruct (areas ms) as [|a0 l0] eqn:Hl.
  { specialize (Hnone hint ltac:(by left)). unfold free_at in Hnone. by rewrite Hl in Hnone. }
  rewrite <- Hl in *. destruct (last_area (areas ms)) as (a & Ha & Hall); [done|by rewrite Hl|].
  assert (free_at ms len (end_addr a) = false) as Hn.
  { apply Hnone. right. by apply in_map. }
  unfold free_at in Hn. apply not_true_iff_false in Hn. apply Hn. apply forallb_forall. intros b Hb.
  destruct Hwf as [Hwf _]. rewrite List.Forall_forall in Hwf, Hall.
  destruct (area_wf_pages a (Hwf a Ha)) as (lo & hi & _ & He & _ & _).
  unfold disjoint_from, round_up. rewrite He. replace ((hi * 4096 + 4095) / 4096) with hi.
  { rewrite <- He. by rewrite (proj2 (Z.leb_le _ _)) by auto. }
  apply (Z.div_unique _ _ _ 4095); lia.
Qed.

(** A free range has no mapped page. *)
Lemma free_at_unmapped ms len c p :
  areas_wf (areas ms) -> 0 < len -> free_at ms len c = true ->
  round_up c <= p * 4096 -> p * 4096 < round_up c + len -> lookup_page (areas ms) p = None.
Proof.
  intros Hwf Hlen Hf Hp Hp'. unfold free_at, round_up, range_end in *.
  eapply (lookup_page_free (areas ms)); [apply Hwf|exact Hf|].
  pose proof (Z.div_mod ((c + 4095) / 4096 * 4096 + len - 1) 4096).
  pose proof (Z.mod_pos_bound ((c + 4095) / 4096 * 4096 + len - 1) 4096). lia.
Qed.
End free_area.
