(* ===== verification/MemoryTheorems.v ===== *)
(** * The memory subsystem: main theorems

    The properties of [MemorySet] that the rest of the kernel relies on, each
    with an evaluation on the machine of [Mock]. *)

From S2P Require Import Prelude Paging Handler Mock MemorySet AddressSpace UserMemory.
Import Addr Frames Table.

(** ** A concrete address space *)

Abbreviation mock_set := (MemorySet (list Z) MockTable).

Definition set0 : mock_set := mkSet [] table0.

Lemma set0_inv : vm_inv ∅ set0 world0.
Proof.
  split_and!; [split; constructor|constructor|]. split; done.
Qed.

(** A demand-zero heap at [0x10000, 0x14000) and an ELF segment mapped from a
    file at [0x20000, 0x22000). *)
Definition elf_file : FileMap (list Z) := mkFile (Z.of_nat <$> seq 1 200) 0x20000 0 150.

#[local] Existing Instance release.

Definition set1 : mock_set * world MockAlloc :=
  match push set0 world0 0x10000 0x14000 (Attr.user_ Attr.default) Delay "heap" with Ret x => x | Panic _ => (set0, world0) end.
Definition set2 : mock_set * world MockAlloc :=
  match push set1.1 set1.2 0x20000 0x21800 (Attr.execute_ (Attr.user_ Attr.default)) (File elf_file) "elf" with
  | Ret x => x | Panic _ => (set0, world0) end.

Lemma set1_inv : vm_inv ∅ set1.1 set1.2.
Proof.
  destruct (push_spec ∅ set0 world0 0x10000 0x14000 16 20 (Attr.user_ Attr.default) Delay "heap" set0_inv)
    as (ms' & w' & Hp & Hinv & _);
    [lia|vm_compute; reflexivity|vm_compute; reflexivity|lia|lia|intros; split; exact I|intros; reflexivity|vm_compute; lia|].
  unfold set1. by rewrite Hp.
Qed.

Lemma set1_areas : areas set1.1 = [mkArea 0x10000 0x14000 (Attr.user_ Attr.default) Delay "heap"].
Proof. vm_compute. reflexivity. Qed.

Lemma set2_inv : vm_inv ∅ set2.1 set2.2.
Proof.
  destruct (push_spec ∅ set1.1 set1.2 0x20000 0x21800 32 34 (Attr.execute_ (Attr.user_ Attr.default)) (File elf_file) "elf"
              set1_inv) as (ms' & w' & Hp & Hinv & _);
    [lia|vm_compute; reflexivity|vm_compute; reflexivity|lia|lia|intros; split; exact I| |vm_compute; lia|].
  - intros p Hp. rewrite set1_areas, lookup_page_cons, lookup_page_nil. unfold contains; cbn [start_addr end_addr]. zcases.
  - unfold set2. by rewrite Hp.
Qed.

(** ** Theorems *)
Section theorems.
Context `{BuildMode} {E A T F : Type}.
Context `{ES : EntrySpec E, FS : FrameAllocatorSpec A, FR : !FrameReturnSpec A, PI : !PageTable E A T, !PageTableSpec E A T, RI : Read F}.
Implicit Types (w : world A) (p : Z) (ms : MemorySet F T) (R : gset Z).


(** C2. [MemorySet::push] of a non-empty range whose pages are free, with
    four frames per page available: it returns, the pages of the rounded
    range are mapped with the given attributes and handler and no other page
    changes, the invariant is preserved (in particular the area list is
    still sorted), frames in use stay in use and memory is not written. *)
Theorem push_refines R ms w s e lo hi at_ h nm :
  vm_inv R ms w -> s < e -> page_down s = lo * 4096 -> page_up e = Ret (hi * 4096) ->
  0 <= lo < hi -> hi + 2 <= 2 ^ 52 ->
  (forall p, lo <= p < hi -> mappable h p /\ lookup_page (areas ms) p = None) ->
  (4 * Z.to_nat (hi - lo) <= avail (fa w))%nat ->
  exists ms' w', push ms w s e at_ h nm = Ret (ms', w') /\ vm_inv R ms' w'
    /\ (forall p, lookup_page (areas ms') p = vs_set lo hi (Some (at_, h)) (lookup_page (areas ms)) p)
    /\ owned (fa w) ⊆ owned (fa w') /\ mem w' = mem w.
Proof.
  intros Hinv Hse Hlo Hhi Hb Hb' Hp Hav.
  destruct (push_spec R ms w s e lo hi at_ h nm) as (ms' & w' & ? & ? & ? & ? & _ & ?); try done; [apply Hp..|].
  exists ms', w'. done.
Qed.

(** [MemorySet::push] of a range that touches a mapped page panics with
    "memory area overlap", and it does so before anything is mapped. *)
Theorem push_overlap_panics R ms w s e lo hi at_ h nm p :
  vm_inv R ms w -> s < e -> page_down s = lo * 4096 -> page_up e = Ret (hi * 4096) ->
  0 <= lo < hi -> hi + 2 <= 2 ^ 52 -> lo <= p < hi -> is_Some (lookup_page (areas ms) p) ->
  push ms w s e at_ h nm = Panic "memory area overlap".
Proof.
  intros (Hwf & _) Hse Hlo Hhi Hb Hb' Hp [v Hv]. unfold push. rewrite (proj2 (Z.leb_gt _ _)) by done.
  rewrite Hlo, Hhi. sret.
  rewrite (proj2 (Z.ltb_lt (lo * 4096) _)) by lia. cbn [assert_ mbind outcome_bind].
  rewrite test_free_area_spec by (first [apply Hwf | apply aligned_of_mul | lia]).
  destruct (forallb _ _) eqn:Hd; [|done].
  rewrite (lookup_page_free (areas ms) lo hi p) in Hv; [done|apply Hwf|done|done].
Qed.

(** C3. [MemorySet::clone] (the address space of [fork]) with enough frames
    returns a set with the same areas.  Both sets satisfy the invariant, the
    new one over frames that did not exist before, so the two share no
    frame.  No frame in use before is written, and every resident page that
    the handlers copy (frame-backed, demand-zero, writable file pages) is
    present in the copy with the same bytes. *)
Theorem clone_isolates R ms w :
  vm_inv R ms w -> mem_wf w -> (4 * set_pages (areas ms) < avail (fa w))%nat ->
  exists ms' w', clone ms w = Ret (ms', w') /\ areas ms' = areas ms
    /\ vm_inv R ms w' /\ vm_inv (owned (fa w)) ms' w'
    /\ (forall f, f ∈ owned (fa w) -> mem w' f = mem w f)
    /\ (forall p at_ h e, lookup_page (areas ms) p = Some (at_, h) -> view (page_table ms) !! p = Some e ->
          copies h at_ e = true ->
          exists e', view (page_table ms') !! p = Some e' /\ present e' = true
            /\ mem w' (target e') = mem w (target e)).
Proof.
  intros Hinv Hwf Hav. destruct (clone_spec R ms w Hinv Hwf Hav) as (ms' & w' & ? & ? & ? & ? & [_ _ ? ?]).
  exists ms', w'. done.
Qed.

(** C4. [MemorySet::handle_page_fault] on a page that is mapped lazily and
    not resident returns [true]: the page is resident with the permissions
    it was mapped with, in a frame nobody owned, holding zeros or the bytes
    of the file padded with zeros; the TLB entry is invalidated, no other
    frame is written and the invariant is preserved. *)
Theorem fault_brings_page_in `{!ReadSpec} R ms w addr a e :
  vm_inv R ms w -> mem_wf w -> find (fun a => contains a addr) (areas ms) = Some a ->
  view (page_table ms) !! (addr / 4096) = Some e -> present e = false ->
  is_lazy (handler a) = true -> fault_ok (handler a) addr -> (0 < avail (fa w))%nat ->
  exists ms' w', handle_page_fault ms w addr = Ret (true, ms', w') /\ areas ms' = areas ms /\ vm_inv R ms' w'
    /\ faulted_post (addr / 4096) e (fault_data (handler a) addr) (page_table ms) w (page_table ms') w'.
Proof. apply fault_spec. Qed.

(** Any other fault is refused and changes nothing: the address is in no
    area, or its area is not lazy, or the page is already resident. *)
Theorem fault_refused ms w addr :
  is_u64 addr ->
  match find (fun a => contains a addr) (areas ms) with
  | Some a => is_lazy (handler a) = false \/ (exists e, view (page_table ms) !! (addr / 4096) = Some e /\ present e = true)
  | None => True
  end ->
  handle_page_fault ms w addr = Ret (false, ms, w).
Proof.
  intros Ha Hc. unfold handle_page_fault, handle_fault_flush. destruct (find _ _) as [a|]; [|done].
  assert (handler_fault_flush (handler a) (page_table ms) w addr = Ret (false, page_table ms, w, None)) as ->.
  { destruct Hc as [Hl|(e & Hv & Hpr)]; [by destruct (handler a)|by eapply present_fault]. }
  by destruct ms.
Qed.

(** [MemorySet::check_read_array] accepts a non-empty array exactly when
    every byte of it lies in some area, also when the array spans several
    adjacent areas; it never panics, and an array that wraps around the end
    of the address space is rejected. *)
Theorem check_read_array_exact size ms ptr count :
  areas_wf (areas ms) -> is_u64 ptr -> 0 <= size -> 0 <= count -> 0 < size * count < 2 ^ 64 ->
  (check_read_array size ms ptr count = Ret (Ok (ptr, count))
     /\ forall b, ptr <= b < ptr + size * count -> Exists (holds b) (areas ms))
  \/ (check_read_array size ms ptr count = Ret (Err InvalidPtr)
     /\ ~ forall b, ptr <= b < ptr + size * count -> Exists (holds b) (areas ms)).
Proof. apply check_read_spec. Qed.

(** C21. [MemorySet::check_write_array] accepts a non-empty array exactly when
    every byte of it lies in an area that is not read-only. *)
Theorem check_write_array_exact size ms ptr count :
  areas_wf (areas ms) -> is_u64 ptr -> 0 <= size -> 0 <= count -> 0 < size * count < 2 ^ 64 ->
  let writable_areas := List.filter (fun a => negb (Attr.readonly (attr a))) (areas ms) in
  (check_write_array size ms ptr count = Ret (Ok (ptr, count))
     /\ forall b, ptr <= b < ptr + size * count -> Exists (holds b) writable_areas)
  \/ (check_write_array size ms ptr count = Ret (Err InvalidPtr)
     /\ ~ forall b, ptr <= b < ptr + size * count -> Exists (holds b) writable_areas).
Proof.
  intros Hwf Hp Hs Hc Hn. unfold check_write_array.
  apply (check_array_spec (fun a => negb (Attr.readonly (attr a)))); try done. intros a Ha.
  unfold area_check_write_array. destruct (Attr.readonly (attr a)); [done|]. apply area_check_spec; [|done].
  destruct Hwf as [Hwf _]. rewrite List.Forall_forall in Hwf. by apply Hwf.
Qed.

(** [MemorySet::find_free_area] always finds a range when there is room
    behind every area: it returns a page-aligned address such that no page
    of the [len] bytes from there is mapped, and that address is the hint,
    rounded up, if the hint is free. *)
Theorem find_free_area_total ms hint len :
  areas_wf (areas ms) -> 0 < len -> 0 <= hint -> hint + len + 8192 <= 2 ^ 64 ->
  Forall (fun a => end_addr a + len + 8192 <= 2 ^ 64) (areas ms) ->
  exists r, find_free_area ms hint len = Ret r /\ aligned r
    /\ (forall p, r <= p * 4096 < r + len -> lookup_page (areas ms) p = None)
    /\ (free_at ms len hint = true -> r = round_up hint).
Proof.
  intros Hwf Hlen Hh Hh' Hroom. unfold find_free_area.
  rewrite find_free_loop_spec; [|apply Hwf|done|].
  - destruct (find_free_some ms len hint Hwf) as [c Hc]. rewrite Hc.
    assert (Hfree : free_at ms len c = true) by (by apply find_some in Hc as [_ ?]).
    exists (round_up c). split_and!; [done|apply aligned_of_mul| |].
    + intros p Hp. by apply (free_at_unmapped ms len c); [done..|lia|lia].
    + intros Hfh. cbn [find] in Hc. rewrite Hfh in Hc. congruence.
  - constructor; [done|]. apply Forall_fmap. apply Forall_and. split; [|done].
    eapply Forall_impl; [apply Hwf|]. unfold area_wf. intros a ?. cbn. lia.
Qed.

(** [MemorySet::clear] (also run when a set is dropped) always returns:
    the set is empty, the page table maps nothing, frames only go back to
    the allocator, and those that the pages used all do. *)
Theorem clear_unmaps_all R ms w :
  vm_inv R ms w ->
  exists ms' w', clear ms w = Ret (ms', w') /\ areas ms' = [] /\ view (page_table ms') = ∅
    /\ vm_inv R ms' w' /\ released w w' /\ all_given_back (areas ms) (page_table ms) w'.
Proof. apply clear_spec. Qed.

(** [MemorySet::pop] of the exact range of an area removes that area and
    unmaps its pages, and nothing else; of any other range it panics with
    "no memory area found". *)
Theorem pop_exact R ms w s e :
  vm_inv R ms w -> s <= e ->
  (exists ms' w' a, pop ms w s e = Ret (ms', w') /\ In a (areas ms) /\ start_addr a = s /\ end_addr a = e
     /\ vm_inv R ms' w' /\ released w w'
     /\ forall p, lookup_page (areas ms') p = vs_set (s / 4096) (e / 4096) None (lookup_page (areas ms)) p)
  \/ (pop ms w s e = Panic "no memory area found"
     /\ forall a, In a (areas ms) -> ~ (start_addr a = s /\ end_addr a = e)).
Proof.
  intros Hinv Hse. unfold pop. rewrite (proj2 (Z.leb_le s e)) by lia. cbn [assert_ mbind outcome_bind].
  destruct (pop_scan s e (areas ms)) as [[i a]|] eqn:Hs.
  - left. apply pop_scan_spec in Hs as (l1 & l2 & Hl & -> & <- & <-).
    assert (set_inv R (l1 ++ a :: l2) (page_table ms) w) as Hset by (unfold set_inv; rewrite <- Hl; by destruct ms).
    destruct (unmap_whole R l1 a l2 _ _ Hset) as (lo & hi & t' & w' & Hlo & Hhi & -> & Hinv' & Hlk & Hrel & _).
    cbn [mbind outcome_bind fst snd]. rewrite Hl, delete_middle. do 3 eexists. split_and!; try done.
    + apply in_or_app. right. by left.
    + rewrite Hlo, Hhi, !Z.div_mul by lia. done.
  - right. split; [done|]. intros a Ha [Ea Eb]. clear -Hs Ha Ea Eb. induction (areas ms) as [|b l IH]; [done|].
    cbn in Hs. destruct (_ && _)%bool eqn:Hb; [done|]. destruct (pop_scan s e l) as [[? ?]|] eqn:Hp; [done|].
    destruct Ha as [->|Ha]; [|by apply IH]. subst. by rewrite !Z.eqb_refl in Hb.
Qed.
End theorems.

(** ** The theorems on the concrete machine *)


Lemma push_refines_witness :
  exists ms' w', push set0 world0 0x30010 0x31001 Attr.default ByFrame "stack" = Ret (ms', w') /\ vm_inv ∅ ms' w'
    /\ (forall p, lookup_page (areas ms') p = vs_set 48 50 (Some (Attr.default, ByFrame)) (lookup_page (areas set0)) p)
    /\ owned (fa world0) ⊆ owned (fa w') /\ mem w' = mem world0.
Proof.
  apply (push_refines ∅ set0 world0 0x30010 0x31001 48 50 Attr.default ByFrame "stack");
    [apply set0_inv|lia|vm_compute; reflexivity|vm_compute; reflexivity|lia|lia|split; [split; exact I|reflexivity]|vm_compute; lia].
Defined.

Lemma push_overlap_panics_witness :
  push set2.1 set2.2 0x13fff 0x15000 Attr.default Delay "overlap" = Panic "memory area overlap".
Proof.
  apply (push_overlap_panics ∅ set2.1 set2.2 0x13fff 0x15000 19 21 Attr.default Delay "overlap" 19);
    [apply set2_inv|lia|vm_compute; reflexivity|vm_compute; reflexivity|lia|lia|lia|].
  vm_compute. eauto.
Defined.

(** The address space after a fault on the second page of the heap. *)
Definition set3 : mock_set * world MockAlloc :=
  match handle_page_fault set2.1 set2.2 0x11008 with Ret (_, ms, w) => (ms, w) | Panic _ => (set0, world0) end.

Definition heap : MemoryArea (list Z) := mkArea 0x10000 0x14000 (Attr.user_ Attr.default) Delay "heap".
Definition lazy_entry : MockEntry := mkMockEntry false false true false 0 false false false true false 0.

Lemma set2_mem_wf : mem_wf set2.2.
Proof.
  assert (mem set2.2 = mem world0) as Hm by (vm_compute; reflexivity).
  intros f. rewrite Hm. apply world0_wf.
Qed.

Lemma fault_brings_page_in_witness :
  exists ms' w', handle_page_fault set2.1 set2.2 0x11008 = Ret (true, ms', w') /\ areas ms' = areas set2.1
    /\ vm_inv ∅ ms' w'
    /\ faulted_post (0x11008 / 4096) lazy_entry (fault_data (handler heap) 0x11008) (page_table set2.1) set2.2 (page_table ms') w'.
Proof.
  apply (fault_brings_page_in ∅ set2.1 set2.2 0x11008 heap lazy_entry);
    [apply set2_inv|apply set2_mem_wf|vm_compute; reflexivity|vm_compute; reflexivity|reflexivity|reflexivity|exact I|vm_compute; lia].
Defined.

Lemma set3_inv : vm_inv ∅ set3.1 set3.2 /\ mem_wf set3.2.
Proof.
  destruct (fault_spec ∅ set2.1 set2.2 0x11008 heap lazy_entry) as (ms' & w' & Hf & _ & Hinv & Hpost);
    [apply set2_inv|apply set2_mem_wf|vm_compute; reflexivity|vm_compute; reflexivity|reflexivity|reflexivity|exact I|vm_compute; lia|].
  unfold set3. rewrite Hf. split; [done|]. by destruct Hpost as (? & _ & _ & _ & _ & _ & _ & _ & _ & _ & _ & _ & ? & _).
Qed.

Lemma clone_isolates_witness :
  exists ms' w', clone set3.1 set3.2 = Ret (ms', w') /\ areas ms' = areas set3.1
    /\ vm_inv ∅ set3.1 w' /\ vm_inv (owned (fa set3.2)) ms' w'
    /\ (forall f, f ∈ owned (fa set3.2) -> mem w' f = mem set3.2 f)
    /\ (forall p at_ h e, lookup_page (areas set3.1) p = Some (at_, h) -> view (page_table set3.1) !! p = Some e ->
          copies h at_ e = true ->
          exists e', view (page_table ms') !! p = Some e' /\ present e' = true
            /\ mem w' (target e') = mem set3.2 (target e)).
Proof. apply clone_isolates; [exact (proj1 set3_inv)|exact (proj2 set3_inv)|vm_compute; lia]. Defined.

Lemma fault_refused_witness : handle_page_fault set3.1 set3.2 0x11010 = Ret (false, set3.1, set3.2).
Proof.
  apply (fault_refused set3.1 set3.2 0x11010); [unfold is_u64; lia|].
  assert (find (fun a => contains a 0x11010) (areas set3.1) = Some heap) as -> by (vm_compute; reflexivity).
  right. eexists. split; [vm_compute; reflexivity|reflexivity].
Defined.

Lemma set2_areas :
  areas set2.1 = [heap; mkArea 0x20000 0x22000 (Attr.execute_ (Attr.user_ Attr.default)) (File elf_file) "elf"].
Proof. vm_compute. reflexivity. Qed.

Lemma set2_wf : areas_wf (areas set2.1).
Proof. exact (proj1 set2_inv). Qed.

Lemma check_read_array_exact_witness :
  (check_read_array 4 set2.1 0x13ff8 2 = Ret (Ok (0x13ff8, 2))
     /\ forall b, 0x13ff8 <= b < 0x13ff8 + 4 * 2 -> Exists (holds b) (areas set2.1))
  \/ (check_read_array 4 set2.1 0x13ff8 2 = Ret (Err InvalidPtr)
     /\ ~ forall b, 0x13ff8 <= b < 0x13ff8 + 4 * 2 -> Exists (holds b) (areas set2.1)).
Proof. apply check_read_array_exact; [apply set2_wf|unfold is_u64; lia|lia|lia|lia]. Defined.

Lemma check_write_array_exact_witness :
  let writable_areas := List.filter (fun a => negb (Attr.readonly (attr a))) (areas set2.1) in
  (check_write_array 1 set2.1 0x13ff8 9 = Ret (Ok (0x13ff8, 9))
     /\ forall b, 0x13ff8 <= b < 0x13ff8 + 1 * 9 -> Exists (holds b) writable_areas)
  \/ (check_write_array 1 set2.1 0x13ff8 9 = Ret (Err InvalidPtr)
     /\ ~ forall b, 0x13ff8 <= b < 0x13ff8 + 1 * 9 -> Exists (holds b) writable_areas).
Proof. apply (check_write_array_exact 1 set2.1 0x13ff8 9); [apply set2_wf|unfold is_u64; lia|lia|lia|lia]. Defined.

Lemma find_free_area_total_witness :
  exists r, find_free_area set2.1 0x13000 0x5000 = Ret r /\ aligned r
    /\ (forall p, r <= p * 4096 < r + 0x5000 -> lookup_page (areas set2.1) p = None)
    /\ (free_at set2.1 0x5000 0x13000 = true -> r = round_up 0x13000).
Proof.
  apply find_free_area_total; [apply set2_wf|lia|lia|lia|].
  rewrite set2_areas. rewrite !Forall_cons, Forall_nil. cbn [end_addr heap]. lia.
Defined.

Lemma clear_unmaps_all_witness :
  exists ms' w', clear set3.1 set3.2 = Ret (ms', w') /\ areas ms' = [] /\ view (page_table ms') = ∅
    /\ vm_inv ∅ ms' w' /\ released set3.2 w' /\ all_given_back (areas set3.1) (page_table set3.1) w'.
Proof. exact (clear_unmaps_all ∅ set3.1 set3.2 (proj1 set3_inv)). Defined.

Lemma pop_exact_witness :
  (exists ms' w' a, pop set3.1 set3.2 0x10000 0x14000 = Ret (ms', w') /\ In a (areas set3.1)
     /\ start_addr a = 0x10000 /\ end_addr a = 0x14000
     /\ vm_inv ∅ ms' w' /\ released set3.2 w'
     /\ forall p, lookup_page (areas ms') p = vs_set (0x10000 / 4096) (0x14000 / 4096) None (lookup_page (areas set3.1)) p)
  \/ (pop set3.1 set3.2 0x10000 0x14000 = Panic "no memory area found"
     /\ forall a, In a (areas set3.1) -> ~ (start_addr a = 0x10000 /\ end_addr a = 0x14000)).
Proof. apply (pop_exact ∅ set3.1 set3.2); [exact (proj1 set3_inv)|lia]. Defined.
