(* ===== verification/Cache.v ===== *)
(** * Caches ([arch/aarch64/paging.rs], [memory/handler])

    Code that the kernel copies into a page is written through the data cache
    and fetched through the instruction cache.  [flush_cache_copy_user] makes
    the one agree with the other; the memory handlers call it after they fill
    or copy a page.  The maintenance instructions of the [aarch64] crate are an
    interface; they work on virtual addresses, translated by the active table. *)

From S2P Require Import Prelude Paging Handler MemorySet AddressSpace Mock MemoryTheorems.
Import Addr Frames Table.

(** [L1ICachePolicy]; the code only asks for [PIPT]. *)
Inductive L1ICachePolicy := PIPT | OtherPolicy.

(** The operations on the caches [K]: [DCache::<Clean, PoU>::flush_range],
    [ICache::<Invalidate, PoU>::flush_range], [ICache::flush_all] and
    [get_l1_icache_policy].  The first two are given the translation of the
    active table, and cleaning writes the bytes that loads see. *)
Class CacheOps (K : Type) := {
  dcache_clean : (Z -> option Z) -> (Z -> Z) -> Z -> Z -> K -> K;
  icache_invalidate : (Z -> option Z) -> Z -> Z -> K -> K;
  icache_flush_all : K -> K;
  get_l1_icache_policy : L1ICachePolicy;
}.

(** The bytes of a range of virtual addresses. *)
Definition in_range (tr : Z -> option Z) (start end_ pa : Z) : Prop := exists va, start <= va < end_ /\ tr va = Some pa.

(** What the architecture says about them.  [pou k pa] is the byte at physical
    address [pa] in the memory that instruction fetches are filled from, and
    [line k va pa] the byte the instruction cache holds for it, if any, under
    the virtual address [va].  Cleaning may clean more than the range and
    invalidating may drop more.  Only where the instruction cache works on
    physical addresses does invalidating a range reach its aliases. *)
Class CacheSpec (K : Type) `{CacheOps K} := {
  pou : K -> Z -> Z;
  line : K -> Z -> Z -> option Z;
  clean_range tr data start end_ k pa : in_range tr start end_ pa -> pou (dcache_clean tr data start end_ k) pa = data pa;
  clean_lines tr data start end_ k : line (dcache_clean tr data start end_ k) = line k;
  invalidate_range tr start end_ k va pa : get_l1_icache_policy = PIPT -> in_range tr start end_ pa ->
    line (icache_invalidate tr start end_ k) va pa = None;
  invalidate_lines tr start end_ k va pa :
    line (icache_invalidate tr start end_ k) va pa = line k va pa \/ line (icache_invalidate tr start end_ k) va pa = None;
  invalidate_pou tr start end_ k : pou (icache_invalidate tr start end_ k) = pou k;
  flush_all_lines k va pa : line (icache_flush_all k) va pa = None;
  flush_all_pou k : pou (icache_flush_all k) = pou k;
}.

(** Caches that clean no more than they are asked to. *)
Class CacheExact (K : Type) `{CacheSpec K} := {
  clean_outside tr data start end_ k pa : ~ in_range tr start end_ pa -> pou (dcache_clean tr data start end_ k) pa = pou k pa;
}.

Section cache.
Context {K : Type} `{CO : CacheOps K}.

(** [PageTableImpl::flush_cache_copy_user].  [ev] is what the caches do by
    themselves between the two halves. *)
Definition flush_cache_copy_user (ev : K -> K) (tr : Z -> option Z) (data : Z -> Z) (start end_ : Z) (execute : bool) (k : K) : K :=
  if execute then
    let k := dcache_clean tr data start end_ k in
    let k := ev k in
    match get_l1_icache_policy with PIPT => icache_invalidate tr start end_ k | OtherPolicy => icache_flush_all k end
  else k.

(** The call a handler made, if any. *)
Definition run_flush (ev : K -> K) (tr : Z -> option Z) (data : Z -> Z) (fl : option Flush) (k : K) : K :=
  match fl with Some f => flush_cache_copy_user ev tr data (fl_start f) (fl_end f) (fl_execute f) k | None => k end.

Context `{CS : !CacheSpec K}.

(** Fetching a byte. *)
Definition fetch (k : K) (va pa : Z) : Z := default (pou k pa) (line k va pa).

(** At any time lines of the data cache may be written back, lines of the
    instruction cache dropped, and others filled by speculation. *)
Definition cache_event (data : Z -> Z) (k k' : K) : Prop :=
  (forall pa, pou k' pa = pou k pa \/ pou k' pa = data pa)
  /\ forall va pa, line k' va pa = line k va pa \/ line k' va pa = None \/ line k' va pa = Some (pou k pa).

(** A byte that every fetch gets right. *)
Definition coherent (data : Z -> Z) (k : K) (pa : Z) : Prop :=
  pou k pa = data pa /\ forall va, line k va pa = None \/ line k va pa = Some (data pa).

Lemma coherent_fetch data k va pa : coherent data k pa -> fetch k va pa = data pa.
Proof. intros [Hp Hl]. unfold fetch. by destruct (Hl va) as [-> | ->]. Qed.

Lemma coherent_event data k k' pa : cache_event data k k' -> coherent data k pa -> coherent data k' pa.
Proof.
  intros [Hp Hl] [Hc Hn]. split; [destruct (Hp pa); congruence|]. intros va.
  destruct (Hl va pa) as [-> | [-> | ->]]; [apply Hn|by left|right; congruence].
Qed.

Lemma coherent_events data k k' pa : rtc (cache_event data) k k' -> coherent data k pa -> coherent data k' pa.
Proof. induction 1; eauto using coherent_event. Qed.

Lemma clean_events data k k' pa : rtc (cache_event data) k k' -> pou k pa = data pa -> pou k' pa = data pa.
Proof. induction 1 as [|k k1 k' [Hp _] _ IH]; [done|]. intros Hc. apply IH. destruct (Hp pa); congruence. Qed.

(** After the flush every byte of the range is coherent. *)
Lemma flush_coherent ev tr data start end_ k pa :
  (forall k, rtc (cache_event data) k (ev k)) -> in_range tr start end_ pa ->
  coherent data (flush_cache_copy_user ev tr data start end_ true k) pa.
Proof.
  intros Hev Hin. unfold flush_cache_copy_user. cbn zeta.
  pose proof (clean_events _ _ _ pa (Hev (dcache_clean tr data start end_ k)) (clean_range _ _ _ _ _ _ Hin)) as Hp.
  destruct get_l1_icache_policy eqn:Hpol; split; intros; rewrite ?invalidate_pou, ?flush_all_pou; try done; left.
  - by apply invalidate_range.
  - apply flush_all_lines.
Qed.

(** Outside of the range an exact cache leaves memory as it is, and a fetch
    that misses is answered from there. *)
Lemma flush_outside `{!CacheExact K} tr data start end_ execute k va pa :
  ~ in_range tr start end_ pa -> line k va pa = None -> fetch (flush_cache_copy_user id tr data start end_ execute k) va pa = pou k pa.
Proof.
  intros Hout Hl. unfold flush_cache_copy_user. destruct execute; [|unfold fetch; by rewrite Hl]. cbn zeta. unfold id, fetch.
  destruct get_l1_icache_policy.
  - rewrite invalidate_pou, clean_outside by done. destruct (invalidate_lines tr start end_ (dcache_clean tr data start end_ k) va pa) as [-> | ->];
      [by rewrite clean_lines, Hl|done].
  - by rewrite flush_all_lines, flush_all_pou, clean_outside.
Qed.
End cache.

(** ** Code in memory *)
Section code.
Context `{BM : BuildMode} {E A T F K : Type}.
Context `{ES : EntrySpec E, FS : FrameAllocatorSpec A, PI : !PageTable E A T, !PageTableSpec E A T, RI : Read F, RS : !ReadSpec}.
Context `{CO : CacheOps K, CS : !CacheSpec K}.
Implicit Types (t : T) (w : world A) (e : E) (k : K) (ms : MemorySet F T) (f : FileMap F).

(** The active table's translation, and the byte that a load finds at a
    physical address. *)
Definition translation t (va : Z) : option Z :=
  e ← pt_get_entry t va; if present e then Some (target e + va mod 4096) else None.
Definition data_of w (pa : Z) : Z := default 0 (mem w (pa - pa mod 4096) !! Z.to_nat (pa mod 4096)).

Lemma translation_page t p e i :
  view t !! p = Some e -> present e = true -> 0 <= i < 4096 -> translation t (p * 4096 + i) = Some (target e + i).
Proof.
  intros Hv Hpr Hi. unfold translation.
  assert ((p * 4096 + i) / 4096 = p /\ (p * 4096 + i) mod 4096 = i) as [Hd Hm].
  { split; [symmetry; apply (Z.div_unique _ _ _ i); lia|symmetry; apply (Z.mod_unique _ _ p); lia]. }
  rewrite (get_entry_spec _ _ e) by (by rewrite Hd). cbn [mbind option_bind]. by rewrite Hpr, Hm.
Qed.

Lemma data_of_page w g i b : frame_addr g -> mem w g !! i = Some b -> (i < page_len)%nat -> data_of w (g + Z.of_nat i) = b.
Proof.
  intros [Hg _] Hb Hi. unfold data_of, aligned in *. pose proof (Z.div_mod g 4096 ltac:(lia)). pose proof page_len_Z.
  assert ((g + Z.of_nat i) mod 4096 = Z.of_nat i) as -> by (symmetry; apply (Z.mod_unique _ _ (g / 4096)); lia).
  replace (g + Z.of_nat i - Z.of_nat i) with g by lia. by rewrite Nat2Z.id, Hb.
Qed.

Lemma file_bytes_page f off i b : file_bytes f off !! i = Some b -> file_page f off !! i = Some b /\ (i < page_len)%nat.
Proof.
  intros Hb. unfold file_page. split; [by apply lookup_app_l_Some|]. apply lookup_lt_Some in Hb. unfold file_bytes in Hb. rewrite length_take in Hb. lia.
Qed.

(** C26. A program executes the code of its file.  After a fault on a page of
    an executable file mapping, whatever the caches held before and whatever
    they write back, drop or prefetch from then on, an instruction fetch from
    the page gets the byte of the file, under every virtual address the page
    is mapped at. *)
Theorem code_is_fetched R ms w addr a f e :
  vm_inv R ms w -> mem_wf w -> find (fun a => contains a addr) (areas ms) = Some a -> MemorySet.handler a = File f ->
  view (page_table ms) !! (addr / 4096) = Some e -> present e = false -> execute e = true ->
  fault_ok (File f) addr -> (0 < avail (fa w))%nat ->
  exists ms' w' fl g, handle_fault_flush ms w addr = Ret (true, ms', w', fl) /\ translation (page_table ms') (page_down addr) = Some g
    /\ forall ev k k', (forall k, rtc (cache_event (data_of w')) k (ev k)) ->
         rtc (cache_event (data_of w')) (run_flush ev (translation (page_table ms')) (data_of w') fl k) k' ->
         forall i b va, file_bytes f (file_offset_of f (page_down addr)) !! i = Some b -> fetch k' va (g + Z.of_nat i) = b.
Proof.
  intros Hinv Hwf Hfind Hh Hv Hpr Hx Hok Hav.
  destruct (fault_flush_spec R ms w addr a e) as (ms' & w' & Hf & _ & _ & Hpost); try done; [by rewrite Hh..|].
  destruct Hpost as (e' & Hv' & Hpr' & _ & _ & _ & _ & _ & _ & Ho & Hm & _).
  assert (Hfr : frame_addr (target e')) by (apply (owned_frames (fa w')); rewrite Ho; set_solver).
  rewrite Hh in *. cbn [fault_data fault_flush] in *. rewrite Hx in Hf. clear Hok.
  assert (Hpd : page_down addr = addr / 4096 * 4096).
  { apply (find_area_page _ _ _ (proj1 (proj1 Hinv))) in Hfind as (_ & (? & ? & ? & ?) & Hc). unfold contains in Hc. bool_to_prop.
    rewrite page_down_eq by (unfold is_u64; lia). pose proof (Z.div_mod addr 4096). lia. }
  assert (Htr : forall i, 0 <= i < 4096 -> translation (page_table ms') (addr / 4096 * 4096 + i) = Some (target e' + i)).
  { intros i Hi. apply translation_page; [by rewrite Hv', lookup_insert_eq|done|done]. }
  exists ms', w', (Some (mkFlush (page_down addr) (page_down addr + Z.of_nat (length (file_bytes f (file_offset_of f (page_down addr))))) true)), (target e').
  split; [exact Hf|]. split; [rewrite Hpd; replace (addr / 4096 * 4096) with (addr / 4096 * 4096 + 0) by lia; rewrite Htr by lia; f_equal; lia|].
  intros ev k k' Hev Hk i b va Hb. destruct (file_bytes_page _ _ _ _ Hb) as [Hb' Hi]. pose proof page_len_Z.
  rewrite <- (data_of_page w' (target e') i b); [|done|by rewrite Hm|done].
  eapply coherent_fetch, coherent_events; [exact Hk|]. cbn [run_flush fl_start fl_end fl_execute]. apply flush_coherent; [exact Hev|].
  exists (addr / 4096 * 4096 + Z.of_nat i). apply lookup_lt_Some in Hb. split; [lia|]. apply Htr. lia.
Qed.

(** Two frames have no address in common. *)
Lemma other_frame g h i j : frame_addr g -> frame_addr h -> g <> h -> 0 <= i < 4096 -> 0 <= j < 4096 -> g + i <> h + j.
Proof. unfold frame_addr, aligned. intros [Hg _] [Hh _] Hne Hi Hj Heq. pose proof (Z.div_mod g 4096). pose proof (Z.div_mod h 4096). lia. Qed.

(** A copy of executable pages is flushed in the wrong address space.  When a
    process forks, [clone_map] writes the child's copy of a writable and
    executable page and flushes the page's address; the table that is active
    then is the parent's, so it is the parent's frame that is cleaned.  Where
    the caches do no more than they are asked to, the child fetches what the
    memory of its frame held before the copy. *)
Theorem clone_flushes_parent `{!CacheExact K} f at_ t src w p e :
  0 <= p -> p * 4096 + 4096 < 2 ^ 64 -> mem_wf w -> page_ok p -> view t !! p = None -> (4 <= avail (fa w))%nat ->
  view src !! p = Some e -> present e = true -> target e ∈ owned (fa w) -> Attr.readonly at_ = false ->
  exists t' w' fl e', handler_clone_flush (File f) t src w (p * 4096) at_ = Ret (t', w', fl)
    /\ view t' !! p = Some e' /\ present e' = true /\ mem w' (target e') = mem w (target e)
    /\ forall k va i, 0 <= i < 4096 -> line k va (target e' + i) = None ->
         fetch (run_flush id (translation src) (data_of w') fl k) va (target e' + i) = pou k (target e' + i).
Proof.
  intros Hp Hp2 Hwf Hpo Hv Hav Hsrc Hpr Hown Hro.
  assert (Hcopy : copies (File f) at_ e = true) by (cbn; by rewrite Hpr, Hro).
  destruct (eager_clone_spec (File f) at_ t src w p e) as (t' & w' & Hc & (Hmap & _ & Hcp) & _); eauto.
  destruct (Hcp Hcopy) as (e' & Hv' & Hpr' & Hm). destruct Hmap as (e1 & Hvt & _ & _ & _ & _ & Huse & _).
  rewrite Hvt, lookup_insert_eq in Hv'. injection Hv' as ->. destruct Huse as [Hin Hout]; [done|].
  exists t', w', (Some (mkFlush (p * 4096) (p * 4096 + 4096) (Attr.execute at_))), e'. split_and!; try done.
  - cbn [handler_clone_flush]. unfold file_clone_map. rewrite (get_entry_spec _ _ e) by (by rewrite page_div). sret. rewrite Hpr, Hro. exact Hc.
  - by rewrite Hvt, lookup_insert_eq.
  - intros k va i Hi Hl. cbn [run_flush fl_start fl_end fl_execute]. apply flush_outside; [|done].
    intros (x & Hx & Htr). replace x with (p * 4096 + (x - p * 4096)) in Htr by lia. rewrite (translation_page src p e) in Htr by (done || lia).
    injection Htr as Htr. apply owned_frames in Hin as Hf1. apply owned_frames in Hown as Hf2.
    refine (other_frame (target e) (target e') _ _ Hf2 Hf1 _ _ Hi Htr); [congruence|lia].
Qed.
End code.

(** ** Concrete caches

    The memory behind the caches and the lines of the instruction cache, under
    either policy. *)
Record Flat := mkFlatCache { flat_pou : Z -> Z; flat_line : Z -> Z -> option Z }.
Definition in_rangeb (tr : Z -> option Z) (start end_ pa : Z) : bool :=
  existsb (fun va => match tr va with Some x => x =? pa | None => false end) (seqZ start (end_ - start)).

Lemma in_rangeb_spec tr start end_ pa : in_rangeb tr start end_ pa = true <-> in_range tr start end_ pa.
Proof.
  unfold in_rangeb, in_range. rewrite existsb_exists. split.
  - intros (va & Hin & Hx). apply list_elem_of_In, elem_of_seqZ in Hin. exists va. split; [lia|].
    destruct (tr va) as [x|]; [|done]. apply Z.eqb_eq in Hx. by subst.
  - intros (va & Hin & Hx). exists va. split; [apply list_elem_of_In, elem_of_seqZ; lia|]. rewrite Hx. apply Z.eqb_refl.
Qed.

Section flat.
Variable policy : L1ICachePolicy.

#[export] Instance FlatCache : CacheOps Flat := {|
  dcache_clean tr data start end_ k := mkFlatCache (fun pa => if in_rangeb tr start end_ pa then data pa else flat_pou k pa) (flat_line k);
  icache_invalidate tr start end_ k := mkFlatCache (flat_pou k) (fun va pa => if in_rangeb tr start end_ pa then None else flat_line k va pa);
  icache_flush_all k := mkFlatCache (flat_pou k) (fun _ _ => None);
  get_l1_icache_policy := policy;
|}.
#[export] Program Instance FlatCacheSpec : CacheSpec Flat := {| pou := flat_pou; line := flat_line |}.
Next Obligation. intros * Hr%in_rangeb_spec. cbn. by rewrite Hr. Qed.
Next Obligation. done. Qed.
Next Obligation. intros * _ Hr%in_rangeb_spec. cbn. by rewrite Hr. Qed.
Next Obligation. intros *. cbn. destruct (in_rangeb _ _ _ _); auto. Qed.
Next Obligation. done. Qed.
Next Obligation. done. Qed.
Next Obligation. done. Qed.
#[export] Instance FlatCacheExact : CacheExact Flat.
Proof. split. intros * Hr. cbn. destruct (in_rangeb tr start end_ pa) eqn:E; [|done]. by apply in_rangeb_spec in E. Qed.
End flat.

Section concrete.
#[local] Existing Instance release.
#[local] Instance physical_icache : CacheOps Flat := FlatCache PIPT.
#[local] Instance physical_spec : CacheSpec Flat := FlatCacheSpec PIPT.

(** Caches full of old bytes. *)
Definition old_cache : Flat := mkFlatCache (fun _ => 99) (fun _ _ => Some 98).

(** The code area of the example and the entry of its first page. *)
Definition code_area : MemoryArea (list Z) := mkArea 0x20000 0x22000 (Attr.execute_ (Attr.user_ Attr.default)) (File elf_file) "elf".
Definition code_entry : MockEntry := mkMockEntry false false true false 0 false false false true true 0.

Lemma code_is_fetched_witness :
  exists ms' w' fl g, handle_fault_flush set2.1 set2.2 0x20008 = Ret (true, ms', w', fl) /\ translation (page_table ms') 0x20000 = Some g
    /\ forall k', rtc (cache_event (data_of w')) (run_flush id (translation (page_table ms')) (data_of w') fl old_cache) k' ->
         fetch k' 0x20009 (g + 9) = 10.
Proof.
  destruct (code_is_fetched (K := Flat) ∅ set2.1 set2.2 0x20008 code_area elf_file code_entry) as (ms' & w' & fl & g & Hf & Htr & Hall).
  - apply set2_inv.
  - apply set2_mem_wf.
  - vm_compute. reflexivity.
  - reflexivity.
  - vm_compute. reflexivity.
  - reflexivity.
  - reflexivity.
  - by repeat split.
  - vm_compute. lia.
  - exists ms', w', fl, g. split; [exact Hf|]. split; [exact Htr|]. intros k' Hk.
    apply (Hall id old_cache k' ltac:(intros; apply rtc_refl) Hk 9%nat). vm_compute. reflexivity.
Defined.
End concrete.
