(* ===== verification/Requests.v ===== *)
(** * Building an address space ([MemorySet::push] in a row)

    The kernel's own mappings, the segments of a program and its stack are
    all built by a series of pushes.  A [Request] holds the arguments of one
    push; [push_all_spec] says what a series of them maps when the requests
    are apart from each other. *)

From S2P Require Import Prelude Paging Handler MemorySet AddressSpace UserMemory.
Import Addr Frames Table.

Record Request (F : Type) := mkReq {
  r_start : Z; r_end : Z; r_attr : MemoryAttr; r_handler : MemoryHandler F; r_name : string;
}.
Arguments mkReq {F}.
Arguments r_start {F}.
Arguments r_end {F}.
Arguments r_attr {F}.
Arguments r_handler {F}.
Arguments r_name {F}.

Section requests.
Context {F : Type}.
Implicit Types (r : Request F) (p : Z).

(** The pages of a request: those that its bytes touch, none when it is
    empty. *)
Definition r_lo r : Z := r_start r / 4096.
Definition r_hi r : Z := (r_end r + 4095) / 4096.
Definition r_has r p : bool := (r_start r <? r_end r) && (r_lo r <=? p) && (p <? r_hi r).
Definition r_cost r : nat := if r_start r <? r_end r then Z.to_nat (r_hi r - r_lo r) else O.

Definition r_value r : option (MemoryAttr * MemoryHandler F) := Some (r_attr r, r_handler r).

(** What the pages are mapped with after the requests. *)
Definition reqs_vspace (rs : list (Request F)) (σ : Z -> option (MemoryAttr * MemoryHandler F)) p :=
  match find (fun r => r_has r p) rs with Some r => r_value r | None => σ p end.

Definition cost (rs : list (Request F)) : nat := sum_list_with r_cost rs.

(** No page is asked for twice. *)
Definition apart r1 r2 : Prop := forall p, r_has r1 p = true -> r_has r2 p = false.

Lemma reqs_vspace_cons r rs σ p :
  reqs_vspace (r :: rs) σ p = if r_has r p then r_value r else reqs_vspace rs σ p.
Proof. unfold reqs_vspace. cbn. by destruct (r_has r p). Qed.

(** Requests that are apart can be looked up in any order. *)
Lemma reqs_vspace_insert r rs σ p :
  Forall (apart r) rs ->
  reqs_vspace rs (fun q => if r_has r q then r_value r else σ q) p = reqs_vspace (r :: rs) σ p.
Proof.
  intros Ha. rewrite reqs_vspace_cons. unfold reqs_vspace. destruct (r_has r p) eqn:Hr; [|done].
  destruct (find _ rs) as [r'|] eqn:Hf; [|done]. apply find_some in Hf as [Hin Hp].
  rewrite List.Forall_forall in Ha. by rewrite (Ha r' Hin p Hr) in Hp.
Qed.

(** A page of a request has its value. *)
Lemma reqs_vspace_in rs r σ p : ForallOrdPairs apart rs -> In r rs -> r_has r p = true -> reqs_vspace rs σ p = r_value r.
Proof.
  induction 1 as [|r' rs Ha _ IH]; [done|]. intros Hin Hr. rewrite reqs_vspace_cons.
  destruct Hin as [->|Hin]; [by rewrite Hr|]. destruct (r_has r' p) eqn:Hr'; [|by apply IH].
  rewrite List.Forall_forall in Ha. by rewrite (Ha r Hin p Hr') in Hr.
Qed.
End requests.

Section push_all.
Context `{BuildMode} {E A T F : Type}.
Context `{ES : EntrySpec E, FS : FrameAllocatorSpec A, FR : !FrameReturnSpec A, PI : !PageTable E A T, !PageTableSpec E A T, RI : Read F}.
Implicit Types (r : Request F) (ms : MemorySet F T) (w : world A) (p : Z).

Definition push_req (s : MemorySet F T * world A) r : outcome (MemorySet F T * world A) :=
  push s.1 s.2 (r_start r) (r_end r) (r_attr r) (r_handler r) (r_name r).

(** The range fits below the last pages of the address space, and its pages
    can be mapped. *)
Definition req_ok r : Prop :=
  0 <= r_start r /\ r_end r + 4096 <= 2 ^ 64 - 8192 /\ forall p, r_has r p = true -> mappable (r_handler r) p.

Lemma r_has_range r p : r_start r < r_end r -> r_has r p = ((r_lo r <=? p) && (p <? r_hi r))%bool.
Proof. intros Hse. unfold r_has. by rewrite (proj2 (Z.ltb_lt _ _)). Qed.

Lemma push_req_spec R ms w r :
  vm_inv R ms w -> req_ok r -> (forall p, r_has r p = true -> lookup_page (areas ms) p = None) ->
  (4 * r_cost r <= avail (fa w))%nat ->
  exists ms' w', push_req (ms, w) r = Ret (ms', w') /\ vm_inv R ms' w'
    /\ (forall p, lookup_page (areas ms') p = if r_has r p then r_value r else lookup_page (areas ms) p)
    /\ owned (fa w) ⊆ owned (fa w') /\ (avail (fa w) <= avail (fa w') + 4 * r_cost r)%nat /\ mem w' = mem w.
Proof.
  intros Hinv (Hs & He & Hmp) Hfree Hav. unfold push_req, r_cost in *. cbn [fst snd].
  destruct (Z.ltb_spec (r_start r) (r_end r)) as [Hse|Hse].
  - assert (Hd : page_down (r_start r) = r_lo r * 4096).
    { rewrite page_down_eq by (unfold is_u64; lia). unfold r_lo. pose proof (Z.div_mod (r_start r) 4096). lia. }
    assert (Hu : page_up (r_end r) = Ret (r_hi r * 4096)) by (rewrite page_up_round by lia; done).
    assert (r_lo r < r_hi r) by (unfold r_lo, r_hi; pose proof (Z.div_mod (r_start r) 4096);
      pose proof (Z.div_mod (r_end r + 4095) 4096); pose proof (Z.mod_pos_bound (r_start r) 4096);
      pose proof (Z.mod_pos_bound (r_end r + 4095) 4096); lia).
    assert (0 <= r_lo r) by (unfold r_lo; apply Z.div_pos; lia).
    assert (r_hi r + 2 <= 2 ^ 52) by (unfold r_hi; pose proof (Z.div_mod (r_end r + 4095) 4096);
      pose proof (Z.mod_pos_bound (r_end r + 4095) 4096); lia).
    assert (Hin : forall p, r_lo r <= p < r_hi r -> r_has r p = true).
    { intros p Hp. rewrite r_has_range by done. by rewrite (proj2 (Z.leb_le _ _)), (proj2 (Z.ltb_lt _ _)) by lia. }
    destruct (push_spec R ms w (r_start r) (r_end r) (r_lo r) (r_hi r) (r_attr r) (r_handler r) (r_name r))
      as (ms' & w' & Hp & Hinv' & Hl & Hrest); [done..|lia|lia|auto|auto|lia|].
    exists ms', w'. split_and!; try done; try apply Hrest. intros p. rewrite Hl. unfold vs_set. by rewrite r_has_range.
  - exists ms, w. unfold push. rewrite (proj2 (Z.leb_le _ _)) by done. split_and!; try done; [|lia].
    intros p. unfold r_has. by rewrite (proj2 (Z.ltb_ge _ _)).
Qed.

(** A series of requests that are apart from each other and from what is
    mapped already, with four frames for every page. *)
Lemma push_all_spec R rs : forall ms w,
  vm_inv R ms w -> Forall req_ok rs -> ForallOrdPairs apart rs ->
  (forall p, lookup_page (areas ms) p = None \/ Forall (fun r => r_has r p = false) rs) ->
  (4 * cost rs <= avail (fa w))%nat ->
  exists ms' w', foldM push_req (ms, w) rs = Ret (ms', w') /\ vm_inv R ms' w'
    /\ (forall p, lookup_page (areas ms') p = reqs_vspace rs (lookup_page (areas ms)) p)
    /\ owned (fa w) ⊆ owned (fa w') /\ (avail (fa w) <= avail (fa w') + 4 * cost rs)%nat /\ mem w' = mem w.
Proof.
  induction rs as [|r rs IH]; intros ms w Hinv Hok Hap Hfree Hav; cbn [foldM cost sum_list_with] in *.
  { exists ms, w. split_and!; try done. lia. }
  apply Forall_cons in Hok as [Hr Hok]. inversion Hap as [|? ? Har Hap']; subst.
  fold (cost rs) in *.
  destruct (push_req_spec R ms w r Hinv Hr) as (ms1 & w1 & -> & Hinv1 & Hl1 & Ho1 & Hav1 & Hm1); [|lia|].
  { intros p Hp. destruct (Hfree p) as [?|Hno]; [done|]. apply Forall_cons in Hno as [Hno _]. congruence. }
  sret. destruct (IH ms1 w1) as (ms' & w' & -> & Hinv' & Hl' & Ho' & Hav' & Hm'); try done; [|lia|].
  { intros p. rewrite Hl1. destruct (r_has r p) eqn:Hp.
    - right. eapply Forall_impl; [exact Har|]. intros r' Ha. by apply Ha.
    - destruct (Hfree p) as [?|Hno]; [by left|right]. by apply Forall_cons in Hno as [_ Hno]. }
  exists ms', w'. split_and!; try done; [|set_solver|lia|congruence].
  intros p. rewrite Hl', <- reqs_vspace_insert by done. unfold reqs_vspace. by rewrite Hl1.
Qed.
End push_all.

(** ** What a push does to the table, step by step

    A property of the table that the primitive operations keep is kept by
    every series of pushes. *)
Section preservation.
Context `{BuildMode} {E A T F : Type}.
Context `{EI : Entry E, FI : FrameAllocator A, PI : !PageTable E A T, RI : Read F}.
Context (P : T -> Prop).
Hypothesis map_keeps : forall t a addr tgt t' a', P t -> pt_map t a addr tgt = Ret (t', a') -> P t'.
Hypothesis set_keeps : forall t addr e, P t -> P (pt_set_entry t addr e).
Hypothesis update_keeps : forall t addr, P t -> P (pt_update t addr).
Implicit Types (w : world A) (h : MemoryHandler F).

Lemma map_entry_keeps t w addr tgt t' w' e : P t -> map_entry t w addr tgt = Ret (t', w', e) -> P t'.
Proof.
  intros Ht Hm. unfold map_entry in Hm. unbind Hm. destruct a as [t1 a1]. unbind Hm. injection Hm as <- _ _. eauto.
Qed.

Lemma apply_keeps at_ t addr e : P t -> P (apply at_ t addr e).
Proof. unfold apply. auto. Qed.

Lemma handler_map_keeps h at_ t w addr t' w' : P t -> handler_map h t w addr at_ = Ret (t', w') -> P t'.
Proof.
  intros Ht Hm. destruct h; cbn [handler_map] in Hm; unfold linear_map, byframe_map, delay_map, file_map in Hm.
  1,2: unbind Hm; unbind Hm; destruct a0 as [[t1 w1] e]; injection Hm as <- _; apply apply_keeps; eauto using map_entry_keeps.
  all: unbind Hm; destruct a as [[t1 w1] e]; injection Hm as <- _; apply apply_keeps, set_keeps; eauto using map_entry_keeps.
Qed.

Lemma area_map_keeps (a : MemoryArea F) t w t' w' : P t -> area_map a t w = Ret (t', w') -> P t'.
Proof.
  intros Ht Hm. unfold area_map, Pages.for_range in Hm. unbind Hm. clear E0. revert Hm. generalize (Pages.range_fuel a0). intros fuel.
  revert a0 t w Ht. induction fuel as [|fuel IH]; intros r t w Ht Hm; [done|].
  rewrite Pages.for_pages_S in Hm. unbind Hm. destruct a0 as [[p|] r']; [|by injection Hm as <- _].
  unbind Hm. unbind E1. destruct a0 as [t1 w1]. apply handler_map_keeps in E1; [|done]. by eapply IH.
Qed.

Lemma push_all_keeps (rs : list (Request F)) : forall s s', P (page_table s.1) -> foldM push_req s rs = Ret s' -> P (page_table s'.1).
Proof.
  induction rs as [|r rs IH]; intros s s' Hs Hf; cbn [foldM] in Hf; [by injection Hf as <-|].
  unbind Hf. eapply IH; [|exact Hf]. clear Hf IH. unfold push_req, push in E0. destruct (_ <=? _); [by injection E0 as <-|].
  unbind E0. unbind E0. unbind E0. unbind E0. unbind E0. destruct a4 as [t1 w1]. injection E0 as <-. cbn [fst page_table].
  by eapply area_map_keeps.
Qed.

(** The same for unmapping. *)
Hypothesis unmap_keeps : forall t addr t', P t -> pt_unmap t addr = Ret t' -> P t'.

Lemma handler_unmap_keeps h t w addr t' w' : P t -> handler_unmap h t w addr = Ret (t', w') -> P t'.
Proof.
  intros Ht Hm. destruct h; cbn [handler_unmap] in Hm; unfold linear_unmap, byframe_unmap, delay_unmap, file_unmap in Hm; repeat unbind Hm;
    injection Hm as <- _; eauto.
Qed.

Lemma clear_keeps (ms : MemorySet F T) w ms' w' : P (page_table ms) -> clear ms w = Ret (ms', w') -> P (page_table ms').
Proof.
  intros Ht Hc. unfold clear in Hc. unbind Hc. injection Hc as <- _. cbn [page_table]. revert E0. generalize (page_table ms) w Ht.
  induction (areas ms) as [|b l IH]; intros t w0 Hp Hf; cbn [foldM] in Hf; [by injection Hf as <-|].
  unbind Hf. destruct a0 as [t1 w1]. eapply IH; [|exact Hf]. clear Hf IH. unfold area_unmap, Pages.for_range in E0. unbind E0.
  clear E1. revert E0. generalize (Pages.range_fuel a0). intros fuel. revert a0 Hp. cbn [fst snd]. generalize t, w0.
  induction fuel as [|fuel IH]; intros t0 w2 r Hp Hm; [done|].
  rewrite Pages.for_pages_S in Hm. unbind Hm. destruct a0 as [[p|] r']; [|by injection Hm as <- _].
  unbind Hm. unbind E1. destruct a0 as [t2 w3]. apply handler_unmap_keeps in E1; [|done]. by eapply IH.
Qed.
End preservation.
