(* ===== verification/KernelSpace.v ===== *)
(** * Address spaces on the machine ([arch/aarch64/memory.rs], [arch/aarch64/paging.rs])

    The address spaces of [MemorySet] over the tables of [PageTables]: what
    the processor allows in them, and the one the kernel builds for itself
    ([map_kernel], [map_physical_memory], [ioremap]).  The addresses of the
    sections come from the linker ([Symbols]). *)

From S2P Require Import Prelude Paging Handler PageTables MemorySet AddressSpace UserMemory Requests.
Import Addr Frames Table.

(** ** What the processor allows in an address space *)
Section hardware.
Context `{BM : BuildMode} {A M F : Type} `{OS : OffsetPageTableSpec A M, RI : Read F}.
Implicit Types (ms : MemorySet F (PageTableImpl M)) (w : world A) (p : Z) (l : Level) (x : Access).

(** May code at level [l] access page [p]? *)
Definition hw_access (t : PageTableImpl M) l x p : bool :=
  match view t !! p with Some e => hw_allows l x e | None => false end.

(** Is the page in memory? *)
Definition resident (t : PageTableImpl M) p : bool :=
  match view t !! p with Some e => present e | None => false end.

Lemma sealed_allows l x a e : attrs_ok a e -> hw_allows l x e = present e && attr_allows l x a.
Proof.
  intros ((Haf & Hwr & Hx) & Hu & Hw & He). cbn [user writable execute present PageEntryOps] in *.
  unfold hw_allows, pte_present, pte_writable, pte_execute, pte_user, attr_allows in *.
  rewrite Haf, andb_true_r. f_equal. rewrite <- Hu. rewrite Hwr in Hw. clear Hu Hwr Haf.
  destruct (has e AP_EL0), (has e UXN), (has e PXN), (has e AP_RO), (Attr.readonly a), (Attr.execute a);
    try discriminate; by destruct l, x.
Qed.

Lemma hardware_enforces R ms w p l x :
  vm_inv R ms w ->
  hw_access (page_table ms) l x p
  = resident (page_table ms) p && match lookup_page (areas ms) p with Some (a, _) => attr_allows l x a | None => false end.
Proof.
  intros (_ & _ & [Hp _ _ _]). specialize (Hp p). unfold hw_access, resident.
  destruct (lookup_page (areas ms) p) as [[a h]|], (view (page_table ms) !! p) as [e|]; try done.
  destruct Hp as (Ha & _). by apply sealed_allows.
Qed.

Lemma linear_resident R ms w p a o :
  vm_inv R ms w -> lookup_page (areas ms) p = Some (a, Linear o) -> resident (page_table ms) p = true.
Proof.
  intros (_ & _ & [Hp _ _ _]) Hl. specialize (Hp p). rewrite Hl in Hp. unfold resident.
  destruct (view (page_table ms) !! p); [|done]. by destruct Hp as (_ & [? _] & _).
Qed.


(** A fault that [handle_page_fault] resolves does not come back: after it
    the page can be accessed in every way its area allows. *)
Theorem fault_makes_accessible `{!ReadSpec} R ms w addr a e l x :
  vm_inv R ms w -> mem_wf w -> find (fun a => contains a addr) (areas ms) = Some a ->
  view (page_table ms) !! (addr / 4096) = Some e -> present e = false ->
  is_lazy (handler a) = true -> fault_ok (handler a) addr -> (0 < avail (fa w))%nat ->
  hw_access (page_table ms) l x (addr / 4096) = false
  /\ exists ms' w', handle_page_fault ms w addr = Ret (true, ms', w')
     /\ hw_access (page_table ms') l x (addr / 4096) = attr_allows l x (attr a).
Proof.
  intros Hinv Hwf Hf Hv Hpr Hl Hok Hav. split.
  { unfold hw_access. rewrite Hv. unfold hw_allows. change (has e VALID) with (present e). by rewrite Hpr. }
  destruct (fault_spec R ms w addr a e) as (ms' & w' & Hh & Har & Hinv' & (e' & Hv' & Hpr' & _)); [done..|].
  exists ms', w'. split; [done|].
  destruct (find_area_page (areas ms) addr a) as (Hlk & _); [apply Hinv|done|].
  destruct Hinv' as (_ & _ & [Hp _ _ _]). specialize (Hp (addr / 4096)). rewrite Har, Hlk in Hp.
  unfold hw_access. rewrite Hv', lookup_insert_eq in Hp |- *. destruct Hp as (Ha & _).
  by rewrite (sealed_allows l x (attr a) e') , Hpr' by done.
Qed.
End hardware.

(** ** The kernel's own address space *)

(** The section boundaries of the linker script, as [symbol_addr!] reads them. *)
Class Symbols := {
  stext : Z; etext : Z; srodata : Z; erodata : Z; sgot : Z; egot : Z; sdata : Z; edata : Z;
  bootstack : Z; bootstacktop : Z; sbss : Z; ebss : Z;
}.

(** [align_down], [align_up] and [Frame::<Size2MiB>::range_of] of the crate. *)
Class Blocks := {
  align_down : Z -> Z -> Z;
  align_up : Z -> Z -> Z;
  frames_2mib : Z -> Z -> list Z;
}.

Definition ALIGN_2MIB : Z := 0x200000.
Definition PERIPHERALS_START : Z := 0x08000000.
Definition PERIPHERALS_END : Z := 0x10000000.

Class BlocksSpec `{Blocks} := {
  align_down_spec a : 0 <= a -> align_down a ALIGN_2MIB = a / ALIGN_2MIB * ALIGN_2MIB;
  align_up_spec a : 0 <= a -> align_up a ALIGN_2MIB = (a + (ALIGN_2MIB - 1)) / ALIGN_2MIB * ALIGN_2MIB;
  frames_2mib_spec i j : 0 <= i <= j ->
    frames_2mib (i * ALIGN_2MIB) (j * ALIGN_2MIB) = (fun k => k * ALIGN_2MIB) <$> seqZ i (j - i);
}.

Section kernel_space.
Context `{BuildMode} {A M F : Type}.
Context `{PL : PteLayout, FI : FrameAllocator A, OI : OffsetPageTable A M, RI : Read F, SY : Symbols, BL : Blocks}.
Abbreviation mset := (MemorySet F (PageTableImpl M)).

(** [PageTableImpl::map_physical_memory]: 2 MiB blocks. *)
Definition block_flags : Z := Z.lor (Z.lor default_block (mask UXN)) (mask PXN).

Definition map_block (s : PageTableImpl M * A) (paddr : Z) : outcome (PageTableImpl M * A) :=
  vaddr ← phys_to_virt paddr;
  x ← opt_map_block allocate_frame (opt s.1) s.2 (vaddr / ALIGN_2MIB) paddr block_flags MairNormal;
  m ← expect "failed to map physical memory" x.1;
  Ret (flush_page (mkImpl m (root_frame s.1) (tlb_stale s.1)) (page_of vaddr), x.2).

Definition map_physical_memory (t : PageTableImpl M) (a : A) (start end0 : Z) : outcome (PageTableImpl M * A) :=
  foldM map_block (t, a) (frames_2mib (align_down start ALIGN_2MIB) (align_up end0 ALIGN_2MIB)).

(** [MMIOType as u8] in an attribute. *)
Definition device_attr (m : MMIOType) : MemoryAttr := Attr.mmio_ Attr.default (mmio_code m).

(** [-(KERNEL_OFFSET as isize)] *)
Definition kernel_linear : outcome (MemoryHandler F) :=
  offset ← isub 0 (as_i64 KERNEL_OFFSET); Ret (Linear offset).

(** [map_kernel]: the new [KERNEL_MEMORY_SET] and the registers. *)
Definition map_kernel (mem_start mem_end : Z) (w : world A) (mmu : Mmu) : outcome (mset * world A * Mmu) :=
  linear ← kernel_linear;
  s ← MemorySet.new w;
  s ← push s.1 s.2 stext etext (Attr.readonly_ (Attr.execute_ Attr.default)) linear "text";
  s ← push s.1 s.2 sdata edata Attr.default linear "data";
  s ← push s.1 s.2 srodata erodata (Attr.readonly_ Attr.default) linear "rodata";
  s ← push s.1 s.2 sgot egot Attr.default linear "got";
  s ← push s.1 s.2 sbss ebss Attr.default linear "bss";
  s ← push s.1 s.2 bootstack bootstacktop Attr.default linear "kstack";
  s ← push s.1 s.2 PERIPHERALS_START PERIPHERALS_END (device_attr Device) (Linear 0) "peripherals";
  x ← map_physical_memory (page_table s.1) (fa s.2) mem_start mem_end;
  Ret (mkSet (areas s.1) x.1, with_fa s.2 x.2, activate_as_kernel x.1 mmu).

(** [init_other]: the other processors take over the kernel's table. *)
Definition init_other (kms : option mset) (mmu : Mmu) : Mmu :=
  match kms with Some ms => activate_as_kernel (page_table ms) mmu | None => mmu end.

(** [ioremap]: the new [KERNEL_MEMORY_SET] and the address. *)
Definition ioremap (kms : option mset) (w : world A) (paddr len : Z) (nm : string) : outcome (Z * option mset * world A) :=
  linear ← kernel_linear;
  let vaddr := wadd paddr KERNEL_OFFSET in
  match kms with
  | Some ms =>
      e ← uadd vaddr len;
      s ← push ms w vaddr e (device_attr NormalNonCacheable) linear nm;
      Ret (vaddr, Some s.1, s.2)
  | None => Ret (0, kms, w)
  end.

(** The pushes of [map_kernel] as requests. *)
Definition kernel_offset : Z := 2 ^ 48.
Definition kernel_requests : list (Request F) :=
  let linear := Linear kernel_offset in
  [mkReq stext etext (Attr.readonly_ (Attr.execute_ Attr.default)) linear "text";
   mkReq sdata edata Attr.default linear "data";
   mkReq srodata erodata (Attr.readonly_ Attr.default) linear "rodata";
   mkReq sgot egot Attr.default linear "got";
   mkReq sbss ebss Attr.default linear "bss";
   mkReq bootstack bootstacktop Attr.default linear "kstack";
   mkReq PERIPHERALS_START PERIPHERALS_END (device_attr Device) (Linear 0) "peripherals"].

Lemma kernel_linear_eq : kernel_linear = Ret (Linear kernel_offset).
Proof. by unfold kernel_linear, isub, i64, arith, KERNEL_OFFSET, as_i64, wrap, kernel_offset. Qed.

Lemma map_kernel_requests mem_start mem_end w mmu :
  map_kernel mem_start mem_end w mmu =
  s ← MemorySet.new w;
  s ← foldM push_req s kernel_requests;
  x ← map_physical_memory (page_table s.1) (fa s.2) mem_start mem_end;
  Ret (mkSet (areas s.1) x.1, with_fa s.2 x.2, activate_as_kernel x.1 mmu).
Proof.
  unfold map_kernel. rewrite kernel_linear_eq. sret. destruct (MemorySet.new w) as [s|]; [|done].
  unfold kernel_requests, push_req. cbn [mbind outcome_bind foldM r_start r_end r_attr r_handler r_name].
  repeat match goal with |- context [push ?a ?b ?c ?d ?e ?f ?g] => destruct (push a b c d e f g); cbn [mbind outcome_bind]; [|done] end.
  done.
Qed.
End kernel_space.

Section kernel_space_laws.
Context `{BM : BuildMode} {A M F : Type} `{OS : OffsetPageTableSpec A M, RI : Read F, SY : Symbols, BS : BlocksSpec}.
Implicit Types (t : PageTableImpl M) (a : A) (w : world A) (p : Z).

(** *** The direct map of physical memory *)

(** The block that holds the 2 MiB of physical memory number [k]. *)
Definition direct_page (k : Z) : Z := k + PHYSICAL_MEMORY_OFFSET / ALIGN_2MIB.
Definition direct_entry (k : Z) : Z := pte_set_addr (k * ALIGN_2MIB) block_flags MairNormal.

Definition direct_free t (k : Z) : Prop :=
  opt_page_ok (direct_page k * 512) /\ opt_blocks (opt t) !! direct_page k = None
  /\ forall p, p / 512 = direct_page k -> opt_view (opt t) !! p = None.

(** Mapping blocks changes no page and leaves no page stale. *)
Record extends t a t' a' (i n : Z) : Prop := {
  ext_view : opt_view (opt t') = opt_view (opt t);
  ext_stale : tlb_stale t' ⊆ tlb_stale t;
  ext_root : root_frame t' = root_frame t;
  ext_new k : i <= k < i + n -> opt_blocks (opt t') !! direct_page k = Some (direct_entry k);
  ext_old q : (forall k, i <= k < i + n -> q ≠ direct_page k) -> opt_blocks (opt t') !! q = opt_blocks (opt t) !! q;
  ext_owned : owned a ⊆ owned a';
  ext_avail : (avail a <= avail a' + 2 * Z.to_nat n)%nat;
}.

Lemma map_block_spec t a k :
  0 <= k < 2 ^ 26 -> direct_free t k -> (2 <= avail a)%nat ->
  exists t' a', map_block (t, a) (k * ALIGN_2MIB) = Ret (t', a') /\ extends t a t' a' k 1.
Proof.
  intros Hk (Hok & Hb & Hv) Ha. unfold map_block, phys_to_virt.
  assert (Hoff : PHYSICAL_MEMORY_OFFSET = PHYSICAL_MEMORY_OFFSET / ALIGN_2MIB * ALIGN_2MIB) by done.
  rewrite uadd_ok by (unfold PHYSICAL_MEMORY_OFFSET, ALIGN_2MIB; lia). cbn [mbind outcome_bind fst snd].
  assert (Hq : (k * ALIGN_2MIB + PHYSICAL_MEMORY_OFFSET) / ALIGN_2MIB = direct_page k).
  { rewrite Hoff, <- Z.mul_add_distr_r. by rewrite Z.div_mul. }
  rewrite Hq.
  destruct (opt_map_block_spec allocate_frame (opt t) a (direct_page k) (k * ALIGN_2MIB) block_flags MairNormal)
    as (m' & a' & -> & Hbl & Hvw & Ho & Hav); try done.
  { apply allocate_frame_hands_out. }
  { unfold direct_page. change (PHYSICAL_MEMORY_OFFSET / ALIGN_2MIB) with 0x7fffc000000. lia. }
  cbn [mbind outcome_bind expect fst snd]. do 2 eexists. split; [done|]. split; cbn [opt tlb_stale root_frame flush_page].
  - done.
  - set_solver.
  - done.
  - intros k' Hk'. replace k' with k by lia. by rewrite Hbl, lookup_insert_eq.
  - intros q Hn. rewrite Hbl, lookup_insert_ne; [done|]. intros <-. apply (Hn k); [lia|done].
  - done.
  - lia.
Qed.

Lemma map_blocks_spec n : forall t a i,
  0 <= i -> i + Z.of_nat n <= 2 ^ 26 -> (forall k, i <= k < i + Z.of_nat n -> direct_free t k) ->
  (2 * n <= avail a)%nat ->
  exists t' a', foldM map_block (t, a) ((fun k => k * ALIGN_2MIB) <$> seqZ i (Z.of_nat n)) = Ret (t', a')
    /\ extends t a t' a' i (Z.of_nat n).
Proof.
  induction n as [|n IH]; intros t a i Hi Hn Hfree Ha.
  { exists t, a. split; [done|]. split; try done; lia. }
  rewrite seqZ_cons by lia. cbn [fmap list_fmap foldM].
  destruct (map_block_spec t a i) as (t1 & a1 & -> & Hx); [lia|apply Hfree; lia|lia|]. sret.
  replace (Z.pred (Z.of_nat (S n))) with (Z.of_nat n) by lia.
  destruct Hx as [Hv1 Hs1 Hr1 Hn1 Ho1 Hw1 Ha1].
  destruct (IH t1 a1 (Z.succ i)) as (t' & a' & Hf & [Hv2 Hs2 Hr2 Hn2 Ho2 Hw2 Ha2]); [lia|lia| |lia|].
  { intros k Hk. destruct (Hfree k ltac:(lia)) as (? & ? & ?). split_and!; [done| |by rewrite Hv1].
    rewrite Ho1; [done|]. intros k' Hk'. unfold direct_page. lia. }
  replace (i + 1) with (Z.succ i) by lia.
  exists t', a'. split; [done|]. split.
  - congruence.
  - set_solver.
  - congruence.
  - intros k Hk. destruct (Z.eq_dec k i) as [->|]; [|apply Hn2; lia].
    rewrite Ho2; [apply Hn1; lia|]. intros k' Hk'. unfold direct_page. lia.
  - intros q Hq. rewrite Ho2, Ho1; [done| |]; intros k Hk; apply Hq; lia.
  - set_solver.
  - lia.
Qed.

(** *** The sections *)

(** The order of the sections in the linker script. *)
Definition layout_ok : Prop :=
  Forall aligned [stext; etext; srodata; erodata; sgot; egot; sdata; edata; bootstack; bootstacktop; sbss; ebss]
  /\ KERNEL_OFFSET <= stext < etext /\ etext <= srodata <= erodata /\ erodata <= sgot <= egot /\ egot <= sdata <= edata
  /\ edata <= bootstack <= bootstacktop /\ bootstacktop <= sbss <= ebss /\ ebss <= KERNEL_OFFSET + 2 ^ 46.

(** A request whose ends are page boundaries. *)
Lemma r_has_aligned (r : Request F) p :
  aligned (r_start r) -> aligned (r_end r) -> r_has r p = true <-> r_start r <= p * 4096 < r_end r.
Proof.
  intros Hs He. destruct (aligned_pages _ Hs) as [s Es], (aligned_pages _ He) as [e Ee].
  unfold r_has, r_lo, r_hi. rewrite Es, Ee, Z.div_mul by lia.
  replace ((e * 4096 + 4095) / 4096) with e by (apply (Z.div_unique _ _ _ 4095); lia).
  rewrite !andb_true_iff, Z.leb_le, !Z.ltb_lt. lia.
Qed.

Lemma apart_aligned (r1 r2 : Request F) :
  Forall aligned [r_start r1; r_end r1; r_start r2; r_end r2] ->
  r_end r1 <= r_start r2 \/ r_end r2 <= r_start r1 -> apart r1 r2.
Proof.
  rewrite !Forall_cons. intros (? & ? & ? & ? & _) Hd p Hp. apply r_has_aligned in Hp; [|done..].
  apply not_true_iff_false. intros Hq. apply r_has_aligned in Hq; [|done..]. lia.
Qed.

Lemma linear_mappable p (off : Z) :
  page_ok p -> is_u64 (p * 4096) -> 0 <= as_i64 (p * 4096) + off < 2 ^ 47 -> off mod 4096 = 0 ->
  mappable (F := F) (Linear off) p.
Proof.
  intros Hok Hp Hr Ho. split; [done|]. split; [unfold is_i64; lia|]. unfold linear_target, as_u64, frame_addr.
  rewrite Z.mod_small by lia. split; [|lia]. unfold aligned.
  assert (exists k, as_i64 (p * 4096) = k * 4096) as [k Hk].
  { unfold is_u64 in Hp. destruct (Z.lt_ge_cases (p * 4096) (2 ^ 63)).
    - rewrite as_i64_small by lia. by exists p.
    - rewrite as_i64_big by lia. exists (p - 2 ^ 52). lia. }
  rewrite Hk, Z.add_mod, Ho, Z.mod_mul by lia. done.
Qed.

Lemma kernel_requests_aligned : layout_ok -> Forall (fun r => aligned (r_start r) /\ aligned (r_end r)) (kernel_requests (F := F)).
Proof. intros (Hal & _). rewrite !Forall_cons in Hal. unfold kernel_requests. repeat constructor; cbn; try tauto; done. Qed.

(** Which pages the kernel's table has to translate. *)
Definition kernel_pages_ok (mem_start mem_end : Z) : Prop :=
  (forall p, PERIPHERALS_START <= p * 4096 < PERIPHERALS_END \/ stext <= p * 4096 < ebss -> opt_page_ok p)
  /\ (forall k, mem_start / ALIGN_2MIB <= k < (mem_end + (ALIGN_2MIB - 1)) / ALIGN_2MIB -> opt_page_ok (direct_page k * 512)).

Lemma kernel_requests_ok mem_start mem_end :
  layout_ok -> kernel_pages_ok mem_start mem_end -> Forall req_ok (kernel_requests (F := F)).
Proof.
  intros Hl [Hok _]. pose proof (kernel_requests_aligned Hl) as Hal. destruct Hl as (_ & Hl).
  assert (Hreq : forall r, In r (kernel_requests (F := F)) -> exists o, r_handler r = Linear o /\ o mod 4096 = 0
            /\ ((PERIPHERALS_START = r_start r /\ r_end r = PERIPHERALS_END /\ o = 0)
                 \/ (stext <= r_start r /\ r_end r <= ebss /\ o = kernel_offset))).
  { unfold kernel_requests. cbn [In]. intros r Hr.
    repeat (destruct Hr as [<-|Hr]; [eexists; split; [reflexivity|]; split; [done|]; cbn [r_start r_end];
      first [left; split_and!; done|right; split_and!; [lia..|done]]|]). done. }
  rewrite List.Forall_forall in *. intros r Hr. destruct (Hal r Hr) as [Hs He], (Hreq r Hr) as (o & Ho & Hmod & Hcase).
  unfold PERIPHERALS_START, PERIPHERALS_END, KERNEL_OFFSET in *.
  split; [lia|]. split; [lia|]. intros p Hp. apply r_has_aligned in Hp; [|done..]. rewrite Ho.
  apply linear_mappable; [apply Hok; lia|unfold is_u64; lia| |done].
  destruct Hcase as [(? & ? & ->)|(? & ? & ->)].
  - rewrite as_i64_small by lia. lia.
  - rewrite as_i64_big by lia. unfold kernel_offset. lia.
Qed.

Lemma kernel_requests_apart : layout_ok -> ForallOrdPairs apart (kernel_requests (F := F)).
Proof.
  intros Hl. pose proof (kernel_requests_aligned Hl) as Hal. destruct Hl as (_ & Hl).
  unfold PERIPHERALS_START, PERIPHERALS_END, KERNEL_OFFSET in *. unfold kernel_requests in *. rewrite !Forall_cons in Hal.
  repeat (constructor; [repeat (constructor; [apply apart_aligned; [repeat constructor; tauto|cbn -[Z.pow]; unfold PERIPHERALS_START, PERIPHERALS_END; lia]|]); by constructor|]).
  constructor.
Qed.

(** The invariant only looks at the entries and the stale pages. *)
Lemma agree_view R (σ : @vspace F) t t' own :
  view t' = view t -> stale t' = ∅ -> agree R σ t own -> agree R σ t' own.
Proof. intros Hv Hs [Hp Hi Hst Hr]. split; rewrite ?Hv; done. Qed.

Lemma new_vm_inv w : (0 < avail (fa w))%nat ->
  exists t w', MemorySet.new (F := F) w = Ret (mkSet [] t, w') /\ vm_inv (F := F) (owned (fa w)) (mkSet [] t) w'
    /\ opt_blocks (opt t) = ∅ /\ aligned (root_frame t) /\ (avail (fa w) <= avail (fa w') + 1)%nat /\ mem w' = mem w.
Proof.
  intros Ha. destruct (alloc_spec (fa w) Ha) as (f & a' & Hal & Hf & _ & Ho & Hav).
  unfold MemorySet.new. cbn [pt_new PageTableImplOps]. unfold new_bare, frame_to_page_table, phys_to_virt. rewrite Hal.
  cbn [mbind outcome_bind expect fst snd]. rewrite frame_of_frame by done. destruct Hf as [Hal' Hf].
  rewrite uadd_ok by (unfold PHYSICAL_MEMORY_OFFSET; lia). sret. destruct (opt_new_spec f) as [Hv Hb].
  do 2 eexists. split; [done|]. cbn [opt root_frame]. split_and!; try done; [|cbn [fa with_fa snd]; lia].
  split; [split; constructor|]. split; [by constructor|]. split.
  - intros p. cbn [areas page_table view PageTableImplSpec opt fst]. by rewrite lookup_page_nil, Hv, fmap_empty, lookup_empty.
  - intros *. cbn [areas]. by rewrite lookup_page_nil.
  - done.
  - cbn [fa with_fa snd]. set_solver.
Qed.

(** The image and the devices are below the direct map. *)
Lemma kernel_pages_below p k r :
  layout_ok -> In r (kernel_requests (F := F)) -> r_has r p = true -> 0 <= k -> p / 512 ≠ direct_page k.
Proof.
  intros Hl Hin Hrp Hk Hpk. pose proof (kernel_requests_aligned Hl) as Hal. rewrite List.Forall_forall in Hal.
  destruct (Hal r Hin) as [Has Hae]. apply r_has_aligned in Hrp; [|done..].
  pose proof (Z.div_mod p 512). pose proof (Z.mod_pos_bound p 512). rewrite Hpk in *. unfold direct_page in *.
  change (PHYSICAL_MEMORY_OFFSET / ALIGN_2MIB) with 0x7fffc000000 in *. destruct Hl as (_ & Hl).
  assert (r_end r <= ebss \/ r_end r = PERIPHERALS_END) as Hre.
  { clear -Hin Hl. unfold kernel_requests in Hin. cbn [In] in Hin.
    repeat (destruct Hin as [<-|Hin]; [cbn [r_end]; first [by right|left; lia]|]). done. }
  unfold PERIPHERALS_END, KERNEL_OFFSET in *. lia.
Qed.

Lemma kernel_direct_free R ms w t0 k :
  layout_ok -> vm_inv (F := F) R ms w -> (forall p, lookup_page (areas ms) p = reqs_vspace kernel_requests (fun _ => None) p) ->
  opt_blocks (opt (page_table ms)) = opt_blocks (opt t0) -> opt_blocks (opt t0) = ∅ ->
  0 <= k -> opt_page_ok (direct_page k * 512) -> direct_free (page_table ms) k.
Proof.
  intros Hl Hinv Hlk Hb Hb0 Hk Hok. split; [done|]. split; [by rewrite Hb, Hb0, lookup_empty|]. intros p Hpk.
  pose proof (agree_page _ _ _ _ (proj2 (proj2 Hinv)) p) as Hag. rewrite Hlk in Hag. unfold reqs_vspace in Hag.
  destruct (find _ _) as [r|] eqn:Hfd.
  - apply find_some in Hfd as [Hin Hrp]. by destruct (kernel_pages_below p k r).
  - cbn in Hag. rewrite lookup_fmap in Hag. by destruct (opt_view _ !! p).
Qed.

(** Pushing leaves blocks and root of the table alone. *)
Lemma push_all_blocks (rs : list (Request F)) ms w ms' w' :
  foldM push_req (ms, w) rs = Ret (ms', w') ->
  opt_blocks (opt (page_table ms')) = opt_blocks (opt (page_table ms)) /\ root_frame (page_table ms') = root_frame (page_table ms).
Proof.
  intros Hp.
  refine (push_all_keeps (fun t => opt_blocks (opt t) = opt_blocks (opt (page_table ms)) /\ root_frame t = root_frame (page_table ms))
            _ _ _ rs (ms, w) (ms', w') _ Hp); [| |done|done].
  - intros t a addr tgt t' a' [Hb Hr] Hmap. cbn [pt_map PageTableImplOps] in Hmap. unfold impl_map in Hmap.
    unbind Hmap. destruct a0 as [[m|] a0]; [|done]. cbn [expect mbind outcome_bind fst snd] in Hmap. unbind Hmap.
    injection Hmap as <- _. cbn [opt root_frame flush_page]. by rewrite (opt_map_to_blocks _ _ _ _ _ _ _ _ _ E).
  - intros t addr e [Hb Hr]. cbn [pt_set_entry PageTableImplOps impl_set_entry opt root_frame]. by rewrite opt_write_blocks.
Qed.

(** The 2 MiB frames of the physical memory [mem_start, mem_end). *)
Definition first_block (mem_start : Z) : Z := mem_start / ALIGN_2MIB.
Definition end_block (mem_end : Z) : Z := (mem_end + (ALIGN_2MIB - 1)) / ALIGN_2MIB.

Lemma blocks_range mem_start mem_end :
  0 <= mem_start <= mem_end -> mem_end + ALIGN_2MIB <= 2 ^ 46 ->
  0 <= first_block mem_start <= end_block mem_end /\ end_block mem_end <= 2 ^ 25.
Proof.
  intros Hm Hend. unfold first_block, end_block. split_and!.
  - apply Z.div_pos; [lia|done].
  - apply Z.div_le_mono; [done|unfold ALIGN_2MIB; lia].
  - apply Z.div_le_upper_bound; unfold ALIGN_2MIB in *; lia.
Qed.

(** What [map_kernel] builds. *)
Lemma map_kernel_spec mem_start mem_end w mmu :
  layout_ok -> kernel_pages_ok mem_start mem_end -> 0 <= mem_start <= mem_end -> mem_end + ALIGN_2MIB <= 2 ^ 46 ->
  (1 + 4 * cost (kernel_requests (F := F)) + 2 * Z.to_nat (end_block mem_end - first_block mem_start) <= avail (fa w))%nat ->
  exists ms w' mmu', map_kernel (F := F) mem_start mem_end w mmu = Ret (ms, w', mmu')
    /\ vm_inv (owned (fa w)) ms w' /\ ttbr1 mmu' = root_frame (page_table ms)
    /\ (forall p, lookup_page (areas ms) p = reqs_vspace kernel_requests (fun _ => None) p)
    /\ (forall k, first_block mem_start <= k < end_block mem_end ->
          opt_blocks (opt (page_table ms)) !! direct_page k = Some (direct_entry k)).
Proof.
  intros Hl Hpg Hm Hend Hav. rewrite map_kernel_requests.
  destruct (new_vm_inv w) as (t0 & w0 & -> & Hinv0 & Hb0 & Hr0 & Hav0 & Hm0); [lia|]. sret.
  destruct (push_all_spec (owned (fa w)) (kernel_requests (F := F)) (mkSet [] t0) w0)
    as (ms1 & w1 & Hp & Hinv1 & Hl1 & Ho1 & Hav1 & Hm1); try done; [by eapply kernel_requests_ok|by apply kernel_requests_apart|by left|lia|].
  rewrite Hp. cbn [mbind outcome_bind fst snd]. destruct (push_all_blocks _ _ _ _ _ Hp) as [Hb1 Hr1].
  assert (Hl1' : forall p, lookup_page (areas ms1) p = reqs_vspace kernel_requests (fun _ => None) p).
  { intros p. rewrite Hl1. unfold reqs_vspace. cbn [areas]. by rewrite lookup_page_nil. }
  destruct (blocks_range mem_start mem_end Hm Hend) as [Hij Hj].
  unfold map_physical_memory. rewrite align_down_spec, align_up_spec by lia.
  fold (first_block mem_start) (end_block mem_end). rewrite frames_2mib_spec by lia.
  destruct (map_blocks_spec (Z.to_nat (end_block mem_end - first_block mem_start)) (page_table ms1) (fa w1) (first_block mem_start))
    as (t2 & a2 & Hf & [Hv2 Hs2 Hr2 Hn2 _ Ho2 _]); [lia|lia| |lia|].
  { intros k Hk. eapply (kernel_direct_free _ ms1 w1 t0); try done; [lia|]. apply Hpg. unfold first_block, end_block in *. lia. }
  rewrite Z2Nat.id in Hf, Hn2 by lia. rewrite Hf. cbn [mbind outcome_bind fst snd].
  do 3 eexists. split; [done|]. cbn [areas page_table ttbr1 activate_as_kernel flush_tlb ttbr1_write token]. split_and!.
  - destruct Hinv1 as (Hw1 & Hmp1 & Hag1). split; [done|]. split; [done|].
    eapply agree_mono; [exact Ho2|]. eapply agree_view; [| |exact Hag1].
    + cbn. by rewrite Hv2.
    + pose proof (agree_stale _ _ _ _ Hag1) as Hst. cbn [stale PageTableImplSpec] in *. rewrite Hst in Hs2.
      by apply (anti_symm (⊆)).
  - unfold token. rewrite Hr2, Hr1. by apply frame_of_aligned.
  - done.
  - intros k Hk. apply Hn2. lia.
Qed.

(** What the requests of the kernel allow. *)
Lemma kernel_protection R (ms : MemorySet F (PageTableImpl M)) w :
  layout_ok -> vm_inv R ms w -> (forall p, lookup_page (areas ms) p = reqs_vspace kernel_requests (fun _ => None) p) ->
  forall p, (forall x, hw_access (page_table ms) EL0 x p = false)
    /\ (hw_access (page_table ms) EL1 Fetch p && hw_access (page_table ms) EL1 Store p)%bool = false
    /\ (hw_access (page_table ms) EL1 Fetch p = true <-> stext <= p * 4096 < etext).
Proof.
  intros Hl Hinv Hlk p.
  assert (Hal := kernel_requests_aligned Hl). destruct Hl as (_ & Hl).
  assert (Hhw : forall l x, hw_access (page_table ms) l x p = resident (page_table ms) p
            && match reqs_vspace (F := F) kernel_requests (fun _ => None) p with Some (a, _) => attr_allows l x a | None => false end).
  { intros l x. rewrite <- Hlk. by eapply hardware_enforces. }
  assert (Hreq : forall r, In r (kernel_requests (F := F)) -> Attr.user (r_attr r) = false
            /\ ((r_start r = stext /\ r_end r = etext /\ Attr.execute (r_attr r) = true /\ Attr.readonly (r_attr r) = true)
                 \/ (Attr.execute (r_attr r) = false /\ (r_end r <= stext \/ etext <= r_start r)))
            /\ exists o, r_handler r = Linear o).
  { unfold kernel_requests. cbn [In]. intros r Hr. unfold PERIPHERALS_END, KERNEL_OFFSET in *.
    repeat (destruct Hr as [<-|Hr]; [split; [done|]; split; [|by eexists]; cbn [r_start r_end];
      first [left; by split_and!|right; split; [done|lia]]|]). done. }
  unfold reqs_vspace in *. specialize (Hlk p).
  destruct (find (fun r => r_has r p) kernel_requests) as [r|] eqn:Hfd.
  - apply find_some in Hfd as [Hin Hrp]. rewrite List.Forall_forall in Hal. destruct (Hal r Hin) as [Has Hae].
    apply r_has_aligned in Hrp; [|done..]. destruct (Hreq r Hin) as (Hu & Hx & o & Ho). unfold r_value in *.
    rewrite Ho in Hlk. rewrite (linear_resident _ _ _ _ _ _ Hinv Hlk) in Hhw.
    destruct Hx as [(Hs & He & Hx & Hro)|[Hx Hd']].
    + split; [|split]; [intros x|..]; rewrite !Hhw; cbn; rewrite ?Hu, ?Hx, ?Hro; [by destruct x|done|]. cbn. split; [lia|done].
    + split; [|split]; [intros x|..]; rewrite !Hhw; cbn; rewrite ?Hu, ?Hx; [by destruct x|done|]. cbn. split; [done|lia].
  - assert (Hn : ~ stext <= p * 4096 < etext).
    { intros Ht'. eapply find_none in Hfd; [|left; reflexivity]. apply not_true_iff_false in Hfd. apply Hfd.
      apply r_has_aligned; cbn; [..|done]; rewrite List.Forall_forall in Hal; eapply (Hal (mkReq stext etext _ _ _)); by left. }
    split; [|split]; [intros x|..]; rewrite !Hhw, andb_false_r; [done..|]. split; [done|lia].
Qed.

End kernel_space_laws.

(** ** A concrete machine

    2^18 frames, an image of 20 pages at 512 KiB, 4 MiB of memory. *)
From S2P Require Import Mock MockTables.

Section concrete.
#[local] Existing Instance release.
#[local] Instance image : Symbols := {|
  stext := KERNEL_OFFSET + 0x80000; etext := KERNEL_OFFSET + 0x88000;
  srodata := KERNEL_OFFSET + 0x88000; erodata := KERNEL_OFFSET + 0x8a000;
  sgot := KERNEL_OFFSET + 0x8a000; egot := KERNEL_OFFSET + 0x8b000;
  sdata := KERNEL_OFFSET + 0x8b000; edata := KERNEL_OFFSET + 0x8d000;
  bootstack := KERNEL_OFFSET + 0x8d000; bootstacktop := KERNEL_OFFSET + 0x90000;
  sbss := KERNEL_OFFSET + 0x90000; ebss := KERNEL_OFFSET + 0x94000;
|}.
#[local] Instance blocks : Blocks := {|
  align_down a n := a / n * n;
  align_up a n := (a + (n - 1)) / n * n;
  frames_2mib s e := (fun k => k * ALIGN_2MIB) <$> seqZ (s / ALIGN_2MIB) (e / ALIGN_2MIB - s / ALIGN_2MIB);
|}.
#[local] Instance blocks_spec : BlocksSpec.
Proof.
  split; [done..|]. intros i j Hij. cbn [frames_2mib blocks]. by rewrite !Z.div_mul.
Qed.

Definition many : nat := Z.to_nat (2 ^ 18).
#[local] Instance fits_many : fits many.
Proof. unfold fits, many. rewrite Z2Nat.id; lia. Qed.

Definition big_world : world (Pool many) := mkWorld (mkMockAlloc ∅) (fun _ => replicate page_len 0).

Lemma big_avail : avail (fa big_world) = many.
Proof. change (size (frame_set many ∖ ∅) = many). by rewrite difference_empty_L, size_frame_set. Qed.


(** A program's heap of four pages, in 64 frames. *)
Definition flat_world : world MockAlloc := mkWorld (mkMockAlloc ∅) (fun _ => replicate page_len 0).
Definition heap_attr : MemoryAttr := Attr.user_ Attr.default.
Definition heap_space : MemorySet (list Z) (PageTableImpl FlatTable) * world MockAlloc :=
  match s ← MemorySet.new flat_world; push s.1 s.2 0x10000 0x14000 heap_attr Delay "heap" with
  | Ret x => x | Panic _ => (mkSet [] (mkImpl (mkFlat ∅ ∅) 0 ∅), flat_world) end.

Lemma heap_space_inv : vm_inv ∅ heap_space.1 heap_space.2.
Proof.
  destruct (new_vm_inv (M := FlatTable) (F := list Z) flat_world) as (t & w & Hn & Hinv & _); [vm_compute; lia|].
  unfold heap_space. rewrite Hn. assert (Hw : w = (match MemorySet.new (F := list Z) (T := PageTableImpl FlatTable) flat_world with Ret x => x.2 | _ => w end)) by by rewrite Hn.
  destruct (push_spec ∅ (mkSet [] t) w 0x10000 0x14000 16 20 heap_attr Delay "heap" Hinv)
    as (ms' & w' & Hp & Hinv' & _);
    [lia|vm_compute; reflexivity|vm_compute; reflexivity|lia|lia|intros; split; exact I|intros; reflexivity|rewrite Hw; vm_compute; lia|].
  by cbn [mbind outcome_bind fst snd]; rewrite Hp.
Qed.

Lemma heap_space_areas : areas heap_space.1 = [mkArea 0x10000 0x14000 heap_attr Delay "heap"].
Proof. vm_compute. reflexivity. Qed.


Lemma heap_space_wf : mem_wf heap_space.2.
Proof.
  assert (mem heap_space.2 = mem flat_world) as Hm by (vm_compute; reflexivity).
  intros f. rewrite Hm. apply length_replicate.
Qed.

Definition heap_pte : PageEntry := default (mkPte 0) (view (page_table heap_space.1) !! (0x11008 / 4096)).

Lemma fault_makes_accessible_witness :
  hw_access (page_table heap_space.1) EL0 Store (0x11008 / 4096) = false
  /\ exists ms' w', handle_page_fault heap_space.1 heap_space.2 0x11008 = Ret (true, ms', w')
     /\ hw_access (page_table ms') EL0 Store (0x11008 / 4096) = attr_allows EL0 Store heap_attr.
Proof.
  refine (fault_makes_accessible ∅ heap_space.1 heap_space.2 0x11008 (mkArea 0x10000 0x14000 heap_attr Delay "heap") heap_pte EL0 Store
    heap_space_inv heap_space_wf _ _ _ _ _ _).
  - rewrite heap_space_areas. reflexivity.
  - vm_compute. reflexivity.
  - vm_compute. reflexivity.
  - reflexivity.
  - exact I.
  - vm_compute. lia.
Defined.
End concrete.
