(* ===== verification/SpaceLife.v ===== *)
(** * The life of an address space ([memory/memory_set.rs], [arch/aarch64/paging.rs])

    Creating, activating and dropping a [MemorySet] over the tables of the
    architecture.  Dropping one unmaps its areas and then drops its page table,
    which gives the frame of the root back. *)

From S2P Require Import Prelude Paging Handler PageTables Mock MockTables MemorySet AddressSpace MemoryTheorems Requests KernelSpace.
Import Addr Frames Table.

Section life.
Context `{BM : BuildMode} {A M F : Type} `{PL : PteLayout, FI : FrameAllocator A, OI : OffsetPageTable A M, RI : Read F}.
Abbreviation mset := (MemorySet F (PageTableImpl M)).
Implicit Types (ms : MemorySet F (PageTableImpl M)) (w : world A) (mmu : Mmu).

(** [PageTableExt::new]: [map_kernel] does nothing on this architecture. *)
Definition impl_map_kernel (t : PageTableImpl M) : PageTableImpl M := t.
Definition table_new (a : A) : outcome (PageTableImpl M * A) := x ← new_bare a; Ret (impl_map_kernel x.1, x.2).

(** [MemorySet::default], [MemorySet::new_bare] *)
Definition set_default w : outcome (mset * world A) := x ← table_new (fa w); Ret (mkSet [] x.1, with_fa w x.2).
Definition set_new_bare w : outcome (mset * world A) := x ← new_bare (fa w); Ret (mkSet [] x.1, with_fa w x.2).

(** [MemorySet::iter], [with], [activate], [token], [get_page_table_mut] *)
Definition set_iter ms : list (MemoryArea F) := areas ms.
Definition set_with {S R} ms (f : Mmu -> S -> outcome (R * Mmu * S)) mmu (s : S) : outcome (R * Mmu * S) := with_table (page_table ms) f mmu s.
Definition set_activate ms mmu : Mmu := activate (page_table ms) mmu.
Definition set_token_of ms : Z := token (page_table ms).
Definition get_page_table_mut ms : PageTableImpl M := page_table ms.

(** [Drop for MemorySet], followed by the drop of its page table *)
Definition set_drop ms w : outcome (world A) :=
  x ← clear ms w; a ← impl_drop (page_table x.1) (fa x.2); Ret (with_fa x.2 a).

(** [PageTableImpl::active], [PageTableImpl::kernel_table]: [found f] is the
    mapper over the table that is in the frame [f]. *)
Definition active_table (found : Z -> M) mmu : outcome (PageTableImpl M) :=
  let frame := frame_of (active_token mmu) in
  _ ← frame_to_page_table frame;
  Ret (mkImpl (found frame) frame ∅).
Definition kernel_table (found : Z -> M) mmu : outcome (PageTableImpl M) :=
  let frame := frame_of (ttbr1 mmu) in
  _ ← frame_to_page_table frame;
  Ret (mkImpl (found frame) frame ∅).
End life.

Section laws.
Context `{BM : BuildMode} {A M F : Type} `{OS : OffsetPageTableSpec A M, FR : !FrameReturnSpec A, RI : Read F}.
Implicit Types (ms : MemorySet F (PageTableImpl M)) (w : world A) (mmu : Mmu).

Lemma clear_root ms w ms' w' : clear ms w = Ret (ms', w') -> root_frame (page_table ms') = root_frame (page_table ms).
Proof.
  intros Hc. refine (clear_keeps (fun t => root_frame t = root_frame (page_table ms)) _ _ ms w ms' w' eq_refl Hc).
  - intros t addr e Ht. exact Ht.
  - intros t addr t' Ht Hu. cbn in Hu. unfold impl_unmap in Hu. unbind Hu. injection Hu as <-. exact Ht.
Qed.

(** The table that is active after [activate] is the one activated, and the
    one after [activate_as_kernel] is the kernel's. *)
Lemma active_after_activate (found : Z -> M) (t : PageTableImpl M) mmu :
  frame_addr (root_frame t) -> found (root_frame t) = opt t -> tlb_stale t = ∅ ->
  active_table found (activate t mmu) = Ret t /\ kernel_table found (activate_as_kernel t mmu) = Ret t.
Proof.
  intros [Ha Hr] Hf Hs. assert (Hfr : frame_of (root_frame t) = root_frame t) by (unfold frame_of, aligned in *; lia).
  assert (Hp : phys_to_virt (root_frame t) = Ret (root_frame t + PHYSICAL_MEMORY_OFFSET)) by (unfold phys_to_virt; apply uadd_ok; unfold PHYSICAL_MEMORY_OFFSET; lia).
  assert (Hact : ttbr0 (activate t mmu) = root_frame t).
  { unfold activate, switch_to, active_token, token. destruct (Z.eqb_spec (ttbr0 mmu) (root_frame t)); [done|]. cbn. by rewrite Hfr. }
  unfold active_table, kernel_table, frame_to_page_table, active_token. rewrite Hact. cbn [activate_as_kernel flush_tlb ttbr1 ttbr1_write]. unfold token.
  rewrite !Hfr, Hp, Hf. cbn [mbind outcome_bind]. rewrite <- Hs. by destruct t.
Qed.

(** Dropping an address space returns: the frames that its pages used and the
    root of its table go back to the allocator, every other frame of the
    kernel stays in use, and memory is not written. *)
Theorem drop_gives_back R ms w :
  vm_inv R ms w -> root_frame (page_table ms) ∈ R ->
  exists w', set_drop ms w = Ret w' /\ all_given_back (areas ms) (page_table ms) w' /\ root_frame (page_table ms) ∉ owned (fa w')
    /\ (forall f, f ∈ R -> f <> root_frame (page_table ms) -> f ∈ owned (fa w')) /\ mem w' = mem w.
Proof.
  intros Hinv Hroot. destruct (clear_spec R ms w Hinv) as (ms1 & w1 & Hc & _ & _ & (_ & _ & Hag) & (_ & _ & Hm) & Hg).
  pose proof (agree_rest _ _ _ _ Hag) as Hsub. pose proof (clear_root _ _ _ _ Hc) as Hr. unfold set_drop. rewrite Hc. cbn [mbind outcome_bind fst snd].
  unfold impl_drop. rewrite Hr. destruct (dealloc_spec (fa w1) (root_frame (page_table ms))) as (a & -> & Ho & _); [by apply Hsub|]. sret.
  eexists. split; [done|]. cbn [fa with_fa mem]. rewrite Ho. split_and!; [|set_solver| |done].
  - intros p at_ h e Hl Hv Hu. pose proof (Hg p at_ h e Hl Hv Hu). cbn [fa with_fa]. rewrite Ho. set_solver.
  - intros f Hf Hne. apply Hsub in Hf. set_solver.
Qed.

(** Nothing takes the table of a dropped address space out of use: when it was
    active the processor goes on walking it, and its root is free. *)
Theorem dropped_table_stays_active R ms w mmu :
  vm_inv R ms w -> root_frame (page_table ms) ∈ R ->
  exists w', set_drop ms w = Ret w' /\ ttbr0 (set_activate ms mmu) = root_frame (page_table ms) /\ ttbr0 (set_activate ms mmu) ∉ owned (fa w').
Proof.
  intros Hinv Hroot. destruct (drop_gives_back R ms w Hinv Hroot) as (w' & Hd & _ & Hn & _). exists w'. split; [done|].
  assert (Hfr : frame_addr (root_frame (page_table ms))).
  { destruct Hinv as (_ & _ & Hag). apply (owned_frames (fa w)). by apply (agree_rest _ _ _ _ Hag). }
  assert (ttbr0 (set_activate ms mmu) = root_frame (page_table ms)) as ->; [|done].
  unfold set_activate, activate, switch_to, active_token, token. destruct (Z.eqb_spec (ttbr0 mmu) (root_frame (page_table ms))); [done|].
  destruct Hfr as [Ha _]. cbn. unfold frame_of, aligned in *. lia.
Qed.
End laws.
