(* ===== verification/Boot.v ===== *)
(** * Early boot ([arch/aarch64/boot/mod.rs])

    Before the kernel runs at its own addresses it builds a page table by
    hand, switches the MMU on and clears its zero-initialised data.  Memory is
    a store of 64-bit words; descriptors are built by the [aarch64] crate
    ([RawTable]) and read by the processor, whose table walk is [walk]. *)

From S2P Require Import Prelude Paging Handler PageTables MemorySet KernelSpace.

(** The words at byte addresses that are multiples of eight. *)
Abbreviation Words := (Z -> Z).
Definition store_word (a v : Z) (m : Words) : Words := fun x => if x =? a then v else m x.

(** ** The processor's table walk *)

(** A descriptor of level [l] (0 to 3), with 4 KiB granules. *)
Inductive Desc := InvalidDesc | TableDesc (next : Z) | LeafDesc (base : Z).
Definition level_shift (l : nat) : Z := 39 - 9 * Z.of_nat l.
Definition address_field (shift w : Z) : Z := w mod 2 ^ 48 / 2 ^ shift * 2 ^ shift.
Definition decode (l : nat) (w : Z) : Desc :=
  if negb (Z.testbit w 0) then InvalidDesc
  else if Z.testbit w 1
       then if (l <? 3)%nat then TableDesc (address_field 12 w) else LeafDesc (address_field 12 w)
       else if ((l =? 1) || (l =? 2))%nat then LeafDesc (address_field (level_shift l) w) else InvalidDesc.

(** The walk from level [4 - fuel] on: the physical address and the
    descriptor that says how to access it. *)
Fixpoint walk_from (fuel : nat) (m : Words) (table va : Z) : option (Z * Z) :=
  match fuel with
  | O => None
  | S rest =>
      let l := (4 - fuel)%nat in
      let w := m (table + 8 * (va / 2 ^ level_shift l mod 512)) in
      match decode l w with
      | InvalidDesc => None
      | LeafDesc base => Some (base + va mod 2 ^ level_shift l, w)
      | TableDesc next => walk_from rest m next va
      end
  end.
Definition walk (m : Words) (root va : Z) : option (Z * Z) := walk_from 4 m root va.

(** Translation with [T0SZ = T1SZ = 16] and the top byte ignored: bits 55 to
    48 choose the table. *)
Definition hw_translate (mmu : Mmu) (m : Words) (va : Z) : option (Z * Z) :=
  let top := va / 2 ^ 48 mod 256 in
  if top =? 0 then walk m (ttbr0 mmu) (va mod 2 ^ 48)
  else if top =? 255 then walk m (ttbr1 mmu) (va mod 2 ^ 48) else None.

(** ** The crate *)
Class RawTable := {
  default_table : Z;
  attr_zero : Z;
  set_frame : Z -> Z -> Z -> Z;
  set_block : Z -> Z -> Z -> Z;
  p2_index : Z -> Z;
}.

(** The flags of the boot mappings. *)
Definition boot_flags `{PteLayout} : Z := Z.lor default_block (mask UXN).

Class RawTableSpec `{PL : PteLayout} `{RawTable} := {
  set_frame_spec f : f mod 4096 = 0 -> 0 <= f < 2 ^ 48 ->
    forall l, (l < 3)%nat -> decode l (set_frame f default_table attr_zero) = TableDesc f;
  set_block_spec a flags attr : a mod ALIGN_2MIB = 0 -> 0 <= a < 2 ^ 48 ->
    flags = boot_flags \/ flags = Z.lor boot_flags (mask PXN) -> attr = MairDevice \/ attr = MairNormal ->
    decode 2 (set_block a flags attr) = LeafDesc a;
  p2_index_spec a : 0 <= a -> p2_index a = a / ALIGN_2MIB mod 512;
}.

Definition MEMORY_START : Z := 0x40000000.
Definition MEMORY_END : Z := 0x80000000.
Definition CPU_NUM : Z := 4.

(** The symbols of [entry.S] and of the linker script; [symbol_addr!] is
    relative to the program counter, so these are physical addresses. *)
Class BootSymbols := {
  page_table_lvl4 : Z; page_table_lvl3 : Z; page_table_lvl2_0 : Z; page_table_lvl2_1 : Z;
  phys_bootstacktop : Z; phys_sbss : Z; phys_ebss : Z;
}.

Section boot.
Context `{BuildMode} `{PL : PteLayout, RT : RawTable, BL : Blocks, BS : BootSymbols}.
Implicit Types m : Words.

(** [PageTable::clear] *)
Definition clear_table (a : Z) m : Words := fun x => if (a <=? x) && (x <? a + 4096) then 0 else m x.

(** [map_2mib] *)
Definition map_2mib (p2 : Z) (start end_ flag attr : Z) m : Words :=
  foldl (fun m paddr => store_word (p2 + 8 * p2_index paddr) (set_block paddr flag attr) m) m
    (frames_2mib (align_down start ALIGN_2MIB) (align_up end_ ALIGN_2MIB)).

(** [create_init_paging] *)
Definition create_init_paging m : Words :=
  let m := clear_table page_table_lvl4 m in
  let m := clear_table page_table_lvl3 m in
  let m := clear_table page_table_lvl2_0 m in
  let m := clear_table page_table_lvl2_1 m in
  let frame_lvl3 := frame_of page_table_lvl3 in
  let frame_lvl2_0 := frame_of page_table_lvl2_0 in
  let frame_lvl2_1 := frame_of page_table_lvl2_1 in
  let m := store_word (page_table_lvl4 + 8 * 0) (set_frame frame_lvl3 default_table attr_zero) m in
  let m := store_word (page_table_lvl4 + 8 * 256) (set_frame frame_lvl3 default_table attr_zero) m in
  let m := store_word (page_table_lvl3 + 8 * 0) (set_frame frame_lvl2_0 default_table attr_zero) m in
  let m := store_word (page_table_lvl3 + 8 * 1) (set_frame frame_lvl2_1 default_table attr_zero) m in
  let m := map_2mib page_table_lvl2_0 PERIPHERALS_START PERIPHERALS_END (Z.lor boot_flags (mask PXN)) MairDevice m in
  map_2mib page_table_lvl2_1 MEMORY_START MEMORY_END boot_flags MairNormal m.

(** [enable_mmu] on processor [cpuid]: the translation registers, the new
    stack pointer and the new return address. *)
Definition enable_mmu (cpuid lr : Z) (mmu : Mmu) : outcome (Mmu * Z * Z) :=
  sp ← usub phys_bootstacktop (Z.shiftl cpuid 18);
  let frame_lvl4 := frame_of page_table_lvl4 in
  let mmu := flush_tlb (ttbr1_write frame_lvl4 (ttbr0_write frame_lvl4 mmu)) in
  Ret (mmu, Addr.as_upper_range sp, Addr.as_upper_range lr).

(** [clear_bss] *)
Definition clear_bss m : Words :=
  foldl (fun m i => store_word i 0 m) m ((fun k => phys_sbss + 8 * k) <$> seqZ 0 ((phys_ebss - phys_sbss + 7) / 8)).
End boot.

(** ** What the tables say *)
Section boot_laws.
Context `{BM : BuildMode} `{RS : RawTableSpec, BLS : BlocksSpec, BS : BootSymbols}.
Implicit Types m : Words.

Definition table_ok (a : Z) : Prop := a mod 4096 = 0 /\ 0 <= a < 2 ^ 48.
Definition tables_ok : Prop :=
  Forall table_ok [page_table_lvl4; page_table_lvl3; page_table_lvl2_0; page_table_lvl2_1]
  /\ NoDup [page_table_lvl4; page_table_lvl3; page_table_lvl2_0; page_table_lvl2_1].

(** Two entries of tables are the same word only if both agree. *)
Lemma entry_inj a b i j : table_ok a -> table_ok b -> 0 <= i < 512 -> 0 <= j < 512 -> a + 8 * i = b + 8 * j -> a = b /\ i = j.
Proof.
  intros [Ha _] [Hb _] Hi Hj He. pose proof (Z.div_mod a 4096). pose proof (Z.div_mod b 4096).
  assert (a / 4096 = b / 4096) by lia. lia.
Qed.

Lemma store_entry a b i j v m : table_ok a -> table_ok b -> 0 <= i < 512 -> 0 <= j < 512 ->
  store_word (a + 8 * i) v m (b + 8 * j) = if (b =? a) && (j =? i) then v else m (b + 8 * j).
Proof.
  intros Ha Hb Hi Hj. unfold store_word. destruct (Z.eqb_spec (b + 8 * j) (a + 8 * i)) as [He|Hne].
  - destruct (entry_inj b a j i) as [-> ->]; try done. by rewrite !Z.eqb_refl.
  - destruct (Z.eqb_spec b a) as [->|]; [|done]. destruct (Z.eqb_spec j i) as [->|]; [lia|done].
Qed.

Lemma clear_entry a b j m : table_ok a -> table_ok b -> 0 <= j < 512 ->
  clear_table a m (b + 8 * j) = if b =? a then 0 else m (b + 8 * j).
Proof.
  intros [Ha _] [Hb _] Hj. unfold clear_table. pose proof (Z.div_mod a 4096). pose proof (Z.div_mod b 4096).
  destruct (Z.eqb_spec b a) as [->|Hne].
  - by rewrite (proj2 (Z.leb_le _ _)), (proj2 (Z.ltb_lt _ _)) by lia.
  - destruct (Z.leb_spec a (b + 8 * j)), (Z.ltb_spec (b + 8 * j) (a + 4096)); cbn [andb]; try done.
    assert (a / 4096 = b / 4096) by lia. lia.
Qed.

(** The frames [512 g + lo] to [512 g + lo + n - 1] in a table of level 2. *)
Lemma map_frames_spec p2 flag attr g lo n b j : forall m,
  table_ok p2 -> table_ok b -> 0 <= j < 512 -> 0 <= g -> 0 <= lo -> lo + Z.of_nat n <= 512 ->
  foldl (fun m paddr => store_word (p2 + 8 * p2_index paddr) (set_block paddr flag attr) m) m
    ((fun k => k * ALIGN_2MIB) <$> seqZ (512 * g + lo) (Z.of_nat n)) (b + 8 * j)
  = if (b =? p2) && ((lo <=? j) && (j <? lo + Z.of_nat n)) then set_block ((512 * g + j) * ALIGN_2MIB) flag attr else m (b + 8 * j).
Proof.
  induction n as [|n IH]; intros m Hp Hb Hj Hg Hlo Hn.
  { assert ((lo <=? j) && (j <? lo + Z.of_nat 0) = false) as -> by (apply andb_false_iff; rewrite Z.leb_gt, Z.ltb_ge; lia).
    by rewrite andb_false_r. }
  replace (Z.of_nat (S n)) with (Z.of_nat n + 1) by lia. rewrite seqZ_app by lia. rewrite fmap_app, foldl_app.
  cbn [seqZ fmap list_fmap foldl Z.to_nat Pos.to_nat Pos.iter_op seq].
  change (seqZ (512 * g + lo + Z.of_nat n) 1) with [0 + (512 * g + lo + Z.of_nat n)].
  cbn [fmap list_fmap foldl]. rewrite p2_index_spec by (unfold ALIGN_2MIB; lia). rewrite Z.div_mul by (unfold ALIGN_2MIB; lia).
  replace ((0 + (512 * g + lo + Z.of_nat n)) mod 512) with (lo + Z.of_nat n) by (apply Z.mod_unique with g; lia).
  rewrite store_entry by (done || lia). rewrite IH by (done || lia).
  destruct (Z.eqb_spec b p2), (Z.eqb_spec j (lo + Z.of_nat n)), (Z.leb_spec lo j), (Z.ltb_spec j (lo + Z.of_nat n)),
    (Z.ltb_spec j (lo + (Z.of_nat n + 1))); cbn [andb]; try done; try lia.
  subst j. do 2 f_equal. lia.
Qed.

Lemma map_2mib_spec p2 flag attr g lo n b j m :
  table_ok p2 -> table_ok b -> 0 <= j < 512 -> 0 <= g -> 0 <= lo -> lo + Z.of_nat n <= 512 ->
  map_2mib p2 ((512 * g + lo) * ALIGN_2MIB) ((512 * g + lo + Z.of_nat n) * ALIGN_2MIB) flag attr m (b + 8 * j)
  = if (b =? p2) && ((lo <=? j) && (j <? lo + Z.of_nat n)) then set_block ((512 * g + j) * ALIGN_2MIB) flag attr else m (b + 8 * j).
Proof.
  intros Hp Hb Hj Hg Hlo Hn. unfold map_2mib. rewrite align_down_spec, align_up_spec by (unfold ALIGN_2MIB; lia).
  rewrite Z.div_mul by (unfold ALIGN_2MIB; lia).
  replace (((512 * g + lo + Z.of_nat n) * ALIGN_2MIB + (ALIGN_2MIB - 1)) / ALIGN_2MIB) with (512 * g + lo + Z.of_nat n)
    by (unfold ALIGN_2MIB; apply Z.div_unique with 2097151; lia).
  rewrite frames_2mib_spec by lia. replace (512 * g + lo + Z.of_nat n - (512 * g + lo)) with (Z.of_nat n) by lia.
  by apply map_frames_spec.
Qed.

(** The entries of the four tables. *)
Lemma init_entry m b j :
  tables_ok -> table_ok b -> 0 <= j < 512 ->
  b ∈ [page_table_lvl4; page_table_lvl3; page_table_lvl2_0; page_table_lvl2_1] ->
  create_init_paging m (b + 8 * j)
  = if b =? page_table_lvl4 then (if (j =? 0) || (j =? 256) then set_frame page_table_lvl3 default_table attr_zero else 0)
    else if b =? page_table_lvl3 then
      (if j =? 0 then set_frame page_table_lvl2_0 default_table attr_zero
       else if j =? 1 then set_frame page_table_lvl2_1 default_table attr_zero else 0)
    else if b =? page_table_lvl2_0 then
      (if (64 <=? j) && (j <? 128) then set_block (j * ALIGN_2MIB) (Z.lor boot_flags (mask PXN)) MairDevice else 0)
    else set_block ((512 + j) * ALIGN_2MIB) boot_flags MairNormal.
Proof.
  intros [Hok Hnd] Hb Hj Hin. apply Forall_cons in Hok as [H4 Hok]. apply Forall_cons in Hok as [H3 Hok].
  apply Forall_cons in Hok as [H20 Hok]. apply Forall_cons in Hok as [H21 _].
  rewrite !NoDup_cons in Hnd. rewrite !not_elem_of_cons in Hnd. destruct Hnd as ((N1 & N2 & N3 & _) & (N4 & N5 & _) & (N6 & _) & _).
  assert (Hfr : forall a, table_ok a -> frame_of a = a) by (intros a [Ha _]; unfold frame_of; lia).
  unfold create_init_paging. cbv zeta.
  pose proof (map_2mib_spec page_table_lvl2_1 boot_flags MairNormal 1 0 512 b j) as Hm1.
  pose proof (map_2mib_spec page_table_lvl2_0 (Z.lor boot_flags (mask PXN)) MairDevice 0 64 64 b j) as Hm0.
  change ((512 * 1 + 0) * ALIGN_2MIB) with MEMORY_START in Hm1. change ((512 * 1 + 0 + Z.of_nat 512) * ALIGN_2MIB) with MEMORY_END in Hm1.
  change ((512 * 0 + 64) * ALIGN_2MIB) with PERIPHERALS_START in Hm0. change ((512 * 0 + 64 + Z.of_nat 64) * ALIGN_2MIB) with PERIPHERALS_END in Hm0.
  rewrite Hm1, Hm0 by (done || lia). clear Hm0 Hm1. rewrite !store_entry, !clear_entry by (done || lia). rewrite !Hfr by done.
  change (0 + Z.of_nat 512) with 512. change (64 + Z.of_nat 64) with 128. replace (512 * 0 + j) with j by lia. change (512 * 1) with 512.
  rewrite (proj2 (Z.leb_le 0 j)), (proj2 (Z.ltb_lt j 512)) by lia. cbn [andb]. rewrite andb_true_r.
  assert (Hz : forall x y : Z, x <> y -> (x =? y) = false) by (intros; by apply Z.eqb_neq).
  rewrite !elem_of_cons, elem_of_nil in Hin. destruct Hin as [->|[->|[->|[->|[]]]]];
    rewrite ?Z.eqb_refl, ?(Hz page_table_lvl4), ?(Hz page_table_lvl3), ?(Hz page_table_lvl2_0), ?(Hz page_table_lvl2_1) by congruence;
    cbn [andb]; try done.
  - destruct (Z.eqb_spec j 256), (Z.eqb_spec j 0); try done; lia.
  - destruct (Z.eqb_spec j 1), (Z.eqb_spec j 0); try done; lia.
Qed.

(** What the boot tables say about the physical address [pa]. *)
Definition boot_leaf (pa : Z) : option (Z * Z) :=
  let block := pa / ALIGN_2MIB * ALIGN_2MIB in
  if (PERIPHERALS_START <=? pa) && (pa <? PERIPHERALS_END) then Some (pa, set_block block (Z.lor boot_flags (mask PXN)) MairDevice)
  else if (MEMORY_START <=? pa) && (pa <? MEMORY_END) then Some (pa, set_block block boot_flags MairNormal)
  else None.

Lemma decode_zero l : decode l 0 = InvalidDesc.
Proof. done. Qed.

(** The three indices of an address and its parts. *)
Lemma va_parts va : 0 <= va < 2 ^ 48 ->
  let pa := va mod 2 ^ 39 in
  va / 2 ^ 39 mod 512 = va / 2 ^ 39 /\ va / 2 ^ 30 mod 512 = pa / 2 ^ 30 /\ va / 2 ^ 21 mod 512 = pa mod 2 ^ 30 / ALIGN_2MIB
  /\ va mod 2 ^ 21 = pa mod ALIGN_2MIB /\ 0 <= pa < 2 ^ 39 /\ 0 <= va / 2 ^ 39 < 512
  /\ pa = pa / 2 ^ 30 * 2 ^ 30 + pa mod 2 ^ 30 / ALIGN_2MIB * ALIGN_2MIB + pa mod ALIGN_2MIB
  /\ 0 <= pa mod 2 ^ 30 / ALIGN_2MIB < 512 /\ 0 <= pa mod ALIGN_2MIB < ALIGN_2MIB /\ 0 <= pa / 2 ^ 30 < 512.
Proof.
  intros Hva pa. subst pa. unfold ALIGN_2MIB. change (2 ^ 48) with 281474976710656 in *. change (2 ^ 39) with 549755813888.
  change (2 ^ 30) with 1073741824. change (2 ^ 21) with 2097152. Z.to_euclidean_division_equations. lia.
Qed.

Lemma walk_init m va : tables_ok -> 0 <= va < 2 ^ 48 ->
  walk (create_init_paging m) page_table_lvl4 va
  = if (va / 2 ^ 39 =? 0) || (va / 2 ^ 39 =? 256) then boot_leaf (va mod 2 ^ 39) else None.
Proof.
  intros Hok Hva. pose proof Hok as [Hall Hnd]. set (l := [page_table_lvl4; page_table_lvl3; page_table_lvl2_0; page_table_lvl2_1]).
  assert (page_table_lvl4 ∈ l /\ page_table_lvl3 ∈ l /\ page_table_lvl2_0 ∈ l /\ page_table_lvl2_1 ∈ l) as (M4 & M3 & M20 & M21)
    by (unfold l; rewrite !elem_of_cons; auto 10). unfold l in *. clear l.
  destruct (va_parts va Hva) as (I4 & I3 & I2 & Iq & Hpa & Htop & Hsum & R2 & Rq & R3).
  apply Forall_cons in Hall as [H4 Hall]. apply Forall_cons in Hall as [H3 Hall]. apply Forall_cons in Hall as [H20 Hall].
  apply Forall_cons in Hall as [H21 _]. rewrite !NoDup_cons in Hnd. rewrite !not_elem_of_cons in Hnd.
  destruct Hnd as ((N1 & N2 & N3 & _) & (N4 & N5 & _) & (N6 & _) & _).
  assert (Hz : forall x y : Z, x <> y -> (x =? y) = false) by (intros; by apply Z.eqb_neq).
  unfold walk. cbn [walk_from Nat.sub].
  change (level_shift 0) with 39. change (level_shift 1) with 30. change (level_shift 2) with 21. rewrite I4, I3, I2, Iq.
  set (pa := va mod 2 ^ 39) in *. rewrite init_entry, Z.eqb_refl by (assumption || lia).
  destruct ((va / 2 ^ 39 =? 0) || (va / 2 ^ 39 =? 256)); [|done]. rewrite set_frame_spec by (apply H3 || lia).
  rewrite init_entry, Hz, Z.eqb_refl by (assumption || lia || congruence). unfold boot_leaf, PERIPHERALS_START, PERIPHERALS_END, MEMORY_START, MEMORY_END.
  unfold ALIGN_2MIB in *. clear I4 I3 I2 Iq Htop Hva. clearbody pa. change (2 ^ 30) with 1073741824 in *. change (2 ^ 39) with 549755813888 in *.
  revert Hsum R2 Rq R3. generalize (pa / 1073741824) (pa mod 1073741824 / 2097152) (pa mod 2097152). intros g q r Hsum R2 Rq R3.
  assert (pa / 2097152 = 512 * g + q) as -> by (symmetry; apply Z.div_unique with r; lia).
  destruct (Z.eqb_spec g 0) as [->|G0]; [|destruct (Z.eqb_spec g 1) as [->|G1]].
  - rewrite set_frame_spec by (apply H20 || lia). rewrite init_entry, !Hz, Z.eqb_refl by (assumption || lia || congruence).
    rewrite (proj2 (Z.leb_gt 0x40000000 pa)) by lia. cbn [andb]. rewrite Z.mul_0_r, Z.add_0_l.
    assert ((64 <=? q) && (q <? 128) = (0x08000000 <=? pa) && (pa <? 0x10000000)) as -> by (zcases; done || lia).
    destruct ((0x08000000 <=? pa) && (pa <? 0x10000000)); [|done].
    rewrite set_block_spec; [|by rewrite Z.mod_mul|unfold ALIGN_2MIB; lia|by right|by left]. do 2 f_equal. unfold ALIGN_2MIB. lia.
  - rewrite set_frame_spec by (apply H21 || lia). rewrite init_entry, !Hz by (assumption || lia || congruence).
    rewrite (proj2 (Z.ltb_ge pa 0x10000000)), (proj2 (Z.leb_le 0x40000000 pa)), (proj2 (Z.ltb_lt pa 0x80000000)) by lia.
    rewrite andb_false_r. cbn [andb]. change (512 * 1) with 512.
    rewrite set_block_spec; [|by rewrite Z.mod_mul|unfold ALIGN_2MIB; lia|by left|by right]. do 2 f_equal. unfold ALIGN_2MIB. lia.
  - rewrite decode_zero. rewrite (proj2 (Z.ltb_ge pa 0x10000000)), (proj2 (Z.ltb_ge pa 0x80000000)) by lia. by rewrite !andb_false_r.
Qed.

Lemma upper_range_spec a : 0 <= a < 2 ^ 48 -> Addr.as_upper_range a = a + 0xffff000000000000.
Proof.
  intros Ha. unfold Addr.as_upper_range, Addr.KERNEL_OFFSET.
  assert (Hl : Z.land a 0xffff000000000000 = 0).
  { apply Z.bits_inj'. intros k Hk. rewrite Z.land_spec, Z.bits_0. destruct (Z.lt_ge_cases k 48).
    - change 0xffff000000000000 with (Z.shiftl 0xffff 48). rewrite Z.shiftl_spec_low by lia. apply andb_false_r.
    - assert (Z.testbit a k = false) as -> by (rewrite <- (Z.mod_small a (2 ^ 48)) by lia; apply Z.mod_pow2_bits_high; lia). done. }
  by rewrite Z.add_nocarry_lxor, Z.lxor_lor.
Qed.

Lemma boot_leaf_range pa : boot_leaf pa <> None -> 0 <= pa < 2 ^ 31.
Proof.
  unfold boot_leaf, PERIPHERALS_START, PERIPHERALS_END, MEMORY_START, MEMORY_END. intros Hl.
  destruct (Z.leb_spec 0x08000000 pa), (Z.ltb_spec pa 0x10000000), (Z.leb_spec 0x40000000 pa), (Z.ltb_spec pa 0x80000000); cbn in Hl; try done; lia.
Qed.

Lemma boot_leaf_self pa x : boot_leaf pa = Some x -> x.1 = pa.
Proof. unfold boot_leaf. repeat case_match; intros [= <-]; done. Qed.

(** Where the processor translates after [enable_mmu]. *)
Lemma hw_translate_init m mmu va :
  tables_ok -> ttbr0 mmu = page_table_lvl4 -> ttbr1 mmu = page_table_lvl4 ->
  hw_translate mmu (create_init_paging m) va
  = let top := va / 2 ^ 48 mod 256 in let l4 := va mod 2 ^ 48 / 2 ^ 39 in
    if ((top =? 0) || (top =? 255)) && ((l4 =? 0) || (l4 =? 256)) then boot_leaf (va mod 2 ^ 39) else None.
Proof.
  intros Hok Ht0 Ht1. unfold hw_translate. rewrite Ht0, Ht1. cbv zeta. pose proof (Z.mod_pos_bound va (2 ^ 48)).
  assert ((va mod 2 ^ 48) mod 2 ^ 39 = va mod 2 ^ 39) as Hm.
  { change (2 ^ 48) with (2 ^ 39 * 2 ^ 9). rewrite Z.rem_mul_r by lia. rewrite Z.mul_comm, Z.add_mod, Z.mod_mul by lia.
    rewrite Z.add_0_r, !Z.mod_mod by lia. done. }
  rewrite walk_init by (done || lia). rewrite Hm. by destruct (_ =? 0), (_ =? 255).
Qed.

(** The aliases of a physical address: itself, where the kernel is linked, and
    in the direct map. *)
Lemma translate_alias m mmu pa k l :
  tables_ok -> ttbr0 mmu = page_table_lvl4 -> ttbr1 mmu = page_table_lvl4 -> boot_leaf pa <> None ->
  k = 0 \/ k = 255 + 256 * 255 -> l = 0 \/ l = 256 ->
  hw_translate mmu (create_init_paging m) (pa + l * 2 ^ 39 + k * 2 ^ 48) = boot_leaf pa.
Proof.
  intros Hok Ht0 Ht1 Hpa%boot_leaf_range Hk Hl. rewrite hw_translate_init by done. cbv zeta.
  assert ((pa + l * 2 ^ 39 + k * 2 ^ 48) / 2 ^ 48 = k) as -> by (symmetry; apply Z.div_unique with (pa + l * 2 ^ 39); lia).
  assert ((pa + l * 2 ^ 39 + k * 2 ^ 48) mod 2 ^ 48 = pa + l * 2 ^ 39) as -> by (symmetry; apply Z.mod_unique with k; lia).
  assert ((pa + l * 2 ^ 39) / 2 ^ 39 = l) as -> by (symmetry; apply Z.div_unique with pa; lia).
  assert ((pa + l * 2 ^ 39 + k * 2 ^ 48) mod 2 ^ 39 = pa) as -> by (symmetry; apply Z.mod_unique with (l + k * 2 ^ 9); lia).
  destruct Hk as [->| ->], Hl as [->| ->]; done.
Qed.
Lemma translate_upper m mmu pa :
  tables_ok -> ttbr0 mmu = page_table_lvl4 -> ttbr1 mmu = page_table_lvl4 -> boot_leaf pa <> None ->
  hw_translate mmu (create_init_paging m) (Addr.as_upper_range pa) = boot_leaf pa.
Proof.
  intros Hok Ht0 Ht1 Hpa. apply boot_leaf_range in Hpa as Rpa. rewrite upper_range_spec by lia.
  rewrite <- (translate_alias m mmu pa (255 + 256 * 255) 0) by auto. f_equal. lia.
Qed.

Lemma enable_mmu_spec mmu cpuid lr :
  tables_ok -> 0 <= cpuid < CPU_NUM -> let sp := phys_bootstacktop - cpuid * 2 ^ 18 in boot_leaf sp <> None ->
  exists mmu', enable_mmu cpuid lr mmu = Ret (mmu', Addr.as_upper_range sp, Addr.as_upper_range lr)
    /\ ttbr0 mmu' = page_table_lvl4 /\ ttbr1 mmu' = page_table_lvl4.
Proof.
  intros Hok Hcpu sp Hsp%boot_leaf_range. pose proof Hok as [Hall _]. apply Forall_cons in Hall as [[H4 _] _]. unfold sp, CPU_NUM in *.
  unfold enable_mmu. rewrite Z.shiftl_mul_pow2 by lia. rewrite usub_ok by lia. sret. eexists. split; [done|].
  assert (Hfr : frame_of (frame_of page_table_lvl4) = page_table_lvl4) by (unfold frame_of; rewrite H4, !Z.sub_0_r; lia). done.
Qed.

(** C8. Switching the MMU on changes the meaning of no address the kernel
    uses.  After [create_init_paging] and [enable_mmu] every physical address
    of the devices and of the memory is reached at its own address, at the
    address the kernel is linked to and in the direct map, devices as device
    memory that is never executed; the stack pointer and the return address
    are moved to the upper range and mean what they meant before; and nothing
    but devices and memory can be reached at any address. *)
Theorem boot_translation m mmu cpuid lr :
  tables_ok -> 0 <= cpuid < CPU_NUM -> let sp := phys_bootstacktop - cpuid * 2 ^ 18 in
  boot_leaf sp <> None -> boot_leaf lr <> None ->
  exists mmu', enable_mmu cpuid lr mmu = Ret (mmu', Addr.as_upper_range sp, Addr.as_upper_range lr)
    /\ (forall pa, boot_leaf pa <> None ->
         hw_translate mmu' (create_init_paging m) pa = boot_leaf pa
         /\ hw_translate mmu' (create_init_paging m) (Addr.as_upper_range pa) = boot_leaf pa
         /\ exists va, Addr.phys_to_virt pa = Ret va /\ hw_translate mmu' (create_init_paging m) va = boot_leaf pa)
    /\ (forall va x, hw_translate mmu' (create_init_paging m) va = Some x -> boot_leaf x.1 = Some x /\ x.1 = va mod 2 ^ 39).
Proof.
  intros Hok Hcpu sp Hsp Hlr. destruct (enable_mmu_spec mmu cpuid lr Hok Hcpu Hsp) as (mmu' & He & Ht0 & Ht1).
  exists mmu'. split; [done|]. split.
  - intros pa Hpa. apply boot_leaf_range in Hpa as Rpa.
    split; [rewrite <- (translate_alias m mmu' pa 0 0) by auto; f_equal; lia|]. split; [by apply translate_upper|].
    unfold Addr.phys_to_virt, Addr.PHYSICAL_MEMORY_OFFSET. rewrite uadd_ok by lia. eexists. split; [done|].
    rewrite <- (translate_alias m mmu' pa (255 + 256 * 255) 256) by auto. f_equal. lia.
  - intros va x. rewrite hw_translate_init by done. cbv zeta. destruct (_ && _); [|done]. intros Hx.
    pose proof (boot_leaf_self _ _ Hx) as ->. done.
Qed.

(** Each processor has a stack of its own, inside the megabyte of [entry.S]. *)
Lemma boot_stacks_apart i j : 0 <= i < j -> j < CPU_NUM ->
  phys_bootstacktop - 0x100000 <= phys_bootstacktop - j * 2 ^ 18 - 2 ^ 18
  /\ phys_bootstacktop - j * 2 ^ 18 <= phys_bootstacktop - i * 2 ^ 18 - 2 ^ 18.
Proof. unfold CPU_NUM. lia. Qed.

(** [clear_bss] zeroes every word that starts in the section and no other. *)
Lemma clear_words_spec (start : Z) n : forall m x,
  foldl (fun m i => store_word i 0 m) m ((fun k => start + 8 * k) <$> seqZ 0 (Z.of_nat n)) x
  = if (start <=? x) && (x <? start + 8 * Z.of_nat n) && ((x - start) mod 8 =? 0) then 0 else m x.
Proof.
  induction n as [|n IH]; intros m x.
  { cbn. zcases; done || lia. }
  replace (Z.of_nat (S n)) with (Z.of_nat n + 1) by lia. rewrite seqZ_app, fmap_app, foldl_app by lia.
  change (seqZ (0 + Z.of_nat n) 1) with [0 + (0 + Z.of_nat n)]. cbn [fmap list_fmap foldl]. unfold store_word at 1. rewrite IH.
  pose proof (Z.div_mod (x - start) 8). pose proof (Z.mod_pos_bound (x - start) 8).
  destruct (Z.eqb_spec x (start + 8 * (0 + (0 + Z.of_nat n)))) as [->|Hne].
  - replace (start + 8 * (0 + (0 + Z.of_nat n)) - start) with (Z.of_nat n * 8) by lia. rewrite Z.mod_mul by lia. zcases; done || lia.
  - zcases; done || lia.
Qed.

Lemma clear_bss_spec m x :
  phys_sbss <= phys_ebss -> phys_sbss mod 8 = 0 -> phys_ebss mod 8 = 0 -> x mod 8 = 0 ->
  clear_bss m x = if (phys_sbss <=? x) && (x <? phys_ebss) then 0 else m x.
Proof.
  intros Hle Hs He Hx. unfold clear_bss. pose proof (Z.div_mod phys_sbss 8). pose proof (Z.div_mod phys_ebss 8). pose proof (Z.div_mod x 8).
  replace ((phys_ebss - phys_sbss + 7) / 8) with (Z.of_nat (Z.to_nat (phys_ebss / 8 - phys_sbss / 8)))
    by (apply Z.div_unique with 7; lia). rewrite clear_words_spec.
  replace ((x - phys_sbss) mod 8) with 0 by (apply Z.mod_unique with (x / 8 - phys_sbss / 8); lia). zcases; done || lia.
Qed.
End boot_laws.

(** ** Descriptors of the manual *)

Lemma field_land s w : 0 <= s <= 48 -> address_field s w = Z.land w (Z.shiftl (Z.ones (48 - s)) s).
Proof.
  intros Hs. unfold address_field. rewrite <- Z.shiftr_div_pow2, <- Z.shiftl_mul_pow2 by lia. apply Z.bits_inj'. intros n Hn.
  rewrite Z.land_spec, !Z.shiftl_spec by lia. destruct (Z.lt_ge_cases n s).
  - by rewrite !(Z.testbit_neg_r _ (n - s)), andb_false_r by lia.
  - rewrite Z.shiftr_spec by lia. replace (n - s + s) with n by lia. destruct (Z.lt_ge_cases n 48).
    + by rewrite Z.mod_pow2_bits_low, Z.ones_spec_low, andb_true_r by lia.
    + by rewrite Z.mod_pow2_bits_high, Z.ones_spec_high, andb_false_r by lia.
Qed.

Lemma field_lor s a c : 0 <= s <= 48 -> a mod 2 ^ s = 0 -> 0 <= a < 2 ^ 48 -> Z.land c (Z.shiftl (Z.ones (48 - s)) s) = 0 ->
  address_field s (Z.lor a c) = a.
Proof.
  intros Hs Ha Hr Hc. rewrite field_land, Z.land_lor_distr_l, Hc, Z.lor_0_r by done. rewrite <- field_land by done.
  unfold address_field. rewrite (Z.mod_small a) by lia. pose proof (Z.div_mod a (2 ^ s)). lia.
Qed.

Lemma low_bits_clear s a n : 0 <= n < s -> a mod 2 ^ s = 0 -> Z.testbit a n = false.
Proof. intros Hn Ha. rewrite <- (Z.mod_pow2_bits_low a s n) by lia. rewrite Ha. apply Z.bits_0. Qed.

From S2P Require Import Mock MockTables.

#[export] Instance MockRaw : RawTable := {|
  default_table := 3; attr_zero := 0;
  set_frame f flags attr := Z.lor f (Z.lor flags attr);
  set_block a flags attr := Z.lor a (Z.lor flags attr);
  p2_index a := a / ALIGN_2MIB mod 512;
|}.

#[export] Instance MockRawSpec : RawTableSpec.
Proof.
  split; [intros f Hf Hr l Hl|intros a flags attr Ha Hr Hfl Hat|done]; unfold decode; cbn [set_frame set_block default_table attr_zero MockRaw].
  - rewrite !Z.lor_spec, !(low_bits_clear 12 f) by (done || lia). cbn [orb negb]. change (Z.testbit (Z.lor 3 0) 0) with true.
    change (Z.testbit (Z.lor 3 0) 1) with true. cbn [negb]. rewrite (proj2 (Nat.ltb_lt _ _)) by lia. f_equal. by apply field_lor.
  - rewrite !Z.lor_spec, !(low_bits_clear 21 a) by (done || lia). change (level_shift 2) with 21.
    rewrite (field_lor 21 a (Z.lor flags attr)); try (done || lia); destruct Hfl as [->| ->], Hat as [->| ->]; reflexivity.
Qed.

Section concrete.
#[local] Instance debug : BuildMode := true.
#[local] Existing Instance KernelSpace.blocks.
#[local] Existing Instance KernelSpace.blocks_spec.

(** The tables behind a kernel loaded at 0x40080000. *)
#[local] Instance boot_image : BootSymbols := {|
  page_table_lvl4 := 0x40100000; page_table_lvl3 := 0x40101000; page_table_lvl2_0 := 0x40102000; page_table_lvl2_1 := 0x40103000;
  phys_bootstacktop := 0x40300000; phys_sbss := 0x40300000; phys_ebss := 0x40400000;
|}.

Lemma boot_translation_witness :
  exists mmu', enable_mmu 1 0x40080100 (mkMmu 0 0 ∅) = Ret (mmu', 0xffff0000402c0000, 0xffff000040080100)
    /\ hw_translate mmu' (create_init_paging (fun _ => 0)) 0xffff000040080100
       = Some (0x40080100, set_block 0x40000000 boot_flags MairNormal).
Proof.
  destruct (boot_translation (fun _ => 0) (mkMmu 0 0 ∅) 1 0x40080100) as (mmu' & He & Ht & _).
  - split; [by repeat constructor|]. apply (bool_decide_unpack _). by vm_compute.
  - unfold CPU_NUM. lia.
  - by vm_compute.
  - by vm_compute.
  - exists mmu'. split; [exact He|]. destruct (Ht 0x40080100) as (_ & Hup & _); [by vm_compute|]. exact Hup.
Defined.
End concrete.
