(* ===== verification/MmuConfig.v ===== *)
(** * The configuration of the MMU ([arch/aarch64/boot/mod.rs])

    [enable_mmu] writes four registers besides the table addresses: MAIR_EL1
    gives the memory types, TCR_EL1 the shape of the address space, and
    SCTLR_EL1 switches translation and caches on.  [Boot.v] assumes what they
    say when it translates addresses; here it follows from the values written.
    The fields have the names and values of the source; their meaning is that
    of the architecture. *)

From S2P Require Import Prelude Paging Handler PageTables MemorySet KernelSpace Boot.

(** ** The registers *)

(** MAIR_EL1: eight slots, of which three are written. *)
Inductive Cacheability := WriteBack_NonTransient_ReadWriteAlloc | NonCacheable.
Inductive MemType := NormalMem (inner outer : Cacheability) | Device_nGnRE.
Abbreviation Mair := (Z -> option MemType).

(** TCR_EL1 *)
Inductive Granule := KiB_4 | KiB_16 | KiB_64.
Inductive Shareability := NonShareable | Inner | Outer.
Inductive WalkCache := WriteBack_ReadAlloc_WriteAlloc_Cacheable | WalkNonCacheable.
Record Half := mkHalf {
  TBI : bool; TG : Granule; SH : Shareability; ORGN : WalkCache; IRGN : WalkCache; EPD : bool; TSZ : Z;
}.
Record Tcr := mkTcr { half0 : Half; half1 : Half; AS16 : bool; IPS : Z; A1 : Z }.

Record MmuConfig := mkConfig { mair : Mair; tcr : Tcr; sctlr : Z }.

(** [MAIR_EL1.write(..)] *)
Definition boot_mair : Mair := fun slot =>
  if slot =? 0 then Some (NormalMem WriteBack_NonTransient_ReadWriteAlloc WriteBack_NonTransient_ReadWriteAlloc)
  else if slot =? 1 then Some Device_nGnRE
  else if slot =? 2 then Some (NormalMem NonCacheable NonCacheable)
  else None.

(** [TCR_EL1.write(..)], with [ID_AA64MMFR0_EL1.PARange] in [ips]. *)
Definition boot_half : Half :=
  mkHalf true KiB_4 Inner WriteBack_ReadAlloc_WriteAlloc_Cacheable WriteBack_ReadAlloc_WriteAlloc_Cacheable false 16.
Definition boot_tcr (ips : Z) : Tcr := mkTcr boot_half boot_half true ips 0.

(** The fields M, C and I of SCTLR_EL1, and how each build sets them:
    [SCTLR_EL1.modify(..)], or [orr] with 0x1005. *)
Definition SCTLR_M : Z := Z.shiftl 1 0.
Definition SCTLR_C : Z := Z.shiftl 1 2.
Definition SCTLR_I : Z := Z.shiftl 1 12.
Definition boot_sctlr `{BuildMode} (old : Z) : Z :=
  if overflow_checks then Z.lor old 0x1005
  else let fields := Z.lor (Z.lor SCTLR_M SCTLR_C) SCTLR_I in Z.lor (Z.ldiff old fields) fields.

(** What [enable_mmu] leaves in the registers. *)
Definition enable_mmu_config `{BuildMode} (ips old_sctlr : Z) : MmuConfig := mkConfig boot_mair (boot_tcr ips) (boot_sctlr old_sctlr).

(** The stack pointer and the return address in a debug build, which keeps
    them in x17 and x18 until the MMU is on: the same as [enable_mmu]. *)
Definition enable_mmu_debug `{BuildMode} `{BootSymbols} (cpuid lr : Z) (mmu : Mmu) : outcome (Mmu * Z * Z) :=
  let x18 := Addr.as_upper_range lr in
  sp ← usub phys_bootstacktop (Z.shiftl cpuid 18);
  let x17 := Addr.as_upper_range sp in
  let frame_lvl4 := frame_of page_table_lvl4 in
  Ret (flush_tlb (ttbr1_write frame_lvl4 (ttbr0_write frame_lvl4 mmu)), x17, x18).
Lemma enable_mmu_builds `{BuildMode} `{BootSymbols} cpuid lr mmu : enable_mmu_debug cpuid lr mmu = enable_mmu cpuid lr mmu.
Proof. reflexivity. Qed.

(** ** The processor *)

(** Bit 55 chooses the half of the address space; the bits above its size, up
    to the top byte if that is ignored, must agree with it.  A walk with 4 KiB
    granules starts at the level that the size asks for; the other granules
    are not described here. *)
Definition cfg_walk (h : Half) (root : Z) (upper : bool) (m : Words) (va : Z) : option (Z * Z) :=
  let size := 64 - TSZ h in
  let bits := if TBI h then 56 else 64 in
  let top := va mod 2 ^ bits / 2 ^ size in
  if EPD h then None
  else if negb (top =? if upper then 2 ^ (bits - size) - 1 else 0) then None
  else match TG h with
       | KiB_4 => walk_from (Z.to_nat ((size - 12 + 8) / 9)) m root (va mod 2 ^ size)
       | _ => None
       end.
Definition cfg_translate (c : MmuConfig) (mmu : Mmu) (m : Words) (va : Z) : option (Z * Z) :=
  if negb (Z.testbit (sctlr c) 0) then Some (va, 0)
  else if Z.testbit va 55 then cfg_walk (half1 (tcr c)) (ttbr1 mmu) true m va
  else cfg_walk (half0 (tcr c)) (ttbr0 mmu) false m va.

(** The memory type of a descriptor: its field AttrIndx is a slot. *)
Definition attr_index (w : Z) : Z := Z.land (Z.shiftr w 2) 7.
Definition memory_type (c : MmuConfig) (w : Z) : option MemType := mair c (attr_index w).

(** The slots that the attributes of the [aarch64] crate stand for. *)
Class MairIndexSpec `{PLS : PteLayoutSpec} `{RT : RawTable} := {
  index_in_attr w : attr_index (Z.land w attr_mask) = attr_index w;
  index_normal : attr_index MairNormal = 0;
  index_device : attr_index MairDevice = 1;
  index_noncacheable : attr_index MairNormalNonCacheable = 2;
  set_block_index a flags attr : a mod ALIGN_2MIB = 0 -> flags = boot_flags \/ flags = Z.lor boot_flags (mask PXN) ->
    attr = MairDevice \/ attr = MairNormal -> attr_index (set_block a flags attr) = attr_index attr;
}.

Section laws.
Context `{BM : BuildMode} `{PLS : PteLayoutSpec, RT : RawTable, RTS : !RawTableSpec, MIS : !MairIndexSpec, BLS : BlocksSpec, BS : BootSymbols}.
Implicit Types m : Words.

(** Both builds set the same bits. *)
Lemma boot_sctlr_bits old i : 0 <= i -> Z.testbit (boot_sctlr old) i = Z.testbit old i || (i =? 0) || (i =? 2) || (i =? 12).
Proof.
  intros Hi. assert (Hb : Z.testbit 0x1005 i = (i =? 0) || (i =? 2) || (i =? 12)).
  { destruct (Z.lt_ge_cases i 13) as [Hl|Hg].
    - assert (i ∈ seqZ 0 13) as Hin by (apply elem_of_seqZ; lia). revert Hin. change (seqZ 0 13) with [0;1;2;3;4;5;6;7;8;9;10;11;12].
      rewrite !elem_of_cons, elem_of_nil. intros Hin. repeat destruct Hin as [->|Hin]; try done.
    - rewrite Z.bits_above_log2; [zcases; done || lia|done|]. change (Z.log2 0x1005) with 12. lia. }
  unfold boot_sctlr. change (Z.lor (Z.lor SCTLR_M SCTLR_C) SCTLR_I) with 0x1005.
  destruct overflow_checks; rewrite Z.lor_spec, ?Z.ldiff_spec, Hb; destruct (Z.testbit old i), (i =? 0), (i =? 2), (i =? 12); done.
Qed.

(** The translation that [Boot.v] works with is the one configured. *)
Lemma cfg_translate_boot ips old mmu m va : 0 <= va -> cfg_translate (enable_mmu_config ips old) mmu m va = hw_translate mmu m va.
Proof.
  intros Hva. unfold cfg_translate, hw_translate. cbn [sctlr enable_mmu_config tcr boot_tcr half0 half1]. rewrite boot_sctlr_bits, Z.eqb_refl, orb_true_r by lia.
  cbn [orb negb]. unfold cfg_walk. cbn [boot_half TBI TG EPD TSZ]. change (64 - 16) with 48. change (Z.to_nat ((48 - 12 + 8) / 9)) with 4%nat.
  assert (Ht : va mod 2 ^ 56 / 2 ^ 48 = va / 2 ^ 48 mod 256).
  { rewrite <- !Z.shiftr_div_pow2, <- !Z.land_ones by lia. change 256 with (2 ^ 8). rewrite <- Z.land_ones by lia. rewrite Z.shiftr_land. done. }
  rewrite Ht. change (2 ^ (56 - 48) - 1) with 255. set (top := va / 2 ^ 48 mod 256).
  assert (Hbit : Z.testbit va 55 = Z.testbit top 7).
  { unfold top. change 256 with (2 ^ 8). rewrite Z.mod_pow2_bits_low, <- Z.shiftr_div_pow2, Z.shiftr_spec by lia. done. }
  rewrite Hbit. unfold walk. destruct (Z.eqb_spec top 0) as [->|]; [done|]. destruct (Z.eqb_spec top 255) as [->|]; [done|]. by destruct (Z.testbit top 7).
Qed.

(** ** Memory types *)

Definition write_back : MemType := NormalMem WriteBack_NonTransient_ReadWriteAlloc WriteBack_NonTransient_ReadWriteAlloc.
Definition non_cacheable : MemType := NormalMem NonCacheable NonCacheable.

(** The type that a value of [MMIOType] stands for. *)
Definition mmio_type (v : Z) : option MemType :=
  if v =? 0 then Some write_back else if v =? 1 then Some Device_nGnRE else if v =? 2 then Some non_cacheable else None.

(** The three addresses a physical address has during the boot. *)
Definition boot_aliases (pa : Z) : list Z := [pa; Addr.as_upper_range pa; pa + Addr.PHYSICAL_MEMORY_OFFSET].

Lemma boot_alias m mmu pa va :
  tables_ok -> ttbr0 mmu = page_table_lvl4 -> ttbr1 mmu = page_table_lvl4 -> boot_leaf pa <> None -> va ∈ boot_aliases pa ->
  0 <= va /\ hw_translate mmu (create_init_paging m) va = boot_leaf pa.
Proof.
  intros Hok Ht0 Ht1 Hpa Hva. apply boot_leaf_range in Hpa as Rpa.
  unfold boot_aliases in Hva. rewrite !elem_of_cons, elem_of_nil in Hva. destruct Hva as [-> | [-> | [-> | []]]].
  - split; [lia|]. rewrite <- (translate_alias m mmu pa 0 0) by auto. f_equal. lia.
  - split; [rewrite upper_range_spec by lia; lia|]. by apply translate_upper.
  - unfold Addr.PHYSICAL_MEMORY_OFFSET. split; [lia|]. rewrite <- (translate_alias m mmu pa (255 + 256 * 255) 256) by auto. f_equal. lia.
Qed.

Lemma index_set_attr w t : Z.land t attr_mask = t -> attr_index (pte_set_attr w t) = attr_index t.
Proof.
  intros Ht. rewrite set_attr_spec, <- index_in_attr, Z.land_lor_distr_l, Ht by done.
  by replace (Z.land (Z.ldiff w attr_mask) attr_mask) with 0 by (apply Z.bits_inj'; intros n _; rewrite Z.land_spec, Z.ldiff_spec, Z.bits_0; by destruct (Z.testbit w n), (Z.testbit attr_mask n)).
Qed.

Lemma index_built a flags attr :
  Z.land a addr_mask = a -> Z.land flags flag_mask = flags -> Z.land attr attr_mask = attr -> attr_index (pte_set_addr a flags attr) = attr_index attr.
Proof.
  intros Ha Hf Ht. rewrite set_addr_spec, <- index_in_attr, !Z.land_lor_distr_l, Ht by done.
  replace (Z.land a attr_mask) with 0; [replace (Z.land flags attr_mask) with 0; [done|]|]; apply Z.bits_inj'; intros n _; rewrite Z.bits_0, Z.land_spec.
  - rewrite <- Hf, Z.land_spec. destruct (Z.testbit flag_mask n) eqn:E; [by rewrite (attr_not_flag _ E), andb_false_r|by rewrite andb_false_r].
  - rewrite <- Ha, Z.land_spec. destruct (Z.testbit addr_mask n) eqn:E; [by rewrite (attr_not_addr _ E), andb_false_r|by rewrite andb_false_r].
Qed.

(** C9. Devices are never cached and memory always is.  With the registers
    as [enable_mmu] leaves them, in either build, a device is device memory
    and the memory is normal write-back memory, at each of the addresses that
    the boot tables give them; in the kernel's own table the direct map is
    write-back memory, and an entry has the type that its [MMIOType] names,
    whatever it was before. *)
Theorem memory_types ips old m mmu pa va :
  tables_ok -> ttbr0 mmu = page_table_lvl4 -> ttbr1 mmu = page_table_lvl4 -> va ∈ boot_aliases pa ->
  let c := enable_mmu_config ips old in
  (PERIPHERALS_START <= pa < PERIPHERALS_END ->
     exists w, cfg_translate c mmu (create_init_paging m) va = Some (pa, w) /\ memory_type c w = Some Device_nGnRE)
  /\ (MEMORY_START <= pa < MEMORY_END ->
     exists w, cfg_translate c mmu (create_init_paging m) va = Some (pa, w) /\ memory_type c w = Some write_back)
  /\ (forall k, Addr.frame_addr (k * ALIGN_2MIB) -> memory_type c (direct_entry k) = Some write_back)
  /\ (forall v e, 0 <= v <= 2 -> memory_type c (word (pte_set_mmio v e)) = mmio_type v).
Proof.
  intros Hok Ht0 Ht1 Hva c. pose proof mair_in_mask as Hm. rewrite !Forall_cons in Hm. destruct Hm as (M1 & M2 & M3 & _).
  assert (Hblk : pa / ALIGN_2MIB * ALIGN_2MIB mod ALIGN_2MIB = 0) by by apply Z.mod_mul.
  assert (Hc : forall w, memory_type c w = boot_mair (attr_index w)) by done. split; [|split; [|split]].
  - intros Hpa. assert (Hleaf : boot_leaf pa = Some (pa, set_block (pa / ALIGN_2MIB * ALIGN_2MIB) (Z.lor boot_flags (mask PXN)) MairDevice)).
    { unfold boot_leaf. by rewrite (proj2 (Z.leb_le _ _)), (proj2 (Z.ltb_lt _ _)) by lia. }
    destruct (boot_alias m mmu pa va) as [Hn Ht]; [done..|congruence|done|]. eexists. unfold c. rewrite cfg_translate_boot, Ht, Hleaf by done. split; [done|]. fold c.
    rewrite Hc, set_block_index, index_device by auto. done.
  - unfold MEMORY_START, MEMORY_END. intros Hpa. assert (Hleaf : boot_leaf pa = Some (pa, set_block (pa / ALIGN_2MIB * ALIGN_2MIB) boot_flags MairNormal)).
    { unfold boot_leaf, PERIPHERALS_END, MEMORY_START, MEMORY_END. rewrite (proj2 (Z.ltb_ge pa 0x10000000)), andb_false_r by lia.
      by rewrite (proj2 (Z.leb_le 0x40000000 _)), (proj2 (Z.ltb_lt pa 0x80000000)) by lia. }
    destruct (boot_alias m mmu pa va) as [Hn Ht]; [done..|congruence|done|]. eexists. unfold c. rewrite cfg_translate_boot, Ht, Hleaf by done. split; [done|]. fold c.
    rewrite Hc, set_block_index, index_normal by auto. done.
  - intros k Hk. unfold direct_entry. rewrite Hc, index_built, index_normal; [done|by apply frame_in_mask| |done].
    unfold block_flags. by rewrite !Z.land_lor_distr_l, !mask_in_flags, default_block_flags.
  - intros v e Hv. rewrite Hc. unfold pte_set_mmio, mmio_type. assert (v = 0 \/ v = 1 \/ v = 2) as [-> | [-> | ->]] by lia; cbn [Z.eqb Pos.eqb word]; rewrite index_set_attr by done.
    + by rewrite index_normal.
    + by rewrite index_device.
    + by rewrite index_noncacheable.
Qed.
End laws.

(** ** The example of [Boot.v] *)
From S2P Require Import Mock MockTables.

#[export] Instance MockMairSpec : MairIndexSpec.
Proof.
  split; [|reflexivity..|].
  - intros w. unfold attr_index. rewrite Z.shiftr_land, <- Z.land_assoc. reflexivity.
  - intros a flags attr Ha Hf Hat. cbn [set_block MockRaw]. unfold attr_index. rewrite !Z.shiftr_lor, !Z.land_lor_distr_l.
    assert (Z.land (Z.shiftr a 2) 7 = 0) as ->.
    { apply Z.bits_inj'. intros n Hn. rewrite Z.land_spec, Z.shiftr_spec, Z.bits_0 by done. destruct (Z.lt_ge_cases n 3).
      - by rewrite (low_bits_clear 21 a) by (done || lia).
      - rewrite (Z.bits_above_log2 7 n) by (done || (change (Z.log2 7) with 2; lia)). apply andb_false_r. }
    destruct Hf as [-> | ->], Hat as [-> | ->]; reflexivity.
Qed.

Section concrete.
#[local] Instance debug : BuildMode := true.
#[local] Existing Instance KernelSpace.blocks.
#[local] Existing Instance KernelSpace.blocks_spec.
#[local] Instance config_image : BootSymbols := {|
  page_table_lvl4 := 0x40100000; page_table_lvl3 := 0x40101000; page_table_lvl2_0 := 0x40102000; page_table_lvl2_1 := 0x40103000;
  phys_bootstacktop := 0x40300000; phys_sbss := 0x40300000; phys_ebss := 0x40400000;
|}.

(** The UART in the direct map. *)
Lemma memory_types_witness :
  exists w, cfg_translate (enable_mmu_config 5 0x30d00800) (mkMmu 0x40100000 0x40100000 ∅) (create_init_paging (fun _ => 0)) 0xffff800009000000 = Some (0x09000000, w)
    /\ memory_type (enable_mmu_config 5 0x30d00800) w = Some Device_nGnRE.
Proof.
  apply (memory_types 5 0x30d00800 (fun _ => 0) (mkMmu 0x40100000 0x40100000 ∅) 0x09000000 0xffff800009000000).
  - split; [by repeat constructor|]. apply (bool_decide_unpack _). by vm_compute.
  - reflexivity.
  - reflexivity.
  - apply (bool_decide_unpack _). by vm_compute.
  - unfold PERIPHERALS_START, PERIPHERALS_END. lia.
Defined.
End concrete.
