(* ===== verification/Entry.v ===== *)
(** * The first instructions ([arch/aarch64/boot/entry.S])

    The assembly the firmware jumps to: it leaves the exception level it was
    entered at for EL1, clears the zero-initialised data, builds the first page
    table, starts the other processors, switches the MMU on and continues in
    the upper half of the address space.  The program is a list of
    instructions, run by the semantics of the AArch64 instructions it uses; the
    Rust functions it calls are those of [Boot]. *)

From S2P Require Import Prelude Paging Handler PageTables MemorySet KernelSpace Boot.

(** ** The program *)

Inductive GReg := X0 | X19 | X23 | LR.
Inductive SysReg :=
| MPIDR_EL1 | CPACR_EL1 | SCTLR_EL1 | SP_EL1 | HCR_EL2 | CPTR_EL2 | SPSR_EL2 | CNTHCTL_EL2 | CNTVOFF_EL2 | ELR_EL2 | SCR_EL3 | SPSR_EL3 | ELR_EL3.
Inductive Label := _start | halt | el_setup | switch_to_el2 | switch_to_el1 | el_setup_end | boot_cpu_startup | other_cpu_startup.
#[export] Instance Label_eq : EqDecision Label.
Proof. solve_decision. Defined.

(** The Rust functions the assembly calls and those it ends in. *)
Inductive Fn := F_clear_bss | F_create_init_paging | F_start_other_cpu | F_enable_mmu.
Inductive Exit := F_main_start | F_others_start.

Inductive Instr :=
| Mov (d s : GReg) | MovI (d : GReg) (v : Z) | Movk (d : GReg) (v sh : Z) | MovSp (s : GReg)
| Mrs (d : GReg) (r : SysReg) | MrsCurrentEL (d : GReg) | Msr (r : SysReg) (s : option GReg) | MsrSPsel (v : bool)
| AndI (d s : GReg) (v : Z) | LsrI (d s : GReg) (v : Z) | OrrI (d s : GReg) (v : Z) | SubLsl (d s r : GReg) (sh : Z)
| Adr (d : GReg) (l : Label) | Adrp (d : GReg) (l : Label)
| CmpI (r : GReg) (v : Z) | Beq (l : Label) | Cbnz (r : GReg) (l : Label) | B (l : Label) | BExit (f : Exit) | Bl (l : Label) | BlFn (f : Fn)
| Ret_ | Eret | Wfe.
Inductive Item := L (l : Label) | I (i : Instr).

Definition entry : list Item :=
  [L _start;
   I (Mov X23 X0); I (Mrs X19 MPIDR_EL1); I (AndI X19 X19 3); I (Cbnz X19 halt);
   I (Bl el_setup); I (BlFn F_clear_bss); I (BlFn F_create_init_paging); I (B boot_cpu_startup);
   L halt; I Wfe; I (B halt);
   L el_setup;
   I (MsrSPsel true); I (MrsCurrentEL X0); I (AndI X0 X0 0xc); I (LsrI X0 X0 2); I (CmpI X0 1); I (Beq el_setup_end);
   L switch_to_el2;
   I (CmpI X0 2); I (Beq switch_to_el1);
   I (MovI X0 0x5b1); I (Msr SCR_EL3 (Some X0)); I (MovI X0 0x3c9); I (Msr SPSR_EL3 (Some X0));
   I (Adr X0 switch_to_el1); I (Msr ELR_EL3 (Some X0)); I Eret;
   L switch_to_el1;
   I (CmpI X0 1); I (Beq el_setup_end);
   I (Adrp X0 _start); I (SubLsl X0 X0 X19 16); I (Msr SP_EL1 (Some X0));
   I (MovI X0 0x0002); I (Movk X0 0x8000 16); I (Msr HCR_EL2 (Some X0)); I (Msr CPTR_EL2 None);
   I (Mrs X0 CPACR_EL1); I (OrrI X0 X0 (Z.shiftl 0x3 20)); I (Msr CPACR_EL1 (Some X0));
   I (MovI X0 0x0800); I (Movk X0 0x30d0 16); I (Msr SCTLR_EL1 (Some X0));
   I (MovI X0 0x3c5); I (Msr SPSR_EL2 (Some X0));
   I (Mrs X0 CNTHCTL_EL2); I (OrrI X0 X0 3); I (Msr CNTHCTL_EL2 (Some X0)); I (Msr CNTVOFF_EL2 None);
   I (Msr ELR_EL2 (Some LR)); I Eret;
   L el_setup_end;
   I (Adrp X0 _start); I (SubLsl X0 X0 X19 16); I (MovSp X0); I Ret_;
   L boot_cpu_startup;
   I (BlFn F_start_other_cpu); I (BlFn F_enable_mmu); I (BExit F_main_start);
   L other_cpu_startup;
   I (Mrs X19 MPIDR_EL1); I (AndI X19 X19 3); I (Adrp X0 _start); I (SubLsl X0 X0 X19 16); I (MovSp X0);
   I (BlFn F_enable_mmu); I (BExit F_others_start)].

(** The instructions, and the position of a label among them. *)
Definition code : list Instr := omap (fun x => match x with I i => Some i | L _ => None end) entry.
Fixpoint position (l : Label) (p : list Item) : nat :=
  match p with [] => 0 | L l' :: p => if decide (l = l') then 0 else position l p | I _ :: p => S (position l p) end.

(** The linker script puts [_start] first, the firmware loads it here. *)
Definition START : Z := 0x40080000.
Definition label_addr (l : Label) : Z := START + 4 * Z.of_nat (position l entry).
Definition instr_at (a : Z) : option Instr := if (START <=? a) && ((a - START) mod 4 =? 0) then code !! Z.to_nat ((a - START) / 4) else None.

(** ** The processor *)

Record GRegs := mkG { x0 : Z; x19 : Z; x23 : Z; lr : Z }.
Record SysRegs := mkSys {
  mpidr_el1 : Z; cpacr_el1 : Z; sctlr_el1 : Z; hcr_el2 : Z; cptr_el2 : Z; spsr_el2 : Z; cnthctl_el2 : Z; cntvoff_el2 : Z; elr_el2 : Z;
  scr_el3 : Z; spsr_el3 : Z; elr_el3 : Z;
}.
Record Sps := mkSps { sp_el0 : Z; sp_el1 : Z; sp_el2 : Z; sp_el3 : Z }.
Inductive Pc := At (a : Z) | In (f : Exit).
Record Cpu := mkCpu {
  el : Z; spsel : bool; daif : Z; zero : bool; gregs : GRegs; sps : Sps; sysregs : SysRegs;
  mem : Words; mmu : Mmu; mmu_on : bool; started : list (Z * Z); pc : Pc;
}.

Definition regs (s : Cpu) (r : GReg) : Z := match r with X0 => x0 (gregs s) | X19 => x19 (gregs s) | X23 => x23 (gregs s) | LR => lr (gregs s) end.
Definition put_reg (s : Cpu) (r : GReg) (v : Z) : Cpu :=
  let '(mkCpu e sel d z (mkG a b c l) sp y m mm on st p) := s in
  mkCpu e sel d z (match r with X0 => mkG v b c l | X19 => mkG a v c l | X23 => mkG a b v l | LR => mkG a b c v end) sp y m mm on st p.
(** The stack pointer of a level. *)
Definition put_sp (s : Cpu) (level v : Z) : Cpu :=
  let '(mkCpu e sel d z g (mkSps s0 s1 s2 s3) y m mm on st p) := s in
  mkCpu e sel d z g (if level =? 0 then mkSps v s1 s2 s3 else if level =? 1 then mkSps s0 v s2 s3 else if level =? 2 then mkSps s0 s1 v s3
                     else mkSps s0 s1 s2 v) y m mm on st p.
Definition sys (s : Cpu) (r : SysReg) : Z :=
  match r with
  | MPIDR_EL1 => mpidr_el1 (sysregs s) | CPACR_EL1 => cpacr_el1 (sysregs s) | SCTLR_EL1 => sctlr_el1 (sysregs s) | SP_EL1 => sp_el1 (sps s)
  | HCR_EL2 => hcr_el2 (sysregs s) | CPTR_EL2 => cptr_el2 (sysregs s) | SPSR_EL2 => spsr_el2 (sysregs s)
  | CNTHCTL_EL2 => cnthctl_el2 (sysregs s) | CNTVOFF_EL2 => cntvoff_el2 (sysregs s) | ELR_EL2 => elr_el2 (sysregs s)
  | SCR_EL3 => scr_el3 (sysregs s) | SPSR_EL3 => spsr_el3 (sysregs s) | ELR_EL3 => elr_el3 (sysregs s)
  end.
Definition put_sys (s : Cpu) (r : SysReg) (v : Z) : Cpu :=
  let '(mkCpu e sel d z g sp (mkSys a1 a2 a3 b1 b2 b3 b4 b5 b6 c1 c2 c3 as y) m mm on st p) := s in
  let with_ y := mkCpu e sel d z g sp y m mm on st p in
  match r with
  | MPIDR_EL1 => with_ (mkSys v a2 a3 b1 b2 b3 b4 b5 b6 c1 c2 c3) | CPACR_EL1 => with_ (mkSys a1 v a3 b1 b2 b3 b4 b5 b6 c1 c2 c3)
  | SCTLR_EL1 => with_ (mkSys a1 a2 v b1 b2 b3 b4 b5 b6 c1 c2 c3) | SP_EL1 => put_sp s 1 v
  | HCR_EL2 => with_ (mkSys a1 a2 a3 v b2 b3 b4 b5 b6 c1 c2 c3) | CPTR_EL2 => with_ (mkSys a1 a2 a3 b1 v b3 b4 b5 b6 c1 c2 c3)
  | SPSR_EL2 => with_ (mkSys a1 a2 a3 b1 b2 v b4 b5 b6 c1 c2 c3) | CNTHCTL_EL2 => with_ (mkSys a1 a2 a3 b1 b2 b3 v b5 b6 c1 c2 c3)
  | CNTVOFF_EL2 => with_ (mkSys a1 a2 a3 b1 b2 b3 b4 v b6 c1 c2 c3) | ELR_EL2 => with_ (mkSys a1 a2 a3 b1 b2 b3 b4 b5 v c1 c2 c3)
  | SCR_EL3 => with_ (mkSys a1 a2 a3 b1 b2 b3 b4 b5 b6 v c2 c3) | SPSR_EL3 => with_ (mkSys a1 a2 a3 b1 b2 b3 b4 b5 b6 c1 v c3)
  | ELR_EL3 => with_ (mkSys a1 a2 a3 b1 b2 b3 b4 b5 b6 c1 c2 v)
  end.
Definition put_pc (s : Cpu) (p : Pc) : Cpu :=
  mkCpu (el s) (spsel s) (daif s) (zero s) (gregs s) (sps s) (sysregs s) (mem s) (mmu s) (mmu_on s) (started s) p.
Definition put_mode (s : Cpu) (e : Z) (sel : bool) (d : Z) : Cpu :=
  mkCpu e sel d (zero s) (gregs s) (sps s) (sysregs s) (mem s) (mmu s) (mmu_on s) (started s) (pc s).
Definition put_zero (s : Cpu) (z : bool) : Cpu :=
  mkCpu (el s) (spsel s) (daif s) z (gregs s) (sps s) (sysregs s) (mem s) (mmu s) (mmu_on s) (started s) (pc s).
Definition put_mem (s : Cpu) (m : Words) : Cpu :=
  mkCpu (el s) (spsel s) (daif s) (zero s) (gregs s) (sps s) (sysregs s) m (mmu s) (mmu_on s) (started s) (pc s).
Definition put_mmu (s : Cpu) (x : Mmu) : Cpu :=
  mkCpu (el s) (spsel s) (daif s) (zero s) (gregs s) (sps s) (sysregs s) (mem s) x true (started s) (pc s).
Definition put_started (s : Cpu) (l : list (Z * Z)) : Cpu :=
  mkCpu (el s) (spsel s) (daif s) (zero s) (gregs s) (sps s) (sysregs s) (mem s) (mmu s) (mmu_on s) l (pc s).

(** The stack pointer in use, and the lowest level that may use a register. *)
Definition sp_level (s : Cpu) : Z := if spsel s then el s else 0.
Definition sys_level (r : SysReg) : Z :=
  match r with
  | MPIDR_EL1 | CPACR_EL1 | SCTLR_EL1 => 1
  | SP_EL1 | HCR_EL2 | CPTR_EL2 | SPSR_EL2 | CNTHCTL_EL2 | CNTVOFF_EL2 | ELR_EL2 => 2
  | SCR_EL3 | SPSR_EL3 | ELR_EL3 => 3
  end.

(** Return from an exception: to a lower level, whose registers are 64 bits
    wide when the level above says so. *)
Definition eret (s : Cpu) : outcome Cpu :=
  let go spsr target aarch64 :=
    let e := Z.shiftr spsr 2 mod 4 in
    _ ← assert_ (negb (Z.testbit spsr 4) && (1 <=? e) && (e <? el s) && aarch64) "illegal exception return";
    Ret (put_pc (put_mode s e (Z.testbit spsr 0) (Z.shiftr spsr 6 mod 16)) (At target)) in
  if el s =? 3 then go (sys s SPSR_EL3) (sys s ELR_EL3) (Z.testbit (sys s SCR_EL3) 10 && Z.testbit (sys s SCR_EL3) 0)
  else if el s =? 2 then go (sys s SPSR_EL2) (sys s ELR_EL2) (Z.testbit (sys s HCR_EL2) 31)
  else Panic "undefined instruction".

Section execution.
Context `{BuildMode} `{PL : PteLayout, RT : RawTable, BL : Blocks, BS : BootSymbols}.
(** What a call leaves in [x0], and [cpuid] of the crate [aarch64]. *)
Variable scratch : Fn -> Z.
Variable cpuid : Z -> Z.

(** [cpu::start_other_cpu]: a [CPU_ON] call for every other processor, with
    the address of its entry. *)
Definition start_other_cpu (s : Cpu) : Cpu := put_started s (started s ++ ((fun cpu => (cpu, label_addr other_cpu_startup)) <$> seqZ 1 (CPU_NUM - 1))).

(** A call of a Rust function returns to [lr], which [enable_mmu] moves. *)
Definition call (f : Fn) (s : Cpu) : outcome Cpu :=
  let s := put_reg s X0 (scratch f) in
  s ← match f with
      | F_clear_bss => Ret (put_mem s (clear_bss (mem s)))
      | F_create_init_paging => Ret (put_mem s (create_init_paging (mem s)))
      | F_start_other_cpu => Ret (start_other_cpu s)
      | F_enable_mmu =>
          x ← enable_mmu (cpuid (sys s MPIDR_EL1)) (regs s LR) (mmu s);
          let '(mmu', sp, lr) := x in Ret (put_reg (put_sp (put_mmu s mmu') (sp_level s) sp) LR lr)
      end;
  Ret (put_pc s (At (regs s LR))).

(** The instruction [i] at the address [a]. *)
Definition exec (i : Instr) (a : Z) (s : Cpu) : outcome Cpu :=
  let next (s : Cpu) := Ret (put_pc s (At (a + 4))) in
  let jump (l : Label) (s : Cpu) := Ret (put_pc s (At (label_addr l))) in
  match i with
  | Mov d r => next (put_reg s d (regs s r))
  | MovI d v => next (put_reg s d v)
  | Movk d v sh => next (put_reg s d (Z.lor (Z.ldiff (regs s d) (Z.shiftl 0xffff sh)) (Z.shiftl v sh)))
  | MovSp r => next (put_sp s (sp_level s) (regs s r))
  | Mrs d r => _ ← assert_ (sys_level r <=? el s) "undefined instruction"; next (put_reg s d (sys s r))
  | MrsCurrentEL d => next (put_reg s d (Z.shiftl (el s) 2))
  | Msr r x =>
      _ ← assert_ (sys_level r <=? el s) "undefined instruction";
      let v := match x with Some x => regs s x | None => 0 end in
      next (put_sys s r v)
  | MsrSPsel v => next (put_mode s (el s) v (daif s))
  | AndI d r v => next (put_reg s d (Z.land (regs s r) v))
  | LsrI d r v => next (put_reg s d (Z.shiftr (regs s r) v))
  | OrrI d r v => next (put_reg s d (Z.lor (regs s r) v))
  | SubLsl d r x sh => next (put_reg s d ((regs s r - Z.shiftl (regs s x) sh) mod 2 ^ 64))
  | Adr d l => next (put_reg s d (label_addr l))
  | Adrp d l => next (put_reg s d (label_addr l - label_addr l mod 4096))
  | CmpI r v => next (put_zero s (regs s r =? v))
  | Beq l => if zero s then jump l s else next s
  | Cbnz r l => if negb (regs s r =? 0) then jump l s else next s
  | B l => jump l s
  | BExit f => Ret (put_pc s (In f))
  | Bl l => jump l (put_reg s LR (a + 4))
  | BlFn f => call f (put_reg s LR (a + 4))
  | Ret_ => Ret (put_pc s (At (regs s LR)))
  | Eret => eret s
  | Wfe => next s
  end.

(** Instructions are fetched through the MMU once it is on. *)
Definition fetch (s : Cpu) (a : Z) : option Instr :=
  if mmu_on s then hw_translate (mmu s) (mem s) a ≫= (fun x => instr_at x.1) else instr_at a.
Definition cpu_step (s : Cpu) : outcome Cpu :=
  match pc s with
  | In _ => Ret s
  | At a => match fetch s a with Some i => exec i a s | None => Panic "instruction abort" end
  end.
Fixpoint cpu_run (n : nat) (s : Cpu) : outcome Cpu := match n with O => Ret s | S n => s ← cpu_step s; cpu_run n s end.

Lemma cpu_run_add n k s : cpu_run (n + k) s = (s ← cpu_run n s; cpu_run k s).
Proof. revert s. induction n as [|n IH]; intros s; [done|]. cbn [cpu_run Nat.add]. destruct (cpu_step s) as [s'|]; [|done]. apply IH. Qed.
End execution.

(** ** What the program does *)
Section entry_laws.
Context `{BM : BuildMode} `{RS : RawTableSpec, BLS : BlocksSpec, BS : BootSymbols}.
Variable scratch : Fn -> Z.
Variable cpuid : Z -> Z.
Abbreviation crun := (cpu_run scratch cpuid).

(** A processor at the entry of the program, with the MMU off. *)
Definition entered (l : Label) (s : Cpu) : Prop := pc s = At (label_addr l) /\ mmu_on s = false.

Lemma run_exec n s a i : pc s = At a -> mmu_on s = false -> instr_at a = Some i ->
  crun (S n) s = (s ← exec scratch cpuid i a s; crun n s).
Proof. intros Hp Hm Hi. cbn [cpu_run]. unfold cpu_step, fetch. by rewrite Hp, Hm, Hi. Qed.

(** The processor [s] after [el_setup], back at the call. *)
Definition at_el1 (s s' : Cpu) : Prop :=
  pc s' = At (START + 20) /\ el s' = 1 /\ spsel s' = true /\ sys s' SP_EL1 = START /\ regs s' X19 = 0 /\ regs s' X23 = regs s X23
  /\ mem s' = mem s /\ mmu s' = mmu s /\ mmu_on s' = false /\ started s' = started s /\ sys s' MPIDR_EL1 = sys s MPIDR_EL1
  /\ daif s' = (if el s =? 1 then daif s else 15)
  /\ sys s' CPACR_EL1 = (if el s =? 1 then sys s CPACR_EL1 else Z.lor (sys s CPACR_EL1) (Z.shiftl 3 20)).

(** Reduces what an instruction does to a state that is given by its parts. *)
Ltac cpu_cbn :=
  cbv beta iota zeta delta [exec call start_other_cpu mbind outcome_bind regs sys put_reg put_sp put_sys put_pc put_mode put_zero put_mem put_mmu put_started sp_level sys_level
       gregs sps sysregs el spsel daif zero mem mmu mmu_on started pc x0 x19 x23 lr sp_el0 sp_el1 sp_el2 sp_el3 mpidr_el1 cpacr_el1].
Ltac istep := erewrite run_exec; [|reflexivity..]; cpu_cbn.

(** Evaluates a run whose control flow is known. *)
Ltac evaluate_run n s :=
  let r := eval vm_compute in (crun n s) in
  match r with Ret ?x => exists x; split; [vm_compute; reflexivity|] end.
Ltac facts := repeat match goal with |- _ /\ _ => split end; vm_compute; reflexivity.

(** From the call of [el_setup] on processor 0. *)
Lemma el_setup_run s : pc s = At (START + 16) -> mmu_on s = false -> regs s X19 = 0 -> el s = 1 \/ el s = 2 \/ el s = 3 ->
  exists s', crun (if el s =? 1 then 11 else if el s =? 2 then 32 else 39) s = Ret s' /\ at_el1 s s'.
Proof.
  destruct s as [e sel d z [a b c l] [s0 s1 s2 s3] [a1 a2 a3 b1 b2 b3 b4 b5 b6 c1 c2 c3] m mm on st p]. cbn.
  intros -> -> -> [->|[->| ->]]; cbn [Z.eqb Pos.eqb]; unfold at_el1.
  - match goal with |- context [crun 11 ?s] => evaluate_run 11%nat s end. facts.
  - match goal with |- context [crun 32 ?s] => evaluate_run 32%nat s end. facts.
  - match goal with |- context [crun 39 ?s] => evaluate_run 39%nat s end. facts.
Qed.

(** The first four instructions, on processor 0 and on the others. *)
Lemma start_run s : entered _start s -> 1 <= el s -> let cpu := Z.land (sys s MPIDR_EL1) 3 in
  crun 4 s = Ret (put_pc (put_reg (put_reg s X23 (regs s X0)) X19 cpu) (At (if cpu =? 0 then START + 16 else label_addr halt))).
Proof.
  intros [Hpc Hm] He. cbv zeta. pose proof (proj2 (Z.leb_le _ _) He) as Hle.
  destruct s as [e sel d z [a b c l] [s0 s1 s2 s3] [a1 a2 a3 b1 b2 b3 b4 b5 b6 c1 c2 c3] m mm on st p]. cbn in Hpc, Hm, Hle. subst.
  do 2 istep. rewrite Hle. cbn [assert_ mbind outcome_bind]. do 2 istep.
  destruct (Z.land a1 3 =? 0); reflexivity.
Qed.

(** The other processors stay in [halt]. *)
Lemma halt_run n : forall s, mmu_on s = false -> pc s = At (label_addr halt) \/ pc s = At (label_addr halt + 4) ->
  exists s', crun n s = Ret s' /\ el s' = el s /\ mem s' = mem s /\ (pc s' = At (label_addr halt) \/ pc s' = At (label_addr halt + 4)).
Proof.
  induction n as [|n IH]; intros s Hm Hp; [by exists s|].
  destruct Hp as [Hp|Hp]; erewrite run_exec; [|exact Hp|exact Hm|reflexivity| |exact Hp|exact Hm|reflexivity]; cbn [exec mbind outcome_bind];
    (edestruct IH as (s' & -> & He & Hmem & Hpc'); [exact Hm|(by left) || (by right)|by exists s']).
Qed.

(** After [el_setup]: memory is prepared, the other processors are started,
    and the MMU is switched on. *)
Definition boot_sp (s : Cpu) : Z := phys_bootstacktop - cpuid (sys s MPIDR_EL1) * 2 ^ 18.
(** The jump after [enable_mmu], fetched at its new address. *)
Lemma enable_mmu_run s a f m0 : pc s = At a -> mmu_on s = false -> instr_at a = Some (BlFn F_enable_mmu) -> instr_at (a + 4) = Some (BExit f) ->
  mem s = create_init_paging m0 -> tables_ok -> 0 <= cpuid (sys s MPIDR_EL1) < CPU_NUM -> boot_leaf (boot_sp s) <> None -> boot_leaf (a + 4) <> None ->
  el s = 1 -> spsel s = true ->
  exists s', crun 2 s = Ret s' /\ pc s' = In f /\ el s' = 1 /\ spsel s' = true /\ sys s' SP_EL1 = Addr.as_upper_range (boot_sp s)
    /\ mmu_on s' = true /\ ttbr0 (mmu s') = page_table_lvl4 /\ ttbr1 (mmu s') = page_table_lvl4
    /\ mem s' = mem s /\ started s' = started s /\ regs s' X23 = regs s X23 /\ regs s' X19 = regs s X19 /\ daif s' = daif s
    /\ sys s' CPACR_EL1 = sys s CPACR_EL1 /\ sys s' MPIDR_EL1 = sys s MPIDR_EL1.
Proof.
  intros Hp Hm Hi Hi' Hmem Hok Hcpu Hsp Hlr He Hsel. destruct (enable_mmu_spec (mmu s) _ (a + 4) Hok Hcpu Hsp) as (mmu' & Hen & Ht0 & Ht1).
  pose proof (translate_upper m0 mmu' (a + 4) Hok Ht0 Ht1 Hlr) as Htr. destruct (boot_leaf (a + 4)) as [x|] eqn:Hx; [|done].
  apply boot_leaf_self in Hx. rewrite (run_exec _ _ a _ Hp Hm Hi). unfold boot_sp in *.
  destruct s as [e sel d z [y1 y2 y3 y4] [s0 s1 s2 s3] [a1 a2 a3 b1 b2 b3 b4 b5 b6 c1 c2 c3] m mm on st p]. cbn in He, Hsel, Hmem, Hm. subst.
  cpu_cbn. cbn [mmu sys sysregs mpidr_el1] in Hen. rewrite Hen. cpu_cbn. cbn [cpu_run]. unfold cpu_step, fetch. cpu_cbn. rewrite Htr.
  cbn [mbind option_bind]. rewrite Hx, Hi'. cpu_cbn. eexists. split; [reflexivity|]. cpu_cbn. repeat (split; [reflexivity||assumption|]). done.
Qed.

(** Between [el_setup] and [enable_mmu]. *)
Lemma prepare_run s : pc s = At (START + 20) -> mmu_on s = false ->
  exists s', crun 4 s = Ret s' /\ pc s' = At (label_addr boot_cpu_startup + 4) /\ mmu_on s' = false
    /\ mem s' = create_init_paging (clear_bss (mem s)) /\ started s' = started s ++ ((fun cpu => (cpu, label_addr other_cpu_startup)) <$> [1; 2; 3])
    /\ el s' = el s /\ spsel s' = spsel s /\ daif s' = daif s /\ regs s' X19 = regs s X19 /\ regs s' X23 = regs s X23
    /\ (forall r, sys s' r = sys s r).
Proof.
  destruct s as [e sel d z [y1 y2 y3 y4] [s0 s1 s2 s3] [a1 a2 a3 b1 b2 b3 b4 b5 b6 c1 c2 c3] m mm on st p]. cbn [pc mmu_on]. intros -> ->.
  do 4 istep. eexists. split; [reflexivity|]. cpu_cbn. repeat (split; [reflexivity|]). by intros [].
Qed.

(** The state in which [main_start] and [others_start] begin, from the state
    [s] before [enable_mmu]. *)
Definition in_kernel (f : Exit) (m : Words) (s s' : Cpu) : Prop :=
  pc s' = In f /\ el s' = 1 /\ spsel s' = true /\ sys s' SP_EL1 = Addr.as_upper_range (boot_sp s)
  /\ mmu_on s' = true /\ ttbr0 (mmu s') = page_table_lvl4 /\ ttbr1 (mmu s') = page_table_lvl4 /\ mem s' = m.

(** C10. The boot sequence.  On processor 0, entered at EL1, EL2 or EL3, the
    program reaches [main_start] in finitely many instructions: at EL1, with
    the data cleared and then the page table built, the MMU on, the stack
    pointer at the top of the boot stack in the upper half, the address of the
    device tree in [x23], and the three other processors started at
    [other_cpu_startup].  Entered above EL1, exceptions are masked and the
    floating point unit can be used; entered at EL1, both are left as the
    firmware had them.  Every other processor that enters at the start stays in
    [halt] for good and changes no memory. *)
Theorem boot_entry s :
  tables_ok -> boot_leaf phys_bootstacktop <> None -> entered _start s -> el s = 1 \/ el s = 2 \/ el s = 3 ->
  cpuid (sys s MPIDR_EL1) = Z.land (sys s MPIDR_EL1) 3 ->
  if Z.land (sys s MPIDR_EL1) 3 =? 0 then
    exists n s', crun n s = Ret s' /\ in_kernel F_main_start (create_init_paging (clear_bss (mem s))) s s'
      /\ regs s' X23 = regs s X0 /\ started s' = started s ++ ((fun cpu => (cpu, label_addr other_cpu_startup)) <$> [1; 2; 3])
      /\ daif s' = (if el s =? 1 then daif s else 15)
      /\ sys s' CPACR_EL1 = (if el s =? 1 then sys s CPACR_EL1 else Z.lor (sys s CPACR_EL1) (Z.shiftl 3 20))
  else forall n, exists s', crun (4 + n) s = Ret s' /\ el s' = el s /\ mem s' = mem s /\ forall f, pc s' <> In f.
Proof.
  intros Hok Htop Hent He Hcpu. pose proof (start_run s Hent ltac:(lia)) as Hst. cbv zeta in Hst. destruct Hent as [_ Hm].
  destruct (Z.eqb_spec (Z.land (sys s MPIDR_EL1) 3) 0) as [Hz|Hz].
  - rewrite Hz in *. set (s1 := put_pc (put_reg (put_reg s X23 (regs s X0)) X19 0) (At (START + 16))) in *.
    assert (E1 : el s1 = el s /\ daif s1 = daif s /\ mem s1 = mem s /\ started s1 = started s /\ mmu_on s1 = false /\ regs s1 X19 = 0
      /\ regs s1 X23 = regs s X0 /\ sys s1 MPIDR_EL1 = sys s MPIDR_EL1 /\ sys s1 CPACR_EL1 = sys s CPACR_EL1)
      by (subst s1; clear -Hm; destruct s as [???? [????]]; cbn in *; by rewrite Hm).
    destruct E1 as (E1 & E2 & E3 & E4 & E5 & E6 & E7 & E8 & E9). rewrite <- E1 in He.
    destruct (el_setup_run s1 eq_refl E5 E6 He) as (s2 & R2 & P2 & A1 & A2 & A3 & A4 & A5 & A6 & A7 & A8 & A9 & A10 & A11 & A12).
    rewrite E1, E2 in A11. rewrite E1, E9 in A12.
    destruct (prepare_run s2 P2 A8) as (s3 & R3 & P3 & B1 & B2 & B3 & B4 & B5 & B6 & B7 & B8 & B9).
    destruct (enable_mmu_run s3 _ F_main_start (clear_bss (mem s2)) P3 B1) as (s4 & R4 & P4 & C1 & C2 & C3 & C4 & C5 & C6 & C7 & C8 & C9 & C10 & C11 & C12 & _);
      [reflexivity|reflexivity|done|done|rewrite B9, A10, E8, Hcpu; unfold CPU_NUM; lia|
       unfold boot_sp; by rewrite B9, A10, E8, Hcpu, Z.mul_0_l, Z.sub_0_r|by vm_compute|congruence|congruence|].
    eexists (4 + (_ + (4 + 2)))%nat, s4. rewrite cpu_run_add, Hst. sret. rewrite cpu_run_add, R2. sret. rewrite cpu_run_add, R3. sret.
    split; [exact R4|]. unfold in_kernel, boot_sp in *. rewrite B9, A10, E8 in C3. split; [repeat (split; [congruence|]); congruence|].
    specialize (B9 CPACR_EL1). repeat (split; [congruence|]). congruence.
  - intros n. rewrite cpu_run_add, Hst. sret. set (s1 := put_pc (put_reg _ X19 _) _) in *.
    assert (E1 : el s1 = el s /\ mem s1 = mem s /\ mmu_on s1 = false /\ pc s1 = At (label_addr halt))
      by (subst s1; clear -Hm; destruct s as [???? [????]]; cbn in *; by rewrite Hm).
    destruct E1 as (E1 & E2 & E3 & E4). destruct (halt_run n s1 E3 (or_introl E4)) as (s' & -> & He' & Hm' & Hp').
    exists s'. split; [done|]. split; [congruence|]. split; [congruence|]. intros f Hf. destruct Hp'; congruence.
Qed.

(** The other processors.  One that the firmware starts at
    [other_cpu_startup], at EL1 with its own stack pointer selected, runs
    seven instructions and is in [others_start] with the MMU on and the stack
    of its number. *)
Theorem other_cpu_entry s m0 :
  tables_ok -> entered other_cpu_startup s -> el s = 1 -> spsel s = true -> mem s = create_init_paging m0 ->
  0 <= cpuid (sys s MPIDR_EL1) < CPU_NUM -> boot_leaf (boot_sp s) <> None ->
  exists s', crun 7 s = Ret s' /\ in_kernel F_others_start (mem s) s s'.
Proof.
  intros Hok [Hp Hm] He Hsel Hmem Hcpu Hsp. change 7%nat with (5 + 2)%nat. rewrite cpu_run_add.
  assert (Hpre : exists s1, crun 5 s = Ret s1 /\ pc s1 = At (label_addr other_cpu_startup + 20) /\ mmu_on s1 = false /\ mem s1 = mem s
    /\ sys s1 MPIDR_EL1 = sys s MPIDR_EL1 /\ el s1 = 1 /\ spsel s1 = true).
  { destruct s as [e sel d z [y1 y2 y3 y4] [s0 s1 s2 s3] [a1 a2 a3 b1 b2 b3 b4 b5 b6 c1 c2 c3] m mm on st p]. cbn in Hp, Hm, He, Hsel. subst.
    istep. change (1 <=? 1) with true. cbn [assert_ mbind outcome_bind]. do 4 istep. eexists. split; [reflexivity|]. cpu_cbn.
    repeat (split; [reflexivity|]). reflexivity. }
  destruct Hpre as (s1 & -> & P1 & M1 & E1 & E2 & E3 & E4). sret.
  destruct (enable_mmu_run s1 _ F_others_start m0 P1 M1) as (s4 & R4 & P4 & C1 & C2 & C3 & C4 & C5 & C6 & C7 & _);
    [reflexivity|reflexivity|congruence|done|by rewrite E2|unfold boot_sp; by rewrite E2|by vm_compute|done|done|].
  exists s4. split; [exact R4|]. unfold in_kernel, boot_sp in *. rewrite E2 in C3. repeat (split; [congruence|]). congruence.
Qed.
End entry_laws.

From S2P Require Import Mock MockTables.

Section concrete.
#[local] Instance debug : BuildMode := true.
#[local] Existing Instance KernelSpace.blocks.
#[local] Existing Instance KernelSpace.blocks_spec.
#[local] Instance entry_image : BootSymbols := {|
  page_table_lvl4 := 0x40100000; page_table_lvl3 := 0x40101000; page_table_lvl2_0 := 0x40102000; page_table_lvl2_1 := 0x40103000;
  phys_bootstacktop := 0x40300000; phys_sbss := 0x40300000; phys_ebss := 0x40400000;
|}.

Lemma entry_tables : tables_ok.
Proof. split; [by repeat constructor|]. apply (bool_decide_unpack _). by vm_compute. Qed.

(** A processor as the firmware leaves it, at EL3. *)
Definition cpu_at (l : Label) (level mpidr : Z) (m : Words) : Cpu :=
  mkCpu level true 0 false (mkG 0x48000000 0 0 0) (mkSps 0 0 0 0) (mkSys mpidr 0 0 0 0 0 0 0 0 0 0 0) m (mkMmu 0 0 ∅) false [] (At (label_addr l)).

Lemma boot_entry_witness :
  exists n s', cpu_run (fun _ => 7) (fun x => Z.land x 3) n (cpu_at _start 3 0x80000000 (fun _ => 1)) = Ret s'
    /\ pc s' = In F_main_start /\ regs s' X23 = 0x48000000 /\ sys s' SP_EL1 = 0xffff000040300000 /\ daif s' = 15.
Proof.
  destruct (boot_entry (fun _ => 7) (fun x => Z.land x 3) (cpu_at _start 3 0x80000000 (fun _ => 1))) as (n & s' & Hr & (Hp & _ & _ & Hs & _) & Hx & _ & Hd & _);
    [exact entry_tables|by vm_compute|by split|by right; right|reflexivity|].
  exists n, s'. split; [exact Hr|]. split; [exact Hp|]. split; [exact Hx|]. split; [exact Hs|exact Hd].
Defined.

Lemma other_cpu_entry_witness :
  exists s', cpu_run (fun _ => 7) (fun x => Z.land x 3) 7 (cpu_at other_cpu_startup 1 2 (create_init_paging (fun _ => 1))) = Ret s'
    /\ pc s' = In F_others_start /\ sys s' SP_EL1 = 0xffff000040280000.
Proof.
  destruct (other_cpu_entry (fun _ => 7) (fun x => Z.land x 3) (cpu_at other_cpu_startup 1 2 (create_init_paging (fun _ => 1))) (fun _ => 1))
    as (s' & Hr & Hp & _ & _ & Hs & _); [exact entry_tables|by split|reflexivity|reflexivity|reflexivity|by vm_compute|by vm_compute|].
  exists s'. split; [exact Hr|]. split; [exact Hp|exact Hs].
Defined.
End concrete.
