(* ===== verification/Diagnostics.v ===== *)
(** * Diagnostics ([backtrace.rs], [logging.rs])

    The stack trace, a walk over saved frame pointers, and the messages of the
    logger as the console receives them. *)

From S2P Require Import Prelude Paging Mmio Uart.

(** ** The stack trace *)
Section backtrace.
Context (stext etext : Z).
Implicit Types m : Z -> Z.

(** The loop of [backtrace] over the words of memory: the lines it prints, as
    number, program counter and frame pointer. *)
Fixpoint trace (fuel : nat) m (current_pc current_fp stack_num : Z) : option (list (Z * Z * Z)) :=
  match fuel with
  | O => None
  | S fuel =>
      if (stext <=? current_pc) && (current_pc <=? etext) && negb (current_fp =? 0) then
        let line := (stack_num, current_pc - 8, current_fp) in
        let current_fp := m current_fp in
        if current_fp <? Addr.KERNEL_OFFSET then Some [line]
        else
          let current_pc := if negb (current_fp =? 0) then m (current_fp + 8) else current_pc in
          l ← trace fuel m current_pc current_fp (stack_num + 1); Some (line :: l)
      else Some []
  end.
Definition backtrace (fuel : nat) m (lr fp : Z) : option (list (Z * Z * Z)) := trace fuel m lr fp 0.

(** The frames of a stack: each holds the address of the next and a return
    address into the kernel; the last points below the kernel. *)
Fixpoint stack_frames m (pc fp : Z) (rest : list (Z * Z)) : Prop :=
  stext <= pc <= etext /\ fp <> 0 /\
  match rest with
  | [] => m fp < Addr.KERNEL_OFFSET
  | (pc', fp') :: rest => m fp = fp' /\ Addr.KERNEL_OFFSET <= fp' /\ m (fp' + 8) = pc' /\ stack_frames m pc' fp' rest
  end.

Fixpoint numbered (n : Z) (l : list (Z * Z)) : list (Z * Z * Z) :=
  match l with [] => [] | (pc, fp) :: l => (n, pc - 8, fp) :: numbered (n + 1) l end.

Lemma trace_spec m rest : forall pc fp n fuel, stack_frames m pc fp rest -> (length rest < fuel)%nat ->
  trace fuel m pc fp n = Some (numbered n ((pc, fp) :: rest)).
Proof.
  induction rest as [|[pc' fp'] rest IH]; intros pc fp n [|fuel] Hs Hf; cbn [length] in *; try lia; cbn [stack_frames] in Hs.
  - destruct Hs as (Hpc & Hfp & Hend). cbn [trace]. rewrite !(proj2 (Z.leb_le _ _)), (proj2 (Z.eqb_neq _ _)) by lia. cbn [andb negb].
    by rewrite (proj2 (Z.ltb_lt _ _)).
  - destruct Hs as (Hpc & Hfp & Hnext & Hk & Hret & Hs). cbn [trace]. rewrite !(proj2 (Z.leb_le _ _)), (proj2 (Z.eqb_neq fp 0)) by lia.
    cbn [andb negb]. rewrite Hnext, (proj2 (Z.ltb_ge _ _)) by done. rewrite (proj2 (Z.eqb_neq fp' 0)) by (unfold Addr.KERNEL_OFFSET in Hk; lia).
    cbn [negb]. rewrite Hret, (IH pc' fp' (n + 1) fuel) by (done || lia). done.
Qed.

(** A frame that points to itself is never left. *)
Lemma trace_loops m fp pc fuel : forall n, stext <= pc <= etext -> Addr.KERNEL_OFFSET <= fp -> m fp = fp -> m (fp + 8) = pc ->
  trace fuel m pc fp n = None.
Proof.
  intros n Hpc Hk Hm Hp. revert n. induction fuel as [|fuel IH]; intros n; [done|]. cbn [trace].
  rewrite !(proj2 (Z.leb_le _ _)), (proj2 (Z.eqb_neq fp 0)) by (unfold Addr.KERNEL_OFFSET in Hk; lia). cbn [andb negb].
  rewrite Hm, (proj2 (Z.ltb_ge _ _)), (proj2 (Z.eqb_neq fp 0)) by (unfold Addr.KERNEL_OFFSET in *; lia). cbn [negb]. by rewrite Hp, IH.
Qed.
End backtrace.

(** ** The logger *)

(** [log::Level] and its name, [LevelFilter], [level_to_color_code] *)
Inductive Level := Error | Warn | Info | Debug | Trace.
Definition level_name (l : Level) : string :=
  match l with Error => "ERROR" | Warn => "WARN" | Info => "INFO" | Debug => "DEBUG" | Trace => "TRACE" end.
Definition level_to_color_code (l : Level) : Z :=
  match l with Error => 31 | Warn => 93 | Info => 34 | Debug => 32 | Trace => 90 end.
Definition level_rank (l : Level) : Z := match l with Error => 1 | Warn => 2 | Info => 3 | Debug => 4 | Trace => 5 end.

(** [init]: the filter the variable [LOG] of the build chooses. *)
Definition max_level (LOG : option string) : Level :=
  match LOG with
  | Some v => if String.eqb v "error" then Error else if String.eqb v "warn" then Warn else if String.eqb v "info" then Info
              else if String.eqb v "debug" then Debug else if String.eqb v "trace" then Trace else Debug
  | None => Debug
  end.

(** A number below 1000 in decimal, and [{:<5}]. *)
Definition digit (d : Z) : string := String (Ascii.ascii_of_N (Z.to_N (48 + d))) EmptyString.
Definition decimal (n : Z) : string :=
  String.append (if 99 <? n then digit (n / 100) else "")
    (String.append (if 9 <? n then digit (n / 10 mod 10) else "") (digit (n mod 10))).
Fixpoint pad5 (fuel : nat) (s : string) : string :=
  match fuel with O => s | S fuel => if (String.length s <? 5)%nat then pad5 fuel (s ++ " ")%string else s end.

Definition esc : string := String (Ascii.ascii_of_N 27) EmptyString.
Definition newline : string := String (Ascii.ascii_of_N 10) EmptyString.

(** [_print], [print!] and [println!] on the console *)
Definition print {D} `{Registers UartReg D} (s : string) (d : D) : D := mini_write_str d (bytes_of s).
Definition println {D} `{Registers UartReg D} (s : string) (d : D) : D := print (s ++ newline) d.

(** [with_color!], [print_with_color] and the text of a message *)
Definition with_color (s : string) (code : Z) : string := (esc ++ "[" ++ decimal code ++ "m" ++ s ++ esc ++ "[0m")%string.
Definition print_with_color {D} `{Registers UartReg D} (s : string) (code : Z) (d : D) : D := print (with_color s code) d.
Definition log_line (l : Level) (cpu : Z) (msg : string) : string :=
  ("[" ++ pad5 5 (level_name l) ++ "][CPU-" ++ decimal cpu ++ "]: " ++ msg ++ newline)%string.
Definition log_text (l : Level) (cpu : Z) (msg : string) : string := with_color (log_line l cpu msg) (level_to_color_code l).

(** [SimpleLogger::enabled], [SimpleLogger::log] *)
Definition enabled : bool := true.
Definition logger_log {D} `{Registers UartReg D} (l : Level) (cpu : Z) (msg : string) (d : D) : D :=
  if negb enabled then d else print_with_color (log_line l cpu msg) (level_to_color_code l) d.

(** The macros of the [log] crate drop what the filter excludes. *)
Definition log {D} `{Registers UartReg D} (filter l : Level) (cpu : Z) (msg : string) (d : D) : D :=
  if level_rank l <=? level_rank filter then logger_log l cpu msg d else d.

(** What a function that never returns leaves on the console when it stops
    the processor: the loops of [wait_forever] and [kmain] only wait. *)
Inductive Stopped (D : Type) := WaitForEver (d : D).
Arguments WaitForEver {D}.

(** The panic handler, the handler of failed allocations, and [kmain] *)
Definition panic_text (message : option string) : string :=
  match message with Some args => (newline ++ "Kernel panic: " ++ args)%string | None => (newline ++ "Kernel panic!")%string end.
Definition panic {D} `{Registers UartReg D} (message : option string) (d : D) : Stopped D := WaitForEver (println (panic_text message) d).
Definition oom {D} `{Registers UartReg D} (d : D) : Stopped D := panic (Some "out of memory"%string) d.
Definition kmain {D} `{Registers UartReg D} (filter : Level) (cpu : Z) (d : D) : Stopped D := WaitForEver (log filter Info cpu "Kernel running." d).

(** Levels can be told apart by their colour, and every message of the default
    filter but a trace is printed. *)
Lemma colours_distinct l l' : level_to_color_code l = level_to_color_code l' -> l = l'.
Proof. by destruct l, l'. Qed.

Lemma default_filter {D} `{Registers UartReg D} l cpu msg (d : D) :
  log (max_level None) l cpu msg d = match l with Trace => d | _ => mini_write_str d (bytes_of (log_text l cpu msg)) end.
Proof. by destruct l. Qed.

Lemma log_text_example : log_text Warn 2 "x" = (esc ++ "[93m[WARN ][CPU-2]: x" ++ newline ++ esc ++ "[0m")%string.
Proof. reflexivity. Qed.
