(* ===== verification/Elf.v ===== *)
(** * Program images ([process/structs.rs])

    [ElfExt]: how the segments of an ELF file become areas of a memory set.
    The parser is the crate [xmas_elf]; what its accessors return for a file
    are the fields of the records below, and [ElfFile::new] is a parameter. *)

From S2P Require Import Prelude Paging Handler MemorySet AddressSpace UserMemory Requests.
Import Addr Frames Table.

(** ** The crate's view of a file *)

(** [program::Type], [program::Flags], [program::SegmentData] *)
Inductive PhType := Null | Load | Dynamic | Interp | ShLib | Phdr | Tls | GnuRelro | OsSpecific (n : Z) | ProcessorSpecific (n : Z).
#[export] Instance PhType_eq_dec : EqDecision PhType.
Proof. solve_decision. Defined.
Record PhFlags := mkPhFlags { is_execute : bool; is_write : bool; is_read : bool }.
Inductive SegmentData := Undefined (data : list Z) | OtherData.

(** [ProgramHeader]: what [get_type], [flags], ... return; [ph_data] is
    [get_data(elf)]. *)
Record ProgramHeader := mkPh {
  get_type : result PhType string; ph_flags : PhFlags; virtual_addr : Z; mem_size : Z;
  ph_off : Z; file_size : Z; ph_data : result SegmentData string;
}.

(** [header::Type] and [header::Machine], as far as they are named, and the
    header with the program headers in order. *)
Inductive ElfType := Executable | SharedObject | OtherType (n : Z).
Inductive ElfMachine := AArch64 | OtherMachine (n : Z).
Record ElfFile := mkElf {
  type_ : ElfType; machine : ElfMachine; ph_offset : Z; ph_entry_size : Z; ph_count : Z; entry_point : Z;
  program_iter : list ProgramHeader;
}.

Class ElfParser := elf_new : list Z -> result ElfFile string.

(** ** [core::str::from_utf8] *)

Definition in_range (lo hi b : Z) : bool := (lo <=? b) && (b <=? hi).
Definition cont (b : Z) : bool := in_range 0x80 0xbf b.

(** The well-formed sequences of the Unicode standard, table 3-7; every turn
    takes at least one byte. *)
Fixpoint utf8_loop (fuel : nat) (l : list Z) : bool :=
  match fuel with
  | O => false
  | S fuel =>
      match l with
      | [] => true
      | a :: l =>
          if a <=? 0x7f then utf8_loop fuel l
          else match l with
               | b :: l =>
                   if in_range 0xc2 0xdf a && cont b then utf8_loop fuel l
                   else match l with
                        | c :: l =>
                            let second := if a =? 0xe0 then in_range 0xa0 0xbf b
                                          else if a =? 0xed then in_range 0x80 0x9f b
                                          else in_range 0xe1 0xef a && cont b in
                            if second && cont c then utf8_loop fuel l
                            else match l with
                                 | d :: l =>
                                     let second := if a =? 0xf0 then in_range 0x90 0xbf b
                                                   else if a =? 0xf4 then in_range 0x80 0x8f b
                                                   else in_range 0xf1 0xf3 a && cont b in
                                     if second && cont c && cont d then utf8_loop fuel l else false
                                 | [] => false
                                 end
                        | [] => false
                        end
               | [] => false
               end
      end
  end.
Definition valid_utf8 (l : list Z) : bool := utf8_loop (S (length l)) l.

(** The string with these bytes. *)
Fixpoint str_of (l : list Z) : string :=
  match l with [] => "" | b :: l => String (Ascii.ascii_of_N (Z.to_N b)) (str_of l) end%string.

(** ** [ElfExt] *)

(** [Flags::to_attr] *)
Definition to_attr (f : PhFlags) : MemoryAttr :=
  let flags := Attr.user_ Attr.default in
  let flags := if is_execute f then Attr.execute_ flags else flags in
  if negb (is_write f) then Attr.readonly_ flags else flags.

Definition is_type (ty : PhType) (ph : ProgramHeader) : bool :=
  match get_type ph with Ok t => bool_decide (t = ty) | Err _ => false end.

(** [data[..data.len() - 1]] while the last byte is zero. *)
Fixpoint strip (rev : list Z) : list Z := match rev with 0 :: rev => strip rev | _ => rev end.
Definition skip_null (data : list Z) : list Z := reverse (strip (reverse data)).

(** [ElfExt::get_interpreter] *)
Definition get_interpreter (self : ElfFile) : outcome (result string string) :=
  match List.filter (is_type Interp) (program_iter self) with
  | [] => Ret (Err "no interp header"%string)
  | header :: _ =>
      match ph_data header with
      | Err e => Ret (Err e)
      | Ok OtherData => Panic "internal error: entered unreachable code"
      | Ok (Undefined data) =>
          let data := skip_null data in
          Ret (if valid_utf8 data then Ok (str_of data) else Err "failed to convert to utf8"%string)
      end
  end.

Section elf.
Context `{BuildMode} {E A T F : Type}.
Context `{EI : Entry E, FI : FrameAllocator A, PI : !PageTable E A T, RI : Read F}.
Abbreviation mset := (MemorySet F T).

(** [ElfExt::make_memory_set]: the loop's body, and the whole. *)
Definition make_segment (inode : F) (x : Z * mset * world A) (ph : ProgramHeader) : outcome (Z * mset * world A) :=
  let '(farthest_memory, ms, w) := x in
  if negb (is_type Load ph) then Ret x
  else
    e ← uadd (virtual_addr ph) (mem_size ph);
    fe ← uadd (ph_off ph) (file_size ph);
    s ← push ms w (virtual_addr ph) e (to_attr (ph_flags ph)) (File (mkFile inode (virtual_addr ph) (ph_off ph) fe)) "elf";
    Ret (if farthest_memory <? e then e else farthest_memory, s.1, s.2).

Definition make_memory_set (self : ElfFile) (ms : mset) (w : world A) (inode : F) : outcome (Z * mset * world A) :=
  x ← foldM (make_segment inode) (0, ms, w) (program_iter self);
  let '(farthest_memory, ms, w) := x in
  far ← uadd farthest_memory PAGE_SIZE;
  bias ← Pages.start_address (Pages.of_addr far);
  Ret (bias, ms, w).

(** [ElfExt::append_as_interpreter] *)
Definition append_as_interpreter (self : ElfFile) (inode : F) (ms : mset) (w : world A) (bias : Z) : outcome (mset * world A) :=
  foldM (fun '(ms, w) ph =>
    if negb (is_type Load ph) then Ret (ms, w)
    else
      s ← uadd (virtual_addr ph) bias;
      e ← uadd (virtual_addr ph) (mem_size ph);
      e ← uadd e bias;
      fe ← uadd (ph_off ph) (file_size ph);
      push ms w s e (to_attr (ph_flags ph)) (File (mkFile inode s (ph_off ph) fe)) "elf-interp")
    (ms, w) (program_iter self).

(** [ElfExt::get_phdr_vaddr] *)
Definition get_phdr_vaddr (self : ElfFile) : outcome (option Z) :=
  match find (is_type Phdr) (program_iter self) with
  | Some phdr => Ret (Some (virtual_addr phdr))
  | None =>
      match find (fun ph => is_type Load ph && (ph_off ph =? 0)) (program_iter self) with
      | Some elf_addr => v ← uadd (virtual_addr elf_addr) (ph_offset self); Ret (Some v)
      | None => Ret None
      end
  end.
End elf.

(** ** The segments as requests *)

Definition segment {F} (inode : F) (bias : Z) (nm : string) (ph : ProgramHeader) : Request F :=
  mkReq (virtual_addr ph + bias) (virtual_addr ph + mem_size ph + bias) (to_attr (ph_flags ph))
    (File (mkFile inode (virtual_addr ph + bias) (ph_off ph) (ph_off ph + file_size ph))) nm.
Definition loads (self : ElfFile) : list ProgramHeader := List.filter (is_type Load) (program_iter self).
Definition segments {F} (inode : F) (bias : Z) (nm : string) (self : ElfFile) : list (Request F) :=
  segment inode bias nm <$> loads self.

(** The address after the last segment, and the bias of the interpreter: the
    start of the page after the one that holds this address. *)
Definition far_of : Z -> list ProgramHeader -> Z := foldl (fun m ph => Z.max m (virtual_addr ph + mem_size ph)).
Definition farthest (self : ElfFile) : Z := far_of 0 (loads self).
Definition interp_bias (self : ElfFile) : Z := (farthest self / 4096 + 1) * 4096.

(** Fields of [u64] whose sums do not overflow. *)
Definition ph_ok (bias : Z) (ph : ProgramHeader) : Prop :=
  0 <= virtual_addr ph /\ 0 <= mem_size ph /\ 0 <= ph_off ph /\ 0 <= file_size ph
  /\ virtual_addr ph + mem_size ph + bias + 8192 <= 2 ^ 64 /\ ph_off ph + file_size ph < 2 ^ 64.

Section elf_laws.
Context `{BuildMode} {E A T F : Type}.
Context `{EI : Entry E, FI : FrameAllocator A, PI : !PageTable E A T, RI : Read F}.
Implicit Types (ms : MemorySet F T) (w : world A).

Lemma append_segments self inode ms w bias :
  0 <= bias -> Forall (ph_ok bias) (loads self) ->
  append_as_interpreter self inode ms w bias = foldM push_req (ms, w) (segments inode bias "elf-interp" self).
Proof.
  intros Hb. unfold append_as_interpreter, segments, loads. generalize (program_iter self) as l. intros l.
  revert ms w. induction l as [|ph l IH]; intros ms w; cbn [foldM List.filter fmap list_fmap]; [done|].
  destruct (is_type Load ph); cbn [negb]; [|intros Hok; by apply IH].
  intros Hok. apply Forall_cons in Hok as [(? & ? & ? & ? & ? & ?) Hok]. cbn [fmap list_fmap foldM].
  repeat (rewrite uadd_ok by lia; sret). unfold push_req. cbn [segment r_start r_end r_attr r_handler r_name fst snd].
  destruct (push _ _ _ _ _ _ _) as [[ms' w']|]; [|done]. sret. by apply IH.
Qed.

Lemma far_of_bound l : forall m, 0 <= m < 2 ^ 64 - 4096 -> Forall (ph_ok 0) l -> 0 <= far_of m l < 2 ^ 64 - 4096.
Proof.
  induction l as [|ph l IH]; intros m Hm Hok; [done|]. apply Forall_cons in Hok as [(? & ? & ? & ? & ? & ?) Hok].
  apply IH; [lia|done].
Qed.

Lemma make_loop inode l : forall ms w m,
  0 <= m -> Forall (ph_ok 0) (List.filter (is_type Load) l) ->
  foldM (make_segment inode) (m, ms, w) l
  = s ← foldM push_req (ms, w) (segment inode 0 "elf" <$> List.filter (is_type Load) l);
    Ret (far_of m (List.filter (is_type Load) l), s.1, s.2).
Proof.
  induction l as [|ph l IH]; intros ms w m Hm Hok; cbn [foldM List.filter make_segment] in *; [done|].
  destruct (is_type Load ph); cbn [negb]; [|by apply IH]. apply Forall_cons in Hok as [(? & ? & ? & ? & ? & ?) Hok].
  rewrite fmap_cons. cbn [foldM]. rewrite !uadd_ok by lia. sret.
  assert (push_req (ms, w) (segment inode 0 "elf" ph)
          = push ms w (virtual_addr ph) (virtual_addr ph + mem_size ph) (to_attr (ph_flags ph))
              (File (mkFile inode (virtual_addr ph) (ph_off ph) (ph_off ph + file_size ph))) "elf") as ->.
  { unfold push_req, segment. cbn [r_start r_end r_attr r_handler r_name fst snd]. by rewrite !Z.add_0_r. }
  destruct (push _ _ _ _ _ _ _) as [[ms' w']|]; [|done]. cbn [mbind outcome_bind fst snd].
  replace (if m <? virtual_addr ph + mem_size ph then _ else m) with (Z.max m (virtual_addr ph + mem_size ph))
    by (destruct (Z.ltb_spec m (virtual_addr ph + mem_size ph)); lia).
  by rewrite IH by (done || lia).
Qed.

Lemma make_segments self ms w inode :
  Forall (ph_ok 0) (loads self) ->
  make_memory_set self ms w inode
  = s ← foldM push_req (ms, w) (segments inode 0 "elf" self); Ret (interp_bias self, s.1, s.2).
Proof.
  intros Hok. pose proof (far_of_bound (loads self) 0 ltac:(lia) Hok) as Hf. fold (farthest self) in Hf.
  unfold make_memory_set. rewrite make_loop by done. unfold segments, farthest, loads in *.
  destruct (foldM push_req _ _) as [[ms' w']|]; [|done]. cbn [mbind outcome_bind fst snd].
  rewrite PAGE_SIZE_eq, uadd_ok by lia. sret. unfold interp_bias, farthest, loads, Pages.of_addr. rewrite PAGE_SIZE_eq.
  set (m := far_of 0 _) in *. replace (m + 4096) with (m + 1 * 4096) by lia. rewrite Z.div_add by lia.
  pose proof (Z.div_mod m 4096). pose proof (Z.mod_pos_bound m 4096). assert (0 <= m / 4096) by (apply Z.div_pos; lia).
  by rewrite Pages.start_address_ok by lia.
Qed.
End elf_laws.
