(* ===== verification/EventBus.v ===== *)
(** * Event buses ([sync/event_bus.rs])

    A bus holds the current events and the callbacks of the tasks that wait
    for one.  The kernel subscribes two kinds of callback: that of
    [EventBusFuture], which wakes its task when an event of its mask is set,
    and the unconditional one of [SleepFuture] and of the terminal. *)

From S2P Require Import Prelude.

(** [Event] *)
Definition READABLE : Z := 1.
Definition WRITABLE : Z := 2.
Definition ERROR : Z := 4.
Definition CLOSED : Z := 8.
Definition PROCESS_QUIT : Z := Z.shiftl 1 10.
Definition CHILD_PROCESS_QUIT : Z := Z.shiftl 1 11.
Definition RECEIVE_SIGNAL : Z := Z.shiftl 1 12.
Definition SEMAPHORE_REMOVED : Z := Z.shiftl 1 20.
Definition SEMAPHORE_CAN_ACQUIRE : Z := Z.shiftl 1 21.

(** A callback and the task it wakes: [OnMask] is the closure of
    [EventBusFuture::poll], [OnAny] the one of [SleepFuture::poll] and
    [SerialFuture::poll]. *)
Inductive EventHandler := OnMask (waker : nat) (mask : Z) | OnAny (waker : nat).

(** A call of a callback: does it ask to be dropped, and whom does it wake? *)
Definition call (f : EventHandler) (s : Z) : bool * list nat :=
  match f with
  | OnMask waker mask => if Z.land s mask =? 0 then (false, []) else (true, [waker])
  | OnAny waker => (true, [waker])
  end.

(** [struct EventBus] *)
Record EventBus := mkBus { event : Z; callbacks : list EventHandler }.

(** [EventBus::new] *)
Definition new_bus : EventBus := mkBus 0 [].

(** [Vec::retain(|f| !f(new))]: the callbacks that stay and the wake-ups. *)
Fixpoint retain (s : Z) (l : list EventHandler) : list EventHandler * list nat :=
  match l with
  | [] => ([], [])
  | f :: l =>
      let '(drop, w) := call f s in
      let '(l', w') := retain s l in
      ((if drop : bool then l' else f :: l'), w ++ w')
  end.

(** [EventBus::change]: the bus and the tasks woken. *)
Definition change (self : EventBus) (reset set_ : Z) : EventBus * list nat :=
  let orig := event self in
  let new := Z.lor (Z.ldiff orig reset) set_ in
  if new =? orig then (mkBus new (callbacks self), [])
  else let '(l, w) := retain new (callbacks self) in (mkBus new l, w).

(** [EventBus::set], [EventBus::clear] *)
Definition set (self : EventBus) (s : Z) : EventBus * list nat := change self 0 s.
Definition clear (self : EventBus) (s : Z) : EventBus * list nat := change self s 0.

(** [EventBus::subscribe], [EventBus::get_callback_len] *)
Definition subscribe (self : EventBus) (f : EventHandler) : EventBus := mkBus (event self) (callbacks self ++ [f]).
Definition get_callback_len (self : EventBus) : nat := length (callbacks self).

(** [EventBusFuture::poll] of a task: the events, or [None] for [Pending]. *)
Definition poll (self : EventBus) (waker : nat) (mask : Z) : EventBus * option Z :=
  if Z.land (event self) mask =? 0 then (subscribe self (OnMask waker mask), None)
  else (self, Some (event self)).

(** ** Properties *)

(** No waiter is registered for an event that is already set. *)
Definition quiet (s : Z) (f : EventHandler) : Prop :=
  match f with OnMask _ mask => Z.land s mask = 0 | OnAny _ => True end.
Definition bus_inv (b : EventBus) : Prop := Forall (quiet (event b)) (callbacks b).

(** What can happen to a bus. *)
Inductive bus_step : EventBus -> EventBus -> Prop :=
| step_change b reset set_ : bus_step b (change b reset set_).1
| step_poll b waker mask : bus_step b (poll b waker mask).1
| step_subscribe b waker : bus_step b (subscribe b (OnAny waker)).

Lemma retain_quiet s l : Forall (quiet s) (retain s l).1.
Proof.
  induction l as [|f l IH]; cbn; [constructor|].
  destruct f as [w m|w]; cbn; destruct (retain s l) as [l' w']; cbn in *; [|done].
  destruct (Z.eqb_spec (Z.land s m) 0); cbn; [by constructor|done].
Qed.

Lemma change_event b reset set_ : event (change b reset set_).1 = Z.lor (Z.ldiff (event b) reset) set_.
Proof. unfold change. destruct (_ =? _); [done|]. by destruct (retain _ _). Qed.

Lemma change_inv b reset set_ : bus_inv b -> bus_inv (change b reset set_).1.
Proof.
  intros Hb. unfold bus_inv. rewrite change_event. unfold change.
  destruct (Z.eqb_spec (Z.lor (Z.ldiff (event b) reset) set_) (event b)) as [He|Hn]; cbn.
  - by rewrite He.
  - pose proof (retain_quiet (Z.lor (Z.ldiff (event b) reset) set_) (callbacks b)) as Hq. by destruct (retain _ _).
Qed.

Lemma bus_step_inv b b' : bus_step b b' -> bus_inv b -> bus_inv b'.
Proof.
  intros Hs Hb. destruct Hs as [b reset set_|b w m|b w].
  - by apply change_inv.
  - unfold poll. destruct (Z.eqb_spec (Z.land (event b) m) 0); [|done].
    apply Forall_app. split; [done|]. by repeat constructor.
  - apply Forall_app. split; [done|]. by repeat constructor.
Qed.

(** What [retain] wakes, and that a woken waiter is gone. *)
Lemma retain_wakes s l w m :
  OnMask w m ∈ l -> Z.land s m ≠ 0 -> w ∈ (retain s l).2 /\ OnMask w m ∉ (retain s l).1.
Proof.
  intros Hin Hne. split.
  - induction l as [|f l IH]; [by apply not_elem_of_nil in Hin|]. cbn.
    apply elem_of_cons in Hin as [<-|Hin].
    + cbn. rewrite (proj2 (Z.eqb_neq _ _)) by done. destruct (retain s l). cbn. by left.
    + destruct (call f s) as [d w0]. specialize (IH Hin). destruct (retain s l) as [l' w']. cbn in *.
      apply elem_of_app. by right.
  - intros Hin'. pose proof (retain_quiet s l) as Hq. rewrite Forall_forall in Hq. by apply Hq in Hin'.
Qed.



Lemma change_wakes b reset set_ w m :
  bus_inv b -> OnMask w m ∈ callbacks b ->
  Z.land (event (change b reset set_).1) m ≠ 0 ->
  w ∈ (change b reset set_).2 /\ OnMask w m ∉ callbacks (change b reset set_).1.
Proof.
  intros Hb Hin Hne. rewrite change_event in Hne. unfold change.
  destruct (Z.eqb_spec (Z.lor (Z.ldiff (event b) reset) set_) (event b)) as [He|Hn].
  - rewrite He in Hne. unfold bus_inv in Hb. rewrite Forall_forall in Hb. by apply Hb in Hin.
  - pose proof (retain_wakes _ _ _ _ Hin Hne) as Hw. by destruct (retain _ _).
Qed.

Lemma set_event_land b e : Z.land (event (set b e).1) e = e.
Proof.
  unfold set. rewrite change_event. apply Z.bits_inj'. intros n Hn. rewrite Z.land_spec, Z.lor_spec.
  destruct (Z.testbit e n); [by rewrite orb_true_r|by rewrite andb_false_r].
Qed.

(** A change that sets an event of the mask of a waiting task wakes the
    task and removes its callback, so it is woken once. *)
Theorem change_wakes_waiter b reset set_ w m :
  bus_inv b -> OnMask w m ∈ callbacks b ->
  Z.land (event (change b reset set_).1) m ≠ 0 ->
  w ∈ (change b reset set_).2 /\ OnMask w m ∉ callbacks (change b reset set_).1.
Proof. apply change_wakes. Qed.

Lemma change_wakes_waiter_witness :
  let b := (poll new_bus 7 CHILD_PROCESS_QUIT).1 in
  7%nat ∈ (change b 0 CHILD_PROCESS_QUIT).2 /\ OnMask 7 CHILD_PROCESS_QUIT ∉ callbacks (change b 0 CHILD_PROCESS_QUIT).1.
Proof.
  apply (change_wakes_waiter (poll new_bus 7 CHILD_PROCESS_QUIT).1 0 CHILD_PROCESS_QUIT 7 CHILD_PROCESS_QUIT).
  - repeat constructor.
  - by left.
  - discriminate.
Defined.
