(* ===== verification/Files.v ===== *)
(** * Open files ([fs/file.rs])

    [FileHandle] and the open file descriptions it shares through an [Arc].
    The file system itself ([queen_fs], an external crate) is the interface
    [Vfs]: a state and the operations of the trait [INode] on it. *)

From S2P Require Import Prelude.

(** ** The external file system *)

(** The fields of [queen_fs::Metadata] the kernel reads. *)
Record Metadata (FT : Type) := mkMetadata { md_size : Z; md_type : FT }.
Arguments mkMetadata {FT}.
Arguments md_size {FT}.
Arguments md_type {FT}.

Class Vfs := {
  INode : Type;
  FsState : Type;
  FsError : Type;
  FileType : Type;
  #[global] fserror_dec :: EqDecision FsError;
  #[global] filetype_dec :: EqDecision FileType;
  (* the variants the kernel names *)
  Again : FsError;
  InvalidParam : FsError;
  EntryNotFound : FsError;
  RegularFile : FileType;
  Dir : FileType;
  SymLink : FileType;
  (* the trait [INode] *)
  i_read_at : FsState -> INode -> Z -> Z -> result (list Z) FsError * FsState;
  i_write_at : FsState -> INode -> Z -> list Z -> result Z FsError * FsState;
  i_metadata : FsState -> INode -> result (Metadata FileType) FsError;
  i_resize : FsState -> INode -> Z -> result unit FsError * FsState;
  i_sync_all : FsState -> INode -> result unit FsError * FsState;
  i_sync_data : FsState -> INode -> result unit FsError * FsState;
  i_get_entry : FsState -> INode -> Z -> result string FsError;
  i_find : FsState -> INode -> string -> result INode FsError;
  i_create : FsState -> INode -> string -> FileType -> Z -> result INode FsError * FsState;
  i_update_time : FsState -> INode -> TimeSpec -> FsState;
  i_link : FsState -> INode -> string -> INode -> result unit FsError * FsState;
  i_unlink : FsState -> INode -> string -> result unit FsError * FsState;
  i_move : FsState -> INode -> string -> INode -> string -> result unit FsError * FsState;
  i_lookup : FsState -> INode -> string -> result INode FsError;
  i_lookup_follow : FsState -> INode -> string -> Z -> result INode FsError;
  (* [ROOT_INODE], initialised when first used *)
  root_inode : outcome INode;
}.

(** ** State *)

(** [OpenOptions], [Flock], [OpenFileDescription] *)
Record OpenOptions := mkOptions { read_ok : bool; write_ok : bool; append : bool }.
Inductive Flock := NoLock | Shared | Exclusive.
Record OpenFileDescription := mkDesc { offset : Z; options : OpenOptions; flock : Flock }.

(** [SeekFrom] *)
Inductive SeekFrom := Start (offset : Z) | End (offset : Z) | Current (offset : Z).

Section files.
Context `{BuildMode} `{V : Vfs}.

(** [FileHandle]; [description] is the [Arc]. *)
Record FileHandle := mkHandle { inode : INode; description : nat; path : string; fd_cloexec : bool }.

(** The open file descriptions and the file system. *)
Record FileWorld := mkFiles { descs : gmap nat OpenFileDescription; next_desc : nat; fs : FsState }.

Definition with_fs (w : FileWorld) (s : FsState) : FileWorld := mkFiles (descs w) (next_desc w) s.
Definition put_desc (w : FileWorld) (r : nat) (d : OpenFileDescription) : FileWorld :=
  mkFiles (<[r := d]> (descs w)) (next_desc w) (fs w).
Definition desc_of (w : FileWorld) (h : FileHandle) : outcome OpenFileDescription :=
  expect "dangling Arc" (descs w !! description h).

(** Operations that may fail with an [FsError]. *)
Abbreviation fsM A := (FileWorld -> outcome (result A FsError * FileWorld)).

(** [description.offset += n] *)
Definition advance (w : FileWorld) (h : FileHandle) (n : Z) : outcome FileWorld :=
  d ← desc_of w h;
  o ← uadd (offset d) (as_u64 n);
  Ret (put_desc w (description h) (mkDesc o (options d) (flock d))).

(** [FileHandle::new] (with [OpenFileDescription::create]) *)
Definition handle_new (i : INode) (o : OpenOptions) (p : string) (cloexec : bool) (w : FileWorld) : FileHandle * FileWorld :=
  let r := next_desc w in
  (mkHandle i r p cloexec, mkFiles (<[r := mkDesc 0 o NoLock]> (descs w)) (S r) (fs w)).

(** [FileHandle::dup] *)
Definition dup (self : FileHandle) (cloexec : bool) : FileHandle :=
  mkHandle (inode self) (description self) (path self) cloexec.

(** One turn of the loop of [FileHandle::read_at]: [None] when it goes to wait
    in [async_poll]. *)
Definition read_at_turn (self : FileHandle) (off len : Z) (w : FileWorld) : outcome (option (result (list Z) FsError) * FileWorld) :=
  let '(r, s) := i_read_at (fs w) (inode self) off len in
  match r with
  | Ok bytes => Ret (Some (Ok bytes), with_fs w s)
  | Err e => if decide (e = Again) then Ret (None, with_fs w s) else Ret (Some (Err e), with_fs w s)
  end.

(** [FileHandle::read_at] up to the first wait; [read_at_turn] is what runs
    each time [async_poll] is ready. *)
Definition read_at (self : FileHandle) (off len : Z) (w : FileWorld) : outcome (option (result (list Z) FsError) * FileWorld) :=
  d ← desc_of w self;
  if negb (read_ok (options d)) then Ret (Some (Err InvalidParam), w)
  else read_at_turn self off len w.

(** The end of [FileHandle::read]: the offset moves by what was read. *)
Definition read_finish (self : FileHandle) (x : option (result (list Z) FsError) * FileWorld)
    : outcome (option (result (list Z) FsError) * FileWorld) :=
  match x with
  | (Some (Ok bytes), w) => w ← advance w self (Z.of_nat (length bytes)); Ret (Some (Ok bytes), w)
  | _ => Ret x
  end.

(** [FileHandle::read] up to the first wait, and after a wait that began when
    the offset was [off]. *)
Definition read (self : FileHandle) (len : Z) (w : FileWorld) : outcome (option (result (list Z) FsError) * FileWorld) :=
  d ← desc_of w self;
  x ← read_at self (offset d) len w; read_finish self x.
Definition read_resume (self : FileHandle) (off len : Z) (w : FileWorld) : outcome (option (result (list Z) FsError) * FileWorld) :=
  x ← read_at_turn self off len w; read_finish self x.

(** [FileHandle::write_at] *)
Definition write_at (self : FileHandle) (off : Z) (buf : list Z) : fsM Z := fun w =>
  d ← desc_of w self;
  if negb (write_ok (options d)) then Ret (Err InvalidParam, w)
  else let '(r, s) := i_write_at (fs w) (inode self) off buf in Ret (r, with_fs w s).

(** [FileHandle::write] *)
Definition write (self : FileHandle) (buf : list Z) : fsM Z := fun w =>
  d ← desc_of w self;
  match (if append (options d) then match i_metadata (fs w) (inode self) with Ok m => Ok (md_size m) | Err e => Err e end
         else Ok (offset d)) with
  | Err e => Ret (Err e, w)
  | Ok off =>
      x ← write_at self off buf w;
      match x with
      | (Ok len, w) => w ← advance w self len; Ret (Ok len, w)
      | _ => Ret x
      end
  end.

(** [FileHandle::seek] *)
Definition seek (self : FileHandle) (pos : SeekFrom) : fsM Z := fun w =>
  d ← desc_of w self;
  r ← match pos with
      | Start off => Ret (Ok off)
      | End off =>
          match i_metadata (fs w) (inode self) with
          | Ok m => x ← iadd (as_i64 (md_size m)) off; Ret (Ok (as_u64 x))
          | Err e => Ret (Err e)
          end
      | Current off => x ← iadd (as_i64 (offset d)) off; Ret (Ok (as_u64 x))
      end;
  match r with
  | Ok off => Ret (Ok off, put_desc w (description self) (mkDesc off (options d) (flock d)))
  | Err e => Ret (Err e, w)
  end.

(** [FileHandle::set_len] *)
Definition set_len (self : FileHandle) (len : Z) : fsM unit := fun w =>
  d ← desc_of w self;
  if negb (write_ok (options d)) then Ret (Err InvalidParam, w)
  else let '(r, s) := i_resize (fs w) (inode self) len in Ret (r, with_fs w s).

(** [FileHandle::sync_all], [FileHandle::sync_data] *)
Definition sync_all (self : FileHandle) : fsM unit := fun w =>
  let '(r, s) := i_sync_all (fs w) (inode self) in Ret (r, with_fs w s).
Definition sync_data (self : FileHandle) : fsM unit := fun w =>
  let '(r, s) := i_sync_data (fs w) (inode self) in Ret (r, with_fs w s).

(** [FileHandle::metadata], [FileHandle::lookup_follow] *)
Definition metadata (self : FileHandle) : fsM (Metadata FileType) := fun w => Ret (i_metadata (fs w) (inode self), w).
Definition lookup_follow (self : FileHandle) (p : string) (depth : Z) : fsM INode := fun w =>
  Ret (i_lookup_follow (fs w) (inode self) p depth, w).

(** [FileHandle::read_entry] *)
Definition read_entry (self : FileHandle) : fsM string := fun w =>
  d ← desc_of w self;
  if negb (read_ok (options d)) then Ret (Err InvalidParam, w)
  else match i_get_entry (fs w) (inode self) (offset d) with
       | Ok name => w ← advance w self 1; Ret (Ok name, w)
       | Err e => Ret (Err e, w)
       end.

(** ** Lemmas *)

Lemma desc_ret w h d : desc_of w h = Ret d <-> descs w !! description h = Some d.
Proof. unfold desc_of. destruct (descs w !! description h); cbn; split; congruence. Qed.

Lemma advance_spec w h d n :
  desc_of w h = Ret d -> 0 <= n < 2 ^ 64 -> 0 <= offset d -> offset d + n < 2 ^ 64 ->
  advance w h n = Ret (put_desc w (description h) (mkDesc (offset d + n) (options d) (flock d))).
Proof.
  intros Hd Hn Ho Hb. unfold advance. rewrite Hd. sret.
  rewrite as_u64_id by done. by rewrite uadd_ok by lia.
Qed.

Lemma write_spec w h d off buf n s :
  desc_of w h = Ret d -> write_ok (options d) = true ->
  (if append (options d) then exists m, i_metadata (fs w) (inode h) = Ok m /\ md_size m = off else offset d = off) ->
  i_write_at (fs w) (inode h) off buf = (Ok n, s) ->
  0 <= n < 2 ^ 64 -> 0 <= offset d -> offset d + n < 2 ^ 64 ->
  write h buf w = Ret (Ok n, put_desc (with_fs w s) (description h) (mkDesc (offset d + n) (options d) (flock d))).
Proof.
  intros Hd Hw Hoff Hi Hn Ho Hb. unfold write. rewrite Hd. sret.
  assert ((if append (options d) then match i_metadata (fs w) (inode h) with Ok m => Ok (md_size m) | Err e => Err e end
           else Ok (offset d)) = @Ok _ FsError off) as ->.
  { destruct (append (options d)); [|by rewrite Hoff]. destruct Hoff as (m & -> & <-). done. }
  unfold write_at. rewrite Hd. sret. rewrite Hw. cbn [negb]. rewrite Hi. sret.
  rewrite (advance_spec (with_fs w s) h d) by done. done.
Qed.

Lemma dup_desc w h c : desc_of w (dup h c) = desc_of w h.
Proof. done. Qed.

Lemma put_desc_same w h d : desc_of (put_desc w (description h) d) h = Ret d.
Proof. apply desc_ret. cbn. by rewrite lookup_insert_eq. Qed.
End files.

(** ** Waiting, device control and directory entries with metadata *)

(** The rest of the trait [INode], and [FileSystem::sync].  A poll of the
    future that [async_poll] returns answers [None] while it is pending. *)
Class VfsPoll `{V : Vfs} := {
  PollStatus : Type;
  i_poll : FsState -> INode -> result PollStatus FsError;
  i_async_poll : FsState -> INode -> option (result PollStatus FsError) * FsState;
  i_io_control : FsState -> INode -> Z -> Z -> result Z FsError * FsState;
  i_get_entry_with_metadata : FsState -> INode -> Z -> result (Metadata FileType * string) FsError;
  fs_sync : FsState -> INode -> result unit FsError * FsState;
}.

(** A file that [async_poll] calls ready can be read without waiting, and an
    entry has the same name with its metadata and without. *)
Class VfsPollSpec `{VfsPoll} := {
  async_poll_readable s i st s' off len : i_async_poll s i = (Some (Ok st), s') -> (i_read_at s' i off len).1 <> Err Again;
  entry_metadata_name s i n :
    i_get_entry s i n = match i_get_entry_with_metadata s i n with Ok x => Ok x.2 | Err e => Err e end;
}.

Section waiting.
Context `{BuildMode} `{VP : VfsPoll}.
Abbreviation fsM A := (FileWorld -> outcome (result A FsError * FileWorld)).

(** [FileHandle::read_entry_with_metadata] *)
Definition read_entry_with_metadata (self : FileHandle) : fsM (Metadata FileType * string) := fun w =>
  d ← desc_of w self;
  if negb (read_ok (options d)) then Ret (Err InvalidParam, w)
  else match i_get_entry_with_metadata (fs w) (inode self) (offset d) with
       | Ok ret => w ← advance w self 1; Ret (Ok ret, w)
       | Err e => Ret (Err e, w)
       end.

(** [FileHandle::poll], a poll of [FileHandle::async_poll], [io_control],
    [inode] *)
Definition poll (self : FileHandle) : fsM PollStatus := fun w => Ret (i_poll (fs w) (inode self), w).
Definition async_poll (self : FileHandle) (w : FileWorld) : option (result PollStatus FsError) * FileWorld :=
  let '(r, s) := i_async_poll (fs w) (inode self) in (r, with_fs w s).
Definition io_control (self : FileHandle) (cmd arg : Z) : fsM Z := fun w =>
  let '(r, s) := i_io_control (fs w) (inode self) cmd arg in Ret (r, with_fs w s).
Definition handle_inode (self : FileHandle) : INode := inode self.

(** A poll of [FileHandle::read_at] that waits in [async_poll]: an error of
    the wait ends the read, and when the file is still empty the loop polls
    again at once. *)
Fixpoint read_at_poll (fuel : nat) (self : FileHandle) (off len : Z) (w : FileWorld) : outcome (option (result (list Z) FsError) * FileWorld) :=
  match fuel with
  | O => Panic "out of fuel"
  | S fuel =>
      match async_poll self w with
      | (None, w) => Ret (None, w)
      | (Some (Err e), w) => Ret (Some (Err e), w)
      | (Some (Ok _), w) =>
          x ← read_at_turn self off len w;
          match x.1 with None => read_at_poll fuel self off len x.2 | Some _ => Ret x end
      end
  end.

Context `{VS : !VfsPollSpec}.

(** One turn is enough: a poll of a waiting read stays pending, fails with the
    error of the wait, or returns what the file answers, which is not [Again]. *)
Lemma read_at_poll_returns fuel self off len w :
  exists r w', read_at_poll (S fuel) self off len w = Ret (r, w')
    /\ (r = None -> (async_poll self w).1 = None) /\ (r = Some (Err Again) -> (async_poll self w).1 = Some (Err Again)).
Proof.
  cbn [read_at_poll]. unfold async_poll. destruct (i_async_poll (fs w) (inode self)) as [[[st|e]|] s] eqn:Ha;
    [|do 2 eexists; split; [done|]; split; intros; simplify_eq; done|do 2 eexists; split; [done|]; split; intros; simplify_eq; done].
  unfold read_at_turn. cbn [with_fs fs]. pose proof (async_poll_readable _ _ _ _ off len Ha) as Hr.
  destruct (i_read_at s (inode self) off len) as [[bytes|e] s2]; cbn [fst] in Hr;
    [sret; do 2 eexists; split; [done|]; split; intros; simplify_eq|].
  destruct (decide (e = Again)) as [->|]; [done|]. sret. do 2 eexists. split; [done|]. split; intros; simplify_eq.
Qed.

(** Reading a directory with metadata and without goes through the same
    entries. *)
Lemma read_entry_names self w :
  read_entry self w = x ← read_entry_with_metadata self w; Ret (match x.1 with Ok y => Ok y.2 | Err e => Err e end, x.2).
Proof.
  unfold read_entry, read_entry_with_metadata. destruct (desc_of w self) as [d|]; [|done]. sret. destruct (negb _); [done|].
  rewrite entry_metadata_name. destruct (i_get_entry_with_metadata _ _ _) as [x|]; [|done]. by destruct (advance w self 1).
Qed.
End waiting.

(** ** A file system in memory, for the evaluations *)
Module RamFs.

Inductive Error := EAgain | EInvalid | ENotFound.
Inductive Kind := KFile | KDir | KLink.

#[export] Instance Error_dec : EqDecision Error.
Proof. solve_decision. Defined.
#[export] Instance Kind_dec : EqDecision Kind.
Proof. solve_decision. Defined.

(** Files are numbered; number 0 is the root directory. *)
Definition State : Type := gmap nat (list Z).

Definition get (s : State) (i : nat) : list Z := default [] (s !! i).

(** A write fills a gap behind the end of the file with zeros. *)
Definition splice (old : list Z) (off : nat) (buf : list Z) : list Z :=
  take off (old ++ replicate (off - length old) 0) ++ buf ++ drop (off + length buf) old.

#[export] Instance vfs : Vfs := {|
  INode := nat; FsState := State; FsError := Error; FileType := Kind;
  fserror_dec := Error_dec; filetype_dec := Kind_dec;
  Again := EAgain; InvalidParam := EInvalid; EntryNotFound := ENotFound;
  RegularFile := KFile; Dir := KDir; SymLink := KLink;
  i_read_at s i off len := (Ok (take (Z.to_nat len) (drop (Z.to_nat off) (get s i))), s);
  i_write_at s i off buf := (Ok (Z.of_nat (length buf)), <[i := splice (get s i) (Z.to_nat off) buf]> s);
  i_metadata s i := Ok (mkMetadata (Z.of_nat (length (get s i))) (if (i =? 0)%nat then KDir else KFile));
  i_resize s i len := (Ok tt, <[i := take (Z.to_nat len) (get s i)]> s);
  i_sync_all s i := (Ok tt, s);
  i_sync_data s i := (Ok tt, s);
  i_get_entry s i n := Err ENotFound;
  i_find s i p := if decide (p = "etc") then Ok 0%nat else Err ENotFound;
  i_create s i p k mode := (Err EInvalid, s);
  i_update_time s i now := s;
  i_link s i p j := (Err EInvalid, s);
  i_unlink s i p := (Err EInvalid, s);
  i_move s i p j q := (Err EInvalid, s);
  i_lookup s i p := Ok 0%nat;
  i_lookup_follow s i p d := Ok 0%nat;
  root_inode := Ret 0%nat;
|}.

(** A file of ten bytes, open for writing with the offset at 4. *)
Definition rw (app : bool) : OpenOptions := mkOptions true true app.
Definition world (app : bool) : FileWorld :=
  mkFiles {[ 0%nat := mkDesc 4 (rw app) NoLock ]} 1 {[ 1%nat := Z.of_nat <$> seq 0 10 ]}.
Definition handle : FileHandle := mkHandle 1%nat 0 "/f" false.

End RamFs.

Section theorems.
Context `{BuildMode} `{V : Vfs}.
Implicit Types (w : FileWorld) (h : FileHandle).

(** Duplicated descriptors share one offset: after a write of [n1] bytes
    through a descriptor, a write through any duplicate of it starts exactly
    where the first one ended, and both leave the shared offset behind the
    bytes they wrote.  Descriptions of other files do not move. *)
Theorem dup_shares_offset w h d c b1 b2 n1 n2 s1 s2 :
  desc_of w h = Ret d -> write_ok (options d) = true -> append (options d) = false ->
  0 <= n1 -> 0 <= n2 -> 0 <= offset d -> offset d + n1 + n2 < 2 ^ 64 ->
  i_write_at (fs w) (inode h) (offset d) b1 = (Ok n1, s1) ->
  i_write_at s1 (inode h) (offset d + n1) b2 = (Ok n2, s2) ->
  exists w1 w2, write h b1 w = Ret (Ok n1, w1) /\ write (dup h c) b2 w1 = Ret (Ok n2, w2)
    /\ fs w2 = s2 /\ desc_of w2 h = Ret (mkDesc (offset d + n1 + n2) (options d) (flock d))
    /\ (forall r, r ≠ description h -> descs w2 !! r = descs w !! r).
Proof.
  intros Hd Hw Ha Hn1 Hn2 Ho Hb Hi1 Hi2.
  set (w1 := put_desc (with_fs w s1) (description h) (mkDesc (offset d + n1) (options d) (flock d))).
  assert (write h b1 w = Ret (Ok n1, w1)) as E1.
  { apply (write_spec w h d (offset d)); try done; [by rewrite Ha|lia|lia]. }
  set (d1 := mkDesc (offset d + n1) (options d) (flock d)).
  set (w2 := put_desc (with_fs w1 s2) (description h) (mkDesc (offset d1 + n2) (options d) (flock d))).
  assert (write (dup h c) b2 w1 = Ret (Ok n2, w2)) as E2.
  { apply (write_spec w1 (dup h c) d1 (offset d1)); try done; [apply (put_desc_same (with_fs w s1) (dup h c))|cbn; by rewrite Ha|cbn in *; lia..]. }
  exists w1, w2. split_and!; try done; [apply put_desc_same|].
  intros r Hr. subst w2 w1. cbn. by rewrite !lookup_insert_ne.
Qed.

(** A write in append mode puts the bytes at the end of the file but
    moves the offset on from where it was: unless the offset was the file
    size, a later read starts in front of the new end of the file. *)
Theorem append_leaves_offset_behind w h d m buf n s :
  desc_of w h = Ret d -> write_ok (options d) = true -> append (options d) = true ->
  i_metadata (fs w) (inode h) = Ok m -> i_write_at (fs w) (inode h) (md_size m) buf = (Ok n, s) ->
  0 <= n < 2 ^ 64 -> 0 <= offset d < md_size m -> offset d + n < 2 ^ 64 ->
  exists w' d', write h buf w = Ret (Ok n, w') /\ desc_of w' h = Ret d'
    /\ offset d' = offset d + n /\ offset d' < md_size m + n.
Proof.
  intros Hd Hw Ha Hm Hi Hn Ho Hb.
  assert (write h buf w = Ret (Ok n, put_desc (with_fs w s) (description h) (mkDesc (offset d + n) (options d) (flock d)))) as ->.
  { apply (write_spec w h d (md_size m)); try done; [rewrite Ha; eauto|lia]. }
  do 2 eexists. split_and!; [done|apply put_desc_same|done|cbn; lia].
Qed.

(** A descriptor without write permission changes nothing: [write_at] and
    [set_len] fail with [InvalidParam], and so does [write] when the offset is
    not taken from the file's metadata; likewise [read] and [read_entry]
    without read permission. *)
Theorem permissions_enforced w h d buf len off :
  desc_of w h = Ret d ->
  (write_ok (options d) = false ->
     write_at h off buf w = Ret (Err InvalidParam, w) /\ set_len h len w = Ret (Err InvalidParam, w)
     /\ (append (options d) = false -> write h buf w = Ret (Err InvalidParam, w)))
  /\ (read_ok (options d) = false ->
     read h len w = Ret (Some (Err InvalidParam), w) /\ read_entry h w = Ret (Err InvalidParam, w)).
Proof.
  intros Hd. split; intros Hp.
  - assert (Hwa : forall off, write_at h off buf w = Ret (Err InvalidParam, w)).
    { intros o. unfold write_at. rewrite Hd. cbn. by rewrite Hp. }
    split_and!; [done| |].
    + unfold set_len. rewrite Hd. cbn. by rewrite Hp.
    + intros Ha. unfold write. rewrite Hd. sret. rewrite Ha, Hwa. done.
  - split.
    + unfold read, read_at. rewrite Hd. cbn. by rewrite Hp.
    + unfold read_entry. rewrite Hd. cbn. by rewrite Hp.
Qed.

(** [seek] sets the shared offset to the position asked for when it is a
    valid [i64] position that is not negative; a position before the start of
    the file is not rejected but stored modulo [2^64]. *)
Theorem seek_position w h d m :
  desc_of w h = Ret d -> i_metadata (fs w) (inode h) = Ok m -> 0 <= offset d < 2 ^ 63 -> 0 <= md_size m < 2 ^ 63 ->
  let at_ o := put_desc w (description h) (mkDesc o (options d) (flock d)) in
  (forall o, seek h (Start o) w = Ret (Ok o, at_ o))
  /\ (forall o, is_i64 (offset d + o) ->
        seek h (Current o) w = Ret (Ok ((offset d + o) mod 2 ^ 64), at_ ((offset d + o) mod 2 ^ 64)))
  /\ (forall o, is_i64 (md_size m + o) ->
        seek h (End o) w = Ret (Ok ((md_size m + o) mod 2 ^ 64), at_ ((md_size m + o) mod 2 ^ 64))).
Proof.
  intros Hd Hm Ho Hs at_. unfold seek. rewrite Hd. sret. split_and!.
  - done.
  - intros o Hr. rewrite as_i64_small by done. unfold iadd. by rewrite i64_ok.
  - intros o Hr. rewrite Hm, as_i64_small by done. unfold iadd. by rewrite i64_ok.
Qed.
End theorems.

Lemma dup_shares_offset_witness :
  exists w1 w2, write (H := false) RamFs.handle [7; 8] (RamFs.world false) = Ret (Ok 2, w1)
    /\ write (H := false) (dup RamFs.handle true) [9] w1 = Ret (Ok 1, w2)
    /\ fs w2 = {[ 1%nat := [0; 1; 2; 3; 7; 8; 9; 7; 8; 9] ]}
    /\ desc_of w2 RamFs.handle = Ret (mkDesc (4 + 2 + 1) (RamFs.rw false) NoLock)
    /\ (forall r, r ≠ description RamFs.handle -> descs w2 !! r = descs (RamFs.world false) !! r).
Proof.
  apply (dup_shares_offset (H := false) (RamFs.world false) RamFs.handle (mkDesc 4 (RamFs.rw false) NoLock) true [7; 8] [9] 2 1
    {[ 1%nat := [0; 1; 2; 3; 7; 8; 6; 7; 8; 9] ]}); try reflexivity; cbn; lia.
Defined.

Lemma append_leaves_offset_behind_witness :
  exists w' d', write (H := false) RamFs.handle [7; 8] (RamFs.world true) = Ret (Ok 2, w')
    /\ desc_of w' RamFs.handle = Ret d' /\ offset d' = 4 + 2 /\ offset d' < 10 + 2.
Proof.
  apply (append_leaves_offset_behind (H := false) (RamFs.world true) RamFs.handle (mkDesc 4 (RamFs.rw true) NoLock)
    (mkMetadata 10 RamFs.KFile) [7; 8] 2 {[ 1%nat := [0; 1; 2; 3; 4; 5; 6; 7; 8; 9; 7; 8] ]}); try reflexivity; cbn; lia.
Defined.

Lemma permissions_enforced_witness :
  let w : FileWorld := mkFiles {[ 0%nat := mkDesc 4 (mkOptions false false false) NoLock ]} 1 ∅ in
  write (H := false) RamFs.handle [7] w = Ret (Err RamFs.EInvalid, w).
Proof.
  intros w.
  by apply (permissions_enforced (H := false) w RamFs.handle (mkDesc 4 (mkOptions false false false) NoLock) [7] 0 0).
Defined.

Lemma seek_position_witness :
  seek (H := false) RamFs.handle (End (-3)) (RamFs.world false)
  = Ret (Ok 7, put_desc (RamFs.world false) 0 (mkDesc 7 (RamFs.rw false) NoLock)).
Proof.
  apply (seek_position (H := false) (RamFs.world false) RamFs.handle (mkDesc 4 (RamFs.rw false) NoLock) (mkMetadata 10 RamFs.KFile));
    try reflexivity; unfold is_i64; cbn; lia.
Defined.
