(* ===== verification/Process.v ===== *)
(** * Processes and threads ([process/mod.rs], [process/thread.rs])

    The kernel's shared objects live in heaps indexed by references (an [Arc]
    is a reference, a [Weak] a reference that may no longer be in the heap);
    the global tables [PROCESSES] and [THREADS] map numbers to references.
    Every operation is a function on this state. *)

From S2P Require Import Prelude BTree Paging Handler MemorySet Signal EventBus Files.
Import Addr Frames Table.

(** The methods of [aarch64::trap::UserContext] (an external crate). *)
Class UserCtx (X : Type) := {
  set_syscall_ret : UserContext X -> Z -> UserContext X;
  set_sp : UserContext X -> Z -> UserContext X;
  set_ip : UserContext X -> Z -> UserContext X;
  set_tls : UserContext X -> Z -> UserContext X;
  get_sp : UserContext X -> Z;
  get_syscall_num : UserContext X -> Z;
  get_syscall_args : UserContext X -> list Z;
  default_ctx : UserContext X;
}.

Definition PID_INIT : Z := 1.

(** [struct Process] *)
Record Process {V : Vfs} := mkProcess {
  vm : nat;
  files : gmap Z FileHandle;
  cwd : string;
  exec_path : string;
  pid : Z;
  pgid : Z;
  parent : Z * option nat;
  children : list (Z * nat);
  threads : list Z;
  event_bus : EventBus;
  exit_code : Z;
  sig_queue : list (Siginfo * Z);
  pending_sigset : Sigset;
  dispositions : list SignalAction;
}.
Arguments Process : clear implicits.

(** [struct ThreadInner] (without the executor's task handle), [struct Thread] *)
Record ThreadInner (X : Type) := mkInner {
  context : option (UserContext X);
  clear_child_tid : Z;
  sig_mask : Sigset;
  signal_alternate_stack : SignalStack;
}.
Arguments mkInner {X}.
Arguments context {X}.
Arguments clear_child_tid {X}.
Arguments sig_mask {X}.
Arguments signal_alternate_stack {X}.

Record Thread (X : Type) := mkThread { inner : ThreadInner X; process : nat; t_vm : nat; tid : Z }.
Arguments mkThread {X}.
Arguments inner {X}.
Arguments process {X}.
Arguments t_vm {X}.
Arguments tid {X}.

(** The kernel: the heaps, the two tables, user memory, the open files, and
    the tasks woken so far. *)
Record Kernel {V : Vfs} (X A F T : Type) := mkKernel {
  procs : gmap nat (Process V);
  PROCESSES : gmap Z nat;
  thrds : gmap nat (Thread X);
  THREADS : gmap Z nat;
  vms : gmap nat (MemorySet F T);
  phys : world A;
  open_files : FileWorld;
  woken : list nat;
}.
Arguments mkKernel {V X A F T}.
Arguments procs {V X A F T}.
Arguments PROCESSES {V X A F T}.
Arguments thrds {V X A F T}.
Arguments THREADS {V X A F T}.
Arguments vms {V X A F T}.
Arguments phys {V X A F T}.
Arguments open_files {V X A F T}.
Arguments woken {V X A F T}.

Section process.
Context {V : Vfs}.
Implicit Types p : Process V.

(** Field updates. *)
Definition with_files p x := mkProcess V (vm p) x (cwd p) (exec_path p) (pid p) (pgid p) (parent p) (children p) (threads p) (event_bus p) (exit_code p) (sig_queue p) (pending_sigset p) (dispositions p).
Definition with_cwd p x := mkProcess V (vm p) (files p) x (exec_path p) (pid p) (pgid p) (parent p) (children p) (threads p) (event_bus p) (exit_code p) (sig_queue p) (pending_sigset p) (dispositions p).
Definition with_pid p x := mkProcess V (vm p) (files p) (cwd p) (exec_path p) x (pgid p) (parent p) (children p) (threads p) (event_bus p) (exit_code p) (sig_queue p) (pending_sigset p) (dispositions p).
Definition with_pgid p x := mkProcess V (vm p) (files p) (cwd p) (exec_path p) (pid p) x (parent p) (children p) (threads p) (event_bus p) (exit_code p) (sig_queue p) (pending_sigset p) (dispositions p).
Definition with_children p x := mkProcess V (vm p) (files p) (cwd p) (exec_path p) (pid p) (pgid p) (parent p) x (threads p) (event_bus p) (exit_code p) (sig_queue p) (pending_sigset p) (dispositions p).
Definition with_threads p x := mkProcess V (vm p) (files p) (cwd p) (exec_path p) (pid p) (pgid p) (parent p) (children p) x (event_bus p) (exit_code p) (sig_queue p) (pending_sigset p) (dispositions p).
Definition with_bus p x := mkProcess V (vm p) (files p) (cwd p) (exec_path p) (pid p) (pgid p) (parent p) (children p) (threads p) x (exit_code p) (sig_queue p) (pending_sigset p) (dispositions p).
Definition with_exit_code p x := mkProcess V (vm p) (files p) (cwd p) (exec_path p) (pid p) (pgid p) (parent p) (children p) (threads p) (event_bus p) x (sig_queue p) (pending_sigset p) (dispositions p).
Definition with_signals p q s := mkProcess V (vm p) (files p) (cwd p) (exec_path p) (pid p) (pgid p) (parent p) (children p) (threads p) (event_bus p) (exit_code p) q s (dispositions p).

(** [Process::get_free_fd], [Process::get_free_fd_from] *)
Definition get_free_fd p : outcome Z := lowest_free (files p) 0.
Definition get_free_fd_from p (arg : Z) : outcome Z := lowest_free (files p) arg.

(** [Process::add_file] *)
Definition add_file p (f : FileHandle) : outcome (Z * Process V) :=
  fd ← get_free_fd p; Ret (fd, with_files p (<[fd := f]> (files p))).

(** [Process::exited] *)
Definition exited p : bool := match threads p with [] => true | _ => false end.

(** The first loop of [Process::exit]: every descriptor is dropped. *)
Definition close_all p : outcome (Process V) :=
  fs ← foldM (fun m fd => match m !! fd with Some _ => Ret (delete fd m) | None => Panic "called unwrap on a None value" end)
         (files p) (btree_iter (files p)).*1;
  Ret (with_files p fs).
End process.

Section kernel.
Context `{BuildMode} {V : Vfs} {X E A F T : Type} `{UserCtx X}.
Context `{EI : Entry E, FI : FrameAllocator A, PI : !PageTable E A T, RI : Read F}.
Abbreviation kernel := (Kernel X A F T).
Implicit Types k : kernel.

Definition with_procs k x : kernel := mkKernel x (PROCESSES k) (thrds k) (THREADS k) (vms k) (phys k) (open_files k) (woken k).
Definition with_ptable k x : kernel := mkKernel (procs k) x (thrds k) (THREADS k) (vms k) (phys k) (open_files k) (woken k).
Definition with_thrds k x : kernel := mkKernel (procs k) (PROCESSES k) x (THREADS k) (vms k) (phys k) (open_files k) (woken k).
Definition with_ttable k x : kernel := mkKernel (procs k) (PROCESSES k) (thrds k) x (vms k) (phys k) (open_files k) (woken k).
Definition with_vms k x w : kernel := mkKernel (procs k) (PROCESSES k) (thrds k) (THREADS k) x w (open_files k) (woken k).
Definition with_open_files k x : kernel := mkKernel (procs k) (PROCESSES k) (thrds k) (THREADS k) (vms k) (phys k) x (woken k).
Definition wake k ws : kernel := mkKernel (procs k) (PROCESSES k) (thrds k) (THREADS k) (vms k) (phys k) (open_files k) (woken k ++ ws).

(** [process.lock()] through an [Arc], and the write back. *)
Definition get_proc k (r : nat) : outcome (Process V) := expect "dangling Arc" (procs k !! r).
Definition put_proc k (r : nat) (p : Process V) : kernel := with_procs k (<[r := p]> (procs k)).
Definition get_thread k (t : nat) : outcome (Thread X) := expect "dangling Arc" (thrds k !! t).
Definition put_inner k (t : nat) (th : Thread X) (i : ThreadInner X) : kernel :=
  with_thrds k (<[t := mkThread i (process th) (t_vm th) (tid th)]> (thrds k)).

(** [Weak::upgrade] *)
Definition upgrade k (r : option nat) : option (nat * Process V) :=
  r ← r; p ← procs k !! r; Some (r, p).

(** [process_of] *)
Definition process_of k (t : Z) : option nat :=
  snd <$> find (fun x => match procs k !! x.2 with Some p => bool_decide (t ∈ threads p) | None => false end) (btree_iter (PROCESSES k)).

(** [process()] *)
Definition process_by_pid k (n : Z) : option nat := PROCESSES k !! n.

(** [process_group] *)
Definition process_group k (g : Z) : list nat :=
  (List.filter (fun x => match procs k !! x.2 with Some p => pgid p =? g | None => false end) (btree_iter (PROCESSES k))).*2.

(** [add_to_process_table] *)
Definition add_to_process_table k (r : nat) (n : Z) : outcome kernel :=
  p ← get_proc k r;
  let k := put_proc k r (with_pid p n) in
  Ret (with_ptable k (<[n := r]> (PROCESSES k))).

(** [event_bus.lock().set(e)] of a process. *)
Definition set_event k (r : nat) (p : Process V) (e : Z) : kernel :=
  let '(b, ws) := set (event_bus p) e in wake (put_proc k r (with_bus p b)) ws.

(** [Process::exit] *)
Definition exit k (r : nat) (code : Z) : outcome kernel :=
  p ← get_proc k r;
  p ← close_all p;
  let k := set_event k r p PROCESS_QUIT in
  let k := match upgrade k (parent p).2 with
           | Some (pr, pp) => set_event k pr pp CHILD_PROCESS_QUIT
           | None => k
           end in
  p ← get_proc k r;
  let k := with_ttable k (foldr delete (THREADS k) (threads p)) in
  Ret (put_proc k r (with_threads (with_exit_code p code) [])).

(** [Thread::add_to_table]: the thread and its reference. *)
Definition add_to_table k (th : Thread X) : outcome (nat * Z * kernel) :=
  n ← lowest_free (THREADS k) PID_INIT;
  let t := fresh (dom (thrds k)) in
  let k := with_thrds k (<[t := mkThread (inner th) (process th) (t_vm th) n]> (thrds k)) in
  Ret (t, n, with_ttable k (<[n := t]> (THREADS k))).

(** [Thread::fork] *)
Definition fork k (t : nat) (tf : UserContext X) : outcome (nat * Z * kernel) :=
  th ← get_thread k t;
  ms ← expect "dangling Arc" (vms k !! t_vm th);
  c ← MemorySet.clone ms (phys k);
  let v := fresh (dom (vms k)) in
  let k := with_vms k (<[v := c.1]> (vms k)) c.2 in
  let ctx := set_syscall_ret tf 0 in
  p ← get_proc k (process th);
  let r := fresh (dom (procs k)) in
  let child := mkProcess V v (files p) (cwd p) (exec_path p) 0 (pgid p) (pid p, Some (process th)) [] [] new_bus 0 []
                 sigset_empty (dispositions p) in
  let k := put_proc k r child in
  x ← add_to_table k (mkThread (mkInner (Some ctx) 0 (sig_mask (inner th)) (signal_alternate_stack (inner th))) r v 0);
  let '(t', n, k) := x in
  k ← add_to_process_table k r n;
  c ← get_proc k r;
  let k := put_proc k r (with_threads c (threads c ++ [n])) in
  let k := put_proc k (process th) (with_children p (children p ++ [(n, r)])) in
  Ret (t', n, k).

(** [Thread::new_clone] *)
Definition new_clone k (t : nat) (tf : UserContext X) (stack_top tls child_tid : Z) : outcome (nat * Z * kernel) :=
  th ← get_thread k t;
  let ctx := set_tls (set_sp (set_syscall_ret tf 0) stack_top) tls in
  x ← add_to_table k (mkThread (mkInner (Some ctx) child_tid (sig_mask (inner th)) (signal_alternate_stack (inner th)))
                        (process th) (t_vm th) 0);
  let '(t', n, k) := x in
  p ← get_proc k (process th);
  Ret (t', n, put_proc k (process th) (with_threads p (threads p ++ [n]))).

(** [Thread::begin_running], [Thread::end_running] *)
Definition begin_running k (t : nat) : outcome (UserContext X * kernel) :=
  th ← get_thread k t;
  ctx ← expect "called unwrap on a None value" (context (inner th));
  let i := inner th in
  Ret (ctx, put_inner k t th (mkInner None (clear_child_tid i) (sig_mask i) (signal_alternate_stack i))).
Definition end_running k (t : nat) (ctx : UserContext X) : outcome kernel :=
  th ← get_thread k t;
  let i := inner th in
  Ret (put_inner k t th (mkInner (Some ctx) (clear_child_tid i) (sig_mask i) (signal_alternate_stack i))).
End kernel.
