(* ===== verification/ProcessTheorems.v ===== *)
(** * Processes and threads: theorems

    Descriptor and thread numbers, process exit, fork and thread creation. *)

From S2P Require Import Prelude BTree Paging Handler Mock MemorySet AddressSpace MemoryTheorems Signal EventBus Files Process.
Import Addr Frames Table.

(** ** Descriptors *)

Lemma close_loop {V} l : forall (m : gmap Z V),
  NoDup l -> (forall i, i ∈ l <-> is_Some (m !! i)) ->
  foldM (fun m fd => match m !! fd with Some _ => Ret (delete fd m) | None => Panic "called unwrap on a None value" end) m l
  = Ret ∅.
Proof.
  induction l as [|i l IH]; intros m Hnd Hin; cbn [foldM].
  { f_equal. apply map_eq. intros i. rewrite lookup_empty. apply eq_None_not_Some. rewrite <- Hin. apply not_elem_of_nil. }
  destruct (proj1 (Hin i)) as [v Hv]; [by left|]. rewrite Hv. sret.
  apply NoDup_cons in Hnd as [Hni Hnd]. apply IH; [done|]. intros j. destruct (decide (i = j)) as [<-|Hne].
  - rewrite lookup_delete_eq. split; [done|]. by intros [? ?].
  - rewrite lookup_delete_ne by done. rewrite <- Hin, elem_of_cons. naive_solver.
Qed.

Lemma close_all_spec {V : Vfs} (p : Process V) : close_all p = Ret (with_files p ∅).
Proof.
  unfold close_all. destruct (btree_keys (files p)) as [Hnd Hin].
  by rewrite close_loop.
Qed.

(** ** Exit *)
Section exit.
Context {V : Vfs} {X A F T : Type}.
Implicit Types (k : Kernel X A F T) (p : Process V).

Lemma delete_all_lookup {W} (l : list Z) (m : gmap Z W) i :
  foldr delete m l !! i = if bool_decide (i ∈ l) then None else m !! i.
Proof.
  induction l as [|j l IH]; cbn [foldr]; [by rewrite bool_decide_false by apply not_elem_of_nil|].
  destruct (decide (j = i)) as [<-|Hne].
  - rewrite lookup_delete_eq, bool_decide_true by set_solver. done.
  - rewrite lookup_delete_ne, IH by done. by rewrite (bool_decide_ext (i ∈ j :: l) (i ∈ l)) by set_solver.
Qed.

(** The process after [exit], and its parent's. *)
Definition quit_process p (code : Z) : Process V :=
  with_threads (with_exit_code (with_bus (with_files p ∅) (set (event_bus p) PROCESS_QUIT).1) code) [].
Definition notified p : Process V := with_bus p (set (event_bus p) CHILD_PROCESS_QUIT).1.

Lemma set_event_procs k r p e :
  procs (set_event k r p e) = <[r := with_bus p (set (event_bus p) e).1]> (procs k)
  /\ THREADS (set_event k r p e) = THREADS k /\ thrds (set_event k r p e) = thrds k
  /\ woken (set_event k r p e) = woken k ++ (set (event_bus p) e).2.
Proof. unfold set_event. by destruct (set (event_bus p) e). Qed.

Lemma exit_spec k r p code :
  procs k !! r = Some p -> (parent p).2 ≠ Some r ->
  exists k', exit k r code = Ret k'
    /\ procs k' = <[r := quit_process p code]>
         (match upgrade k (parent p).2 with Some (pr, pp) => <[pr := notified pp]> (procs k) | None => procs k end)
    /\ THREADS k' = foldr delete (THREADS k) (threads p) /\ thrds k' = thrds k
    /\ woken k' = (woken k ++ (set (event_bus p) PROCESS_QUIT).2)
         ++ match upgrade k (parent p).2 with Some (_, pp) => (set (event_bus pp) CHILD_PROCESS_QUIT).2 | None => [] end.
Proof.
  intros Hp Hpar. unfold exit, get_proc. rewrite Hp. sret. rewrite close_all_spec.
  sret.
  destruct (set_event_procs k r (with_files p ∅) PROCESS_QUIT) as (Ep & Et & Eh & Ew).
  change (parent (with_files p ∅)) with (parent p). change (event_bus (with_files p ∅)) with (event_bus p) in Ep, Ew.
  set (k1 := set_event k r (with_files p ∅) PROCESS_QUIT) in *.
  assert (Hup : upgrade k1 (parent p).2 = upgrade k (parent p).2).
  { unfold upgrade. destruct ((parent p).2) as [pr|]; [|done]. cbn. rewrite Ep, lookup_insert_ne; [done|]. congruence. }
  rewrite Hup. destruct (upgrade k (parent p).2) as [[pr pp]|] eqn:Hu.
  - assert (pr ≠ r) as Hne.
    { unfold upgrade in Hu. destruct ((parent p).2) as [q|]; [|done]. cbn in Hu.
      destruct (procs k !! q); [|done]. cbn in Hu. congruence. }
    destruct (set_event_procs k1 pr pp CHILD_PROCESS_QUIT) as (Ep' & Et' & Eh' & Ew').
    rewrite Ep', Ep, lookup_insert_ne, lookup_insert_eq by done. sret.
    eexists. split; [done|]. cbn. rewrite Ep', Ep, Et', Et, Eh', Eh, Ew', Ew. split_and!; try done.
    rewrite (insert_insert_ne _ pr r) by done. by rewrite insert_insert_eq.
  - rewrite Ep, lookup_insert_eq. sret.
    eexists. split; [done|]. cbn. rewrite Ep, Et, Eh, Ew, app_nil_r. split_and!; try done. by rewrite insert_insert_eq.
Qed.
End exit.

(** ** Fork and clone *)
Section fork.
Context `{BuildMode} {V : Vfs} {X E A F T : Type} `{UserCtx X}.
Context `{ES : EntrySpec E, FS : FrameAllocatorSpec A, FR : !FrameReturnSpec A, PI : !PageTable E A T, !PageTableSpec E A T, RI : Read F}.
Implicit Types (k : Kernel X A F T) (p : Process V).

(** The process [fork] creates. *)
Definition forked p (r0 v : nat) (n : Z) : Process V :=
  mkProcess V v (files p) (cwd p) (exec_path p) n (pgid p) (pid p, Some r0) [] [n] new_bus 0 [] sigset_empty (dispositions p).

Lemma add_to_table_spec k th :
  exists n t, add_to_table k th = Ret (t, n,
      with_ttable (with_thrds k (<[t := mkThread (inner th) (process th) (t_vm th) n]> (thrds k))) (<[n := t]> (THREADS k)))
    /\ thrds k !! t = None /\ PID_INIT <= n /\ THREADS k !! n = None
    /\ forall j, PID_INIT <= j < n -> is_Some (THREADS k !! j).
Proof.
  unfold add_to_table. destruct (lowest_free_spec (THREADS k) PID_INIT) as (n & -> & Hn & Hf & Hall).
  sret. exists n, (fresh (dom (thrds k))). split_and!; try done.
  apply not_elem_of_dom, is_fresh.
Qed.

Lemma fork_spec R k t tf th ms p :
  thrds k !! t = Some th -> vms k !! t_vm th = Some ms -> procs k !! process th = Some p ->
  vm_inv R ms (phys k) -> mem_wf (phys k) -> (4 * set_pages (areas ms) < avail (fa (phys k)))%nat ->
  exists t' n v r ms' w' k', fork k t tf = Ret (t', n, k') /\ MemorySet.clone ms (phys k) = Ret (ms', w')
    /\ PID_INIT <= n /\ THREADS k !! n = None /\ (forall j, PID_INIT <= j < n -> is_Some (THREADS k !! j))
    /\ thrds k !! t' = None /\ vms k !! v = None /\ procs k !! r = None
    /\ thrds k' = <[t' := mkThread (mkInner (Some (set_syscall_ret tf 0)) 0 (sig_mask (inner th))
                             (signal_alternate_stack (inner th))) r v n]> (thrds k)
    /\ THREADS k' = <[n := t']> (THREADS k) /\ PROCESSES k' = <[n := r]> (PROCESSES k)
    /\ vms k' = <[v := ms']> (vms k) /\ phys k' = w'
    /\ procs k' = <[process th := with_children p (children p ++ [(n, r)])]> (<[r := forked p (process th) v n]> (procs k))
    /\ open_files k' = open_files k.
Proof.
  intros Ht Hv Hp Hinv Hwf Hav. unfold fork, get_thread, get_proc. rewrite Ht. sret.
  rewrite Hv. sret.
  destruct (clone_spec R ms (phys k) Hinv Hwf Hav) as (ms' & w' & -> & _). cbn [mbind outcome_bind fst snd].
  set (v := fresh (dom (vms k))). cbn [procs with_vms]. rewrite Hp. sret.
  set (r := fresh (dom (procs k))). assert (Hr : procs k !! r = None) by apply not_elem_of_dom, is_fresh.
  assert (Hne : process th ≠ r) by congruence.
  match goal with |- context [add_to_table ?k1 ?th1] => destruct (add_to_table_spec k1 th1) as (n & t' & -> & Hft & Hn & Hfn & Hall) end.
  sret. unfold add_to_process_table, get_proc. cbn.
  rewrite !lookup_insert_eq. cbn. rewrite !lookup_insert_eq. sret.
  exists t', n, v, r, ms', w'. eexists. split; [done|]. cbn. cbn in Hft, Hfn, Hall. split_and!; try done.
  - apply not_elem_of_dom, is_fresh.
  - by rewrite !insert_insert_eq.
Qed.
End fork.

(** ** Main theorems *)
Section theorems.
Context `{BuildMode} {V : Vfs} {X E A F T : Type} `{UserCtx X}.
Context `{ES : EntrySpec E, FS : FrameAllocatorSpec A, FR : !FrameReturnSpec A, PI : !PageTable E A T, !PageTableSpec E A T, RI : Read F}.
Implicit Types (k : Kernel X A F T) (p : Process V).

(** [Process::add_file] always succeeds: the file is stored under the
    lowest descriptor that is not in use, and no other descriptor changes. *)
Theorem add_file_lowest p f :
  exists fd p', add_file p f = Ret (fd, p') /\ 0 <= fd /\ files p !! fd = None
    /\ (forall i, 0 <= i < fd -> is_Some (files p !! i)) /\ files p' = <[fd := f]> (files p).
Proof.
  unfold add_file, get_free_fd. destruct (lowest_free_spec (files p) 0) as (fd & -> & ? & ? & ?).
  sret. eauto 7.
Qed.

(** [Process::exit] always returns.  The process has no descriptors and
    no threads left, so [exited] holds, and carries the exit code; its threads
    are gone from the thread table and no others are; a live parent has
    [CHILD_PROCESS_QUIT] set, and every task of the parent that waits for it
    is woken; no other process changes. *)
Theorem exit_releases k r p code :
  procs k !! r = Some p -> (parent p).2 ≠ Some r ->
  exists k' p', exit k r code = Ret k' /\ procs k' !! r = Some p'
    /\ files p' = ∅ /\ exited p' = true /\ exit_code p' = code
    /\ (forall t, t ∈ threads p -> THREADS k' !! t = None)
    /\ (forall t, t ∉ threads p -> THREADS k' !! t = THREADS k !! t)
    /\ (forall pr pp, (parent p).2 = Some pr -> procs k !! pr = Some pp ->
          (exists pp', procs k' !! pr = Some pp' /\ Z.land (event (event_bus pp')) CHILD_PROCESS_QUIT ≠ 0)
          /\ forall w, bus_inv (event_bus pp) -> OnMask w CHILD_PROCESS_QUIT ∈ callbacks (event_bus pp) -> w ∈ woken k')
    /\ (forall r', r' ≠ r -> (parent p).2 ≠ Some r' -> procs k' !! r' = procs k !! r').
Proof.
  intros Hp Hpar. destruct (exit_spec k r p code Hp Hpar) as (k' & Hx & Ep & Et & _ & Ew).
  exists k', (quit_process p code). rewrite Et. split_and!; try done.
  - by rewrite Ep, lookup_insert_eq.
  - intros t Hin. by rewrite delete_all_lookup, bool_decide_true.
  - intros t Hin. by rewrite delete_all_lookup, bool_decide_false.
  - intros pr pp Hpr Hpp. assert (Hu : upgrade k (parent p).2 = Some (pr, pp)).
    { unfold upgrade. rewrite Hpr. cbn. by rewrite Hpp. }
    rewrite Hu in Ep, Ew. split.
    + exists (notified pp). rewrite Ep, lookup_insert_ne, lookup_insert_eq by congruence. split; [done|].
      unfold notified; cbn [event_bus with_bus]. by rewrite set_event_land.
    + intros w Hb Hin. rewrite Ew, !elem_of_app. right. eapply (change_wakes _ 0 CHILD_PROCESS_QUIT); [done..|].
      fold (set (event_bus pp) CHILD_PROCESS_QUIT). by rewrite set_event_land.
  - intros r' Hr Hpr. rewrite Ep, lookup_insert_ne by done. unfold upgrade.
    destruct ((parent p).2) as [q|]; [|done]. cbn. destruct (procs k !! q); [|done]. cbn.
    rewrite lookup_insert_ne; congruence.
Qed.

(** C15. [Thread::fork] with enough frames returns a thread and its number
    [n], the lowest number not in the thread table.  The child runs the
    caller's context with return value 0, has the caller's descriptors (the
    same open file descriptions), directory, group and signal actions, no
    pending signal and no children of its own, is listed in both tables under
    [n] and is the last child of the caller.  Its address space has the same
    areas over frames of its own, and no address space but the new one is
    added. *)
Theorem fork_creates_child R k t tf th ms p :
  thrds k !! t = Some th -> vms k !! t_vm th = Some ms -> procs k !! process th = Some p ->
  vm_inv R ms (phys k) -> mem_wf (phys k) -> (4 * set_pages (areas ms) < avail (fa (phys k)))%nat ->
  exists t' n k' th' child ms', fork k t tf = Ret (t', n, k')
    /\ PID_INIT <= n /\ THREADS k !! n = None /\ (forall j, PID_INIT <= j < n -> is_Some (THREADS k !! j))
    /\ THREADS k' !! n = Some t' /\ thrds k' !! t' = Some th' /\ tid th' = n
    /\ context (inner th') = Some (set_syscall_ret tf 0) /\ sig_mask (inner th') = sig_mask (inner th)
    /\ PROCESSES k' !! n = Some (process th') /\ procs k' !! process th' = Some child
    /\ pid child = n /\ threads child = [n] /\ files child = files p /\ cwd child = cwd p
    /\ parent child = (pid p, Some (process th)) /\ dispositions child = dispositions p
    /\ sig_queue child = [] /\ children child = []
    /\ procs k' !! process th = Some (with_children p (children p ++ [(n, process th')]))
    /\ vms k' !! t_vm th' = Some ms' /\ areas ms' = areas ms
    /\ vm_inv R ms (phys k') /\ vm_inv (owned (fa (phys k))) ms' (phys k')
    /\ (forall v, v ≠ t_vm th' -> vms k' !! v = vms k !! v).
Proof.
  intros Ht Hv Hp Hinv Hwf Hav.
  destruct (clone_spec R ms (phys k) Hinv Hwf Hav) as (ms1 & w1 & Hc1 & Har & Hi1 & Hi2 & _).
  destruct (fork_spec R k t tf th ms p Ht Hv Hp Hinv Hwf Hav)
    as (t' & n & v & r & ms' & w' & k' & Hf & Hc & Hn & Hfree & Hall & Hft & Hfv & Hfr & Et & ET & EP & Ev & Ew & Ep & _).
  rewrite Hc in Hc1. injection Hc1 as -> ->.
  assert (Hne : process th ≠ r) by congruence.
  exists t', n, k', (mkThread (mkInner (Some (set_syscall_ret tf 0)) 0 (sig_mask (inner th))
                       (signal_alternate_stack (inner th))) r v n), (forked p (process th) v n), ms1.
  rewrite Et, ET, EP, Ev, Ew, Ep. cbn [process t_vm]. rewrite (lookup_insert_ne _ (process th) r), !lookup_insert_eq by done.
  split_and!; try done. intros u Hu. by rewrite lookup_insert_ne.
Qed.

(** The number [fork] picks is free among threads, not among processes:
    if the lowest number without a thread is still the number of a process
    that exited and was not waited for, the new process replaces that process
    in [PROCESSES], and nobody can find it by its number again. *)
Theorem fork_replaces_zombie R k t tf th ms p n z :
  thrds k !! t = Some th -> vms k !! t_vm th = Some ms -> procs k !! process th = Some p ->
  vm_inv R ms (phys k) -> mem_wf (phys k) -> (4 * set_pages (areas ms) < avail (fa (phys k)))%nat ->
  PID_INIT <= n -> THREADS k !! n = None -> (forall j, PID_INIT <= j < n -> is_Some (THREADS k !! j)) ->
  PROCESSES k !! n = Some z -> is_Some (procs k !! z) ->
  exists t' r k', fork k t tf = Ret (t', n, k') /\ process_by_pid k' n = Some r /\ r ≠ z.
Proof.
  intros Ht Hv Hp Hinv Hwf Hav Hn Hfree Hall Hz [pz Hpz].
  destruct (fork_spec R k t tf th ms p Ht Hv Hp Hinv Hwf Hav)
    as (t' & n' & v & r & ms' & w' & k' & Hf & _ & Hn' & Hfree' & Hall' & _ & _ & Hfr & _ & _ & EP & _).
  assert (n' = n) as ->.
  { destruct (Z.lt_trichotomy n n') as [Hlt|[->|Hlt]]; [|done|].
    - destruct (Hall' n) as [? ?]; [lia|congruence].
    - destruct (Hall n') as [? ?]; [lia|congruence]. }
  exists t', r, k'. split_and!; [done| |congruence]. unfold process_by_pid. by rewrite EP, lookup_insert_eq.
Qed.
End theorems.

(** ** A concrete kernel *)

Definition with_x0 (c : UserContext unit) (v : Z) : UserContext unit :=
  let g := general c in
  mkUser (mkRegs v (x1 g) (x2 g) (x3 g) (x4 g) (x5 g) (x6 g) (x7 g) (x8 g) (x9 g) (x10 g) (x11 g) (x12 g) (x13 g) (x14 g) (x15 g)
    (x16 g) (x17 g) (x18 g) (x19 g) (x20 g) (x21 g) (x22 g) (x23 g) (x24 g) (x25 g) (x26 g) (x27 g) (x28 g) (x29 g) (x30 g)) (sp c) (elr c) (spsr c) (rest c).

#[export] Instance MockUserCtx : UserCtx unit := {|
  set_syscall_ret := with_x0;
  set_sp c v := mkUser (general c) v (elr c) (spsr c) (rest c);
  set_ip c v := mkUser (general c) (sp c) v (spsr c) (rest c);
  set_tls c v := c;
  get_sp := sp;
  get_syscall_num c := x8 (general c);
  get_syscall_args c := [x0 (general c); x1 (general c); x2 (general c); x3 (general c); x4 (general c); x5 (general c)];
  default_ctx := mkUser regs0 0 0 0 tt;
|}.

#[local] Existing Instance release.

Abbreviation mock_kernel := (Kernel (V := RamFs.vfs) unit MockAlloc (list Z) MockTable).

(** Process 1 with a child, process 2, that it waits for. *)
Definition init_proc : Process RamFs.vfs :=
  mkProcess RamFs.vfs 0 {[ 0 := RamFs.handle; 2 := RamFs.handle ]} "/" "/init" 1 0 (0, None) [(2, 1%nat)] [1]
    (mkBus 0 [OnMask 5 CHILD_PROCESS_QUIT]) 0 [] sigset_empty (replicate 65 default_action).
Definition child_proc : Process RamFs.vfs :=
  mkProcess RamFs.vfs 1 {[ 0 := RamFs.handle ]} "/" "/sh" 2 0 (1, Some 0%nat) [] [2] new_bus 0 [] sigset_empty
    (replicate 65 default_action).
Definition thread_of (r v : nat) (n : Z) : Thread unit :=
  mkThread (mkInner (Some default_ctx) 0 sigset_empty default_stack) r v n.
Definition kernel0 : mock_kernel :=
  mkKernel (V := RamFs.vfs) (<[1%nat := child_proc]> {[ 0%nat := init_proc ]}) (<[2 := 1%nat]> {[ 1 := 0%nat ]})
    (<[1%nat := thread_of 1 1 2]> {[ 0%nat := thread_of 0 0 1 ]}) (<[2 := 1%nat]> {[ 1 := 0%nat ]})
    (<[1%nat := set0]> {[ 0%nat := set3.1 ]}) set3.2 (RamFs.world false) [].

Lemma exit_releases_witness :
  exists k' p', exit kernel0 1 7 = Ret k' /\ procs k' !! 1%nat = Some p'
    /\ files p' = ∅ /\ exited p' = true /\ exit_code p' = 7 /\ 5%nat ∈ woken k'.
Proof.
  destruct (exit_releases kernel0 1 child_proc 7) as (k' & p' & Hx & Hp & Hf & He & Hc & _ & _ & Hpar & _);
    [reflexivity|discriminate|].
  exists k', p'. split_and!; try assumption.
  apply (Hpar 0%nat init_proc); [reflexivity|reflexivity|repeat constructor|by left].
Defined.

Lemma kernel0_vm : vm_inv ∅ set3.1 (phys kernel0) /\ mem_wf (phys kernel0).
Proof. exact set3_inv. Qed.

Lemma fork_creates_child_witness :
  exists t' n k' th' child, fork kernel0 0 default_ctx = Ret (t', n, k')
    /\ thrds k' !! t' = Some th' /\ context (inner th') = Some (with_x0 default_ctx 0)
    /\ procs k' !! process th' = Some child /\ files child = files init_proc.
Proof.
  destruct (fork_creates_child ∅ kernel0 0 default_ctx (thread_of 0 0 1) set3.1 init_proc)
    as (t' & n & k' & th' & child & ms' & Hf & Hn & Hfree & Hall & _ & Hth & _ & Hctx & _ & _ & Hch & _ & _ & Hfiles & _);
    [reflexivity|reflexivity|reflexivity|exact (proj1 kernel0_vm)|exact (proj2 kernel0_vm)|vm_compute; lia|].
  exists t', n, k', th', child. split_and!; assumption.
Defined.

(** Process 2 has exited and process 1 has not waited for it. *)
Definition notified_init : Process RamFs.vfs := notified init_proc.
Definition kernel1 : mock_kernel :=
  mkKernel (V := RamFs.vfs) (<[1%nat := quit_process child_proc 7]> {[ 0%nat := notified_init ]}) (PROCESSES kernel0)
    (thrds kernel0) {[ 1 := 0%nat ]} (vms kernel0) set3.2 (open_files kernel0) [5%nat].

Lemma fork_replaces_zombie_witness :
  exists t' r k', fork kernel1 0 default_ctx = Ret (t', 2, k') /\ process_by_pid k' 2 = Some r /\ r ≠ 1%nat.
Proof.
  apply (fork_replaces_zombie ∅ kernel1 0 default_ctx (thread_of 0 0 1) set3.1 notified_init 2 1).
  - reflexivity.
  - reflexivity.
  - reflexivity.
  - exact (proj1 set3_inv).
  - exact (proj2 set3_inv).
  - vm_compute; lia.
  - unfold PID_INIT; lia.
  - reflexivity.
  - intros j Hj. assert (j = 1) as -> by (unfold PID_INIT in Hj; lia). vm_compute. eauto.
  - reflexivity.
  - exists (quit_process child_proc 7). reflexivity.
Defined.
