(* ===== verification/Loader.v ===== *)
(** * Starting a program ([Thread::new_user_vm], [Thread::new_user])

    The kernel reads the ELF header of a program, maps its segments (and
    those of its interpreter) and a stack, and writes the arguments into the
    stack through the new page table, which is active meanwhile. *)

From S2P Require Import Prelude BTree Signal EventBus Files UserStack Paging Handler PageTables MemorySet AddressSpace UserMemory Requests KernelSpace SpaceLife Elf Process.
Import Addr Frames Table.

Definition USER_STACK_SIZE : Z := 1 * 1024 * 1024.
Definition USER_STACK_OFFSET : Z := 0x0000800000000000 - USER_STACK_SIZE.
Definition FOLLOW_MAX_DEPTH : Z := 3.
(** [0x3c0: magic number from ld-musl.so] *)
Definition HEADER_LEN : nat := 0x3c0.

(** ** Accesses through a page table *)
Section access.
Context `{BuildMode, PteLayout} {A M : Type} `{FrameAllocator A, OffsetPageTable A M}.
Implicit Types (t : PageTableImpl M) (w : world A).

(** A store of the kernel to an address of the lower half: it goes through
    the table that [TTBR0_EL1] names. *)
Definition store_byte t (mmu : Mmu) w (a b : Z) : outcome (world A) :=
  if ttbr0 mmu =? token t then
    match impl_get_entry t a with
    | Some e =>
        if hw_allows EL1 Store e
        then Ret (set_page w (pte_target e) (<[Z.to_nat (a mod 4096) := b]> (mem w (pte_target e))))
        else Panic "data abort"
    | None => Panic "data abort"
    end
  else Panic "store to another address space".
Fixpoint store_bytes t mmu w (a : Z) (bs : list Z) : outcome (world A) :=
  match bs with
  | [] => Ret w
  | b :: bs => w ← store_byte t mmu w a b; store_bytes t mmu w (a + 1) bs
  end.

(** What a program loads from an address. *)
Definition user_load t w (a : Z) : option Z :=
  e ← impl_get_entry t a; if hw_allows EL0 PageTables.Load e then mem w (pte_target e) !! Z.to_nat (a mod 4096) else None.
End access.

(** ** The loader *)
Section loader.
Context `{BuildMode, PteLayout} {V : Vfs} {A M : Type} `{FrameAllocator A, OffsetPageTable A M, ElfParser}.
Abbreviation mset := (MemorySet INode (PageTableImpl M)).

(** [INodeForMap::read_at], with the file system in state [s]. *)
Definition INodeForMap_read_at (s : FsState) : Read INode := fun i off buf =>
  match fst (i_read_at s i off (Z.of_nat (length buf))) with
  | Ok bytes => Ret (Z.of_nat (length bytes), bytes ++ drop (length bytes) buf)
  | Err _ => Panic "called unwrap on an Err value"
  end.

(** A zeroed buffer with what [read_at(0, &mut data)] puts into it. *)
Definition read_header (s : FsState) (i : INode) : result (list Z) string * FsState :=
  let '(r, s) := i_read_at s i 0 (Z.of_nat HEADER_LEN) in
  match r with
  | Ok bytes => (Ok (bytes ++ replicate (HEADER_LEN - length bytes) 0), s)
  | Err _ => (Err "failed to read from INode"%string, s)
  end.

(** The two checks of the header. *)
Definition check_header (elf : ElfFile) : result unit string :=
  match type_ elf with
  | OtherType _ => Err "ELF is not executable or shared object"%string
  | _ => match machine elf with AArch64 => Ok tt | _ => Err "invalid ELF arch"%string end
  end.

(** The auxiliary vector of the program itself. *)
Definition make_auxv (elf : ElfFile) : outcome (gmap Z Z) :=
  phdr ← get_phdr_vaddr elf;
  let map := match phdr with Some v => {[ AT_PHDR := v ]} | None => ∅ end in
  Ret (<[AT_PAGESZ := PAGE_SIZE]> (<[AT_PHNUM := ph_count elf]> (<[AT_PHENT := ph_entry_size elf]> map))).

(** The interpreter: the entry point and the auxiliary vector change. *)
Definition load_interpreter (s : FsState) (elf : ElfFile) (bias : Z) (auxv : gmap Z Z) (ms : mset) (w : world A)
    : outcome (result (Z * gmap Z Z) string * FsState * mset * world A) :=
  x ← get_interpreter elf;
  match x with
  | Err _ => Ret (Ok (entry_point elf, auxv), s, ms, w)
  | Ok loader_path =>
      root ← root_inode;
      match i_lookup_follow s root loader_path FOLLOW_MAX_DEPTH with
      | Err _ => Ret (Err "interpreter not found"%string, s, ms, w)
      | Ok interp_inode =>
          let '(d, s) := read_header s interp_inode in
          match d with
          | Err e => Ret (Err e, s, ms, w)
          | Ok interp_data =>
              match elf_new interp_data with
              | Err e => Ret (Err e, s, ms, w)
              | Ok elf_interp =>
                  y ← append_as_interpreter elf_interp interp_inode ms w bias;
                  entry ← uadd (entry_point elf_interp) bias;
                  Ret (Ok (entry, <[AT_BASE := bias]> (<[AT_ENTRY := entry_point elf]> auxv)), s, y.1, y.2)
              end
          end
      end
  end.

(** The user stack: all but the top four pages on demand. *)
Definition stack_attr : MemoryAttr := Attr.execute_ (Attr.user_ Attr.default).
Definition push_stack (ms : mset) (w : world A) : outcome (mset * world A) :=
  let ustack_top := USER_STACK_OFFSET + USER_STACK_SIZE in
  s ← push ms w USER_STACK_OFFSET (ustack_top - PAGE_SIZE * 4) stack_attr Delay "user_stack_delay";
  push s.1 s.2 (ustack_top - PAGE_SIZE * 4) ustack_top stack_attr ByFrame "user_stack".

(** [vm.with(|| ustack_top = init_info.push_at(ustack_top))] *)
Definition write_init_info (i : ProcInitInfo) (ms : mset) (mmu : Mmu) (w : world A) : outcome (Z * Mmu * world A) :=
  with_table (page_table ms)
    (fun mmu w => x ← push_at (fun w a bs => store_bytes (page_table ms) mmu w a bs) i (USER_STACK_OFFSET + USER_STACK_SIZE) w;
                  Ret (x.1, mmu, x.2))
    mmu w.

(** [Thread::new_user_vm] *)
Definition new_user_vm (s : FsState) (inode : INode) (args envs : list string) (ms : mset) (w : world A) (mmu : Mmu)
    : outcome (result (Z * Z) string * FsState * mset * world A * Mmu) :=
  let '(d, s) := read_header s inode in
  match (match d with Ok data => elf_new data | Err e => Err e end) with
  | Err e => Ret (Err e, s, ms, w, mmu)
  | Ok elf =>
      match check_header elf with
      | Err e => Ret (Err e, s, ms, w, mmu)
      | Ok _ =>
          auxv ← make_auxv elf;
          c ← clear ms w;
          x ← make_memory_set elf c.1 c.2 inode;
          let '(bias, ms, w) := x in
          y ← load_interpreter s elf bias auxv ms w;
          let '(r, s, ms, w) := y in
          match r with
          | Err e => Ret (Err e, s, ms, w, mmu)
          | Ok (entry_addr, auxv) =>
              z ← push_stack ms w;
              v ← write_init_info (mkInfo args envs auxv) z.1 mmu z.2;
              let '(ustack_top, mmu, w) := v in
              Ret (Ok (entry_addr, ustack_top), s, z.1, w, mmu)
          end
      end
  end.
End loader.

(** ** The stack as memory *)
Section stack_memory.
Context `{BM : BuildMode} {A M F : Type} `{OS : OffsetPageTableSpec A M, RI : Read F}.
Context (R : gset Z) (ms : MemorySet F (PageTableImpl M)) (w0 : world A) (lo hi : Z).
Context (Hinv : vm_inv R ms w0) (Hlo : aligned lo) (Hhi : aligned hi).
Context (Hpages : forall p, lo <= p * 4096 < hi -> lookup_page (areas ms) p = Some (stack_attr, ByFrame)).
Abbreviation t := (page_table ms).
Implicit Types w : world A.

Lemma page_in_range a : lo <= a < hi -> lo <= a / 4096 * 4096 < hi.
Proof.
  intros Ha. destruct (aligned_pages _ Hlo) as [l ->]. pose proof (Z.div_mod a 4096). pose proof (Z.mod_pos_bound a 4096).
  assert (l <= a / 4096) by (apply Z.div_le_lower_bound; lia). lia.
Qed.

Lemma stack_entry a : lo <= a < hi ->
  exists e, impl_get_entry t a = Some e /\ view t !! (a / 4096) = Some e
    /\ hw_allows EL1 Store e = true /\ hw_allows EL0 PageTables.Load e = true.
Proof.
  intros Ha. pose proof (Hpages _ (page_in_range a Ha)) as Hl.
  destruct Hinv as (_ & _ & Hag). pose proof (agree_page _ _ _ _ Hag (a / 4096)) as Hp. rewrite Hl in Hp.
  destruct (view t !! (a / 4096)) as [e|] eqn:Hv; [|done]. destruct Hp as (Hat & Hpr & _).
  exists e. split_and!; [|done|..].
  - exact (get_entry_spec t a e Hv).
  - rewrite (sealed_allows EL1 Store _ _ Hat). by rewrite Hpr.
  - rewrite (sealed_allows EL0 PageTables.Load _ _ Hat). by rewrite Hpr.
Qed.

(** Different pages of the stack are different frames. *)
Lemma stack_frames a x e e' : lo <= a < hi -> lo <= x < hi ->
  view t !! (a / 4096) = Some e -> view t !! (x / 4096) = Some e' -> pte_target e = pte_target e' -> a / 4096 = x / 4096.
Proof.
  intros Ha Hx He He' Ht. destruct Hinv as (_ & _ & Hag).
  eapply (agree_inj _ _ _ _ Hag); [apply Hpages, page_in_range, Ha|apply Hpages, page_in_range, Hx|done..].
Qed.

Definition stack_load w (x : Z) : option Z := if (lo <=? x) && (x <? hi) then user_load t w x else None.

Lemma stack_load_in w x : lo <= x < hi -> stack_load w x = user_load t w x.
Proof. intros Hx. unfold stack_load. by rewrite (proj2 (Z.leb_le _ _)), (proj2 (Z.ltb_lt _ _)) by lia. Qed.

Lemma store_byte_spec mmu w a b :
  ttbr0 mmu = token t -> mem_wf w -> lo <= a < hi ->
  exists w', store_byte t mmu w a b = Ret w' /\ mem_wf w' /\ fa w' = fa w
    /\ forall x, stack_load w' x = if x =? a then Some b else stack_load w x.
Proof.
  intros Hmmu Hwf Ha. destruct (stack_entry a Ha) as (e & Hg & Hv & Hst & Hld).
  unfold store_byte. rewrite Hmmu, Z.eqb_refl, Hg, Hst.
  eexists. split_and!; [done| |done|].
  - intros f. destruct (Z.eq_dec (pte_target e) f) as [<-|Hn].
    + rewrite mem_set_page_eq, length_insert. apply Hwf.
    + rewrite mem_set_page_ne by done. apply Hwf.
  - intros x. assert (Hbd : (Z.to_nat (a mod 4096) < page_len)%nat) by (pose proof (Z.mod_pos_bound a 4096); plia).
    destruct (Z.eqb_spec x a) as [->|Hne].
    { rewrite stack_load_in by done. unfold user_load. rewrite Hg. cbn [mbind option_bind]. rewrite Hld, mem_set_page_eq.
      apply list_lookup_insert_eq. by rewrite Hwf. }
    destruct (decide (lo <= x < hi)) as [Hx|Hx].
    2:{ unfold stack_load. destruct (Z.leb_spec lo x), (Z.ltb_spec x hi); try done; lia. }
    rewrite !stack_load_in by done. destruct (stack_entry x Hx) as (e' & Hg' & Hv' & _ & Hld').
    unfold user_load. rewrite Hg'. cbn [mbind option_bind]. rewrite Hld'.
    destruct (Z.eq_dec (pte_target e) (pte_target e')) as [Ht|Ht]; [|by rewrite mem_set_page_ne].
    pose proof (stack_frames a x e e' Ha Hx Hv Hv' Ht) as Hp. rewrite <- Ht, mem_set_page_eq.
    apply list_lookup_insert_ne. pose proof (Z.div_mod a 4096). pose proof (Z.div_mod x 4096).
    pose proof (Z.mod_pos_bound a 4096). pose proof (Z.mod_pos_bound x 4096). lia.
Qed.

(** The law of [UserStack]. *)
Lemma stack_stores mmu a0 :
  ttbr0 mmu = token t ->
  stores_in (fun w a bs => store_bytes t mmu w a bs) stack_load (fun w => mem_wf w /\ fa w = a0) lo hi.
Proof.
  intros Hmmu w a bs. revert w a. induction bs as [|b bs IH]; intros w a [Hwf Hfa] Ha He; cbn [length store_bytes] in *.
  { exists w. split_and!; [done..|]. intros x. destruct (Z.leb_spec a x), (Z.ltb_spec x (a + Z.of_nat 0)); try done; lia. }
  destruct (store_byte_spec mmu w a b Hmmu Hwf) as (w1 & -> & Hwf1 & Hfa1 & Hl1); [lia|]. sret.
  destruct (IH w1 (a + 1)) as (w' & -> & Hok' & Hl'); [split; congruence|lia|lia|].
  exists w'. split_and!; [done|apply Hok'..|]. intros x. rewrite Hl', Hl1.
  destruct (Z.leb_spec (a + 1) x), (Z.ltb_spec x (a + 1 + Z.of_nat (length bs))), (Z.leb_spec a x),
    (Z.ltb_spec x (a + Z.of_nat (S (length bs)))), (Z.eqb_spec x a); cbn [andb]; try lia; try done.
  - by replace (Z.to_nat (x - a)) with (S (Z.to_nat (x - (a + 1)))) by lia.
  - by replace (Z.to_nat (x - a)) with O by lia.
Qed.

Lemma stack_at w a bs : at_bytes (stack_load w) a bs -> at_bytes (user_load t w) a bs.
Proof.
  intros Hb i b Hi. specialize (Hb i b Hi). unfold stack_load in Hb. by destruct ((lo <=? _) && (_ <? hi))%bool.
Qed.

Lemma stack_startup w sp i : startup (stack_load w) sp i -> startup (user_load t w) sp i.
Proof.
  intros (Hm & argv & envp & Hw & Ha & He). split; [done|]. exists argv, envp. split; [by apply stack_at|].
  split; eapply Forall2_impl; try eassumption; intros; by apply stack_at.
Qed.
End stack_memory.

(** ** A program that starts *)
Section starts.
Context `{BM : BuildMode} {V : Vfs} {A M : Type} `{OS : OffsetPageTableSpec A M, FR : !FrameReturnSpec A, EP : ElfParser, RI : Read INode}.
Implicit Types (s : FsState) (w : world A) (elf : ElfFile) (interp : option (INode * ElfFile)).

Definition STACK_TOP : Z := USER_STACK_OFFSET + USER_STACK_SIZE.
Definition stack_requests : list (Request INode) :=
  [mkReq USER_STACK_OFFSET (STACK_TOP - 16384) stack_attr Delay "user_stack_delay";
   mkReq (STACK_TOP - 16384) STACK_TOP stack_attr ByFrame "user_stack"].
Definition interp_requests elf interp : list (Request INode) :=
  match interp with Some (i, elf') => segments i (interp_bias elf) "elf-interp" elf' | None => [] end.
Definition program_requests (inode : INode) elf interp : list (Request INode) :=
  segments inode 0 "elf" elf ++ interp_requests elf interp ++ stack_requests.

Definition entry_of elf interp : Z :=
  match interp with Some (_, elf') => entry_point elf' + interp_bias elf | None => entry_point elf end.
Definition auxv_of (auxv : gmap Z Z) elf interp : gmap Z Z :=
  match interp with
  | Some _ => <[AT_BASE := interp_bias elf]> (<[AT_ENTRY := entry_point elf]> auxv)
  | None => auxv
  end.

(** The files are there and parse: the program [elf] and its interpreter, if
    it names one. *)
Definition opened s (inode : INode) elf interp s' : Prop :=
  exists data s1, read_header s inode = (Ok data, s1) /\ elf_new data = Ok elf /\ check_header elf = Ok tt
  /\ match interp with
     | None => (exists e, get_interpreter elf = Ret (Err e)) /\ s' = s1
     | Some (i, elf') => exists path root d,
         get_interpreter elf = Ret (Ok path) /\ root_inode = Ret root
         /\ i_lookup_follow s1 root path FOLLOW_MAX_DEPTH = Ok i /\ read_header s1 i = (Ok d, s') /\ elf_new d = Ok elf'
     end.

(** Their numbers do not overflow. *)
Definition headers_ok elf interp : Prop :=
  Forall (ph_ok 0) (loads elf)
  /\ match interp with
     | Some (_, elf') => Forall (ph_ok (interp_bias elf)) (loads elf') /\ 0 <= entry_of elf interp < 2 ^ 64
     | None => True
     end.

Lemma interp_bias_nonneg elf : Forall (ph_ok 0) (loads elf) -> 0 <= interp_bias elf.
Proof.
  intros Hok. pose proof (far_of_bound (loads elf) 0 ltac:(lia) Hok) as Hf. unfold interp_bias, farthest.
  pose proof (Z.div_pos (far_of 0 (loads elf)) 4096). lia.
Qed.

(** After the headers are read, the loader is a series of requests. *)
Lemma new_user_vm_requests s inode args envs (ms : MemorySet INode (PageTableImpl M)) w mmu elf interp s' aux :
  opened s inode elf interp s' -> headers_ok elf interp -> make_auxv elf = Ret aux ->
  new_user_vm s inode args envs ms w mmu =
  c ← clear ms w;
  z ← foldM push_req c (program_requests inode elf interp);
  v ← write_init_info (mkInfo args envs (auxv_of aux elf interp)) z.1 mmu z.2;
  let '(ustack_top, mmu, w) := v in Ret (Ok (entry_of elf interp, ustack_top), s', z.1, w, mmu).
Proof.
  intros (data & s1 & Hr & Hp & Hc & Hi) [Hok Hok'] Ha. unfold new_user_vm. rewrite Hr, Hp, Hc, Ha. sret.
  destruct (clear ms w) as [[ms0 w0]|]; [|done]. cbn [mbind outcome_bind fst snd]. rewrite make_segments by done.
  unfold program_requests. rewrite foldM_app.
  destruct (foldM push_req (ms0, w0) (segments inode 0 "elf" elf)) as [[ms1 w1]|]; [|done]. cbn [mbind outcome_bind fst snd].
  rewrite foldM_app.
  assert (Hl : load_interpreter s1 elf (interp_bias elf) aux ms1 w1 =
    y ← foldM push_req (ms1, w1) (interp_requests elf interp);
    Ret (Ok (entry_of elf interp, auxv_of aux elf interp), s', y.1, y.2)).
  { unfold load_interpreter. destruct interp as [[i elf']|].
    - destruct Hi as (path & root & d & -> & -> & Hlk & Hrd & He). cbn [mbind outcome_bind]. rewrite Hlk, Hrd, He.
      destruct Hok' as [Hok' Hen]. rewrite append_segments by (done || by apply interp_bias_nonneg).
      cbn [interp_requests]. destruct (foldM _ _ _) as [[ms2 w2]|]; [|done]. cbn [mbind outcome_bind fst snd].
      rewrite uadd_ok by exact Hen. done.
    - destruct Hi as [[e ->] ->]. done. }
  rewrite Hl. destruct (foldM push_req (ms1, w1) _) as [[ms2 w2]|]; [|done]. cbn [mbind outcome_bind fst snd].
  unfold push_stack, stack_requests, push_req. cbn [foldM r_start r_end r_attr r_handler r_name fst snd].
  fold STACK_TOP. change (PAGE_SIZE * 4) with 16384.
  destruct (push ms2 _ _ _ _ _ _) as [[ms3 w3]|]; [|done]. cbn [mbind outcome_bind fst snd].
  by destruct (push ms3 _ _ _ _ _ _) as [[ms4 w4]|].
Qed.

Lemma stack_page inode elf interp p :
  ForallOrdPairs apart (program_requests inode elf interp) -> STACK_TOP - 16384 <= p * 4096 < STACK_TOP ->
  reqs_vspace (program_requests inode elf interp) (fun _ => None) p = Some (stack_attr, ByFrame).
Proof.
  intros Hap Hp. erewrite (reqs_vspace_in _ (mkReq (STACK_TOP - 16384) STACK_TOP stack_attr ByFrame "user_stack")); [done|done| |].
  - unfold program_requests, stack_requests. do 2 (apply in_or_app; right). right. by left.
  - by apply r_has_aligned.
Qed.

(** The start-up data is written with the new table active, and the program
    can read it. *)
Lemma write_init_info_spec R (ms : MemorySet INode (PageTableImpl M)) w mmu i :
  vm_inv R ms w -> mem_wf w -> mmu_clean mmu -> aligned (root_frame (page_table ms)) ->
  (forall p, STACK_TOP - 16384 <= p * 4096 < STACK_TOP -> lookup_page (areas ms) p = Some (stack_attr, ByFrame)) ->
  args i ≠ [] -> room i <= 16384 ->
  exists sp w', write_init_info i ms mmu w = Ret (sp, mmu, w') /\ fa w' = fa w /\ mem_wf w'
    /\ startup (user_load (page_table ms) w') sp i.
Proof.
  intros Hinv Hwf Hmmu Hroot Hpg Hne Hroom. unfold write_init_info.
  set (inside := active_on (root_frame (page_table ms)) mmu).
  pose proof (stack_stores R ms w (STACK_TOP - 16384) STACK_TOP Hinv eq_refl Hpg inside (fa w) eq_refl) as Hst.
  destruct (push_at_spec _ _ _ _ _ Hst ltac:(done) ltac:(done) i STACK_TOP w)
    as (sp & w' & Hp & [Hwf' Hfa] & Hs & _); [done|done|lia|lia|].
  exists sp, w'. split_and!; [|done|done|by eapply stack_startup].
  destruct Hmmu as [Htl Hal].
  unfold with_table, active_token, token. rewrite switch_to_spec by done. fold inside STACK_TOP. rewrite Hp. cbn [mbind outcome_bind fst snd].
  change (root_frame (page_table ms)) with (ttbr0 inside). rewrite switch_to_spec by done.
  unfold active_on. cbn. rewrite <- Htl. by destruct mmu.
Qed.

Lemma push_all_root (rs : list (Request INode)) c z :
  foldM (push_req (T := PageTableImpl M) (A := A)) c rs = Ret z -> root_frame (page_table z.1) = root_frame (page_table c.1).
Proof. destruct c as [ms w], z as [ms' w']. intros Hp. by apply push_all_blocks in Hp as [_ ?]. Qed.

Lemma vm_inv_fa R (ms : MemorySet INode (PageTableImpl M)) w w' : fa w' = fa w -> vm_inv R ms w -> vm_inv R ms w'.
Proof. unfold vm_inv. by intros ->. Qed.

End starts.

(** ** Segments on demand *)
Section on_demand.
Context `{BM : BuildMode} {A M F : Type} `{OS : OffsetPageTableSpec A M, RI : Read F, RS : !ReadSpec}.
Implicit Types (ms : MemorySet F (PageTableImpl M)) (w : world A) (ph : ProgramHeader).

Lemma page_find_area (l : list (MemoryArea F)) addr at_ h :
  Forall area_wf l -> lookup_page l (addr / 4096) = Some (at_, h) ->
  exists a, find (fun a => contains a addr) l = Some a /\ attr a = at_ /\ MemorySet.handler a = h.
Proof.
  induction 1 as [|b l Hb Hl IH]; [done|]. rewrite lookup_page_cons. cbn [find]. rewrite <- contains_page by done.
  destruct (contains b addr) eqn:Hc; [|done]. intros [= <- <-]. eauto.
Qed.

Lemma file_page_lookup (f : FileMap F) off j :
  0 <= off -> 0 <= file_end f -> (j < page_len)%nat ->
  file_page f off !! j =
  Some (if off + Z.of_nat j <? file_end f then default 0 (content (file f) !! Z.to_nat (off + Z.of_nat j)) else 0).
Proof.
  intros Hoff Hend Hj. unfold file_page, file_bytes. set (bytes := take page_len _).
  assert (Hb : bytes !! j = if off + Z.of_nat j <? file_end f then content (file f) !! Z.to_nat (off + Z.of_nat j) else None).
  { subst bytes. rewrite lookup_take_lt by done. rewrite lookup_drop.
    replace (Z.to_nat off + j)%nat with (Z.to_nat (off + Z.of_nat j)) by lia.
    destruct (Z.ltb_spec (off + Z.of_nat j) (file_end f)); [by rewrite lookup_take_lt by lia|by rewrite lookup_take_ge by lia]. }
  destruct (bytes !! j) as [b|] eqn:Hbj.
  - rewrite (lookup_app_l_Some _ _ _ _ Hbj). destruct (_ <? _); [|done]. by rewrite <- Hb.
  - apply lookup_ge_None in Hbj as Hge. rewrite lookup_app_r by done.
    rewrite lookup_replicate_2 by (subst bytes; rewrite length_take in *; lia).
    destruct (_ <? _); [|done]. by rewrite <- Hb.
Qed.

(** Reading through [INodeForMap] when the file system serves regular files. *)
Definition INodeForMap_spec {V : Vfs} (s : FsState) (c : INode -> list Z)
    (Hc : forall i off len, 0 <= off -> 0 <= len ->
       fst (i_read_at s i off len) = Ok (take (Z.to_nat len) (drop (Z.to_nat off) (c i))))
    : @ReadSpec INode (INodeForMap_read_at s).
Proof.
  exists c. intros f off buf Hoff n. unfold Handler.read_at, INodeForMap_read_at. rewrite Hc, Nat2Z.id by lia.
  assert (Hn : length (take (length buf) (drop (Z.to_nat off) (c f))) = n) by (by rewrite length_take, length_drop).
  rewrite Hn. do 3 f_equal. subst n.
  destruct (Nat.le_ge_cases (length buf) (length (c f) - Z.to_nat off)); [by rewrite Nat.min_l|].
  rewrite Nat.min_r, !take_ge; rewrite ?length_drop; done || lia.
Defined.

(** The byte of a segment at address [y]: the file's, then zeros. *)
Definition segment_byte (inode : F) ph (bias y : Z) : Z :=
  let o := y - (virtual_addr ph + bias) in
  if o <? file_size ph then default 0 (content inode !! Z.to_nat (ph_off ph + o)) else 0.

(** Offset and address agree on the position in the page, as ELF demands, and
    file positions are those of a file. *)
Definition segment_ok ph (bias : Z) : Prop :=
  (virtual_addr ph + bias) mod 4096 = ph_off ph mod 4096 /\ ph_ok bias ph /\ 0 <= bias
  /\ virtual_addr ph + mem_size ph + bias + ph_off ph < 2 ^ 63 /\ ph_off ph + file_size ph < 2 ^ 63.

(** C25. The loader and demand paging give a program the image its file
    describes: an access to a segment page that is not resident is resolved,
    and afterwards the program reads from every address of the page that is
    in the segment the byte of the file at that place, or zero behind the
    part that is in the file. *)
Theorem segment_contents R ms w (inode : F) ph bias nm x e :
  vm_inv R ms w -> mem_wf w -> segment_ok ph bias ->
  let r := segment inode bias nm ph in
  r_start r <= x < r_end r -> lookup_page (areas ms) (x / 4096) = r_value r ->
  view (page_table ms) !! (x / 4096) = Some e -> present e = false -> (0 < avail (fa w))%nat ->
  exists ms' w', handle_page_fault ms w x = Ret (true, ms', w') /\ areas ms' = areas ms /\ vm_inv R ms' w'
    /\ forall y, y / 4096 = x / 4096 -> r_start r <= y -> user_load (page_table ms') w' y = Some (segment_byte inode ph bias y).
Proof.
  intros Hinv Hwf (Hcong & (? & ? & ? & ? & ? & ?) & Hb & Hb1 & Hb2) r Hx Hlk Hv Hpr Hav. cbn [r r_start r_end segment] in Hx.
  destruct (page_find_area (areas ms) x (r_attr r) (r_handler r)) as (a & Hfa & Hat & Hh); [apply Hinv|done|].
  set (f := mkFile inode (virtual_addr ph + bias) (ph_off ph) (ph_off ph + file_size ph)).
  assert (Hhf : MemorySet.handler a = File f) by (by rewrite Hh).
  pose proof (Z.div_mod x 4096). pose proof (Z.mod_pos_bound x 4096).
  assert (Hpd : page_down x = x / 4096 * 4096) by (rewrite page_down_eq by (unfold is_u64; lia); lia).
  assert (Hoff : file_offset_of f (page_down x) = x / 4096 * 4096 + ph_off ph - (virtual_addr ph + bias)) by (by rewrite Hpd).
  assert (Hpos : 0 <= x / 4096 * 4096 + ph_off ph - (virtual_addr ph + bias)).
  { pose proof (Z.div_mod (virtual_addr ph + bias) 4096). pose proof (Z.div_mod (ph_off ph) 4096).
    assert ((virtual_addr ph + bias) / 4096 <= x / 4096) by (apply Z.div_le_mono; lia).
    assert (0 <= ph_off ph / 4096) by (apply Z.div_pos; lia). lia. }
  destruct (fault_spec R ms w x a e) as (ms' & w' & Hpf & Har & Hinv' & (e' & Hv' & Hpr' & _ & _ & _ & _ & _ & _ & _ & Hm & _));
    try done; [by rewrite Hhf| |].
  { rewrite Hhf. cbn [fault_ok]. unfold file_range_ok. rewrite Hoff, Hpd. cbn [f mem_start file_start file_end].
    pose proof (Z.div_pos x 4096). lia. }
  exists ms', w'. split_and!; try done. intros y Hy Hys. cbn [r r_start segment] in Hys.
  pose proof Hinv' as (_ & _ & [Hp _ _ _]). specialize (Hp (x / 4096)). rewrite Har, Hlk in Hp.
  rewrite Hv', lookup_insert_eq in Hp. destruct Hp as (Hok & _).
  unfold user_load. assert (Hg : impl_get_entry (page_table ms') y = Some e').
  { refine (get_entry_spec (page_table ms') y e' _). by rewrite Hv', Hy, lookup_insert_eq. }
  rewrite Hg. cbn [mbind option_bind]. rewrite (sealed_allows EL0 PageTables.Load _ _ Hok), Hpr'.
  assert (attr_allows EL0 PageTables.Load (r_attr r) = true) as ->.
  { cbn [r r_attr segment]. unfold to_attr. by destruct (is_execute _), (is_write _). }
  cbn [andb]. change (mem w' (pte_target e') !! Z.to_nat (y mod 4096) = Some (segment_byte inode ph bias y)).
  pose proof (Z.div_mod y 4096). pose proof (Z.mod_pos_bound y 4096).
  change (pte_target e') with (target e'). rewrite Hm, Hhf. cbn [fault_data].
  rewrite Hoff, file_page_lookup by (cbn [f file_end]; plia). cbn [f file_end file]. unfold segment_byte. rewrite Z2Nat.id by lia.
  replace (x / 4096 * 4096 + ph_off ph - (virtual_addr ph + bias) + y mod 4096) with (ph_off ph + (y - (virtual_addr ph + bias))) by lia.
  destruct (Z.ltb_spec (y - (virtual_addr ph + bias)) (file_size ph)), (Z.ltb_spec (ph_off ph + (y - (virtual_addr ph + bias))) (ph_off ph + file_size ph));
    done || lia.
Qed.
End on_demand.

(** ** The first process *)
Section new_user.
Context `{BuildMode, PteLayout} {V : Vfs} {X A M : Type} `{FrameAllocator A, OffsetPageTable A M, ElfParser, UserCtx X}.
Abbreviation kernel := (Kernel X A INode (PageTableImpl M)).
Implicit Types k : kernel.

(** [context.spsr = 0b1101_00_0000] *)
Definition with_spsr (c : UserContext X) (v : Z) : UserContext X := mkUser (general c) (sp c) (elr c) v (rest c).

Definition tty_path : string := "/dev/tty".

(** The descriptors 0, 1 and 2. *)
Definition initial_files (tty : INode) (fw : FileWorld) : gmap Z FileHandle * FileWorld :=
  let '(h0, fw) := handle_new tty (mkOptions true false false) tty_path false fw in
  let '(h1, fw) := handle_new tty (mkOptions false true false) tty_path false fw in
  let '(h2, fw) := handle_new tty (mkOptions false true false) tty_path false fw in
  (<[2 := h2]> (<[1 := h1]> (<[0 := h0]> ∅)), fw).

(** [Thread::new_user]: the thread, its number, the kernel and the registers. *)
Definition new_user k (mmu : Mmu) (tty inode : INode) (path : string) (args envs : list string)
    : outcome (nat * Z * kernel * Mmu) :=
  n ← MemorySet.new (phys k);
  x ← new_user_vm (fs (open_files k)) inode args envs n.1 n.2 mmu;
  let '(r, s, ms, w, mmu) := x in
  match r with
  | Err _ => Panic "called unwrap on an Err value"
  | Ok (entry_addr, ustack_top) =>
      let v := fresh (dom (vms k)) in
      let k := with_vms k (<[v := ms]> (vms k)) w in
      let '(files, fw) := initial_files tty (with_fs (open_files k) s) in
      let k := with_open_files k fw in
      let context := with_spsr (set_sp (set_ip default_ctx entry_addr) ustack_top) 0x340 in
      let p := fresh (dom (procs k)) in
      let k := put_proc k p
        (mkProcess V v files "/" path 0 0 (0, None) [] [] new_bus 0 [] sigset_empty
           (replicate (S (Z.to_nat RTMAX)) default_action)) in
      y ← add_to_table k (mkThread (mkInner (Some context) 0 sigset_empty default_stack) p v 0);
      let '(t, tid, k) := y in
      k ← add_to_process_table k p tid;
      Ret (t, tid, k, mmu)
  end.

(** [Thread::new_user] makes a process that is ready to run: when the
    loader returns an entry point and a stack pointer, the new thread has the
    lowest free number, which is also the process number; its context is set
    to them in user mode with the debug, SError and fast interrupts masked;
    standard input, output and error are open on the terminal for reading and
    for writing; no other process or thread changes.  But the process does
    not list its thread, so it counts as exited from the start. *)
Theorem new_user_process k mmu tty inode path args envs n s ms w mmu' entry ustack_top :
  MemorySet.new (phys k) = Ret n ->
  new_user_vm (fs (open_files k)) inode args envs n.1 n.2 mmu = Ret (Ok (entry, ustack_top), s, ms, w, mmu') ->
  exists t tid k' p th, new_user k mmu tty inode path args envs = Ret (t, tid, k', mmu')
    /\ thrds k' = <[t := th]> (thrds k) /\ procs k' = <[process th := p]> (procs k)
    /\ THREADS k !! tid = None /\ 1 <= tid /\ THREADS k' = <[tid := t]> (THREADS k)
    /\ PROCESSES k' = <[tid := process th]> (PROCESSES k)
    /\ vms k' = <[t_vm th := ms]> (vms k) /\ vm p = t_vm th /\ pid p = tid
    /\ context (inner th) = Some (with_spsr (set_sp (set_ip default_ctx entry) ustack_top) 0x340)
    /\ (forall fd, is_Some (files p !! fd) <-> 0 <= fd <= 2)
    /\ (forall fd h, files p !! fd = Some h -> Files.inode h = tty
          /\ descs (open_files k') !! description h = Some (mkDesc 0 (mkOptions (fd =? 0) (negb (fd =? 0)) false) NoLock))
    /\ exited p = true.
Proof.
  intros Hn Hv. unfold new_user. rewrite Hn. sret. rewrite Hv. sret.
  set (p0 := fresh (dom (procs k))). unfold initial_files, handle_new. cbn -[fresh insert replicate lowest_free add_to_process_table].
  unfold add_to_table. cbn [THREADS put_proc with_procs with_open_files with_vms].
  destruct (lowest_free_spec (THREADS k) PID_INIT) as (tid & -> & Htid & Hfree & _).
  cbn [mbind outcome_bind]. unfold add_to_process_table, get_proc.
  cbn [procs with_ttable with_thrds put_proc with_procs with_open_files with_vms]. fold p0. rewrite lookup_insert_eq.
  cbn [expect mbind outcome_bind]. do 5 eexists. split; [reflexivity|].
  cbn [THREADS PROCESSES thrds procs vms open_files with_ptable with_ttable with_thrds put_proc with_procs with_open_files with_vms
       process t_vm inner context vm pid with_pid files exited threads descs].
  split; [reflexivity|]. cbn [process]. split; [by rewrite insert_insert_eq|].
  cbn [t_vm inner context vm pid files exited threads with_pid]. split_and!; try done.
  - intros fd. split.
    + intros Hs. destruct (decide (0 <= fd <= 2)) as [|Hout]; [done|]. rewrite !lookup_insert_ne in Hs by lia.
      rewrite lookup_empty in Hs. by apply is_Some_None in Hs.
    + intros Hfd. assert (fd = 0 \/ fd = 1 \/ fd = 2) as [ -> |[ -> | -> ] ] by lia; by eexists.
  - intros fd h Hh. destruct (Z.eq_dec fd 2) as [->|]; [|destruct (Z.eq_dec fd 1) as [->|]; [|destruct (Z.eq_dec fd 0) as [->|]]].
    all: rewrite ?lookup_insert_eq, ?lookup_insert_ne, ?lookup_insert_eq in Hh by lia.
    1-3: injection Hh as <-; cbn; split; [done|].
    + by rewrite lookup_insert_eq.
    + by rewrite lookup_insert_ne, lookup_insert_eq by lia.
    + by rewrite !lookup_insert_ne, lookup_insert_eq by lia.
    + by rewrite lookup_empty in Hh.
Qed.
End new_user.

(** ** A concrete start

    A program of one segment of three pages, of which the file holds 0x1234
    bytes, on a machine with 2048 frames. *)
From S2P Require Import Mock MockTables ProcessTheorems.

(** The parts of a result that is [Ok]. *)
Definition is_ok {B S MS W R} (x : outcome (result B string * S * MS * W * R)) : bool :=
  match x with Ret (Ok _, _, _, _, _) => true | _ => false end.
Definition ok_of {B S MS W R} (d : B * S * MS * W * R) (x : outcome (result B string * S * MS * W * R)) : B * S * MS * W * R :=
  match x with Ret (Ok b, s, ms, w, r) => (b, s, ms, w, r) | _ => d end.

Lemma ok_of_eq {B S MS W R} (d : B * S * MS * W * R) (x : outcome (result B string * S * MS * W * R)) :
  is_ok x = true -> let y := ok_of d x in x = Ret (Ok (y.1.1.1.1), y.1.1.1.2, y.1.1.2, y.1.2, y.2).
Proof. destruct x as [[[[[[b|] s] ms] w] r]|]; done. Qed.

Section concrete.
#[local] Existing Instance release.
#[local] Existing Instance RamFs.vfs.

Definition code : ProgramHeader := mkPh (Ok Load) (mkPhFlags true false true) 0x400000 0x2800 0 0x1234 (Err "").
Definition prog : ElfFile := mkElf Executable AArch64 64 56 1 0x400100 [code].
#[local] Instance parser : ElfParser := fun _ => Ok prog.

Definition disk : RamFs.State := {[ 1%nat := (fun n => Z.of_nat n mod 256) <$> seq 0 5000 ]}.
#[local] Instance disk_read : Read INode := INodeForMap_read_at disk.
#[local] Instance disk_spec : ReadSpec (F := INode) := INodeForMap_spec disk (RamFs.get disk) ltac:(done).

Definition pages : nat := Z.to_nat 2048.
#[local] Instance fits_pages : fits pages.
Proof. unfold fits, pages. rewrite Z2Nat.id; lia. Qed.

Definition fresh_world : Handler.world (Pool pages) := mkWorld (mkMockAlloc ∅) (fun _ => replicate page_len 0).
Definition fresh_set : MemorySet INode (PageTableImpl FlatTable) := mkSet [] (mkImpl (mkFlat ∅ ∅) 0x800000 ∅).

Lemma empty_inv `{OffsetPageTableSpec A FlatTable} (w : Handler.world A) (t : FlatTable) :
  opt_view t = ∅ -> vm_inv (F := INode) ∅ (mkSet [] (mkImpl t 0x800000 ∅)) w.
Proof.
  intros Ht. split_and!; [split; constructor|constructor|]. split; [|done|done|apply empty_subseteq].
  intros p. cbn [areas page_table view PageTableImplSpec opt]. by rewrite lookup_page_nil, Ht, fmap_empty, lookup_empty.
Qed.

Lemma fresh_inv : vm_inv ∅ fresh_set fresh_world.
Proof. by apply empty_inv. Qed.

Lemma fresh_avail : avail (fa fresh_world) = pages.
Proof. change (size (frame_set pages ∖ ∅) = pages). by rewrite difference_empty_L, size_frame_set. Qed.

Definition prog_aux : gmap Z Z := match make_auxv prog with Ret m => m | Panic _ => ∅ end.

Lemma prog_requests_ok : Forall req_ok (program_requests 1%nat prog None).
Proof. repeat (constructor; [split; [by vm_compute|split; [by vm_compute|by split]]|]). constructor. Qed.

Lemma prog_requests_apart : ForallOrdPairs apart (program_requests 1%nat prog None).
Proof.
  assert (Hd : forall r1 r2 : Request INode, r_hi r1 <= r_lo r2 -> apart r1 r2).
  { intros r1 r2 Hle p Hp. unfold r_has in *. bool_to_prop. rewrite !andb_false_iff, !Z.leb_gt. lia. }
  repeat (constructor; [repeat (constructor; [apply Hd; by vm_compute|]); constructor|]). constructor.
Qed.


(** The segment alone, in 64 frames. *)
Definition small_world : Handler.world MockAlloc := mkWorld (mkMockAlloc ∅) (fun _ => replicate page_len 0).
Definition code_space : MemorySet INode (PageTableImpl FlatTable) * Handler.world MockAlloc :=
  match push_req (fresh_set, small_world) (segment 1%nat 0 "elf" code) with Ret x => x | Panic _ => (fresh_set, small_world) end.

Lemma code_space_inv : vm_inv ∅ code_space.1 code_space.2.
Proof.
  destruct (push_req_spec (T := PageTableImpl FlatTable) (A := MockAlloc) (F := INode) ∅ fresh_set small_world (segment 1%nat 0 "elf" code)) as (ms' & w' & Hp & Hinv & _).
  - by apply empty_inv.
  - split; [by vm_compute|split; [by vm_compute|by split]].
  - done.
  - vm_compute. lia.
  - unfold code_space. by rewrite Hp.
Qed.

Definition code_pte : PageEntry := default (mkPte 0) (view (page_table code_space.1) !! (0x401008 / 4096)).

Lemma segment_contents_witness :
  exists ms' w', handle_page_fault code_space.1 code_space.2 0x401008 = Ret (true, ms', w') /\ areas ms' = areas code_space.1
    /\ vm_inv ∅ ms' w'
    /\ forall y, y / 4096 = 0x401008 / 4096 -> 0x400000 <= y ->
         user_load (page_table ms') w' y = Some (segment_byte (F := INode) 1%nat code 0 y).
Proof.
  refine (segment_contents ∅ code_space.1 code_space.2 1%nat code 0 "elf" 0x401008 code_pte code_space_inv _ _ _ _ _ _ _).
  - assert (mem code_space.2 = mem small_world) as Hm by (vm_compute; reflexivity).
    intros f. rewrite Hm. apply length_replicate.
  - by repeat split.
  - by split.
  - vm_compute. reflexivity.
  - vm_compute. reflexivity.
  - vm_compute. reflexivity.
  - vm_compute. lia.
Defined.

(** A kernel without processes, and the two results the loader needs. *)
Definition kernel0 : Kernel unit MockAlloc INode (PageTableImpl FlatTable) :=
  mkKernel ∅ ∅ ∅ ∅ ∅ small_world (mkFiles ∅ 0 disk) [].
Definition mmu0 : Mmu := mkMmu 0x1000 0 {[0x1000]}.
Definition new_space := match MemorySet.new (F := INode) (T := PageTableImpl FlatTable) (phys kernel0) with
  | Ret n => n | Panic _ => (fresh_set, small_world) end.
Definition loading := new_user_vm disk 1%nat ["sh"] [] new_space.1 new_space.2 mmu0.
Definition loaded := ok_of ((0, 0), disk, fresh_set, small_world, mmu0) loading.

Lemma loading_returns : loading = Ret (Ok (loaded.1.1.1.1), loaded.1.1.1.2, loaded.1.1.2, loaded.1.2, loaded.2).
Proof. refine (ok_of_eq ((0, 0), disk, fresh_set, small_world, mmu0) loading _). vm_compute. reflexivity. Qed.

Lemma new_user_process_witness :
  exists t tid k' p th, new_user kernel0 mmu0 1%nat 1%nat "/sh" ["sh"] [] = Ret (t, tid, k', loaded.2)
    /\ thrds k' = <[t := th]> (thrds kernel0) /\ procs k' = <[process th := p]> (procs kernel0)
    /\ THREADS kernel0 !! tid = None /\ 1 <= tid /\ THREADS k' = <[tid := t]> (THREADS kernel0)
    /\ PROCESSES k' = <[tid := process th]> (PROCESSES kernel0)
    /\ vms k' = <[t_vm th := loaded.1.1.2]> (vms kernel0) /\ vm p = t_vm th /\ pid p = tid
    /\ context (inner th) = Some (with_spsr (set_sp (set_ip default_ctx loaded.1.1.1.1.1) loaded.1.1.1.1.2) 0x340)
    /\ (forall fd, is_Some (files p !! fd) <-> 0 <= fd <= 2)
    /\ (forall fd h, files p !! fd = Some h -> Files.inode h = 1%nat
          /\ descs (open_files k') !! description h = Some (mkDesc 0 (mkOptions (fd =? 0) (negb (fd =? 0)) false) NoLock))
    /\ exited p = true.
Proof.
  apply (new_user_process kernel0 mmu0 1%nat 1%nat "/sh" ["sh"] [] new_space loaded.1.1.1.2 loaded.1.1.2 loaded.1.2).
  - unfold new_space. assert (match MemorySet.new (F := INode) (T := PageTableImpl FlatTable) (phys kernel0) with Ret _ => true | _ => false end = true)
      as Hok by (vm_compute; reflexivity). by destruct (MemorySet.new _).
  - refine (eq_trans loading_returns _). by destruct (loaded.1.1.1.1).
Defined.
End concrete.
