(* ===== verification/SysProcess.v ===== *)
(** * Process system calls ([syscall/process.rs], [syscall/time.rs])

    A system call is a function on the kernel state that ends in a value or an
    error.  Calls that suspend ([wait4], [nanosleep]) are modelled turn by
    turn: a turn either ends or goes to wait, having subscribed to a bus. *)

From S2P Require Import Prelude BTree Paging Handler Mock MemorySet Signal EventBus Files Process ProcessTheorems.
Import Addr Frames Table.

(** The error numbers of [queen_syscall::Error] (an external crate) the kernel
    names, and the conversion from file-system errors. *)
Class SysErrors {V : Vfs} := {
  SysError : Type;
  EFAULT : SysError; EBADF : SysError; EINVAL : SysError; ERANGE : SysError; EEXIST : SysError;
  ENOTDIR : SysError; EISDIR : SysError; ECHILD : SysError; ESRCH : SysError; ENOSYS : SysError; EINTR : SysError;
  from_fs : FsError -> SysError;
  errno_of : SysError -> Z;
}.

(** The state of [struct Syscall]: the kernel, [exit], and the stores to user
    memory so far (address space, address, value). *)
Record SysState {V : Vfs} (X A F T : Type) := mkSys {
  kern : Kernel X A F T;
  exiting : bool;
  stores : list (nat * Z * Z);
}.
Arguments mkSys {V X A F T}.
Arguments kern {V X A F T}.
Arguments exiting {V X A F T}.
Arguments stores {V X A F T}.

Section monad.
Context `{BuildMode} {V : Vfs} `{SE : !SysErrors} {X A F T : Type}.

Definition sysM (R : Type) : Type := SysState X A F T -> outcome (result R SysError * SysState X A F T).

#[export] Instance sys_ret : MRet sysM := fun R r s => Ret (Ok r, s).
#[export] Instance sys_bind : MBind sysM := fun R Q f m s =>
  match m s with
  | Ret (Ok r, s') => f r s'
  | Ret (Err e, s') => Ret (Err e, s')
  | Panic msg => Panic msg
  end.

Definition throw {R} (e : SysError) : sysM R := fun s => Ret (Err e, s).
Definition get_kernel : sysM (Kernel X A F T) := fun s => Ret (Ok (kern s), s).
Definition put_kernel (k : Kernel X A F T) : sysM unit := fun s => Ret (Ok tt, mkSys k (exiting s) (stores s)).
Definition lift {R} (m : outcome R) : sysM R := fun s => match m with Ret r => Ret (Ok r, s) | Panic msg => Panic msg end.
Definition set_exit : sysM unit := fun s => Ret (Ok tt, mkSys (kern s) true (stores s)).
Definition store (v : nat) (addr val : Z) : sysM unit := fun s => Ret (Ok tt, mkSys (kern s) (exiting s) (stores s ++ [(v, addr, val)])).

(** [Err(e)?] on a result. *)
Definition try {R} (r : result R SysError) : sysM R := fun s => Ret (r, s).
(** The conversion [From<VmError> for SysError]. *)
Definition try_vm {R} (r : result R VmError) : sysM R := match r with Ok x => mret x | Err InvalidPtr => throw EFAULT end.

(** Carry on after a step of a call. *)
Lemma bind_ok {R Q} (m : sysM R) (f : R -> sysM Q) s r s' :
  m s = Ret (Ok r, s') -> (m ≫= f) s = f r s'.
Proof. intros Hm. unfold mbind, sys_bind. by rewrite Hm. Qed.
End monad.
Abbreviation after H := (bind_ok _ _ _ _ _ H).
Arguments sysM {V SE} X A F T R.

Section calls.
Context `{BuildMode} {V : Vfs} `{SE : !SysErrors} {X E A F T : Type} `{UserCtx X}.
Context `{EI : Entry E, FI : FrameAllocator A, PI : !PageTable E A T, RI : Read F}.
Abbreviation sys := (sysM X A F T).

(** The calling thread, its process and its address space. *)
Definition self_thread (t : nat) : sys (Thread X) := k ← get_kernel; lift (get_thread k t).
Definition self_process (t : nat) : sys (Process V) := th ← self_thread t; k ← get_kernel; lift (get_proc k (process th)).
Definition self_vm (t : nat) : sys (MemorySet F T) :=
  th ← self_thread t; k ← get_kernel; lift (expect "dangling Arc" (vms k !! t_vm th)).
Definition put_self (t : nat) (p : Process V) : sys unit :=
  th ← self_thread t; k ← get_kernel; put_kernel (put_proc k (process th) p).

(** [Syscall::sys_fork]; [Thread::spawn] queues the new thread's task. *)
Definition sys_fork (t : nat) (ctx : UserContext X) : sys Z :=
  k ← get_kernel;
  x ← lift (fork k t ctx);
  _ ← put_kernel x.2;
  mret x.1.2.

(** [Syscall::sys_clone]; [CHILD_CLEARTID] is a bit of the external
    [CloneFlags]. *)
Definition sys_clone (t : nat) (ctx : UserContext X) (child_cleartid : Z -> bool)
    (flags new_sp parent_tid child_tid new_tls : Z) : sys Z :=
  if (flags =? 0x4111) || (flags =? 0x11) then sys_fork t ctx
  else if negb (flags =? 0x7d0f00) && negb (flags =? 0x5d0f00) then throw ENOSYS
  else
    ms ← self_vm t;
    r ← lift (check_write_ptr 4 ms parent_tid); _ ← try_vm r;
    r ← lift (check_write_ptr 4 ms child_tid); _ ← try_vm r;
    th ← self_thread t;
    k ← get_kernel;
    x ← lift (new_clone k t ctx new_sp new_tls child_tid);
    let '(t', n, k) := x in
    k ← (if child_cleartid flags then
           c ← lift (get_thread k t');
           mret (put_inner k t' c (mkInner (context (inner c)) child_tid (sig_mask (inner c)) (signal_alternate_stack (inner c))))
         else mret k);
    _ ← put_kernel k;
    _ ← store (t_vm th) parent_tid (as_u32 n);
    _ ← store (t_vm th) child_tid (as_u32 n);
    mret n.

(** *** [wait4] *)

(** [enum WaitFor] *)
Inductive WaitFor := AnyChild | AnyChildInGroup | Pid (p : Z).

Definition wait_target (p : Z) : outcome WaitFor :=
  if p =? -1 then Ret AnyChild else if p =? 0 then Ret AnyChildInGroup
  else if 0 <? p then Ret (Pid p) else Panic "not implemented".

(** The first child that exited. *)
Fixpoint find_exited (k : Kernel X A F T) (l : list (Z * nat)) : option (Z * Z) :=
  match l with
  | [] => None
  | (_, r) :: l =>
      match upgrade k (Some r) with
      | Some (_, p) => if exited p then Some (pid p, exit_code p) else find_exited k l
      | None => find_exited k l
      end
  end.

Definition wait_find (k : Kernel X A F T) (p : Process V) (target : WaitFor) : option (Z * Z) :=
  match target with
  | AnyChild | AnyChildInGroup => find_exited k (children p)
  | Pid n =>
      match process_by_pid k n with
      | Some r => match procs k !! r with
                  | Some c => if exited c then Some (pid c, exit_code c) else None
                  | None => None
                  end
      | None => None
      end
  end.

(** Is there nothing to wait for? *)
Definition wait_invalid (k : Kernel X A F T) (p : Process V) (target : WaitFor) : bool :=
  let alive := (List.filter (fun c => match upgrade k (Some c.2) with Some _ => true | None => false end) (children p)).*1 in
  match target with
  | AnyChild | AnyChildInGroup => match alive with [] => true | _ => false end
  | Pid n => match find (fun m => m =? n) alive with Some _ => false | None => true end
  end.

(** One turn of the loop of [Syscall::sys_wait4]: a process number, an error,
    or [None] when the call goes to wait for [CHILD_PROCESS_QUIT]. *)
Definition wait4_turn (t : nat) (target : WaitFor) (wstatus : Z) : sys (option Z) :=
  th ← self_thread t;
  k ← get_kernel;
  p ← self_process t;
  match wait_find k p target with
  | Some (n, code) =>
      _ ← (if wstatus =? 0 then mret tt else store (t_vm th) wstatus (as_i32 code));
      let k := with_ptable k (delete n (PROCESSES k)) in
      _ ← put_kernel (put_proc k (process th) (with_children p (List.filter (fun c => negb (c.1 =? n)) (children p))));
      mret (Some n)
  | None => if wait_invalid k p target then throw ECHILD else mret None
  end.

(** Between two turns: the event has arrived and is cleared. *)
Definition wait4_wakeup (t : nat) : sys unit :=
  p ← self_process t;
  let '(b, ws) := EventBus.clear (event_bus p) CHILD_PROCESS_QUIT in
  _ ← put_self t (with_bus p b);
  k ← get_kernel; put_kernel (wake k ws).

(** *** Identifiers *)

Definition sys_get_pid (t : nat) : sys Z := p ← self_process t; mret (pid p).
Definition sys_get_tid (t : nat) : sys Z := th ← self_thread t; mret (tid th).
Definition sys_get_ppid (t : nat) : sys Z :=
  p ← self_process t; k ← get_kernel;
  mret (match upgrade k (parent p).2 with Some _ => (parent p).1 | None => 0 end).

(** [Syscall::sys_get_pgid], [Syscall::sys_set_pgid] *)
Definition sys_get_pgid (t : nat) (n : Z) : sys Z :=
  p ← self_process t; k ← get_kernel;
  match PROCESSES k !! (if n =? 0 then pid p else n) with
  | Some r => q ← lift (get_proc k r); mret (as_u64 (pgid q))
  | None => throw ESRCH
  end.
Definition sys_set_pgid (t : nat) (n g : Z) : sys Z :=
  p ← self_process t; k ← get_kernel;
  match PROCESSES k !! (if n =? 0 then pid p else n) with
  | Some r => q ← lift (get_proc k r); _ ← put_kernel (put_proc k r (with_pgid q (as_i32 g))); mret 0
  | None => throw ESRCH
  end.

(** [Syscall::sys_set_tid_address], [Syscall::sys_set_priority] *)
Definition sys_set_tid_address (t : nat) (addr : Z) : sys Z :=
  th ← self_thread t; k ← get_kernel;
  let i := inner th in
  _ ← put_kernel (put_inner k t th (mkInner (context i) addr (sig_mask i) (signal_alternate_stack i)));
  mret (tid th).
Definition sys_set_priority (priority : Z) : sys Z := mret 0.

(** *** Exit *)

(** [Syscall::sys_exit] *)
Definition sys_exit (t : nat) (code : Z) : sys Z :=
  th ← self_thread t;
  p ← self_process t;
  let rest := List.filter (fun n => negb (n =? tid th)) (threads p) in
  _ ← put_self t (with_threads p rest);
  _ ← (match rest with
       | [] => k ← get_kernel; k ← lift (exit k (process th) code); put_kernel k
       | _ => mret tt
       end);
  _ ← set_exit;
  mret 0.

(** [Syscall::sys_exit_group] *)
Definition sys_exit_group (t : nat) (code : Z) : sys Z :=
  th ← self_thread t; k ← get_kernel;
  k ← lift (exit k (process th) code);
  _ ← put_kernel k;
  _ ← set_exit;
  mret 0.
End calls.

(** ** Lemmas *)
Section lemmas.
Context `{BuildMode} {V : Vfs} `{SE : !SysErrors} {X E A F T : Type} `{UserCtx X}.
Context `{EI : Entry E, FI : FrameAllocator A, PI : !PageTable E A T, RI : Read F}.
Implicit Types (s : SysState X A F T) (k : Kernel X A F T).


(** The calling thread and its process, read once. *)
Lemma self_thread_ok t s th : thrds (kern s) !! t = Some th -> self_thread t s = Ret (Ok th, s).
Proof. intros Ht. unfold self_thread, mbind, sys_bind, get_kernel, lift, get_thread. by rewrite Ht. Qed.

Lemma self_process_ok t s th p :
  thrds (kern s) !! t = Some th -> procs (kern s) !! process th = Some p -> self_process t s = Ret (Ok p, s).
Proof.
  intros Ht Hp. unfold self_process. rewrite (after (self_thread_ok t s th Ht)).
  unfold mbind, sys_bind, get_kernel, lift, get_proc. by rewrite Hp.
Qed.

Lemma put_self_ok t s th p :
  thrds (kern s) !! t = Some th ->
  put_self t p s = Ret (Ok tt, mkSys (put_proc (kern s) (process th) p) (exiting s) (stores s)).
Proof. intros Ht. unfold put_self. by rewrite (after (self_thread_ok t s th Ht)). Qed.

(** [find_exited] finds an exited child whenever there is one. *)
Lemma find_exited_spec k l :
  match find_exited k l with
  | Some (n, code) => exists m r c, (m, r) ∈ l /\ procs k !! r = Some c /\ exited c = true /\ n = pid c /\ code = exit_code c
  | None => forall m r c, (m, r) ∈ l -> procs k !! r = Some c -> exited c = false
  end.
Proof.
  induction l as [|[m r] l IH]; cbn [find_exited]; [intros ? ? ? Hin; by apply not_elem_of_nil in Hin|].
  unfold upgrade; cbn. destruct (procs k !! r) as [c|] eqn:Hr; cbn.
  - destruct (exited c) eqn:Hx.
    + exists m, r, c. split_and!; try done. by left.
    + destruct (find_exited k l) as [[n code]|].
      * destruct IH as (m' & r' & c' & ? & ?). exists m', r', c'. split; [by right|done].
      * intros m' r' c' Hin Hc'. apply elem_of_cons in Hin as [[= -> ->]|Hin]; [congruence|by eapply IH].
  - destruct (find_exited k l) as [[n code]|].
    + destruct IH as (m' & r' & c' & ? & ?). exists m', r', c'. split; [by right|done].
    + intros m' r' c' Hin Hc'. apply elem_of_cons in Hin as [[= -> ->]|Hin]; [congruence|by eapply IH].
Qed.

Lemma find_exited_unique k l m r c :
  (m, r) ∈ l -> procs k !! r = Some c -> exited c = true ->
  (forall m' r' c', (m', r') ∈ l -> r' ≠ r -> procs k !! r' = Some c' -> exited c' = false) ->
  find_exited k l = Some (pid c, exit_code c).
Proof.
  intros Hin Hc Hx Hothers. pose proof (find_exited_spec k l) as Hf.
  destruct (find_exited k l) as [[n code]|].
  - destruct Hf as (m' & r' & c' & Hin' & Hc' & Hx' & -> & ->). destruct (decide (r' = r)) as [->|Hne]; [congruence|].
    by rewrite (Hothers m' r' c') in Hx'.
  - by rewrite (Hf m r c) in Hx.
Qed.

Lemma wait4_wakeup_ok t s th p :
  thrds (kern s) !! t = Some th -> procs (kern s) !! process th = Some p ->
  let b := EventBus.clear (event_bus p) CHILD_PROCESS_QUIT in
  wait4_wakeup t s = Ret (Ok tt, mkSys (wake (put_proc (kern s) (process th) (with_bus p b.1)) b.2) (exiting s) (stores s)).
Proof.
  intros Ht Hp b. unfold wait4_wakeup. rewrite (after (self_process_ok t s th p Ht Hp)).
  subst b. destruct (EventBus.clear _ _) as [b ws]. by rewrite (after (put_self_ok t s th (with_bus p b) Ht)).
Qed.

(** A turn of [wait4] for any child. *)
Lemma wait4_turn_any t s th p wstatus :
  thrds (kern s) !! t = Some th -> procs (kern s) !! process th = Some p ->
  wait4_turn t AnyChild wstatus s =
  match find_exited (kern s) (children p) with
  | Some (n, code) =>
      Ret (Ok (Some n),
        mkSys (put_proc (with_ptable (kern s) (delete n (PROCESSES (kern s)))) (process th)
                 (with_children p (List.filter (fun c => negb (c.1 =? n)) (children p)))) (exiting s)
          (if wstatus =? 0 then stores s else stores s ++ [(t_vm th, wstatus, as_i32 code)]))
  | None => if wait_invalid (kern s) p AnyChild then Ret (Err ECHILD, s) else Ret (Ok None, s)
  end.
Proof.
  intros Ht Hp. unfold wait4_turn.
  rewrite (after (self_thread_ok t s th Ht)).
  rewrite (bind_ok get_kernel _ s (kern s) s eq_refl).
  rewrite (after (self_process_ok t s th p Ht Hp)). cbn [wait_find].
  destruct (find_exited (kern s) (children p)) as [[n code]|].
  - destruct (wstatus =? 0); done.
  - by destruct (wait_invalid _ _ _).
Qed.

Lemma wait_invalid_any k p :
  wait_invalid k p AnyChild = true <-> forall m r, (m, r) ∈ children p -> procs k !! r = None.
Proof.
  unfold wait_invalid.
  assert (Hup : forall r, match upgrade k (Some r) with Some _ => true | None => false end = bool_decide (is_Some (procs k !! r))).
  { intros r. unfold upgrade; cbn. by destruct (procs k !! r). }
  induction (children p) as [|[m r] l IH]; cbn -[upgrade].
  { split; [|done]. intros _ ? ? Hin. by apply not_elem_of_nil in Hin. }
  rewrite Hup. destruct (procs k !! r) as [c|] eqn:Hr.
  - rewrite bool_decide_true by done. split; [done|]. intros Hall. rewrite (Hall m r) in Hr; [done|by left].
  - rewrite bool_decide_false by (by intros [? ?]). rewrite IH. split; intros Hall m' r' Hin.
    + apply elem_of_cons in Hin as [[= -> ->]|Hin]; [done|by eapply Hall].
    + apply (Hall m'). by right.
Qed.
End lemmas.

(** ** Theorems *)
Section theorems.
Context `{BuildMode} {V : Vfs} `{SE : !SysErrors} {X E A F T : Type} `{UserCtx X}.
Context `{EI : Entry E, FI : FrameAllocator A, PI : !PageTable E A T, RI : Read F}.
Implicit Types (s : SysState X A F T) (k : Kernel X A F T) (p : Process V).

(** A turn of [wait4] for any child: with an exited child it returns the
    number of one, takes it out of the process table and off the list of
    children, and stores its exit code at [wstatus] unless that is null, with
    no check of the address; with only running children it goes to wait and
    changes nothing; with no child left it fails with [ECHILD]. *)
Theorem wait4_any_child t s th p wstatus :
  thrds (kern s) !! t = Some th -> procs (kern s) !! process th = Some p ->
  let exited_child := exists m r c, (m, r) ∈ children p /\ procs (kern s) !! r = Some c /\ exited c = true in
  (exited_child -> exists r c s', wait4_turn t AnyChild wstatus s = Ret (Ok (Some (pid c)), s')
      /\ (exists m, (m, r) ∈ children p) /\ procs (kern s) !! r = Some c /\ exited c = true
      /\ PROCESSES (kern s') = delete (pid c) (PROCESSES (kern s))
      /\ procs (kern s') !! process th = Some (with_children p (List.filter (fun x => negb (x.1 =? pid c)) (children p)))
      /\ (wstatus ≠ 0 -> stores s' = stores s ++ [(t_vm th, wstatus, as_i32 (exit_code c))]))
  /\ (~ exited_child -> (exists m r, (m, r) ∈ children p /\ is_Some (procs (kern s) !! r)) ->
      wait4_turn t AnyChild wstatus s = Ret (Ok None, s))
  /\ ((forall m r, (m, r) ∈ children p -> procs (kern s) !! r = None) ->
      wait4_turn t AnyChild wstatus s = Ret (Err ECHILD, s)).
Proof.
  intros Ht Hp exited_child. rewrite (wait4_turn_any t s th p wstatus Ht Hp).
  pose proof (find_exited_spec (kern s) (children p)) as Hf.
  destruct (find_exited (kern s) (children p)) as [[n code]|].
  - destruct Hf as (m & r & c & Hin & Hc & Hx & -> & ->). split_and!.
    + intros _. exists r, c. eexists. split_and!; try done; [by exists m| |].
      * cbn. by rewrite lookup_insert_eq.
      * intros Hw. cbn. by rewrite (proj2 (Z.eqb_neq _ _)).
    + intros Hn. destruct Hn. by exists m, r, c.
    + intros Hnone. rewrite (Hnone m r Hin) in Hc. done.
  - split_and!.
    + intros (m & r & c & Hin & Hc & Hx). rewrite (Hf m r c Hin Hc) in Hx. done.
    + intros _ (m & r & Hin & [c Hc]). destruct (wait_invalid _ _ _) eqn:Hi; [|done].
      rewrite wait_invalid_any in Hi. rewrite (Hi m r Hin) in Hc. done.
    + intros Hnone. rewrite (proj2 (wait_invalid_any (kern s) p) Hnone). done.
Qed.

(** C33. A parent asleep in [wait4] does not miss the exit of its only child
    to exit: the exit wakes it, and its next turn returns the number and the
    exit code of that child. *)
Theorem wait_exit_handshake k t th p r c m code wstatus w :
  thrds k !! t = Some th -> procs k !! process th = Some p ->
  (m, r) ∈ children p -> procs k !! r = Some c -> (parent c).2 = Some (process th) -> r ≠ process th ->
  (forall m' r' c', (m', r') ∈ children p -> r' ≠ r -> procs k !! r' = Some c' -> exited c' = false /\ r' ≠ process th) ->
  bus_inv (event_bus p) -> OnMask w CHILD_PROCESS_QUIT ∈ callbacks (event_bus p) -> wstatus ≠ 0 ->
  exists k' s', exit k r code = Ret k' /\ w ∈ woken k'
    /\ (wait4_wakeup t ≫= fun _ => wait4_turn t AnyChild wstatus) (mkSys k' false []) = Ret (Ok (Some (pid c)), s')
    /\ stores s' = [(t_vm th, wstatus, as_i32 code)].
Proof.
  intros Ht Hp Hin Hc Hpar Hne Hothers Hbus Hcb Hw.
  destruct (exit_spec k r c code Hc) as (k' & Hx & Ep & _ & Eh & Ew); [congruence|].
  assert (Hu : upgrade k (parent c).2 = Some (process th, p)).
  { unfold upgrade. rewrite Hpar. cbn. by rewrite Hp. }
  rewrite Hu in Ep, Ew. exists k'.
  assert (Hp' : procs k' !! process th = Some (notified p)).
  { by rewrite Ep, lookup_insert_ne, lookup_insert_eq. }
  assert (Ht' : thrds k' !! t = Some th) by (by rewrite Eh).
  pose proof (wait4_wakeup_ok t (mkSys k' false []) th (notified p) Ht' Hp') as Hwk.
  rewrite (after Hwk). cbn [kern exiting stores].
  set (b := (EventBus.clear (event_bus (notified p)) CHILD_PROCESS_QUIT).1).
  match goal with |- context [wait4_turn t AnyChild wstatus ?s2] => set (s1 := s2) end.
  rewrite (wait4_turn_any t s1 th (with_bus (notified p) b)) by (cbn; by rewrite ?lookup_insert_eq).
  rewrite (find_exited_unique (kern s1) _ m r (quit_process c code)).
  - cbn. rewrite (proj2 (Z.eqb_neq _ _)) by done. eexists. split_and!; try done.
    rewrite Ew, !elem_of_app. right. eapply (change_wakes _ 0 CHILD_PROCESS_QUIT); [done..|].
    fold (set (event_bus p) CHILD_PROCESS_QUIT). by rewrite set_event_land.
  - done.
  - cbn. by rewrite lookup_insert_ne, Ep, lookup_insert_eq by done.
  - done.
  - intros m' r' c' Hin' Hr' Hc'. cbn in Hc'. destruct (decide (r' = process th)) as [->|Hn].
    + destruct (Hothers m' (process th) p Hin' Hr' Hp) as [_ []]. done.
    + rewrite lookup_insert_ne, Ep, !lookup_insert_ne in Hc' by done. by destruct (Hothers m' r' c').
Qed.

(** [sys_exit] ends the calling thread: it is no longer a thread of its
    process, and the process exits with the given code if it was the last
    one.  But the thread table is never changed, not even by the last thread,
    so the number of a thread that ends this way is never free again. *)
Theorem sys_exit_keeps_thread_entry t s th p code :
  thrds (kern s) !! t = Some th -> procs (kern s) !! process th = Some p -> (parent p).2 ≠ Some (process th) ->
  exists s' p', sys_exit t code s = Ret (Ok 0, s') /\ exiting s' = true
    /\ procs (kern s') !! process th = Some p'
    /\ threads p' = List.filter (fun n => negb (n =? tid th)) (threads p)
    /\ (exited p' = true -> files p' = ∅ /\ exit_code p' = code)
    /\ THREADS (kern s') = THREADS (kern s).
Proof.
  intros Ht Hp Hpar. unfold sys_exit.
  rewrite (after (self_thread_ok t s th Ht)), (after (self_process_ok t s th p Ht Hp)).
  set (ts := List.filter _ _). rewrite (after (put_self_ok t s th (with_threads p ts) Ht)).
  destruct ts as [|n ts'] eqn:Hts.
  - set (k1 := put_proc (kern s) (process th) (with_threads p [])).
    destruct (exit_spec k1 (process th) (with_threads p []) code) as (k' & Hx & Ep & Et & _);
      [cbn; by rewrite lookup_insert_eq|done|].
    unfold mbind, sys_bind, get_kernel, lift, put_kernel, set_exit; cbn [kern exiting stores]. fold k1. rewrite Hx.
    do 2 eexists. split_and!; [done..| | | |]; cbn [kern].
    + by rewrite Ep, lookup_insert_eq.
    + done.
    + done.
    + by rewrite Et.
  - do 2 eexists. split_and!; [done..| | | |]; cbn.
    + by rewrite lookup_insert_eq.
    + done.
    + done.
    + done.
Qed.
End theorems.

(** ** Evaluations *)

Inductive MockError := MFault | MBadf | MInval | MRange | MExist | MNotdir | MIsdir | MChild | MSrch | MNosys | MIntr | MFs.

#[export] Instance MockSysErrors : SysErrors (V := RamFs.vfs) := {|
  SysError := MockError;
  EFAULT := MFault; EBADF := MBadf; EINVAL := MInval; ERANGE := MRange; EEXIST := MExist;
  ENOTDIR := MNotdir; EISDIR := MIsdir; ECHILD := MChild; ESRCH := MSrch; ENOSYS := MNosys; EINTR := MIntr;
  from_fs _ := MFs;
  errno_of _ := 1;
|}.

Lemma wait4_any_child_witness : wait4_turn 0 AnyChild 0 (mkSys kernel0 false []) = Ret (Ok None, mkSys kernel0 false []).
Proof.
  destruct (wait4_any_child 0 (mkSys kernel0 false []) (thread_of 0 0 1) init_proc 0) as (_ & Hwait & _); [reflexivity..|].
  apply Hwait.
  - intros (m & r & c & Hin & Hc & Hx). apply list_elem_of_singleton in Hin as [= -> ->].
    change (Some child_proc = Some c) in Hc. injection Hc as <-. discriminate.
  - exists 2, 1%nat. split; [by left|]. exists child_proc. reflexivity.
Defined.

Lemma wait_exit_handshake_witness :
  exists k' s', exit kernel0 1 7 = Ret k' /\ 5%nat ∈ woken k'
    /\ (wait4_wakeup 0 ≫= fun _ => wait4_turn 0 AnyChild 0x10000) (mkSys k' false []) = Ret (Ok (Some 2), s')
    /\ stores s' = [(0%nat, 0x10000, 7)].
Proof.
  apply (wait_exit_handshake kernel0 0 (thread_of 0 0 1) init_proc 1 child_proc 2 7 0x10000 5);
    [reflexivity|reflexivity|by left|reflexivity|reflexivity|discriminate| |repeat constructor|by left|discriminate].
  intros m' r' c' Hin Hne. apply list_elem_of_singleton in Hin as [= -> ->]. by destruct Hne.
Defined.

Lemma sys_exit_keeps_thread_entry_witness :
  exists s' p', sys_exit 1 0 (mkSys kernel0 false []) = Ret (Ok 0, s') /\ exiting s' = true
    /\ procs (kern s') !! 1%nat = Some p' /\ threads p' = [] /\ THREADS (kern s') = THREADS kernel0.
Proof.
  destruct (sys_exit_keeps_thread_entry 1 (mkSys kernel0 false []) (thread_of 1 1 2) child_proc 0)
    as (s' & p' & ? & ? & ? & ? & _ & ?); [reflexivity|reflexivity|discriminate|].
  exists s', p'. split_and!; assumption.
Defined.
