(* ===== verification/SignalDelivery.v ===== *)
(** * Signal delivery ([signal/mod.rs], [process/thread.rs])

    [send_signal] queues a signal on a process, [handle_signal] delivers the
    queued signals of a thread before it goes back to user space. *)

From S2P Require Import Prelude BTree Paging Handler Mock MemorySet MemoryTheorems Signal EventBus Files Process ProcessTheorems.
Import Addr Frames Table.

(** [struct SignalUserContext], [struct SignalFrame]; [ret_code] is [None] when
    the frame's return code is not written. *)
Record SignalUserContext := mkUContext {
  uc_flags : Z; uc_link : Z; uc_stack : SignalStack; uc_context : MachineContext; uc_mask : Sigset }.
Record SignalFrame := mkFrame {
  ret_code_addr : Z; frame_info : Siginfo; ucontext : SignalUserContext; ret_code : option (list Z) }.

(** The [repr(C)] layout of the frame on a 64-bit machine. *)
Definition INFO_OFFSET : Z := 8.
Definition UCONTEXT_OFFSET : Z := 136.
Definition RET_CODE_OFFSET : Z := 464.
Definition FRAME_SIZE : Z := 472.

Section delivery.
Context `{BuildMode} {V : Vfs} {X A F T : Type} `{UserCtx X}.
Abbreviation kernel := (Kernel X A F T).
Implicit Types k : kernel.

(** [Signal::from_i32(info.signo).unwrap()] *)
Definition signal_of (i : Siginfo) : outcome Signal :=
  expect "called unwrap on a None value" (from_i32 (info_signo i)).

(** [send_signal] *)
Definition send_signal k (r : nat) (target : Z) (info : Siginfo) : outcome kernel :=
  signal ← signal_of info;
  p ← get_proc k r;
  pending ← (if is_standard signal then contains (pending_sigset p) signal else Ret false);
  if pending : bool then Ret k
  else
    pend ← add (pending_sigset p) signal;
    Ret (set_event k r (with_signals p (sig_queue p ++ [(info, target)]) pend) RECEIVE_SIGNAL).

(** Does a queued signal concern the thread, and is it not blocked? *)
Definition deliverable (n : Z) (blocked : Sigset) (x : Siginfo * Z) : outcome bool :=
  if (x.2 =? -1) || (as_u64 x.2 =? n) then
    s ← signal_of x.1; b ← contains blocked s; Ret (negb b)
  else Ret false.

(** [Thread::has_signal_to_handle] *)
Definition has_signal_to_handle k (t : nat) : outcome bool :=
  th ← get_thread k t;
  p ← get_proc k (process th);
  o ← findM (deliverable (tid th) (sig_mask (inner th))) (sig_queue p);
  Ret (match o with Some _ => true | None => false end).

(** [iter().enumerate().find_map(...)] *)
Fixpoint find_index (n : Z) (blocked : Sigset) (i : nat) (q : list (Siginfo * Z)) : outcome (option (nat * Siginfo)) :=
  match q with
  | [] => Ret None
  | x :: q => b ← deliverable n blocked x; if b : bool then Ret (Some (i, x.1)) else find_index n blocked (S i) q
  end.

(** The stack pointer of the frame, and the thread's alternate stack after. *)
Definition frame_sp (tf : UserContext X) (action : SignalAction) (stack : SignalStack) : outcome (Z * SignalStack) :=
  x ← (if has_flag (flags action) SA_ONSTACK then
         if has_flag (stack_flags stack) SS_DISABLE then Ret (get_sp tf, stack)
         else
           let f := Z.lor (stack_flags stack) SS_ONSTACK in
           let f := if has_flag (stack_flags stack) SS_AUTODISARM then Z.lor f SS_DISABLE else f in
           top ← uadd (stack_sp stack) (stack_size stack);
           Ret (top, mkStack (stack_sp stack) f (stack_size stack))
       else Ret (get_sp tf, stack));
  sp0 ← usub x.1 FRAME_SIZE;
  Ret (sp0, x.2).

(** The last arm of the [match]: the thread enters its signal handler.  The
    result is the thread's inner state, the context and the frame's address
    and contents. *)
Definition enter_handler (ms : MemorySet F T) (i : ThreadInner X) (tf : UserContext X) (action : SignalAction)
    (signal : Signal) (info : Siginfo) : outcome (ThreadInner X * UserContext X * (Z * SignalFrame)) :=
  let old := sig_mask i in
  m ← add old signal;
  let m := add_set m (mask action) in
  let stack := signal_alternate_stack i in
  x ← frame_sp tf action stack;
  let '(sig_sp, stack') := x in
  r ← check_write_ptr FRAME_SIZE ms sig_sp;
  match r with
  | Err _ => Panic "not implemented"
  | Ok _ =>
      let uc := mkUContext 0 0 stack (from_tf tf) old in
      let frame := if has_flag (flags action) SA_RESTORER then mkFrame (restorer action) info uc None
                   else mkFrame (sig_sp + RET_CODE_OFFSET) info uc (Some RET_CODE) in
      Ret (mkInner (context i) (clear_child_tid i) m stack',
           set_signal_handler tf sig_sp (handler action) (info_signo info) (sig_sp + INFO_OFFSET) (sig_sp + UCONTEXT_OFFSET),
           (sig_sp, frame))
  end.

(** [handle_signal]: one loop turn per queued signal.  The result says whether
    the thread exits; frames written to user memory are collected in order. *)
Fixpoint handle_loop (fuel : nat) k (t : nat) (tf : UserContext X) (out : list (Z * SignalFrame))
    : outcome (bool * kernel * UserContext X * list (Z * SignalFrame)) :=
  match fuel with
  | O => Panic "handle_loop: out of fuel"
  | S fuel =>
      th ← get_thread k t;
      p ← get_proc k (process th);
      o ← find_index (tid th) (sig_mask (inner th)) 0 (sig_queue p);
      match o with
      | None => Ret (false, k, tf, out)
      | Some (idx, info) =>
          signal ← signal_of info;
          pend ← remove (pending_sigset p) signal;
          let p := with_signals p (delete idx (sig_queue p)) pend in
          let k := put_proc k (process th) p in
          action ← expect "index out of bounds" (dispositions p !! Z.to_nat (info_signo info));
          if handler action =? SIG_DFL then
            match signal with
            | SIGALRM | SIGHUP | SIGINT =>
                k ← exit k (process th) (info_signo info + 128); Ret (true, k, tf, out)
            | _ => handle_loop fuel k t tf out
            end
          else if handler action =? SIG_IGN then handle_loop fuel k t tf out
          else if handler action =? SIG_ERR then Panic "not implemented"
          else
            ms ← expect "dangling Arc" (vms k !! vm p);
            x ← enter_handler ms (inner th) tf action signal info;
            let '(i, tf, frame) := x in
            handle_loop fuel (put_inner k t th i) t tf (out ++ [frame])
      end
  end.

(** Every turn takes one signal off the queue, so one turn more than there
    are signals is enough. *)
Definition handle_signal k (t : nat) (tf : UserContext X) : outcome (bool * kernel * UserContext X * list (Z * SignalFrame)) :=
  th ← get_thread k t;
  p ← get_proc k (process th);
  handle_loop (S (length (sig_queue p))) k t tf [].
End delivery.

(** ** The queue and the pending set *)
Section queue.
Context `{BuildMode} {V : Vfs}.
Implicit Types (q : list (Siginfo * Z)) (x : Siginfo * Z) (s : Signal) (p : Process V).

(** The entry carries a signal that the build can handle. *)
Definition entry_ok x : Prop := exists s, from_i32 (info_signo x.1) = Some s /\ usable s.

Definition is_sig s x : bool := info_signo x.1 =? signo s.
Definition occurs s q : nat := length (List.filter (is_sig s) q).

(** A standard signal is queued at most once, and is in the pending set
    exactly when it is queued. *)
Definition sig_inv p : Prop :=
  Forall entry_ok (sig_queue p)
  /\ forall s, is_standard s = true -> occurs s (sig_queue p) = if member (pending_sigset p) s then 1%nat else 0%nat.

Lemma occurs_app s q1 q2 : occurs s (q1 ++ q2) = (occurs s q1 + occurs s q2)%nat.
Proof. unfold occurs. by rewrite List.filter_app, length_app. Qed.

Lemma is_sig_of s s' x : from_i32 (info_signo x.1) = Some s' -> is_sig s x = bool_decide (s = s').
Proof.
  intros Hx. apply signo_from_i32 in Hx. unfold is_sig. rewrite <- Hx.
  destruct (Z.eqb_spec (signo s') (signo s)) as [He|Hn].
  - apply signo_inj in He as ->. by rewrite bool_decide_true.
  - rewrite bool_decide_false; [done|]. by intros ->.
Qed.

Lemma occurs_single s s' x : from_i32 (info_signo x.1) = Some s' ->
  occurs s [x] = if bool_decide (s = s') then 1%nat else 0%nat.
Proof. intros Hx. unfold occurs; cbn. rewrite (is_sig_of s s' x Hx). by case_bool_decide. Qed.

(** Removing an entry. *)
Lemma occurs_delete s s' i q x :
  q !! i = Some x -> from_i32 (info_signo x.1) = Some s' ->
  occurs s q = (occurs s (delete i q) + if bool_decide (s = s') then 1 else 0)%nat.
Proof.
  intros Hi Hx. rewrite <- (occurs_single s s' x Hx), <- (take_drop_middle q i x Hi) at 1.
  rewrite delete_take_drop, !occurs_app. change (x :: drop (S i) q) with ([x] ++ drop (S i) q). rewrite occurs_app. lia.
Qed.

Lemma sig_inv_push p x s pend :
  sig_inv p -> from_i32 (info_signo x.1) = Some s -> usable s ->
  (is_standard s = true -> member (pending_sigset p) s = false) ->
  (forall s', member pend s' = (member (pending_sigset p) s' || bool_decide (s = s'))%bool) ->
  sig_inv (with_signals p (sig_queue p ++ [x]) pend).
Proof.
  intros [Hok Hinv] Hx Hu Hnp Hm. split; cbn [sig_queue pending_sigset with_signals].
  - apply Forall_app. split; [done|]. constructor; [by exists s|constructor].
  - intros s' Hs'. rewrite occurs_app, (occurs_single s' s x Hx), Hm, Hinv by done.
    destruct (decide (s = s')) as [<-|Hne].
    + rewrite Hnp, !bool_decide_true by done. done.
    + rewrite !bool_decide_false by congruence. rewrite orb_false_r. by destruct (member _ _).
Qed.

Lemma sig_inv_take p i x s pend :
  sig_inv p -> sig_queue p !! i = Some x -> from_i32 (info_signo x.1) = Some s ->
  (forall s', member pend s' = (member (pending_sigset p) s' && negb (bool_decide (s = s')))%bool) ->
  sig_inv (with_signals p (delete i (sig_queue p)) pend).
Proof.
  intros [Hok Hinv] Hi Hx Hm. split; cbn [sig_queue pending_sigset with_signals]; [by apply Forall_delete|].
  intros s' Hs'. pose proof (occurs_delete s' s i _ x Hi Hx) as Ho. rewrite Hinv in Ho by done. rewrite Hm.
  destruct (decide (s = s')) as [<-|Hne].
  - rewrite !bool_decide_true in * by done. rewrite andb_false_r. destruct (member _ _); lia.
  - rewrite !bool_decide_false in * by congruence. rewrite andb_true_r. destruct (member _ _); lia.
Qed.

(** ** Which signals are delivered *)

Definition deliverableb (n : Z) (blocked : Sigset) x : bool :=
  ((x.2 =? -1) || (as_u64 x.2 =? n))
  && match from_i32 (info_signo x.1) with Some s => negb (member blocked s) | None => false end.

Lemma deliverable_ok n blocked x : entry_ok x -> deliverable n blocked x = Ret (deliverableb n blocked x).
Proof.
  intros (s & Hs & Hu). unfold deliverable, deliverableb, signal_of. rewrite Hs. sret.
  destruct (_ || _)%bool; [|done]. by rewrite contains_member.
Qed.

Lemma find_index_ok n blocked q : forall i, Forall entry_ok q ->
  exists o, find_index n blocked i q = Ret o /\
    match o with
    | Some (j, info) => exists d x, j = (i + d)%nat /\ q !! d = Some x /\ info = x.1 /\ deliverableb n blocked x = true
    | None => Forall (fun x => deliverableb n blocked x = false) q
    end.
Proof.
  induction q as [|x q IH]; intros i Hq; cbn [find_index]; [by exists None|].
  apply Forall_cons in Hq as [Hx Hq]. rewrite (deliverable_ok n blocked x Hx). sret.
  destruct (deliverableb n blocked x) eqn:Hd.
  - eexists. split; [done|]. exists O, x. split_and!; [lia|done..].
  - destruct (IH (S i) Hq) as (o & -> & Ho). exists o. split; [done|]. destruct o as [[j info]|].
    + destruct Ho as (d & y & -> & ? & ? & ?). exists (S d), y. split_and!; [lia|done..].
    + by constructor.
Qed.

Lemma findM_deliverable n blocked q : Forall entry_ok q ->
  findM (deliverable n blocked) q = Ret (find (deliverableb n blocked) q).
Proof.
  intros Hq. apply findM_ret. intros x Hx. apply deliverable_ok.
  rewrite Forall_forall in Hq. by apply Hq.
Qed.
End queue.

(** ** The delivery loop *)
Section loop.
Context `{BuildMode} {V : Vfs} {X A F T : Type} `{UserCtx X}.
Implicit Types (k : Kernel X A F T) (p : Process V).

(** Every action is the default one or "ignore". *)
Definition simple_actions (l : list SignalAction) : Prop :=
  length l = 65%nat /\ Forall (fun a => handler a = SIG_DFL \/ handler a = SIG_IGN) l.

(** The signals whose default action ends the process here. *)
Definition terminates (s : Signal) : Prop := s = SIGALRM \/ s = SIGHUP \/ s = SIGINT.

Lemma filter_delete_out {W} (f : W -> bool) l i x :
  l !! i = Some x -> f x = false -> List.filter f (delete i l) = List.filter f l.
Proof.
  intros Hi Hf. rewrite <- (take_drop_middle l i x Hi) at 2. rewrite delete_take_drop, !List.filter_app. cbn. by rewrite Hf.
Qed.

Lemma filter_all_in {W} (f : W -> bool) l : Forall (fun x => f x = true) l -> List.filter f l = l.
Proof. induction 1 as [|x l Hx _ IH]; cbn; [done|]. by rewrite Hx, IH. Qed.

Lemma simple_action l s : simple_actions l ->
  exists a, l !! Z.to_nat (signo s) = Some a /\ (handler a = SIG_DFL \/ handler a = SIG_IGN).
Proof.
  intros [Hl Hf]. pose proof (signo_range s).
  destruct (lookup_lt_is_Some_2 l (Z.to_nat (signo s))) as [a Ha]; [lia|]. exists a. split; [done|].
  rewrite Forall_forall in Hf. apply Hf. by eapply list_elem_of_lookup_2.
Qed.

(** What the loop does when no signal has a handler. *)
Definition drained (k k' : Kernel X A F T) (th : Thread X) p : Prop :=
  exists p', procs k' = <[process th := p']> (procs k) /\ sig_inv p'
    /\ sig_queue p' = List.filter (fun x => negb (deliverableb (tid th) (sig_mask (inner th)) x)) (sig_queue p).
Definition terminated (k' : Kernel X A F T) (th : Thread X) p : Prop :=
  exists p' s, terminates s /\ (0 < occurs s (sig_queue p))%nat
    /\ procs k' !! process th = Some p' /\ exited p' = true /\ exit_code p' = signo s + 128.

(** The result for what is left after one signal carries over. *)
Lemma after_take k k' th p d x s pend (b : bool) :
  sig_queue p !! d = Some x -> from_i32 (info_signo x.1) = Some s ->
  deliverableb (tid th) (sig_mask (inner th)) x = true ->
  let p1 := with_signals p (delete d (sig_queue p)) pend in
  (if b then terminated k' th p1 else drained (put_proc k (process th) p1) k' th p1) ->
  if b then terminated k' th p else drained k k' th p.
Proof.
  intros Hx Hs Hdel p1 Hr. destruct b.
  - destruct Hr as (p' & s' & Hterm & Hocc & Hrest). exists p', s'. split_and!; try done; [|apply Hrest..].
    pose proof (occurs_delete s' s d _ x Hx Hs).
    change (sig_queue p1) with (delete d (sig_queue p)) in Hocc. lia.
  - destruct Hr as (p' & Hpr & ? & Hq). exists p'. split_and!; [|done|].
    + rewrite Hpr. cbn. by rewrite insert_insert_eq.
    + rewrite Hq. cbn. apply (filter_delete_out _ _ d x); [done|]. cbn. by rewrite Hdel.
Qed.

Lemma exit_terminates k th p d x s pend :
  sig_queue p !! d = Some x -> from_i32 (info_signo x.1) = Some s -> terminates s -> (parent p).2 ≠ Some (process th) ->
  let p1 := with_signals p (delete d (sig_queue p)) pend in
  exists k', exit (put_proc k (process th) p1) (process th) (signo s + 128) = Ret k'
    /\ thrds k' = thrds k /\ terminated k' th p.
Proof.
  intros Hx Hs Hterm Hpar p1.
  destruct (exit_spec (put_proc k (process th) p1) (process th) p1 (signo s + 128)) as (k' & -> & Ep & _ & Eh & _);
    [cbn; by rewrite lookup_insert_eq|done|].
  exists k'. split_and!; [done..|]. exists (quit_process p1 (signo s + 128)), s. split_and!; try done.
  - pose proof (occurs_delete s s d _ x Hx Hs) as Ho. rewrite bool_decide_true in Ho by done. lia.
  - by rewrite Ep, lookup_insert_eq.
Qed.

Lemma handle_loop_simple t th tf out fuel : forall k p,
  thrds k !! t = Some th -> procs k !! process th = Some p -> sig_inv p -> simple_actions (dispositions p) ->
  (parent p).2 ≠ Some (process th) -> (length (sig_queue p) < fuel)%nat ->
  exists b k', handle_loop fuel k t tf out = Ret (b, k', tf, out) /\ thrds k' = thrds k
    /\ if b : bool then terminated k' th p else drained k k' th p.
Proof.
  induction fuel as [|fuel IH]; intros k p Ht Hp Hinv Hsim Hpar Hfuel; [lia|]. cbn [handle_loop].
  unfold get_thread at 1, get_proc at 1. rewrite Ht. sret. rewrite Hp. sret.
  destruct (find_index_ok (tid th) (sig_mask (inner th)) (sig_queue p) 0 (proj1 Hinv)) as (o & -> & Ho).
  sret. destruct o as [[idx info]|].
  2:{ exists false, k. split_and!; try done. exists p. split_and!; [by rewrite insert_id|done|].
      rewrite filter_all_in; [done|]. eapply Forall_impl; [exact Ho|]. intros x Hx. cbn in *. by rewrite Hx. }
  destruct Ho as (d & x & -> & Hx & -> & Hdel). cbn [Nat.add] in *.
  assert (Hok : entry_ok x). { destruct Hinv as [Hok _]. rewrite Forall_forall in Hok. apply Hok. by eapply list_elem_of_lookup_2. }
  destruct Hok as (s & Hs & Hu). unfold signal_of at 1. rewrite Hs. sret.
  destruct (remove_member (pending_sigset p) s Hu) as (pend & -> & Hm). sret.
  pose proof (sig_inv_take p d x s pend Hinv Hx Hs Hm) as Hinv1.
  rewrite <- (signo_from_i32 _ _ Hs).
  destruct (simple_action (dispositions p) s Hsim) as (a & Ha & Hact).
  change (dispositions (with_signals p _ _)) with (dispositions p). rewrite Ha. sret.
  set (p1 := with_signals p (delete d (sig_queue p)) pend) in *. set (k1 := put_proc k (process th) p1).
  assert (Hgo : exists b k', handle_loop fuel k1 t tf out = Ret (b, k', tf, out) /\ thrds k' = thrds k
                  /\ if b : bool then terminated k' th p else drained k k' th p).
  { destruct (IH k1 p1) as (b & k' & -> & Hth & Hr); try done.
    { cbn. by rewrite lookup_insert_eq. }
    { cbn. apply lookup_lt_Some in Hx as Hlt. rewrite length_delete by eauto. lia. }
    exists b, k'. split_and!; [done..|]. by apply (after_take k k' th p d x s pend b). }
  destruct Hact as [->| ->]; cbn [Z.eqb SIG_DFL SIG_IGN]; [|done].
  assert (Hdie : terminates s -> exists b k', (k2 ← exit k1 (process th) (signo s + 128); Ret (true, k2, tf, out)) = Ret (b, k', tf, out)
                   /\ thrds k' = thrds k /\ if b : bool then terminated k' th p else drained k k' th p).
  { intros Hterm. destruct (exit_terminates k th p d x s pend Hx Hs Hterm Hpar) as (k' & Hex & Hth & ?).
    fold p1 k1 in Hex. rewrite Hex. by exists true, k'. }
  destruct s; first [exact Hgo | apply Hdie; unfold terminates; tauto].
Qed.
End loop.

(** ** Theorems *)
Section theorems.
Context `{BuildMode} {V : Vfs} {X A F T : Type} `{UserCtx X}.
Implicit Types (k : Kernel X A F T) (p : Process V).

Lemma send_signal_spec k r p target info s :
  procs k !! r = Some p -> sig_inv p -> from_i32 (info_signo info) = Some s -> usable s ->
  exists k' p', send_signal k r target info = Ret k' /\ procs k' !! r = Some p' /\ sig_inv p'
    /\ member (pending_sigset p') s = true
    /\ if (is_standard s && member (pending_sigset p) s)%bool then k' = k
       else sig_queue p' = sig_queue p ++ [(info, target)]
            /\ Z.land (event (event_bus p')) RECEIVE_SIGNAL ≠ 0
            /\ forall w, bus_inv (event_bus p) -> OnMask w RECEIVE_SIGNAL ∈ callbacks (event_bus p) -> w ∈ woken k'.
Proof.
  intros Hp Hinv Hs Hu. unfold send_signal, signal_of, get_proc. rewrite Hs. sret.
  rewrite Hp. sret.
  assert ((if is_standard s then contains (pending_sigset p) s else Ret false)
          = Ret (is_standard s && member (pending_sigset p) s)%bool) as ->.
  { destruct (is_standard s); [by apply contains_member|done]. }
  sret. destruct (is_standard s && member (pending_sigset p) s)%bool eqn:Hb.
  - apply andb_true_iff in Hb as [_ Hm]. exists k, p. done.
  - destruct (add_member (pending_sigset p) s Hu) as (pend & -> & Hm). sret.
    set (p1 := with_signals p (sig_queue p ++ [(info, target)]) pend).
    destruct (set_event_procs k r p1 RECEIVE_SIGNAL) as (Ep & _ & _ & Ew).
    exists (set_event k r p1 RECEIVE_SIGNAL), (with_bus p1 (set (event_bus p1) RECEIVE_SIGNAL).1).
    split_and!; try done.
    + by rewrite Ep, lookup_insert_eq.
    + apply (sig_inv_push p (info, target) s pend); try done. intros Hst. by rewrite Hst in Hb.
    + cbn. rewrite Hm, bool_decide_true by done. apply orb_true_r.
    + cbn [event_bus with_bus]. by rewrite set_event_land.
    + intros w Hbus Hin. rewrite Ew, elem_of_app. right.
      eapply (change_wakes (event_bus p1) 0 RECEIVE_SIGNAL); [done..|].
      fold (set (event_bus p1) RECEIVE_SIGNAL). by rewrite set_event_land.
Qed.

(** [send_signal] keeps the queue and the pending set consistent: a
    standard signal is queued at most once and is pending exactly when it is
    queued.  A standard signal that is already pending is dropped; any other
    is queued last, becomes pending, raises [RECEIVE_SIGNAL] and so wakes the
    tasks of the process that wait for it. *)
Theorem send_signal_queues k r p target info s :
  procs k !! r = Some p -> sig_inv p -> from_i32 (info_signo info) = Some s -> usable s ->
  exists k' p', send_signal k r target info = Ret k' /\ procs k' !! r = Some p' /\ sig_inv p'
    /\ member (pending_sigset p') s = true
    /\ if (is_standard s && member (pending_sigset p) s)%bool then k' = k
       else sig_queue p' = sig_queue p ++ [(info, target)]
            /\ Z.land (event (event_bus p')) RECEIVE_SIGNAL ≠ 0
            /\ forall w, bus_inv (event_bus p) -> OnMask w RECEIVE_SIGNAL ∈ callbacks (event_bus p) -> w ∈ woken k'.
Proof. apply send_signal_spec. Qed.


End theorems.

(** ** Evaluations *)
#[local] Existing Instance release.

Definition sigint_info : Siginfo := mkSiginfo 2 0 SI_KERNEL.

Lemma child_proc_sig_inv : sig_inv child_proc.
Proof. split; [constructor|]. intros s _. unfold member. cbn. by rewrite Z.bits_0. Qed.

Lemma send_signal_queues_witness :
  exists k' p', send_signal kernel0 1 (-1) sigint_info = Ret k' /\ procs k' !! 1%nat = Some p'
    /\ sig_queue p' = [(sigint_info, -1)] /\ member (pending_sigset p') SIGINT = true.
Proof.
  destruct (send_signal_queues kernel0 1 child_proc (-1) sigint_info SIGINT) as (k' & p' & Hs & Hp & _ & Hm & Hq & _);
    [reflexivity|apply child_proc_sig_inv|reflexivity|left; reflexivity|].
  exists k', p'. split_and!; assumption.
Defined.

(** Process 2 with an interrupt for it and a blocked signal for another thread. *)
Definition signalled : Process RamFs.vfs :=
  with_signals child_proc [(mkSiginfo 10 0 0, 9); (sigint_info, -1)] (mkSigset 1028).
Definition kernel2 : mock_kernel := put_proc kernel0 1 signalled.

Lemma signalled_inv : sig_inv signalled.
Proof.
  split.
  - repeat constructor; [exists SIGUSR1|exists SIGINT]; (split; [reflexivity|by left]).
  - intros s _. destruct s; reflexivity.
Qed.


