(* ===== verification/Tty.v ===== *)
(** * The terminal ([fs/devfs/tty.rs])

    [TtyINode]: a buffer of typed characters, an event bus that tells readers
    about it, and the characters that become signals.  The second half looks
    at the places where the source takes a lock twice in a row. *)

From S2P Require Import Prelude BTree Mock Signal EventBus Files Process ProcessTheorems SignalDelivery.

(** [struct TtyINode] *)
Record TtyINode := mkTty { foreground_pgid : Z; buf : list Z; tty_bus : EventBus }.

(** [TtyINode::default] *)
Definition tty_default : TtyINode := mkTty 0 [] new_bus.

(** [PollStatus] *)
Record PollStatus := mkPoll { p_read : bool; p_write : bool; p_error : bool }.

(** What [metadata] reports. *)
Record TtyMetadata (FT : Type) := mkTtyMeta {
  tm_dev : Z; tm_inode : Z; tm_size : Z; tm_blk_size : Z; tm_blocks : Z; tm_type : FT; tm_mode : Z; tm_nlinks : Z;
  tm_uid : Z; tm_gid : Z; tm_rdev : Z;
}.
Arguments mkTtyMeta {FT}.

(** [TtyINode::can_read] *)
Definition can_read (self : TtyINode) : bool := 0 <? Z.of_nat (length (buf self)).

(** The two locked parts of the last branch of [TtyINode::push]. *)
Definition push_back (self : TtyINode) (c : Z) : TtyINode := mkTty (foreground_pgid self) (buf self ++ [c]) (tty_bus self).
Definition set_readable (self : TtyINode) : TtyINode * list nat :=
  let '(b, ws) := EventBus.set (tty_bus self) READABLE in (mkTty (foreground_pgid self) (buf self) b, ws).

(** [TtyINode::pop]: the character and the tasks woken. *)
Definition pop (self : TtyINode) : outcome (Z * TtyINode * list nat) :=
  match buf self with
  | [] => Panic "called unwrap on a None value"
  | c :: rest =>
      if (length rest =? 0)%nat then
        let '(b, ws) := EventBus.clear (tty_bus self) READABLE in Ret (c, mkTty (foreground_pgid self) rest b, ws)
      else Ret (c, mkTty (foreground_pgid self) rest (tty_bus self), [])
  end.

(** [poll] *)
Definition tty_poll (self : TtyINode) : PollStatus := mkPoll (can_read self) true false.

(** [SerialFuture::poll]: [None] is [Pending]. *)
Definition serial_poll (self : TtyINode) (waker : nat) : option PollStatus * TtyINode :=
  if can_read self then (Some (tty_poll self), self)
  else (None, mkTty (foreground_pgid self) (buf self) (subscribe (tty_bus self) (OnAny waker))).

(** [write_at]: the bytes go to the console. *)
Definition tty_write_at (bytes : list Z) (console : list Z) : Z * list Z := (Z.of_nat (length bytes), console ++ bytes).

Definition tty_metadata {FT} (CharDevice : FT) (make_rdev : Z -> Z -> Z) : TtyMetadata FT :=
  mkTtyMeta 1 13 0 0 0 CharDevice 438 1 0 0 (make_rdev 5 0).

Section tty.
Context `{BuildMode} {V : Vfs} {X A F T : Type} `{UserCtx X}.
Abbreviation kernel := (Kernel X A F T).
Implicit Types (k : kernel) (self : TtyINode).

(** [read_at] into a buffer of [len] bytes. *)
Definition tty_read_at k self (len : Z) : outcome (result (list Z) FsError * kernel * TtyINode) :=
  if can_read self then
    x ← pop self;
    let '(c, self, ws) := x in
    _ ← assert_ (0 <? len) "index out of bounds";
    Ret (Ok [as_u8 c], wake k ws, self)
  else Ret (Err Again, k, self).

(** The characters that are not stored: interrupt, quit, suspend, delayed
    suspend. *)
Definition special : list Z := [3; 28; 26; 25].
Definition sigint : Siginfo := mkSiginfo 2 0 SI_KERNEL.

(** [TtyINode::push] *)
Definition tty_push k self (c : Z) : outcome (kernel * TtyINode) :=
  if bool_decide (c ∈ special) then
    let foreground_processes := process_group k (foreground_pgid self) in
    if c =? 3 then
      k ← foldM (fun k proc => send_signal k proc (-1) sigint) k foreground_processes; Ret (k, self)
    else Ret (k, self)
  else
    let '(self, ws) := set_readable (push_back self c) in Ret (wake k ws, self).
End tty.

(** ** One operation at a time *)

(** The bus says [READABLE] exactly when there is something to read, and no
    task waits for the terminal meanwhile. *)
Definition tty_inv (t : TtyINode) : Prop :=
  event (tty_bus t) = (if can_read t then READABLE else 0)
  /\ (can_read t = true -> callbacks (tty_bus t) = [])
  /\ Forall (fun f => exists w, f = OnAny w) (callbacks (tty_bus t)).

Lemma can_read_app t c : can_read (push_back t c) = true.
Proof. unfold can_read, push_back. cbn [buf]. rewrite length_app. apply Z.ltb_lt. cbn [length]. lia. Qed.

Lemma can_read_nil t : can_read t = false <-> buf t = [].
Proof. unfold can_read. destruct (buf t); cbn [length]; [done|]. rewrite Z.ltb_ge. split; [lia|done]. Qed.

(** A change drops and wakes every unconditional callback. *)
Lemma retain_any s l : Forall (fun f => exists w, f = OnAny w) l ->
  exists ws, retain s l = ([], ws) /\ forall w, OnAny w ∈ l -> w ∈ ws.
Proof.
  induction 1 as [|f l [w ->] _ (ws & IH & Hw)]; cbn.
  { exists []. split; [done|]. intros w Hw. by apply not_elem_of_nil in Hw. }
  rewrite IH. exists (w :: ws). split; [done|]. intros w' [[= ->]|Hin]%elem_of_cons; [by left|right; auto].
Qed.

(** Storing a character: the waiting tasks are woken. *)
Lemma set_readable_spec t c :
  tty_inv t ->
  let x := set_readable (push_back t c) in
  tty_inv x.1 /\ buf x.1 = buf t ++ [c] /\ foreground_pgid x.1 = foreground_pgid t
  /\ forall w, OnAny w ∈ callbacks (tty_bus t) -> w ∈ x.2.
Proof.
  intros (He & Hc & Hany). unfold set_readable, EventBus.set, change. cbn [tty_bus push_back]. rewrite He.
  destruct (can_read t) eqn:Hr; cbn -[retain].
  - split_and!; try done; [|rewrite Hc by done; intros w Hw; by apply not_elem_of_nil in Hw].
    unfold tty_inv. cbn [tty_bus event callbacks]. change (can_read _) with (can_read (push_back t c)). rewrite can_read_app.
    by split_and!.
  - match goal with |- context [retain ?s _] => destruct (retain_any s (callbacks (tty_bus t)) Hany) as (ws & -> & Hw) end. cbn. split_and!; try done.
    unfold tty_inv. cbn [tty_bus event callbacks]. change (can_read _) with (can_read (push_back t c)). rewrite can_read_app.
    by split_and!.
Qed.

Lemma pop_spec t c rest :
  tty_inv t -> buf t = c :: rest ->
  exists t' ws, pop t = Ret (c, t', ws) /\ buf t' = rest /\ tty_inv t' /\ foreground_pgid t' = foreground_pgid t.
Proof.
  intros (He & Hc & Hany) Hb. unfold pop. rewrite Hb.
  assert (Hr : can_read t = true) by (unfold can_read; rewrite Hb; apply Z.ltb_lt; cbn [length]; lia).
  rewrite Hr in He. destruct rest as [|c' rest].
  - cbn [length Nat.eqb]. unfold EventBus.clear, change. rewrite He, Hc by done. cbn.
    do 2 eexists. split_and!; try done.
  - cbn [length Nat.eqb]. do 2 eexists. split_and!; try done. unfold tty_inv. cbn [tty_bus buf].
    rewrite He, Hc by done. by split_and!.
Qed.

Lemma serial_poll_inv t w : tty_inv t -> tty_inv (serial_poll t w).2.
Proof.
  intros (He & Hc & Hany). unfold serial_poll. destruct (can_read t) eqn:Hr; cbn [snd]; [by split; rewrite ?Hr|].
  unfold tty_inv. cbn [tty_bus event callbacks subscribe]. change (can_read _) with (can_read t). rewrite Hr.
  split_and!; try done. apply Forall_app. split; [done|]. repeat constructor. by eexists.
Qed.

Section histories.
Context `{BuildMode} {V : Vfs} {X A F T : Type} `{UserCtx X}.
Abbreviation kernel := (Kernel X A F T).
Implicit Types (k : kernel) (t : TtyINode) (typed got : list Z).

(** The terminal in use: the kernel, the terminal, the characters typed that
    are not special, and the characters read. *)
Inductive tty_step : kernel * TtyINode * list Z * list Z -> kernel * TtyINode * list Z * list Z -> Prop :=
| step_push k t typed got c k' t' :
    is_u8 c -> tty_push k t c = Ret (k', t') ->
    tty_step (k, t, typed, got) (k', t', typed ++ (if bool_decide (c ∈ special) then [] else [c]), got)
| step_read k t typed got len bs k' t' :
    tty_read_at k t len = Ret (Ok bs, k', t') -> tty_step (k, t, typed, got) (k', t', typed, got ++ bs)
| step_again k t typed got len e k' t' :
    tty_read_at k t len = Ret (Err e, k', t') -> tty_step (k, t, typed, got) (k', t', typed, got)
| step_wait k t typed got w : tty_step (k, t, typed, got) (k, (serial_poll t w).2, typed, got)
| step_kernel k t typed got k' : tty_step (k, t, typed, got) (k', t, typed, got).

Definition history (σ : kernel * TtyINode * list Z * list Z) : Prop :=
  let '(k, t, typed, got) := σ in typed = got ++ buf t /\ tty_inv t /\ Forall is_u8 (buf t).

Lemma tty_step_history σ σ' : tty_step σ σ' -> history σ -> history σ'.
Proof.
  intros Hs Hh. destruct Hs as [k t typed got c k' t' Hc Hp|k t typed got len bs k' t' Hr|k t typed got len e k' t' Hr|k t typed got w|k t typed got k'];
    destruct Hh as (Ht & Hi & Hu).
  - unfold tty_push in Hp. destruct (bool_decide (c ∈ special)).
    + assert (t' = t) as ->.
      { destruct (c =? 3); [unbind Hp|]; by injection Hp. }
      rewrite app_nil_r. done.
    + destruct (set_readable_spec t c Hi) as (Hi' & Hb & _). destruct (set_readable (push_back t c)) as [t1 ws].
      injection Hp as <- <-. cbn [fst snd] in *. split_and!; [|done|rewrite Hb; apply Forall_app; split; [done|by apply Forall_singleton]].
      rewrite Hb, Ht. by rewrite app_assoc.
  - unfold tty_read_at in Hr. destruct (can_read t) eqn:Hcr; [|done]. destruct (buf t) as [|c rest] eqn:Hb; [by apply can_read_nil in Hb; congruence|].
    destruct (pop_spec t c rest Hi Hb) as (t1 & ws & Hpop & Hb1 & Hi1 & _). rewrite Hpop in Hr. cbn [mbind outcome_bind] in Hr.
    unbind Hr. injection Hr as <- <- <-. apply Forall_cons in Hu as [Hc Hu]. unfold as_u8. rewrite Z.mod_small by done.
    split_and!; [|done|by rewrite Hb1]. rewrite Ht, Hb1, <- app_assoc. done.
  - unfold tty_read_at in Hr. destruct (can_read t) eqn:Hcr; [|by injection Hr as _ <- <-].
    unbind Hr. destruct a as [[c t1] ws]. by unbind Hr.
  - split_and!; [|by apply serial_poll_inv|]; unfold serial_poll; by destruct (can_read t).
  - done.
Qed.

(** The terminal delivers what is typed: however keystrokes, reads, polls
    and the rest of the kernel interleave, the characters read so far
    followed by those in the buffer are the ones typed (other than the four
    special characters), each once and in order; the event bus shows
    [READABLE] exactly when the buffer is not empty, and no task is left
    waiting while it is not. *)
Theorem tty_fifo k0 k t typed got :
  rtc tty_step (k0, tty_default, [], []) (k, t, typed, got) -> typed = got ++ buf t /\ tty_inv t.
Proof.
  intros Hr. enough (history (k, t, typed, got)) as (? & ? & _) by done. revert Hr.
  generalize (k, t, typed, got) as σ'. assert (history (k0, tty_default, [], [])) as Hh by (split_and!; repeat constructor; done).
  revert Hh. generalize (k0, tty_default, [] : list Z, [] : list Z) as σ. intros σ Hh σ' Hr.
  induction Hr as [|σ1 σ2 σ3 Hs _ IH]; [done|]. by eapply IH, tty_step_history.
Qed.

(** ** Signals from the keyboard *)

Lemma send_signal_others k r target info k' r' :
  send_signal k r target info = Ret k' -> r' ≠ r -> procs k' !! r' = procs k !! r'.
Proof.
  intros Hs Hne. unfold send_signal in Hs. unbind Hs. unbind Hs. unbind Hs. destruct a1; [by injection Hs as <-|].
  unbind Hs. injection Hs as <-. rewrite (proj1 (set_event_procs _ _ _ _)). by rewrite lookup_insert_ne.
Qed.

(** A signal sent to each of a list of processes. *)
Lemma send_all_spec info s l : forall k,
  (forall r, In r l -> is_Some (procs k !! r)) -> (forall r p, procs k !! r = Some p -> sig_inv p) ->
  from_i32 (info_signo info) = Some s -> usable s ->
  exists k', foldM (fun k proc => send_signal k proc (-1) info) k l = Ret k'
    /\ (forall r, In r l -> exists p, procs k' !! r = Some p /\ member (pending_sigset p) s = true)
    /\ (forall r p, procs k' !! r = Some p -> sig_inv p)
    /\ (forall r, ~ In r l -> procs k' !! r = procs k !! r).
Proof.
  induction l as [|r l IH]; intros k Hex Hinv Hs Hu; cbn [foldM].
  { exists k. split_and!; try done. }
  destruct (Hex r) as [p Hp]; [by left|].
  destruct (send_signal_spec k r p (-1) info s Hp (Hinv _ _ Hp) Hs Hu) as (k1 & p1 & Hsend & Hp1 & Hi1 & Hm1 & _).
  pose proof (fun r' => send_signal_others k r (-1) info k1 r' Hsend) as Hoth. rewrite Hsend. cbn [mbind outcome_bind].
  destruct (IH k1) as (k' & Hf & Hall & Hinv' & Hrest); [| |done|done|].
  { intros r' Hr'. destruct (decide (r' = r)) as [->|Hne]; [by eexists|]. rewrite Hoth by done. apply Hex. by right. }
  { intros r' p' Hp'. destruct (decide (r' = r)) as [->|Hne]; [congruence|]. rewrite Hoth in Hp' by done. by eapply Hinv. }
  exists k'. split_and!; try done.
  - intros r' [<-|Hr']; [|by apply Hall]. destruct (in_dec Nat.eq_dec r l) as [Hin|Hn]; [by apply Hall|].
    exists p1. by rewrite Hrest.
  - intros r' Hn. rewrite Hrest by (intros ?; apply Hn; by right). apply Hoth. intros ->. apply Hn. by left.
Qed.

(** C31. Ctrl-C: pushing the interrupt character returns, sends [SIGINT] to
    every process of the foreground group and to no other, and stores
    nothing.  Afterwards the signal is pending in each of them. *)
Theorem ctrl_c_interrupts_group k t :
  (forall r p, procs k !! r = Some p -> sig_inv p) ->
  exists k', tty_push k t 3 = Ret (k', t)
    /\ (forall r, In r (process_group k (foreground_pgid t)) -> exists p, procs k' !! r = Some p /\ member (pending_sigset p) SIGINT = true)
    /\ (forall r, ~ In r (process_group k (foreground_pgid t)) -> procs k' !! r = procs k !! r)
    /\ (forall r p, procs k' !! r = Some p -> sig_inv p).
Proof.
  intros Hinv. unfold tty_push. rewrite bool_decide_eq_true_2 by (by left).
  destruct (send_all_spec sigint SIGINT (process_group k (foreground_pgid t)) k) as (k' & Hf & Hall & Hi & Hrest); [|done|done|right; discriminate|].
  - intros r Hr. unfold process_group in Hr. apply list_elem_of_In in Hr. apply list_elem_of_fmap in Hr as ([n r'] & -> & Hin).
    apply list_elem_of_In, filter_In in Hin as [_ Hp]. cbn [snd] in *. destruct (procs k !! r'); [by eexists|done].
  - change (3 =? 3) with true. cbn iota. rewrite Hf. cbn [mbind outcome_bind]. by exists k'.
Qed.
End histories.

(** ** Lock by lock

    [push] releases the lock of the buffer before it takes that of the bus,
    and [SerialFuture::poll] releases the lock of the buffer before it
    subscribes.  One reader task (waker 0) and the keyboard, each step what
    happens under one lock. *)
Inductive ReaderPc := Polling | Subscribing | Waiting | Reading.
Record Shared := mkShared { sh_tty : TtyINode; unset : nat; reader : ReaderPc }.

Definition after_wake (ws : list nat) (pc : ReaderPc) : ReaderPc := if bool_decide (0%nat ∈ ws) then Polling else pc.

Inductive lock_step : Shared -> Shared -> Prop :=
| lock_store t n pc c : lock_step (mkShared t n pc) (mkShared (push_back t c) (S n) pc)
| lock_set t n pc t' ws : set_readable t = (t', ws) -> lock_step (mkShared t (S n) pc) (mkShared t' n (after_wake ws pc))
| lock_empty t n : can_read t = false -> lock_step (mkShared t n Polling) (mkShared t n Subscribing)
| lock_some t n : can_read t = true -> lock_step (mkShared t n Polling) (mkShared t n Reading)
| lock_subscribe t n :
    lock_step (mkShared t n Subscribing)
      (mkShared (mkTty (foreground_pgid t) (buf t) (subscribe (tty_bus t) (OnAny 0))) n Waiting)
| lock_pop t n c t' ws : pop t = Ret (c, t', ws) -> lock_step (mkShared t n Reading) (mkShared t' n (after_wake ws Polling)).

(** A reader that waits while [READABLE] is set already waits for ever. *)
Lemma stuck_reader σ σ' :
  rtc lock_step σ σ' -> reader σ = Waiting -> event (tty_bus (sh_tty σ)) = READABLE ->
  reader σ' = Waiting /\ (length (buf (sh_tty σ)) <= length (buf (sh_tty σ')))%nat.
Proof.
  induction 1 as [|σ1 σ2 σ3 Hs _ IH]; intros Hr He; [done|].
  destruct Hs as [t n pc c|t n pc t' ws Hset|t n|t n|t n|t n c t' ws]; cbn [reader sh_tty] in *; try done.
  - destruct (IH Hr He) as [Hr' Hl]. split; [done|]. cbn [buf push_back] in Hl. rewrite length_app in Hl. lia.
  - unfold set_readable, EventBus.set, change in Hset. rewrite He in Hset. injection Hset as <- <-. cbn in IH. auto.
Qed.

(** Under interrupts a reader of the terminal can be left asleep: a
    character stored between the check and the subscription of
    [SerialFuture::poll] wakes nobody, and since [READABLE] is set from then
    on, no later character does either: the task never runs again although
    there is something to read. *)
Theorem tty_wakeup_lost :
  exists σ, rtc lock_step (mkShared tty_default 0 Polling) σ /\ buf (sh_tty σ) ≠ [] /\ unset σ = 0%nat
    /\ forall σ', rtc lock_step σ σ' -> reader σ' = Waiting /\ buf (sh_tty σ') ≠ [].
Proof.
  eexists. split; [|split; [|split]].
  - eapply rtc_l; [by apply lock_empty|]. eapply rtc_l; [by apply (lock_store _ _ _ 97)|].
    eapply rtc_l; [by apply lock_set|]. eapply rtc_l; [by apply lock_subscribe|apply rtc_refl].
  - done.
  - done.
  - intros σ' Hr. destruct (stuck_reader _ _ Hr) as [Hw Hl]; [done..|]. split; [done|]. cbn in Hl. intros E. rewrite E in Hl. cbn in Hl. lia.
Qed.

(** ** A session *)
Section concrete.
#[local] Existing Instance Mock.release.

(** Two characters are typed and one is read. *)
Definition typed_ab := set_readable (push_back (set_readable (push_back tty_default 97)).1 98).

Lemma tty_fifo_witness :
  exists t, rtc tty_step (kernel0, tty_default, [], []) (kernel0, t, [97; 98], [97]) /\ [97; 98] = [97] ++ buf t /\ tty_inv t.
Proof.
  eexists. assert (Hr : rtc tty_step (kernel0, tty_default, [], []) (kernel0, mkTty 0 [98] (tty_bus typed_ab.1), [97; 98], [97])).
  { eapply rtc_l; [by eapply (step_push _ _ _ _ 97)|]. eapply rtc_l; [by eapply (step_push _ _ _ _ 98)|].
    eapply rtc_l; [by eapply (step_read _ _ _ _ 16)|]. eapply rtc_l; [by apply step_kernel|apply rtc_refl]. }
  split; [exact Hr|]. exact (tty_fifo _ _ _ _ _ Hr).
Defined.

Lemma kernel0_sig_inv r p : procs kernel0 !! r = Some p -> sig_inv p.
Proof.
  cbn [procs kernel0]. rewrite lookup_insert_Some, lookup_singleton_Some. intros [[_ <-]|[_ [_ <-]]].
  all: split; [by constructor|]; by intros [].
Qed.

Lemma ctrl_c_interrupts_group_witness :
  exists k', tty_push kernel0 tty_default 3 = Ret (k', tty_default)
    /\ exists p, procs k' !! 1%nat = Some p /\ member (pending_sigset p) SIGINT = true.
Proof.
  destruct (ctrl_c_interrupts_group kernel0 tty_default kernel0_sig_inv) as (k' & Hk & Hall & _).
  exists k'. split; [exact Hk|]. apply Hall. vm_compute. auto.
Defined.
End concrete.
