(* ===== verification/Path.v ===== *)
(** * Paths ([syscall/fs.rs])

    The string processing of [split_path] and of [sys_chdir], and what it does
    to the components of a path. *)

From Stdlib Require Import Ascii.
From S2P Require Import Prelude.
#[local] Open Scope string_scope.

Definition slash : ascii := "/"%char.

(** [s.split("/")] *)
Fixpoint split (s : string) : list string :=
  match s with
  | "" => [""]
  | String c s =>
      if decide (c = slash) then "" :: split s
      else match split s with w :: ws => String c w :: ws | [] => [String c ""] end
  end.

(** [s.split("/").filter(|&x| x != "")] *)
Definition components (s : string) : list string := List.filter (fun x => negb (bool_decide (x = ""))) (split s).

(** The loop over the segments of the path: [cwd_vec] as a stack, last first. *)
Fixpoint resolve (rev_cwd : list string) (segs : list string) : list string :=
  match segs with
  | [] => rev_cwd
  | seg :: segs =>
      if decide (seg = "..") then resolve (tail rev_cwd) segs
      else if decide (seg = ".") then resolve rev_cwd segs
      else resolve (seg :: rev_cwd) segs
  end.

(** The new [cwd] is put together again. *)
Fixpoint join (segs : list string) : string :=
  match segs with
  | [] => ""
  | seg :: segs => "/" +:+ seg +:+ join segs
  end.

(** [path.as_bytes()[0] == b'/'] *)
Definition is_absolute (path : string) : bool :=
  match path with String c _ => bool_decide (c = slash) | "" => false end.

(** The directory [sys_chdir] moves to. *)
Definition change_cwd (cwd path : string) : string :=
  match path with
  | "" => cwd
  | _ =>
      let base := if is_absolute path then "/" else cwd in
      let s := join (rev (resolve (rev (components base)) (components path))) in
      if decide (s = "") then "/" else s
  end.

(** [s.trim_end_matches('/')] *)
Fixpoint trim_end (s : string) : string :=
  match s with
  | "" => ""
  | String c s' =>
      match trim_end s' with
      | "" => if decide (c = slash) then "" else String c ""
      | t => String c t
      end
  end.

(** [s.rsplitn(2, '/')]: what follows the last slash, and what precedes it. *)
Fixpoint rsplit (s : string) : option string * string :=
  match s with
  | "" => (None, "")
  | String c s =>
      match rsplit s with
      | (Some d, n) => (Some (String c d), n)
      | (None, n) => if decide (c = slash) then (Some "", n) else (None, String c n)
      end
  end.

(** [split_path] *)
Definition split_path (path : string) : string * string :=
  let '(d, name) := rsplit (trim_end path) in
  let dir := match d with Some d => d | None => "." end in
  (if decide (dir = "") then "/" else dir, name).

(** ** Components *)

Fixpoint no_slash (s : string) : bool :=
  match s with "" => true | String c s => negb (bool_decide (c = slash)) && no_slash s end.

(** A segment that can be a component. *)
Definition segment (s : string) : Prop := s ≠ "" /\ no_slash s = true.

Lemma append_cons c a b : String c a +:+ b = String c (a +:+ b).
Proof. done. Qed.
Lemma append_nil_l b : "" +:+ b = b.
Proof. done. Qed.
Lemma append_nil_r a : a +:+ "" = a.
Proof. induction a as [|c a IH]; [done|]. by rewrite append_cons, IH. Qed.

Lemma split_cons s : exists w ws, split s = w :: ws.
Proof.
  destruct s as [|c s]; cbn; [by exists "", []|]. destruct (decide (c = slash)); [eauto|].
  destruct (split s) as [|w ws]; eauto.
Qed.

Lemma split_no_slash s : Forall (fun w => no_slash w = true) (split s).
Proof.
  induction s as [|c s IH]; cbn; [by repeat constructor|].
  destruct (decide (c = slash)) as [|Hc]; [by constructor|].
  destruct (split s) as [|w ws].
  - repeat constructor. cbn. by rewrite bool_decide_false.
  - apply Forall_cons in IH as [Hw Hws]. constructor; [|done]. cbn. by rewrite bool_decide_false, Hw.
Qed.

Lemma split_one s : no_slash s = true -> split s = [s].
Proof.
  induction s as [|c s IH]; cbn; [done|]. intros Hn. apply andb_true_iff in Hn as [Hc Hn].
  apply negb_true_iff, bool_decide_eq_false in Hc. destruct (decide (c = slash)); [done|]. by rewrite IH.
Qed.

Lemma split_slash a b : split (a +:+ String slash b) = (split a ++ split b)%list.
Proof.
  induction a as [|c a IH]; [done|]. rewrite append_cons. cbn [split]. destruct (decide (c = slash)); [by rewrite IH|].
  rewrite IH. destruct (split_cons a) as (w & ws & ->). done.
Qed.

Lemma components_slash a b : components (a +:+ String slash b) = (components a ++ components b)%list.
Proof. unfold components. by rewrite split_slash, List.filter_app. Qed.

Lemma components_segments s : Forall segment (components s).
Proof.
  unfold components. pose proof (split_no_slash s) as Hs. rewrite List.Forall_forall in Hs |- *.
  intros w Hw. apply filter_In in Hw as [Hin Hw]. split; [|by apply Hs].
  apply negb_true_iff, bool_decide_eq_false in Hw. done.
Qed.

Lemma components_one s : segment s -> components s = [s].
Proof. intros [Hne Hn]. unfold components. rewrite split_one by done. cbn. by rewrite bool_decide_false. Qed.

Lemma split_join segs : forall s, no_slash s = true -> Forall segment segs -> split (s +:+ join segs) = s :: segs.
Proof.
  induction segs as [|t segs IH]; intros s Hs Hsegs; cbn [join].
  - rewrite append_nil_r. by apply split_one.
  - apply Forall_cons in Hsegs as [[Ht Hn] Hsegs]. change ("/" +:+ t +:+ join segs) with (String slash (t +:+ join segs)).
    rewrite split_slash, split_one, IH by done. done.
Qed.

(** Printing components and parsing them again. *)
Lemma components_join segs : Forall segment segs -> components (join segs) = segs.
Proof.
  intros Hs. destruct segs as [|t segs]; [done|]. apply Forall_cons in Hs as [[Ht Hn] Hs].
  change (join (t :: segs)) with ("" +:+ String slash (t +:+ join segs)). rewrite components_slash.
  change (components "") with (@nil string). unfold components. rewrite split_join by done.
  assert (Forall segment (t :: segs)) as Hall by by constructor. clear -Hall.
  induction Hall as [|w ws [Hw _] _ IH]; [done|]. cbn [List.filter]. rewrite bool_decide_false by done.
  cbn [negb app] in *. by rewrite IH.
Qed.

Definition plain (s : string) : Prop := s ≠ "." /\ s ≠ "..".

Lemma resolve_forall (P : string -> Prop) segs : forall rc,
  Forall P rc -> Forall (fun s => plain s -> P s) segs -> Forall P (resolve rc segs).
Proof.
  induction segs as [|s segs IH]; intros rc Hrc Hsegs; cbn; [done|]. apply Forall_cons in Hsegs as [Hs Hsegs].
  destruct (decide (s = "..")).
  - apply IH; [|done]. destruct Hrc; [constructor|done].
  - destruct (decide (s = ".")); [by apply IH|]. apply IH; [|done]. constructor; [|done]. by apply Hs.
Qed.

(** ** Trailing slashes and the last component *)

Fixpoint slashes (n : nat) : string := match n with O => "" | S n => String slash (slashes n) end.

Fixpoint ends_in_slash (s : string) : bool :=
  match s with
  | "" => false
  | String c s' => match s' with "" => bool_decide (c = slash) | _ => ends_in_slash s' end
  end.

Lemma trim_end_spec s : (exists n, s = trim_end s +:+ slashes n) /\ ends_in_slash (trim_end s) = false.
Proof.
  induction s as [|c s [(n & IH) IHe]]; [by split; [exists O|]|]. cbn [trim_end].
  destruct (trim_end s) as [|d t] eqn:Ht.
  - rewrite append_nil_l in IH. subst s. destruct (decide (c = slash)) as [->|Hc].
    + split; [|done]. by exists (S n).
    + split; [|cbn; by rewrite bool_decide_false]. by exists n.
  - split; [|done]. exists n. by rewrite append_cons, <- IH.
Qed.

Lemma components_slashes n : components (slashes n) = [].
Proof.
  induction n as [|n IH]; [done|]. change (slashes (S n)) with ("" +:+ String slash (slashes n)).
  by rewrite components_slash, IH.
Qed.

Lemma components_trim s : components (trim_end s) = components s.
Proof.
  destruct (trim_end_spec s) as [(n & Hs) _]. rewrite Hs at 2. destruct n as [|n].
  - cbn [slashes]. by rewrite append_nil_r.
  - change (slashes (S n)) with (String slash (slashes n)). by rewrite components_slash, components_slashes, app_nil_r.
Qed.

Lemma rsplit_spec s :
  match rsplit s with
  | (Some d, n) => s = d +:+ String slash n /\ no_slash n = true
  | (None, n) => s = n /\ no_slash n = true
  end.
Proof.
  induction s as [|c s IH]; cbn [rsplit]; [done|]. destruct (rsplit s) as [[d|] n]; destruct IH as [-> Hn].
  - by rewrite append_cons.
  - destruct (decide (c = slash)) as [->|Hc]; [done|]. split; [done|]. cbn. by rewrite bool_decide_false.
Qed.

Lemma ends_in_slash_app a b : b ≠ "" -> ends_in_slash (a +:+ b) = ends_in_slash b.
Proof.
  intros Hb. induction a as [|c a IH]; [done|]. rewrite append_cons. cbn [ends_in_slash].
  destruct (a +:+ b) eqn:E; [|done]. destruct a; [by rewrite append_nil_l in E|by rewrite append_cons in E].
Qed.

Lemma rsplit_last s d n : rsplit s = (d, n) -> ends_in_slash s = false -> s ≠ "" -> segment n.
Proof.
  intros Hr He Hs. pose proof (rsplit_spec s) as Hspec. rewrite Hr in Hspec.
  destruct d as [d|]; destruct Hspec as [-> Hn]; split; try done. intros ->.
  by rewrite ends_in_slash_app in He.
Qed.

(** ** The claims *)

(** A working directory as the kernel keeps it: it starts with a slash, and
    none of its components is [.] or [..]. *)
Definition cwd_ok (cwd : string) : Prop := is_absolute cwd = true /\ Forall plain (components cwd).

Lemma join_absolute segs : segs ≠ [] -> is_absolute (join segs) = true.
Proof. by destruct segs. Qed.

Lemma change_cwd_unfold cwd path : path ≠ "" ->
  change_cwd cwd path =
  let s := join (rev (resolve (rev (components (if is_absolute path then "/" else cwd))) (components path))) in
  if decide (s = "") then "/" else s.
Proof. by destruct path. Qed.

Lemma change_cwd_components cwd path : path ≠ "" ->
  components (change_cwd cwd path) =
  rev (resolve (rev (components (if is_absolute path then "/" else cwd))) (components path)).
Proof.
  intros Hp. unfold change_cwd. destruct path as [|c path]; [done|]. set (base := if is_absolute _ then _ else _).
  set (segs := rev (resolve (rev (components base)) (components (String c path)))).
  assert (Forall segment segs) as Hs.
  { apply Forall_rev, resolve_forall; [apply Forall_rev, components_segments|].
    eapply Forall_impl; [apply components_segments|]. done. }
  destruct (decide (join segs = "")) as [E|]; [|by apply components_join]. by destruct segs.
Qed.

Lemma resolve_app a b : forall rc, resolve rc (a ++ b)%list = resolve (resolve rc a) b.
Proof. induction a as [|s a IH]; intros rc; cbn; [done|]. repeat case_decide; apply IH. Qed.

Lemma is_absolute_app a b : a ≠ "" -> is_absolute (a +:+ b) = is_absolute a.
Proof. by destruct a. Qed.

(** [sys_chdir] keeps the working directory absolute and free of [.]
    and [..] components, and following two relative steps is following the
    concatenated path: [chdir(p); chdir(q)] ends where [chdir(p/q)] does.  An
    absolute path leads to the same place from everywhere. *)
Theorem chdir_normalises cwd p q : cwd_ok cwd -> p ≠ "" -> q ≠ "" -> is_absolute q = false ->
  cwd_ok (change_cwd cwd p) /\
  change_cwd (change_cwd cwd p) q = change_cwd cwd (p +:+ "/" +:+ q) /\
  (is_absolute p = true -> forall cwd', change_cwd cwd' p = change_cwd cwd p).
Proof.
  intros [Ha Hc] Hp Hq Hrel. pose proof (change_cwd_components cwd p Hp) as Hcomp. split_and!.
  - split.
    + unfold change_cwd. destruct p as [|c p]; [done|]. case_decide as E; [done|].
      apply join_absolute. intros E'. by rewrite E' in E.
    + rewrite Hcomp. apply Forall_rev, resolve_forall.
      * apply Forall_rev. by destruct (is_absolute p); [constructor|].
      * by apply Forall_true.
  - assert (p +:+ String slash q ≠ "") as Hpq by by destruct p.
    change ("/" +:+ q) with (String slash q).
    rewrite (change_cwd_unfold (change_cwd cwd p) q), (change_cwd_unfold cwd (p +:+ _)) by done.
    rewrite Hrel, Hcomp, rev_involutive. by rewrite is_absolute_app, components_slash, resolve_app.
  - intros Habs cwd'. rewrite !change_cwd_unfold by done. by rewrite Habs.
Qed.

Lemma chdir_normalises_witness :
  change_cwd (change_cwd "/usr/lib" "../share//") "./doc/../man" = "/usr/share/man".
Proof.
  assert (cwd_ok "/usr/lib") as Hc by (split; [reflexivity|]; repeat constructor; intros E; discriminate E).
  assert ("../share//" ≠ "" /\ "./doc/../man" ≠ "") as [Hp Hq] by (split; discriminate).
  etransitivity; [exact (proj1 (proj2 (chdir_normalises _ _ _ Hc Hp Hq eq_refl)))|]. vm_compute. reflexivity.
Defined.

(** [split_path] takes the last component off a path that has one:
    the name is that component, the directory names the ones before it, and the
    directory is relative exactly when the path is. *)
Theorem split_path_last path dir name : split_path path = (dir, name) -> components path ≠ [] ->
  segment name /\ (dir = "." /\ components path = [name] \/ components path = (components dir ++ [name])%list) /\
  is_absolute dir = is_absolute path.
Proof.
  unfold split_path. intros Hsp Hne. destruct (rsplit (trim_end path)) as [d n] eqn:Hr.
  destruct (trim_end_spec path) as [(k & Hk) He].
  assert (trim_end path ≠ "") as Ht. { intros E. rewrite <- components_trim, E in Hne. done. }
  pose proof (rsplit_last _ _ _ Hr He Ht) as Hseg. pose proof (rsplit_spec (trim_end path)) as Hspec.
  rewrite Hr in Hspec. destruct d as [d|]; destruct Hspec as [Htr Hn].
  - assert (components path = (components d ++ [n])%list) as Hcomp
      by (by rewrite <- components_trim, Htr, components_slash, (components_one n)).
    assert (is_absolute path = is_absolute (d +:+ String slash n)) as Habs by (rewrite Hk, Htr; by destruct d).
    rewrite Habs. destruct (decide (d = "")) as [->|Hd]; simplify_eq; (split; [done|]).
    + split; [by right|done].
    + split; [by right|]. by destruct dir.
  - simplify_eq. split; [done|]. split.
    + left. split; [done|]. rewrite <- components_trim. by apply components_one.
    + rewrite Hk. destruct Hseg as [Hs Hns]. destruct (trim_end path) as [|c t]; [done|].
      rewrite append_cons. cbn in Hns |- *. by destruct (bool_decide (c = slash)).
Qed.

Lemma split_path_last_witness : split_path "/etc//passwd/" = ("/etc/", "passwd") /\ segment "passwd".
Proof.
  assert (split_path "/etc//passwd/" = ("/etc/", "passwd")) as H by reflexivity.
  assert (components "/etc//passwd/" ≠ []) as Hc by discriminate.
  exact (conj H (proj1 (split_path_last _ _ _ H Hc))).
Defined.
