(* ===== verification/SysFs.v ===== *)
(** * File system calls ([syscall/fs.rs], [syscall/time.rs], [utils.rs])

    The handlers of the file system calls on the kernel state, in the monad of
    [SysProcess].  The file system is the interface [Vfs]; the bits of the
    external flag types are the interface [SysFlags]. *)

From Stdlib Require Import Ascii.
From S2P Require Import Prelude BTree Paging Handler Mock MemorySet Signal EventBus Files Process UserMemory MemoryTheorems ProcessTheorems SysProcess Path.
Import Addr Frames Table.

(** The constants and bit tests of [queen_syscall::flags] (an external crate). *)
Class SysFlags := {
  AT_FDCWD : Z;
  of_create : Z -> bool; of_exclusive : Z -> bool; of_truncate : Z -> bool; of_cloexec : Z -> bool;
  of_readable : Z -> bool; of_writable : Z -> bool; of_append : Z -> bool;
  at_symlink_nofollow : Z -> bool;
}.

(** What a call reads of the machine: the bytes of user memory by address space
    and address (when the call is made; calls read it before they write), and
    the data register of the real-time clock, if the driver was set up. *)
Class Machine := { user_mem : nat -> gmap Z Z; rtc : option Z }.

Definition FOLLOW_MAX_DEPTH : Z := 3.

(** [drivers::read_epoch] *)
Definition read_epoch `{M : Machine} : TimeSpec := match rtc with Some dr => mkTime (as_i64 dr) 0 | None => mkTime 0 0 end.

(** The search of [from_cstr] for the zero byte: a byte that is not mapped
    faults in the kernel, so [size m + 1] turns are enough. *)
Fixpoint cstr_loop (fuel : nat) (m : gmap Z Z) (addr : Z) : outcome string :=
  match fuel with
  | O => Panic "unreachable"
  | S fuel =>
      match m !! addr with
      | None => Panic "data abort"
      | Some b => if b =? 0 then Ret "" else s ← cstr_loop fuel m (addr + 1); Ret (String (ascii_of_N (Z.to_N b)) s)
      end
  end.

(** [from_cstr] *)
Definition from_cstr `{M : Machine} (v : nat) (s : Z) : outcome string := cstr_loop (S (size (user_mem v))) (user_mem v) s.

(** The bytes of a slice of user memory; a byte that is not mapped faults. *)
Fixpoint load_bytes (m : gmap Z Z) (n : nat) (addr : Z) : outcome (list Z) :=
  match n with
  | O => Ret []
  | S n => match m !! addr with
           | Some b => bs ← load_bytes m n (addr + 1); Ret (b :: bs)
           | None => Panic "data abort"
           end
  end.

Section calls.
Context `{BuildMode} {V : Vfs} `{SE : !SysErrors} {X E A F T : Type} `{UserCtx X}.
Context `{EI : Entry E, FI : FrameAllocator A, PI : !PageTable E A T, RI : Read F}.
Context `{SF : SysFlags, M : Machine}.
Abbreviation sys := (sysM X A F T).
Implicit Types (t : nat) (fd : Z).

(** Operations on the open files, with [?] on their [FsError]. *)
Definition fs_result {R} (r : result R FsError) : sys R := match r with Ok x => mret x | Err e => throw (from_fs e) end.
Definition on_files {R} (m : FileWorld -> outcome (R * FileWorld)) : sys R :=
  k ← get_kernel; x ← lift (m (open_files k)); _ ← put_kernel (with_open_files k x.2); mret x.1.
Definition on_file {R} (m : FileWorld -> outcome (result R FsError * FileWorld)) : sys R :=
  r ← on_files m; fs_result r.

(** Operations of the trait [INode]. *)
Definition on_inode {R} (m : FsState -> result R FsError * FsState) : sys (result R FsError) :=
  on_files (fun w => let '(r, s) := m (fs w) in Ret (r, with_fs w s)).
Definition ask_inode {R} (m : FsState -> result R FsError) : sys (result R FsError) := on_inode (fun s => (m s, s)).
Definition update_time (i : INode) (now : TimeSpec) : sys unit :=
  on_files (fun w => Ret (tt, with_fs w (i_update_time (fs w) i now))).

(** Reading and writing user memory. *)
Definition user_vm t : sys nat := th ← self_thread t; mret (t_vm th).
Definition user_cstr t (ptr : Z) : sys string := v ← user_vm t; lift (from_cstr v ptr).
Definition user_slice t (ptr len : Z) : sys (list Z) :=
  v ← user_vm t; lift (load_bytes (user_mem v) (Z.to_nat len) ptr).
Definition put_stores (l : list (nat * Z * Z)) : sys unit := fun s => Ret (Ok tt, mkSys (kern s) (exiting s) (stores s ++ l)).
Definition store_bytes t (ptr : Z) (bytes : list Z) : sys unit :=
  v ← user_vm t; put_stores (imap (fun i b => (v, ptr + Z.of_nat i, b)) bytes).

(** [write_cstr] *)
Definition write_cstr t (ptr : Z) (s : string) : sys unit := store_bytes t ptr (bytes_of s ++ [0]).

(** [Process::get_file], [Process::get_file_mut] *)
Definition get_file t fd : sys FileHandle :=
  p ← self_process t; match files p !! fd with Some h => mret h | None => throw EBADF end.

(** [Process::lookup_inode_at], [Process::lookup_inode] *)
Definition lookup_inode_at t (dir_fd : Z) (path : string) (follow : bool) : sys INode :=
  let follow_max_depth := if follow then FOLLOW_MAX_DEPTH else 0 in
  if dir_fd =? AT_FDCWD then
    p ← self_process t;
    root ← lift root_inode;
    r ← ask_inode (fun s => i_lookup s root (cwd p)); d ← fs_result r;
    r ← ask_inode (fun s => i_lookup_follow s d path follow_max_depth); fs_result r
  else
    h ← get_file t dir_fd; on_file (lookup_follow h path follow_max_depth).
Definition lookup_inode t (path : string) : sys INode := lookup_inode_at t AT_FDCWD path true.

(** [MemorySet::check_read_array], [check_write_array] for a byte buffer, with [?]. *)
Definition checked_read t (base len : Z) : sys (list Z) :=
  ms ← self_vm t; r ← lift (check_read_array 1 ms base len); b ← try_vm r; user_slice t b.1 b.2.
Definition checked_write t (base len : Z) : sys (Z * Z) :=
  ms ← self_vm t; r ← lift (check_write_array 1 ms base len); try_vm r.

(** What [sys_read] does with the result of a turn of [FileHandle::read]:
    [None] while it waits. *)
Definition read_done t (base : Z) (r : option (result (list Z) FsError)) : sys (option Z) :=
  match r with
  | None => mret None
  | Some r => bytes ← fs_result r; _ ← store_bytes t base bytes; mret (Some (Z.of_nat (length bytes)))
  end.

(** [Syscall::sys_read] up to the first wait, and a turn after a wait that
    began at offset [off]; the process lock is held all along. *)
Definition sys_read t fd (base len : Z) : sys (option Z) :=
  _ ← self_process t;
  b ← checked_write t base len;
  h ← get_file t fd;
  r ← on_files (read h b.2);
  read_done t b.1 r.
Definition sys_read_resume t fd (off base len : Z) : sys (option Z) :=
  h ← get_file t fd; r ← on_files (read_resume h off len); read_done t base r.

(** [Syscall::sys_write] *)
Definition sys_write t fd (base len : Z) : sys Z :=
  _ ← self_process t;
  buf ← checked_read t base len;
  h ← get_file t fd;
  on_file (write h buf).

(** [Syscall::sys_pread] up to the first wait *)
Definition sys_pread t fd (base len pos : Z) : sys (option Z) :=
  _ ← self_process t;
  b ← checked_write t base len;
  h ← get_file t fd;
  r ← on_files (read_at h pos b.2);
  read_done t b.1 r.

(** [Syscall::sys_pwrite] *)
Definition sys_pwrite t fd (base len pos : Z) : sys Z :=
  _ ← self_process t;
  buf ← checked_read t base len;
  h ← get_file t fd;
  on_file (write_at h pos buf).

(** [From<OpenFlags> for OpenOptions] *)
Definition open_options (flags : Z) : OpenOptions := mkOptions (of_readable flags) (of_writable flags) (of_append flags).

(** The part of [sys_open_at] under [OpenFlags::CREATE]. *)
Definition open_create t (dir_fd : Z) (path : string) (flags mode : Z) : sys INode :=
  let '(dir_path, file_name) := split_path path in
  dir_inode ← lookup_inode_at t dir_fd dir_path true;
  r ← ask_inode (fun s => i_find s dir_inode file_name);
  match r with
  | Ok file_inode =>
      if of_exclusive flags then throw EEXIST
      else
        _ ← (if of_truncate flags then _ ← on_inode (fun s => i_resize s file_inode 0); mret tt else mret tt);
        mret file_inode
  | Err e =>
      if decide (e = EntryNotFound) then
        r ← on_inode (fun s => i_create s dir_inode file_name RegularFile (as_u32 mode));
        inode ← fs_result r;
        let now := read_epoch in
        _ ← update_time inode now; _ ← update_time dir_inode now;
        mret inode
      else throw (from_fs e)
  end.

(** [Syscall::sys_open_at], [Syscall::sys_open] *)
Definition sys_open_at t (dir_fd path flags mode : Z) : sys Z :=
  _ ← self_process t;
  path ← user_cstr t path;
  inode ← (if of_create flags then open_create t dir_fd path flags mode else lookup_inode_at t dir_fd path true);
  file ← on_files (fun w => Ret (handle_new inode (open_options flags) path (of_cloexec flags) w));
  p ← self_process t;
  x ← lift (add_file p file);
  _ ← put_self t x.2;
  mret x.1.
Definition sys_open t (path flags mode : Z) : sys Z := sys_open_at t AT_FDCWD path flags mode.

(** [Syscall::sys_close] *)
Definition sys_close t fd : sys Z :=
  p ← self_process t;
  match files p !! fd with
  | Some _ => _ ← put_self t (with_files p (delete fd (files p))); mret 0
  | None => throw EBADF
  end.

(** [Syscall::sys_faccess_at], [Syscall::sys_access] *)
Definition sys_faccess_at t (dir_fd path mode flags : Z) : sys Z :=
  path ← user_cstr t path;
  _ ← lookup_inode_at t dir_fd path (negb (at_symlink_nofollow flags));
  mret 0.
Definition sys_access t (path mode : Z) : sys Z := sys_faccess_at t AT_FDCWD path mode 0.

(** [Syscall::sys_get_cwd] *)
Definition sys_get_cwd t (buf len : Z) : sys Z :=
  p ← self_process t;
  n ← lift (uadd (Z.of_nat (String.length (cwd p))) 1);
  if len <? n then throw ERANGE
  else _ ← write_cstr t buf (cwd p); mret buf.

(** [Syscall::sys_read_link_at], [Syscall::sys_read_link] *)
Definition sys_read_link_at t (dir_fd path base len : Z) : sys Z :=
  path ← user_cstr t path;
  b ← checked_write t base len;
  inode ← lookup_inode_at t dir_fd path false;
  r ← ask_inode (fun s => i_metadata s inode); m ← fs_result r;
  if decide (md_type m = SymLink) then
    r ← on_inode (fun s => i_read_at s inode 0 b.2); bytes ← fs_result r;
    _ ← store_bytes t b.1 bytes;
    mret (Z.of_nat (length bytes))
  else throw EINVAL.
Definition sys_read_link t (path base len : Z) : sys Z := sys_read_link_at t AT_FDCWD path base len.

(** The [match] of [sys_lseek].  [SEEK_SET], [SEEK_END] and [SEEK_CUR] name no
    constant that is in scope, so the first pattern is a variable and matches
    every [whence]; the other arms are never reached. *)
Definition seek_from (offset whence : Z) : SeekFrom := Start (as_u64 offset).

(** [Syscall::sys_lseek] *)
Definition sys_lseek t fd (offset whence : Z) : sys Z :=
  let pos := seek_from offset whence in
  h ← get_file t fd;
  on_file (seek h pos).

(** [Syscall::sys_fsync], [Syscall::sys_fdata_sync] *)
Definition sys_fsync t fd : sys Z := h ← get_file t fd; _ ← on_file (sync_all h); mret 0.
Definition sys_fdata_sync t fd : sys Z := h ← get_file t fd; _ ← on_file (sync_data h); mret 0.

(** [Syscall::sys_sync] *)
Definition sys_sync `{VP : !VfsPoll} (t : nat) : sys Z :=
  root ← lift root_inode;
  r ← on_inode (fun s => fs_sync s root); _ ← fs_result r;
  mret 0.

(** [Syscall::sys_truncate], [Syscall::sys_ftruncate] *)
Definition sys_truncate t (path len : Z) : sys Z :=
  path ← user_cstr t path;
  i ← lookup_inode t path;
  r ← on_inode (fun s => i_resize s i len); _ ← fs_result r;
  mret 0.
Definition sys_ftruncate t fd (len : Z) : sys Z := h ← get_file t fd; _ ← on_file (set_len h len); mret 0.

(** [Syscall::sys_dup3], [Syscall::sys_dup2] *)
Definition sys_dup3 t (fd1 fd2 flags : Z) : sys Z :=
  p ← self_process t;
  _ ← put_self t (with_files p (delete fd2 (files p)));
  file ← get_file t fd1;
  p ← self_process t;
  _ ← put_self t (with_files p (<[fd2 := dup file (negb (flags =? 0))]> (files p)));
  mret fd2.
Definition sys_dup2 t (fd1 fd2 : Z) : sys Z := sys_dup3 t fd1 fd2 0.

(** [Syscall::sys_chdir] *)
Definition sys_chdir t (path : Z) : sys Z :=
  path ← user_cstr t path;
  inode ← lookup_inode t path;
  r ← ask_inode (fun s => i_metadata s inode); info ← fs_result r;
  if decide (md_type info = Dir) then
    p ← self_process t;
    _ ← put_self t (with_cwd p (change_cwd (cwd p) path));
    mret 0
  else throw ENOTDIR.

(** [Syscall::sys_rename_at], [Syscall::sys_rename] *)
Definition sys_rename_at t (old_dir_fd old_path new_dir_fd new_path : Z) : sys Z :=
  old_path ← user_cstr t old_path;
  new_path ← user_cstr t new_path;
  let '(old_dir_path, old_file_name) := split_path old_path in
  let '(new_dir_path, new_file_name) := split_path new_path in
  old_dir_inode ← lookup_inode_at t old_dir_fd old_dir_path false;
  new_dir_inode ← lookup_inode_at t new_dir_fd new_dir_path false;
  r ← on_inode (fun s => i_move s old_dir_inode old_file_name new_dir_inode new_file_name); _ ← fs_result r;
  mret 0.
Definition sys_rename t (old_path new_path : Z) : sys Z := sys_rename_at t AT_FDCWD old_path AT_FDCWD new_path.

(** [Syscall::sys_mkdir_at], [Syscall::sys_mkdir] *)
Definition sys_mkdir_at t (dir_fd path mode : Z) : sys Z :=
  path ← user_cstr t path;
  let '(dir_path, file_name) := split_path path in
  dir_inode ← lookup_inode_at t dir_fd dir_path true;
  r ← ask_inode (fun s => i_find s dir_inode file_name);
  match r with
  | Ok _ => throw EEXIST
  | Err _ =>
      r ← on_inode (fun s => i_create s dir_inode file_name Dir (as_u32 mode)); inode ← fs_result r;
      let now := read_epoch in
      _ ← update_time inode now; _ ← update_time dir_inode now;
      mret 0
  end.
Definition sys_mkdir t (path mode : Z) : sys Z := sys_mkdir_at t AT_FDCWD path mode.

(** [Syscall::sys_rmdir] *)
Definition sys_rmdir t (path : Z) : sys Z :=
  path ← user_cstr t path;
  let '(dir_path, file_name) := split_path path in
  dir_inode ← lookup_inode t dir_path;
  r ← ask_inode (fun s => i_find s dir_inode file_name); file_inode ← fs_result r;
  r ← ask_inode (fun s => i_metadata s file_inode); m ← fs_result r;
  if decide (md_type m = Dir) then
    r ← on_inode (fun s => i_unlink s dir_inode file_name); _ ← fs_result r; mret 0
  else throw ENOTDIR.

(** [Syscall::sys_link_at], [Syscall::sys_link] *)
Definition sys_link_at t (old_dir_fd old_path new_dir_fd new_path flags : Z) : sys Z :=
  old_path ← user_cstr t old_path;
  new_path ← user_cstr t new_path;
  let '(new_dir_path, new_file_name) := split_path new_path in
  inode ← lookup_inode_at t old_dir_fd old_path true;
  new_dir_inode ← lookup_inode_at t new_dir_fd new_dir_path true;
  r ← on_inode (fun s => i_link s new_dir_inode new_file_name inode); _ ← fs_result r;
  mret 0.
Definition sys_link t (old_path new_path : Z) : sys Z := sys_link_at t AT_FDCWD old_path AT_FDCWD new_path 0.

(** [Syscall::sys_symlink_at], [Syscall::sys_symlink] *)
Definition sys_symlink_at t (target new_dir_fd link_path : Z) : sys Z :=
  target ← user_cstr t target;
  link_path ← user_cstr t link_path;
  let '(dir_path, filename) := split_path link_path in
  dir_inode ← lookup_inode_at t new_dir_fd dir_path true;
  r ← ask_inode (fun s => i_find s dir_inode filename);
  match r with
  | Ok _ => throw EEXIST
  | Err e =>
      if decide (e = EntryNotFound) then
        r ← on_inode (fun s => i_create s dir_inode filename SymLink 511); symlink ← fs_result r;
        r ← on_inode (fun s => i_write_at s symlink 0 (bytes_of target)); _ ← fs_result r;
        let now := read_epoch in
        _ ← update_time symlink now; _ ← update_time dir_inode now;
        mret 0
      else throw (from_fs e)
  end.
Definition sys_symlink t (target link_path : Z) : sys Z := sys_symlink_at t target AT_FDCWD link_path.

(** [Syscall::sys_unlink_at], [Syscall::sys_unlink] *)
Definition sys_unlink_at t (dirfd path flags : Z) : sys Z :=
  path ← user_cstr t path;
  let '(dir_path, file_name) := split_path path in
  dir_inode ← lookup_inode_at t dirfd dir_path true;
  r ← ask_inode (fun s => i_find s dir_inode file_name); file_inode ← fs_result r;
  r ← ask_inode (fun s => i_metadata s file_inode); m ← fs_result r;
  if decide (md_type m = Dir) then throw EISDIR
  else r ← on_inode (fun s => i_unlink s dir_inode file_name); _ ← fs_result r; mret 0.
Definition sys_unlink t (path : Z) : sys Z := sys_unlink_at t AT_FDCWD path 0.

(** [Syscall::sys_clock_get_time]: the two words of the [TimeSpec]. *)
Definition sys_clock_get_time t (clock ts : Z) : sys Z :=
  v ← user_vm t;
  _ ← store v ts (secs read_epoch);
  _ ← store v (ts + 8) (nsecs read_epoch);
  mret 0.
End calls.

(** ** Strings in memory *)

(** The stores of a call to one address space, applied to its memory, and the
    machine after a call. *)
Definition poke (v : nat) (m : gmap Z Z) (l : list (nat * Z * Z)) : gmap Z Z :=
  foldl (fun m x => if decide (x.1.1 = v) then <[x.1.2 := x.2]> m else m) m l.
Definition machine_after `{M : Machine} {V : Vfs} {X A F T : Type} (s : SysState X A F T) : Machine :=
  {| user_mem v := poke v (user_mem v) (stores s); rtc := rtc |}.

Lemma poke_bytes v bytes : forall m ptr a,
  poke v m (imap (fun i b => (v, ptr + Z.of_nat i, b)) bytes) !! a =
  if decide (ptr <= a < ptr + Z.of_nat (length bytes)) then bytes !! Z.to_nat (a - ptr) else m !! a.
Proof.
  induction bytes as [|b bytes IH]; intros m ptr a; cbn [imap length].
  { rewrite decide_False by (cbn; lia). done. }
  unfold poke in *. cbn [foldl fst snd]. rewrite decide_True by done. rewrite Z.add_0_r.
  rewrite (imap_ext _ (fun i b => (v, (ptr + 1) + Z.of_nat i, b))) by (intros; cbn; do 2 f_equal; lia).
  rewrite IH. destruct (decide (a = ptr)) as [->|Hne].
  - rewrite decide_False, decide_True by lia. rewrite lookup_insert_eq. by replace (Z.to_nat _) with 0%nat by lia.
  - rewrite lookup_insert_ne by done. do 2 case_decide; try lia; [|done].
    by replace (Z.to_nat (a - ptr)) with (S (Z.to_nat (a - (ptr + 1)))) by lia.
Qed.

(** A zero-terminated string in memory is read back. *)
Lemma cstr_loop_reads s : no_nul s -> forall fuel m a,
  (forall i : nat, (i <= String.length s)%nat -> m !! (a + Z.of_nat i) = (bytes_of s ++ [0]) !! i) ->
  (String.length s < fuel)%nat -> cstr_loop fuel m a = Ret s.
Proof.
  unfold no_nul. induction s as [|c s IH]; intros Hn fuel m a Hm Hf; (destruct fuel as [|fuel]; [cbn in Hf; lia|]); cbn [cstr_loop].
  - specialize (Hm 0%nat ltac:(cbn; lia)). rewrite Z.add_0_r in Hm. by rewrite Hm.
  - pose proof (Hm 0%nat ltac:(lia)) as H0. rewrite Z.add_0_r in H0. cbn in H0. rewrite H0.
    cbn [bytes_of] in Hn. apply Forall_cons in Hn as [Hc Hn]. rewrite (proj2 (Z.eqb_neq _ _)) by done.
    rewrite (IH Hn).
    + sret. by rewrite N2Z.id, ascii_N_embedding.
    + intros i Hi. transitivity (m !! (a + Z.of_nat (S i))); [f_equal; lia|]. apply (Hm (S i)). cbn. lia.
    + cbn in Hf. lia.
Qed.

(** The fuel of [from_cstr] is enough for every string that memory holds. *)
Lemma range_size (m : gmap Z Z) a n :
  (forall i : nat, (i < n)%nat -> is_Some (m !! (a + Z.of_nat i))) -> (n <= size m)%nat.
Proof.
  intros Hm. set (keys := (fun i => a + Z.of_nat i) <$> seq 0 n).
  assert (NoDup keys) as Hnd by (apply NoDup_fmap_2; [intros i j Hij; lia|apply NoDup_seq]).
  assert (list_to_set keys ⊆ dom m) as Hsub.
  { intros x Hx. apply elem_of_list_to_set, list_elem_of_fmap in Hx as (i & -> & Hi).
    apply elem_of_dom, Hm. apply elem_of_seq in Hi. lia. }
  apply subseteq_size in Hsub. rewrite size_list_to_set, size_dom in Hsub by done.
  unfold keys in Hsub. by rewrite length_fmap, length_seq in Hsub.
Qed.

Lemma from_cstr_reads `{M : Machine} v s a : no_nul s ->
  (forall i : nat, (i <= String.length s)%nat -> user_mem v !! (a + Z.of_nat i) = (bytes_of s ++ [0]) !! i) ->
  from_cstr v a = Ret s.
Proof.
  intros Hn Hm. unfold from_cstr. apply cstr_loop_reads; [done..|]. apply Nat.lt_succ_r.
  etransitivity; [|apply (range_size _ a (S (String.length s)))]; [lia|].
  intros i Hi. rewrite Hm by lia. apply lookup_lt_is_Some. rewrite length_app, bytes_length. cbn. lia.
Qed.

(** ** The calls *)
Section lemmas.
Context `{BuildMode} {V : Vfs} `{SE : !SysErrors} {X E A F T : Type} `{UserCtx X}.
Context `{EI : Entry E, FI : FrameAllocator A, PI : !PageTable E A T, RI : Read F}.
Context `{SF : SysFlags, M : Machine}.
Implicit Types (s : SysState X A F T) (k : Kernel X A F T) (p : Process V).

(** The call changes only the descriptors of the calling process. *)
Definition with_fds s (th : Thread X) p (m : gmap Z FileHandle) : SysState X A F T :=
  mkSys (put_proc (kern s) (process th) (with_files p m)) (exiting s) (stores s).

Lemma get_file_ok t s th p fd : thrds (kern s) !! t = Some th -> procs (kern s) !! process th = Some p ->
  get_file t fd s = match files p !! fd with Some h => Ret (Ok h, s) | None => Ret (Err EBADF, s) end.
Proof.
  intros Ht Hp. unfold get_file. rewrite (after (self_process_ok t s th p Ht Hp)).
  by destruct (files p !! fd).
Qed.

Lemma with_fds_files s th p m m' : with_fds (with_fds s th p m) th (with_files p m) m' = with_fds s th p m'.
Proof. unfold with_fds, put_proc, with_procs. cbn. by rewrite insert_insert_eq. Qed.

Lemma with_fds_thread s th p m t : thrds (kern (with_fds s th p m)) !! t = thrds (kern s) !! t.
Proof. done. Qed.

Lemma with_fds_proc s th p m : procs (kern (with_fds s th p m)) !! process th = Some (with_files p m).
Proof. apply lookup_insert_eq. Qed.

Lemma sys_dup3_ok t s th p fd1 fd2 flags :
  thrds (kern s) !! t = Some th -> procs (kern s) !! process th = Some p ->
  sys_dup3 t fd1 fd2 flags s =
  match delete fd2 (files p) !! fd1 with
  | None => Ret (Err EBADF, with_fds s th p (delete fd2 (files p)))
  | Some h => Ret (Ok fd2, with_fds s th p (<[fd2 := dup h (negb (flags =? 0))]> (files p)))
  end.
Proof.
  intros Ht Hp. unfold sys_dup3. rewrite (after (self_process_ok t s th p Ht Hp)).
  rewrite (after (put_self_ok t s th _ Ht)).
  fold (with_fds s th p (delete fd2 (files p))). set (s1 := with_fds s th p _).
  pose proof (with_fds_proc s th p (delete fd2 (files p))) as Hp1.
  pose proof (get_file_ok t s1 th _ fd1 Ht Hp1) as Hg. cbn [files with_files] in Hg.
  destruct (delete fd2 (files p) !! fd1) as [h|].
  - rewrite (after Hg), (after (self_process_ok t s1 th _ Ht Hp1)).
    rewrite (after (put_self_ok t s1 th _ Ht)).
    cbn [files with_files]. rewrite insert_delete_eq.
    exact (f_equal (fun x => Ret (Ok fd2, x)) (with_fds_files s th p _ _)).
  - unfold mbind, sys_bind at 1. by rewrite Hg.
Qed.

Lemma sys_close_ok t s th p fd :
  thrds (kern s) !! t = Some th -> procs (kern s) !! process th = Some p ->
  sys_close t fd s =
  match files p !! fd with Some _ => Ret (Ok 0, with_fds s th p (delete fd (files p))) | None => Ret (Err EBADF, s) end.
Proof.
  intros Ht Hp. unfold sys_close. rewrite (after (self_process_ok t s th p Ht Hp)).
  destruct (files p !! fd); [|done]. by rewrite (after (put_self_ok t s th _ Ht)).
Qed.

Lemma bind_lift {R Q} (m : outcome R) (f : R -> sysM X A F T Q) s r : m = Ret r -> (lift m ≫= f) s = f r s.
Proof. by intros ->. Qed.

Lemma self_vm_ok t s th ms : thrds (kern s) !! t = Some th -> vms (kern s) !! t_vm th = Some ms -> self_vm t s = Ret (Ok ms, s).
Proof.
  intros Ht Hv. unfold self_vm. rewrite (after (self_thread_ok t s th Ht)).
  unfold mbind, sys_bind, get_kernel, lift. by rewrite Hv.
Qed.

Lemma user_vm_ok t s th : thrds (kern s) !! t = Some th -> user_vm t s = Ret (Ok (t_vm th), s).
Proof. intros Ht. unfold user_vm. by rewrite (after (self_thread_ok t s th Ht)). Qed.

Lemma user_cstr_ok t s th ptr path : thrds (kern s) !! t = Some th -> from_cstr (t_vm th) ptr = Ret path ->
  user_cstr t ptr s = Ret (Ok path, s).
Proof.
  intros Ht Hc. unfold user_cstr. rewrite (after (user_vm_ok t s th Ht)). unfold lift. by rewrite Hc.
Qed.

(** The state with other open files. *)
Definition with_world s (w : FileWorld) : SysState X A F T := mkSys (with_open_files (kern s) w) (exiting s) (stores s).

Lemma with_world_same s : with_world s (open_files (kern s)) = s.
Proof. by destruct s as [[] ? ?]. Qed.

Lemma on_files_ok {R} (m : FileWorld -> outcome (R * FileWorld)) s r w :
  m (open_files (kern s)) = Ret (r, w) -> on_files m s = Ret (Ok r, with_world s w).
Proof.
  intros Hm. unfold on_files. rewrite (bind_ok get_kernel _ s (kern s) s eq_refl).
  unfold mbind, sys_bind, lift. by rewrite Hm.
Qed.

Lemma ask_inode_ok {R} (m : FsState -> result R FsError) s : ask_inode m s = Ret (Ok (m (fs (open_files (kern s)))), s).
Proof.
  unfold ask_inode, on_inode. rewrite (on_files_ok _ s (m (fs (open_files (kern s)))) (open_files (kern s))).
  - by rewrite with_world_same.
  - cbn. by destruct (open_files (kern s)).
Qed.

Lemma lookup_inode_cwd t s th p root d i path (follow : bool) :
  thrds (kern s) !! t = Some th -> procs (kern s) !! process th = Some p -> root_inode = Ret root ->
  i_lookup (fs (open_files (kern s))) root (cwd p) = Ok d ->
  i_lookup_follow (fs (open_files (kern s))) d path (if follow then FOLLOW_MAX_DEPTH else 0) = Ok i ->
  lookup_inode_at t AT_FDCWD path follow s = Ret (Ok i, s).
Proof.
  intros Ht Hp Hr Hd Hi. unfold lookup_inode_at. rewrite Z.eqb_refl.
  rewrite (after (self_process_ok t s th p Ht Hp)). rewrite (bind_lift _ _ s root Hr).
  rewrite (after (ask_inode_ok _ s)), Hd.
  rewrite (bind_ok (fs_result (Ok d)) _ s d s eq_refl), (after (ask_inode_ok _ s)), Hi. done.
Qed.

(** [sys_write] once the buffer is checked. *)
Lemma checked_read_ok t s th ms base len buf :
  thrds (kern s) !! t = Some th -> vms (kern s) !! t_vm th = Some ms ->
  load_bytes (user_mem (t_vm th)) (Z.to_nat len) base = Ret buf ->
  (check_read_array 1 ms base len = Ret (Ok (base, len)) -> checked_read t base len s = Ret (Ok buf, s))
  /\ (check_read_array 1 ms base len = Ret (Err InvalidPtr) -> checked_read t base len s = Ret (Err EFAULT, s)).
Proof.
  intros Ht Hv Hl. unfold checked_read. rewrite (after (self_vm_ok t s th ms Ht Hv)).
  split; intros Hc; rewrite (bind_lift _ _ s _ Hc).
  - rewrite (bind_ok (try_vm (Ok (base, len))) _ s (base, len) s eq_refl). cbn [fst snd]. unfold user_slice.
    rewrite (after (user_vm_ok t s th Ht)). unfold lift. by rewrite Hl.
  - done.
Qed.

Lemma sys_open_cwd t s th p ptr flags mode path root d i :
  thrds (kern s) !! t = Some th -> procs (kern s) !! process th = Some p ->
  from_cstr (t_vm th) ptr = Ret path -> of_create flags = false -> root_inode = Ret root ->
  i_lookup (fs (open_files (kern s))) root (cwd p) = Ok d ->
  i_lookup_follow (fs (open_files (kern s))) d path FOLLOW_MAX_DEPTH = Ok i ->
  let '(h, w) := handle_new i (open_options flags) path (of_cloexec flags) (open_files (kern s)) in
  exists fd, lowest_free (files p) 0 = Ret fd
    /\ sys_open_at t AT_FDCWD ptr flags mode s = Ret (Ok fd, with_fds (with_world s w) th p (<[fd := h]> (files p))).
Proof.
  intros Ht Hp Hc Hf Hr Hd Hi. destruct (handle_new _ _ _ _ _) as [h w] eqn:Hh.
  destruct (lowest_free_spec (files p) 0) as (fd & Hfd & _). exists fd. split; [done|].
  unfold sys_open_at. rewrite (after (self_process_ok t s th p Ht Hp)).
  rewrite (after (user_cstr_ok t s th ptr path Ht Hc)), Hf.
  rewrite (after (lookup_inode_cwd t s th p root d i path true Ht Hp Hr Hd Hi)).
  rewrite (bind_ok _ _ s h (with_world s w)) by (apply on_files_ok; by rewrite Hh).
  rewrite (after (self_process_ok t (with_world s w) th p Ht Hp)).
  unfold add_file, get_free_fd. rewrite Hfd. erewrite bind_lift by reflexivity. cbn [fst snd].
  by rewrite (after (put_self_ok t (with_world s w) th _ Ht)).
Qed.
End lemmas.

(** ** Theorems *)
Section theorems.
Context `{BuildMode} {V : Vfs} `{SE : !SysErrors} {X E A F T : Type} `{UserCtx X}.
Context `{EI : Entry E, FI : FrameAllocator A, PI : !PageTable E A T, RI : Read F}.
Context `{SF : SysFlags, M : Machine}.
Implicit Types (s : SysState X A F T) (k : Kernel X A F T) (p : Process V).

(** [dup3] to another number makes that number a duplicate of the
    descriptor, whatever it was before, and leaves every other descriptor as
    it was.  With both numbers the same it closes the descriptor and fails
    with [EBADF]. *)
Theorem dup3_redirects t s th p fd1 fd2 flags h :
  thrds (kern s) !! t = Some th -> procs (kern s) !! process th = Some p -> files p !! fd1 = Some h ->
  exists s' p', procs (kern s') !! process th = Some p'
    /\ (forall fd, fd ≠ fd2 -> files p' !! fd = files p !! fd)
    /\ (fd1 ≠ fd2 -> sys_dup3 t fd1 fd2 flags s = Ret (Ok fd2, s') /\ files p' !! fd2 = Some (dup h (negb (flags =? 0))))
    /\ (fd1 = fd2 -> sys_dup3 t fd1 fd2 flags s = Ret (Err EBADF, s') /\ files p' !! fd2 = None).
Proof.
  intros Ht Hp Hh. pose proof (sys_dup3_ok t s th p fd1 fd2 flags Ht Hp) as Hd.
  destruct (decide (fd1 = fd2)) as [->|Hne].
  - rewrite lookup_delete_eq in Hd. do 2 eexists. split_and!; [apply with_fds_proc| |done|].
    + intros fd Hfd. cbn. by rewrite lookup_delete_ne.
    + intros _. split; [exact Hd|]. apply lookup_delete_eq.
  - rewrite lookup_delete_ne, Hh in Hd by done. do 2 eexists. split_and!; [apply with_fds_proc| | |done].
    + intros fd Hfd. cbn. by rewrite lookup_insert_ne.
    + intros _. split; [exact Hd|]. apply lookup_insert_eq.
Qed.

(** C39. Opening an existing file from the working directory gives the lowest
    free descriptor, on a description of its own with the offset at the start
    and the permissions of the flags, and closing it restores the descriptors
    of the process. *)
Theorem open_close_round_trip t s th p ptr flags mode path root d i :
  thrds (kern s) !! t = Some th -> procs (kern s) !! process th = Some p ->
  from_cstr (t_vm th) ptr = Ret path -> of_create flags = false -> root_inode = Ret root ->
  i_lookup (fs (open_files (kern s))) root (cwd p) = Ok d ->
  i_lookup_follow (fs (open_files (kern s))) d path FOLLOW_MAX_DEPTH = Ok i ->
  descs (open_files (kern s)) !! next_desc (open_files (kern s)) = None ->
  exists fd s1 s2 p1 h, sys_open_at t AT_FDCWD ptr flags mode s = Ret (Ok fd, s1)
    /\ files p !! fd = None /\ (forall j, 0 <= j < fd -> is_Some (files p !! j))
    /\ procs (kern s1) !! process th = Some p1 /\ files p1 !! fd = Some h /\ inode h = i
    /\ desc_of (open_files (kern s1)) h = Ret (mkDesc 0 (open_options flags) NoLock)
    /\ (forall fd' h', files p !! fd' = Some h' -> is_Some (descs (open_files (kern s)) !! description h') ->
          description h' ≠ description h)
    /\ sys_close t fd s1 = Ret (Ok 0, s2) /\ procs (kern s2) = procs (kern s).
Proof.
  intros Ht Hp Hc Hf Hr Hd Hi Hfresh.
  pose proof (sys_open_cwd t s th p ptr flags mode path root d i Ht Hp Hc Hf Hr Hd Hi) as Ho.
  cbn [handle_new] in Ho. destruct Ho as (fd & Hfd & Ho).
  destruct (lowest_free_spec (files p) 0) as (fd' & Hfd' & _ & Hfree & Hall).
  assert (fd' = fd) as -> by congruence. set (h := mkHandle _ _ _ _) in Ho. set (w := mkFiles _ _ _) in Ho.
  do 2 eexists. exists (with_fds (with_world s w) th p (files p)), (with_files p (<[fd := h]> (files p))), h.
  split_and!; [exact Ho|done..|apply with_fds_proc|apply lookup_insert_eq|done| | | |].
  - apply desc_ret. cbn. apply lookup_insert_eq.
  - intros fd2 h' _ [x Hx] E'. cbn in E'. by rewrite E', Hfresh in Hx.
  - erewrite sys_close_ok; [|exact Ht|apply with_fds_proc]. cbn [files with_files]. rewrite lookup_insert_eq, delete_insert_id by done.
    f_equal. f_equal. apply with_fds_files.
  - cbn. apply insert_id. rewrite Hp. by destruct p.
Qed.

(** [sys_write] from a buffer that lies in the address space writes the
    bytes of the buffer at the file offset, moves the offset behind them and
    returns their number; from any other buffer it fails with [EFAULT] and
    changes nothing. *)
Theorem sys_write_exact t s th p ms fd h d base len buf n fs' :
  let w := open_files (kern s) in
  thrds (kern s) !! t = Some th -> procs (kern s) !! process th = Some p -> vms (kern s) !! t_vm th = Some ms ->
  areas_wf (areas ms) -> is_u64 base -> 0 < len < 2 ^ 64 ->
  load_bytes (user_mem (t_vm th)) (Z.to_nat len) base = Ret buf ->
  files p !! fd = Some h -> desc_of w h = Ret d -> write_ok (options d) = true -> append (options d) = false ->
  i_write_at (fs w) (inode h) (offset d) buf = (Ok n, fs') -> 0 <= n < 2 ^ 64 -> 0 <= offset d -> offset d + n < 2 ^ 64 ->
  let inside := forall b, base <= b < base + len -> Exists (holds b) (areas ms) in
  (inside -> exists s', sys_write t fd base len s = Ret (Ok n, s')
     /\ fs (open_files (kern s')) = fs' /\ desc_of (open_files (kern s')) h = Ret (mkDesc (offset d + n) (options d) (flock d))
     /\ procs (kern s') = procs (kern s) /\ stores s' = stores s)
  /\ (~ inside -> sys_write t fd base len s = Ret (Err EFAULT, s)).
Proof.
  intros w Ht Hp Hv Hwf Hb Hlen Hl Hh Hd Hw Ha Hi Hn Ho Hon inside. unfold sys_write.
  rewrite (after (self_process_ok t s th p Ht Hp)).
  destruct (checked_read_ok t s th ms base len buf Ht Hv Hl) as [Hok Herr].
  pose proof (check_read_spec 1 ms base len Hwf Hb ltac:(lia) ltac:(lia) ltac:(lia)) as Hck. rewrite Z.mul_1_l in Hck.
  destruct Hck as [[Hck Hin]|[Hck Hin]]; (split; [intros Hins|intros Hnot]); try done.
  - rewrite (after (Hok Hck)). pose proof (get_file_ok t s th p fd Ht Hp) as Hg. rewrite Hh in Hg.
    rewrite (after Hg). unfold on_file.
    rewrite (after (on_files_ok _ _ _ _ (write_spec w h d (offset d) buf n fs' Hd Hw ltac:(by rewrite Ha) Hi Hn Ho Hon))).
    eexists. split_and!; [reflexivity|done| |done..]. apply put_desc_same.
  - unfold mbind, sys_bind at 1. by rewrite (Herr Hck).
Qed.

(** [getcwd] with a buffer that is long enough leaves in memory a
    zero-terminated string that [from_cstr] reads back as the working
    directory; with a shorter one it fails with [ERANGE] and stores nothing. *)
Theorem getcwd_round_trip t s th p buf len :
  thrds (kern s) !! t = Some th -> procs (kern s) !! process th = Some p ->
  no_nul (cwd p) -> Z.of_nat (String.length (cwd p)) + 1 < 2 ^ 64 ->
  (Z.of_nat (String.length (cwd p)) + 1 <= len -> exists s', sys_get_cwd t buf len s = Ret (Ok buf, s') /\ kern s' = kern s
     /\ from_cstr (M := machine_after s') (t_vm th) buf = Ret (cwd p))
  /\ (len < Z.of_nat (String.length (cwd p)) + 1 -> sys_get_cwd t buf len s = Ret (Err ERANGE, s)).
Proof.
  intros Ht Hp Hn Hb. unfold sys_get_cwd. rewrite (after (self_process_ok t s th p Ht Hp)).
  erewrite bind_lift by (by rewrite uadd_ok by lia). split; intros Hlen.
  - rewrite (proj2 (Z.ltb_ge _ _)) by done. unfold write_cstr, store_bytes.
    rewrite (after (after (user_vm_ok t s th Ht))).
    eexists. split_and!; [reflexivity..|]. apply from_cstr_reads; [done|]. intros i Hi. cbn [user_mem machine_after stores].
    unfold poke. rewrite foldl_app. fold (poke (t_vm th) (user_mem (t_vm th)) (stores s)).
    change (foldl _ ?m ?l) with (poke (t_vm th) m l). rewrite poke_bytes, decide_True; [f_equal; lia|].
    rewrite length_app, bytes_length. cbn. lia.
  - by rewrite (proj2 (Z.ltb_lt _ _)).
Qed.
End theorems.

(** ** Evaluations *)

#[export] Instance MockFlags : SysFlags := {|
  AT_FDCWD := 2 ^ 64 - 100;
  of_create f := Z.testbit f 6; of_exclusive f := Z.testbit f 7; of_truncate f := Z.testbit f 9; of_cloexec f := Z.testbit f 19;
  of_readable f := negb (Z.land f 3 =? 1); of_writable f := negb (Z.land f 3 =? 0); of_append f := Z.testbit f 10;
  at_symlink_nofollow f := Z.testbit f 8;
|}.

(** The string "/f" on the heap page that is present. *)
#[export] Instance MockMachine : Machine := {|
  user_mem v := {[ 0x11000 := 47; 0x11001 := 102; 0x11002 := 0 ]};
  rtc := None;
|}.

#[local] Existing Instance release.
Definition sys0 := mkSys kernel0 false [].

Lemma dup3_redirects_witness :
  exists s', sys_dup3 0 2 7 0 sys0 = Ret (Ok 7, s').
Proof.
  destruct (dup3_redirects 0 sys0 (thread_of 0 0 1) init_proc 2 7 0 RamFs.handle) as (s' & p' & _ & _ & Hd & _);
    [reflexivity..|]. exists s'. exact (proj1 (Hd ltac:(discriminate))).
Defined.

Lemma open_close_round_trip_witness :
  exists fd s1 s2, sys_open_at 0 (2 ^ 64 - 100) 0x11000 2 0 sys0 = Ret (Ok fd, s1)
    /\ sys_close 0 fd s1 = Ret (Ok 0, s2) /\ procs (kern s2) = procs kernel0.
Proof.
  destruct (open_close_round_trip 0 sys0 (thread_of 0 0 1) init_proc 0x11000 2 0 "/f" 0%nat 0%nat 0%nat)
    as (fd & s1 & s2 & p1 & h & Ho & _ & _ & _ & _ & _ & _ & _ & Hc & Hk); [reflexivity..|].
  exists fd, s1, s2. exact (conj Ho (conj Hc Hk)).
Defined.

Lemma sys_write_exact_witness :
  exists s', sys_write 0 0 0x11000 2 sys0 = Ret (Ok 2, s')
    /\ desc_of (open_files (kern s')) RamFs.handle = Ret (mkDesc 6 (RamFs.rw false) NoLock).
Proof.
  pose (fs' := <[1%nat := RamFs.splice (RamFs.get (fs (RamFs.world false)) 1) 4 [47; 102]]> (fs (RamFs.world false))).
  destruct (sys_write_exact 0 sys0 (thread_of 0 0 1) init_proc set3.1 0 RamFs.handle (mkDesc 4 (RamFs.rw false) NoLock)
              0x11000 2 [47; 102] 2 fs') as [Hin _];
    [reflexivity|reflexivity|reflexivity|exact (proj1 (proj1 set3_inv))|unfold is_u64; lia|lia|reflexivity..|lia|cbn; lia|cbn; lia|].
  destruct Hin as (s' & Hs & _ & Hd & _).
  - intros b Hb. assert (exists l, areas set3.1 = heap :: l) as (l & ->) by (eexists; vm_compute; reflexivity).
    constructor. unfold holds. cbn. lia.
  - exists s'. exact (conj Hs Hd).
Defined.

Lemma getcwd_round_trip_witness :
  exists s', sys_get_cwd 0 0x11000 2 sys0 = Ret (Ok 0x11000, s') /\ from_cstr (M := machine_after s') 0 0x11000 = Ret "/".
Proof.
  destruct (getcwd_round_trip 0 sys0 (thread_of 0 0 1) init_proc 0x11000 2) as [Hok _];
    [reflexivity|reflexivity|repeat constructor; discriminate|cbn; lia|].
  destruct Hok as (s' & Hs & _ & Hc); [cbn; lia|]. exists s'. exact (conj Hs Hc).
Defined.
