(* ===== verification/Sched.v ===== *)
(** * The task scheduler ([task/executor/mod.rs], [task/executor/features.rs])

    The completely fair scheduler: load weights and virtual run times, the run
    queue of a processor, waking, stealing and running tasks.  The priority
    queue, the arena of tasks and the runnable of a future belong to external
    crates: the first two are interfaces, the last is an opaque token. *)

From S2P Require Import Prelude.

(** ** Constants *)

Definition SCHED_LATENCY : Z := 6000000.
Definition SCHED_MIN_GRANULARITY : Z := 750000.
Definition SCHED_NR_LATENCY : Z := 8.
Definition MAX_NICE : Z := 19.
Definition MIN_NICE : Z := -20.

(** [SchedFeatures] *)
Definition GENTLE_FAIR_SLEEPERS : Z := 1.
Definition START_DEBIT : Z := 2.
Definition NEXT_BUDDY : Z := 4.
Definition LAST_BUDDY : Z := 8.
Definition CACHE_HOT_BUDDY : Z := 16.
Definition WAKEUP_PREEMPTION : Z := 32.
Definition SCHED_FEAT : Z :=
  Z.lor (Z.lor (Z.lor (Z.lor GENTLE_FAIR_SLEEPERS START_DEBIT) LAST_BUDDY) CACHE_HOT_BUDDY) WAKEUP_PREEMPTION.
Definition feature (f : Z) : bool := Z.land SCHED_FEAT f =? f.

(** [NICE_TO_WEIGHT], [nice_to_weight] *)
Definition NICE_TO_WEIGHT : list Z :=
  [88761; 71755; 56483; 46273; 36291; 29154; 23254; 18705; 14949; 11916; 9548; 7620; 6100; 4904; 3906; 3121; 2501; 1991; 1586;
   1277; 1024; 820; 655; 526; 423; 335; 272; 215; 172; 137; 110; 87; 70; 56; 45; 36; 29; 23; 18; 15].
Definition nice_to_weight `{BuildMode} (nice : Z) : outcome Z :=
  i ← iadd nice 20; expect "index out of bounds" (NICE_TO_WEIGHT !! Z.to_nat (as_u64 i)).
Definition NICE_0_WEIGHT : Z := 1024.

(** ** Weights *)

(** [LoadWeight]; [inv_weight] is a cached inverse that is never filled in. *)
Record LoadWeight := mkLoad { weight : Z; cached_inv : option Z }.
Definition load_new (w : Z) : LoadWeight := mkLoad w None.
Definition WMULT_CONST : Z := 2 ^ 32 - 1.
Definition WMULT_SHIFT : Z := 32.

(** [LoadWeight::inv_weight] *)
Definition inv_weight (lw : LoadWeight) : Z :=
  match cached_inv lw with
  | Some i => i
  | None => if weight lw =? 0 then WMULT_CONST else if weight lw <=? WMULT_CONST then WMULT_CONST / weight lw else 1
  end.

Section weights.
Context `{BuildMode}.

(** [LoadWeight + LoadWeight], [LoadWeight - LoadWeight] and the assignments. *)
Definition load_add (a b : LoadWeight) : outcome LoadWeight := w ← uadd (weight a) (weight b); Ret (load_new w).
Definition load_add_usize (a : LoadWeight) (rhs : Z) : outcome LoadWeight := w ← uadd (weight a) rhs; Ret (load_new w).
Definition load_sub_usize (a : LoadWeight) (rhs : Z) : outcome LoadWeight := w ← usub (weight a) rhs; Ret (load_new w).
Definition load_sub (a b : LoadWeight) : outcome LoadWeight := w ← usub (weight a) (weight b); Ret (load_new w).

(** The loops of [calc_delta]: a factor below 2^64 is below 2^32 after 32
    turns. *)
Fixpoint shrink (fuel : nat) (fact shift : Z) : outcome (Z * Z) :=
  if Z.shiftr fact 32 =? 0 then Ret (fact, shift)
  else match fuel with
       | O => Panic "unreachable"
       | S fuel => shift ← usub shift 1; shrink fuel (Z.shiftr fact 1) shift
       end.

(** [calc_delta] *)
Definition calc_delta (delta_exec w : Z) (lw : LoadWeight) : outcome Z :=
  x ← shrink 32 w WMULT_SHIFT;
  fact ← umul x.1 (inv_weight lw);
  x ← shrink 32 fact x.2;
  Ret (as_u64 (Z.shiftr (delta_exec * x.1) x.2)).

(** [sched_period] *)
Definition sched_period (nr_running : Z) : outcome Z :=
  if SCHED_NR_LATENCY <? nr_running then umul nr_running SCHED_MIN_GRANULARITY else Ret SCHED_LATENCY.

(** [VRuntime]: addition, subtraction, [delta], comparison, [max], [min]. *)
Definition vr_add (a b : Z) : outcome Z := uadd a b.
Definition vr_sub (a b : Z) : outcome Z := usub a b.
Definition vr_delta (a b : Z) : outcome Z := isub (as_i64 a) (as_i64 b).
Definition vr_cmp (a b : Z) : outcome comparison := d ← isub (as_i64 a) (as_i64 b); Ret (d ?= 0).
Definition vr_max (a b : Z) : outcome Z := c ← vr_cmp a b; Ret (match c with Gt => a | _ => b end).
Definition vr_min (a b : Z) : outcome Z := c ← vr_cmp a b; Ret (match c with Gt => b | _ => a end).
End weights.

(** ** Tasks and run queues *)

(** [SchedTask]; [run_queue] is the number of the queue's processor. *)
Record SchedTask := mkTask {
  s_tid : Z; s_load : LoadWeight; nice : Z; on_rq : bool; run_queue : nat;
  exec_start : Z; sum_exec_runtime : Z; prev_sum_exec_runtime : Z; vruntime : Z;
}.
Definition set_on_rq (t : SchedTask) (b : bool) : SchedTask :=
  mkTask (s_tid t) (s_load t) (nice t) b (run_queue t) (exec_start t) (sum_exec_runtime t) (prev_sum_exec_runtime t) (vruntime t).
Definition set_vruntime (t : SchedTask) (v : Z) : SchedTask :=
  mkTask (s_tid t) (s_load t) (nice t) (on_rq t) (run_queue t) (exec_start t) (sum_exec_runtime t) (prev_sum_exec_runtime t) v.
Definition set_exec_start (t : SchedTask) (now : Z) : SchedTask :=
  mkTask (s_tid t) (s_load t) (nice t) (on_rq t) (run_queue t) now (sum_exec_runtime t) (prev_sum_exec_runtime t) (vruntime t).
Definition set_run_queue (t : SchedTask) (q : nat) : SchedTask :=
  mkTask (s_tid t) (s_load t) (nice t) (on_rq t) q (exec_start t) (sum_exec_runtime t) (prev_sum_exec_runtime t) (vruntime t).

(** [ReadyTask], ordered by descending virtual run time. *)
Record ReadyTask (R : Type) := mkReady { r_vruntime : Z; runnable : R }.
Arguments mkReady {R}.
Arguments r_vruntime {R}.
Arguments runnable {R}.
Definition ready_cmp `{BuildMode} {R} (a b : ReadyTask R) : outcome comparison :=
  c ← vr_cmp (r_vruntime a) (r_vruntime b); Ret (CompOpp c).
Definition ready_eq {R} (a b : ReadyTask R) : bool := r_vruntime a =? r_vruntime b.

(** Run times below [2^63] are ordered as numbers, equal ones by [eq] alone;
    further apart the order is a circle, and overflow checks panic. *)
Lemma ready_order `{BuildMode} {R} (a b : ReadyTask R) :
  0 <= r_vruntime a < 2 ^ 63 -> 0 <= r_vruntime b < 2 ^ 63 ->
  ready_cmp a b = Ret (r_vruntime b ?= r_vruntime a) /\ (ready_cmp a b = Ret Eq <-> ready_eq a b = true).
Proof.
  intros Ha Hb. assert (Hc : ready_cmp a b = Ret (r_vruntime b ?= r_vruntime a)).
  { unfold ready_cmp, vr_cmp, isub. rewrite !as_i64_small, i64_ok by (unfold is_i64; lia). sret. f_equal.
    by rewrite <- Z.compare_sub, (Z.compare_antisym (r_vruntime a)). }
  split; [done|]. rewrite Hc. unfold ready_eq. rewrite Z.eqb_eq. split; [intros [= Heq]; by apply Z.compare_eq in Heq|].
  intros ->. by rewrite Z.compare_refl.
Qed.
Lemma ready_order_circle : let c := ready_cmp (H := false) in
  c (mkReady 0 tt) (mkReady (2 ^ 63 - 1) tt) = Ret Gt /\ c (mkReady (2 ^ 63 - 1) tt) (mkReady (2 ^ 64 - 2) tt) = Ret Gt
  /\ c (mkReady (2 ^ 64 - 2) tt) (mkReady 0 tt) = Ret Gt
  /\ ready_cmp (H := true) (mkReady (2 ^ 63 - 1) tt) (mkReady (2 ^ 64 - 2) tt) = Panic "attempt to subtract with overflow".
Proof. repeat split. Qed.

(** The crate [priority_queue]: a map from tasks to priorities with the
    greatest priority at its front. *)
Class PriorityQueue (R Q : Type) := {
  pq_empty : Q;
  pq_push : Q -> Z -> ReadyTask R -> Q;
  pq_remove : Q -> Z -> option (ReadyTask R) * Q;
  pq_peek : Q -> option (Z * ReadyTask R);
  pq_change : Q -> Z -> Z -> Q;
  pq_len : Q -> nat;
  pq_items : Q -> gmap Z (ReadyTask R);
}.

(** Its documented behaviour: [pq_change] sets the run time of an entry, and
    the peeked entry is maximal when the run times are ordered as integers. *)
Class PriorityQueueSpec (R Q : Type) `{PriorityQueue R Q} `{BuildMode} := {
  pq_items_empty : pq_items pq_empty = ∅;
  pq_items_push q t r : pq_items (pq_push q t r) = <[t := r]> (pq_items q);
  pq_remove_spec q t : (pq_remove q t).1 = pq_items q !! t /\ pq_items (pq_remove q t).2 = delete t (pq_items q);
  pq_peek_none q : pq_peek q = None <-> pq_items q = ∅;
  pq_peek_some q t r : pq_peek q = Some (t, r) -> pq_items q !! t = Some r;
  pq_peek_max q t r : (forall u x, pq_items q !! u = Some x -> 0 <= r_vruntime x < 2 ^ 63) ->
    pq_peek q = Some (t, r) -> forall u x, pq_items q !! u = Some x -> ready_cmp x r = Ret Lt \/ ready_cmp x r = Ret Eq;
  pq_items_change q t v : pq_items (pq_change q t v) = alter (fun r => mkReady v (runnable r)) t (pq_items q);
  pq_len_spec q : pq_len q = size (pq_items q);
}.

(** The crate [vec_arena]: the number the next task gets. *)
Class Arena := { next_vacant : gmap Z nat -> Z }.
Class ArenaSpec `{Arena} := { next_vacant_fresh m : m !! next_vacant m = None }.

(** [RunQueue] *)
Record RunQueue (Q : Type) := mkQueue {
  ready_tasks : Q; current_task : option (Z * nat); load : LoadWeight; min_vruntime : Z; nr_running : Z;
}.
Arguments mkQueue {Q}.
Arguments ready_tasks {Q}.
Arguments current_task {Q}.
Arguments load {Q}.
Arguments min_vruntime {Q}.
Arguments nr_running {Q}.

(** [GlobalState]: the tasks by reference, [active_tasks], and the run queues
    of the executors by processor. *)
Record Sched (Q : Type) := mkSched { sched_tasks : gmap nat SchedTask; active_tasks : gmap Z nat; queues : gmap nat (RunQueue Q) }.
Arguments mkSched {Q}.
Arguments sched_tasks {Q}.
Arguments active_tasks {Q}.
Arguments queues {Q}.

Section queue.
Context `{BuildMode} {R Q : Type} `{PriorityQueue R Q} `{Arena}.
Implicit Types (rq : RunQueue Q) (g : Sched Q) (task : SchedTask).

Definition set_ready rq (q : Q) : RunQueue Q := mkQueue q (current_task rq) (load rq) (min_vruntime rq) (nr_running rq).
Definition set_current rq (c : option (Z * nat)) : RunQueue Q := mkQueue (ready_tasks rq) c (load rq) (min_vruntime rq) (nr_running rq).
Definition set_min rq (v : Z) : RunQueue Q := mkQueue (ready_tasks rq) (current_task rq) (load rq) v (nr_running rq).
Definition set_count rq (l : LoadWeight) (n : Z) : RunQueue Q := mkQueue (ready_tasks rq) (current_task rq) l (min_vruntime rq) n.

Definition get_task g (r : nat) : outcome SchedTask := expect "dangling Arc" (sched_tasks g !! r).
Definition put_task g (r : nat) task : Sched Q := mkSched (<[r := task]> (sched_tasks g)) (active_tasks g) (queues g).
Definition get_queue g (c : nat) : outcome (RunQueue Q) := expect "index out of bounds" (queues g !! c).
Definition put_queue g (c : nat) rq : Sched Q := mkSched (sched_tasks g) (active_tasks g) (<[c := rq]> (queues g)).

(** [RunQueue::new], [SchedTask::new] *)
Definition queue_new : RunQueue Q := mkQueue pq_empty None (load_new 0) 0 0.
Definition task_new (t nice : Z) (c : nat) (v : Z) : outcome SchedTask :=
  w ← nice_to_weight nice; Ret (mkTask t (load_new w) nice false c 0 0 0 v).

(** [SchedTask::delta_fair] *)
Definition delta_fair task (delta_exec : Z) : outcome Z :=
  if weight (s_load task) =? NICE_0_WEIGHT then Ret delta_exec else calc_delta delta_exec NICE_0_WEIGHT (s_load task).

(** [RunQueue::sched_slice], [RunQueue::sched_vslice] *)
Definition sched_slice rq task : outcome Z :=
  n ← uadd (nr_running rq) (if on_rq task then 0 else 1);
  period ← sched_period n;
  l ← (if negb (on_rq task) then load_add (load rq) (s_load task) else Ret (load rq));
  calc_delta period (weight (s_load task)) l.
Definition sched_vslice rq task : outcome Z := s ← sched_slice rq task; delta_fair task s.

(** [RunQueue::is_current_task] *)
Definition is_current_task rq (t : Z) : bool := match current_task rq with Some (c, _) => c =? t | None => false end.

(** [RunQueue::insert_task] *)
Definition insert_task rq (t : Z) (r : ReadyTask R) (l : LoadWeight) : outcome (RunQueue Q) :=
  rq ← (if negb (is_current_task rq t) then
          n ← uadd (nr_running rq) 1; l ← load_add (load rq) l; Ret (set_count rq l n)
        else Ret rq);
  Ret (set_ready rq (pq_push (ready_tasks rq) t r)).

(** [RunQueue::update_min_vruntime] *)
Definition update_min_vruntime g rq : outcome (RunQueue Q) :=
  v ← (match current_task rq with
       | Some (_, r) => c ← get_task g r; Ret (if on_rq c then vruntime c else min_vruntime rq)
       | None => Ret (min_vruntime rq)
       end);
  v ← (match pq_peek (ready_tasks rq) with
       | Some (_, next) =>
           match current_task rq with None => Ret (r_vruntime next) | Some _ => vr_min v (r_vruntime next) end
       | None => Ret v
       end);
  m ← vr_max (min_vruntime rq) v;
  Ret (set_min rq m).

(** [RunQueue::remove_task] of the task behind [r] on the queue of processor [c]. *)
Definition remove_task g (c r : nat) : outcome (Sched Q) :=
  rq ← get_queue g c;
  task ← get_task g r;
  let g := put_task g r (set_on_rq task false) in
  let '(old, q) := pq_remove (ready_tasks rq) (s_tid task) in
  let contained := match old with Some _ => true | None => false end || is_current_task rq (s_tid task) in
  let rq := set_ready rq q in
  if contained then
    n ← usub (nr_running rq) 1;
    l ← load_sub (load rq) (s_load task);
    rq ← update_min_vruntime g (set_count rq l n);
    Ret (put_queue g c rq)
  else Ret (put_queue g c rq).

(** [SchedTask::tick] at the time [now]. *)
Definition tick task (now : Z) : outcome SchedTask :=
  delta ← usub now (exec_start task);
  sum ← uadd (sum_exec_runtime task) delta;
  d ← delta_fair task delta;
  v ← vr_add (vruntime task) d;
  Ret (mkTask (s_tid task) (s_load task) (nice task) (on_rq task) (run_queue task) now sum (prev_sum_exec_runtime task) v).

(** [RunQueue::task_tick] *)
Definition task_tick g (c r : nat) (now : Z) : outcome (Sched Q) :=
  task ← get_task g r;
  task ← tick task now;
  let g := put_task g r task in
  rq ← get_queue g c;
  rq ← update_min_vruntime g (set_ready rq (pq_change (ready_tasks rq) (s_tid task) (vruntime task)));
  Ret (put_queue g c rq).

(** The closure of [SchedTask::schedule_fn]: the task is woken. *)
Definition schedule_fn g (r : nat) (x : R) : outcome (Sched Q) :=
  task ← get_task g r;
  let task := set_on_rq task true in
  let thresh := if feature GENTLE_FAIR_SLEEPERS then Z.shiftr SCHED_LATENCY 1 else SCHED_LATENCY in
  rq ← get_queue g (run_queue task);
  v ← vr_sub (min_vruntime rq) thresh;
  m ← vr_max (vruntime task) v;
  let task := set_vruntime task m in
  rq ← insert_task rq (s_tid task) (mkReady v x) (s_load task);
  Ret (put_queue (put_task g r task) (run_queue task) rq).

(** *** Stealing *)

(** [GlobalState::other_run_queues]: the order in which they are tried. *)
Definition other_queues g (c : nat) : list nat :=
  let len := size (queues g) in seq (S c) (len - S c) ++ seq 0 c.

(** [PriorityQueue::pop] *)
Definition pq_pop (q : Q) : option (Z * ReadyTask R * Q) :=
  x ← pq_peek q; Some (x, (pq_remove q x.1).2).

(** The loop of [try_steal_tasks] over [count] tasks of the queue of [v]:
    [locked] says which tasks another processor holds. *)
Fixpoint steal_loop (count : nat) g (c v : nat) (locked : nat -> bool) (back : list (Z * ReadyTask R))
    : outcome (Sched Q * list (Z * ReadyTask R)) :=
  match count with
  | O => Ret (g, back)
  | S count =>
      rq ← get_queue g v;
      x ← expect "called unwrap on a None value" (pq_pop (ready_tasks rq));
      let '(t, ready, q) := x in
      let g := put_queue g v (set_ready rq q) in
      if is_current_task rq t then steal_loop count g c v locked (back ++ [(t, ready)])
      else
        r ← expect "called unwrap on a None value" (active_tasks g !! t);
        if locked r then steal_loop count g c v locked (back ++ [(t, ready)])
        else
          task ← get_task g r;
          self ← get_queue g c;
          x ← vr_sub (vruntime task) (min_vruntime rq);
          x ← vr_add x (min_vruntime self);
          let g := put_task g r (set_run_queue (set_vruntime task x) c) in
          steal_loop count (put_queue g c (set_ready self (pq_push (ready_tasks self) t ready))) c v locked back
  end.

(** [RunQueue::try_steal_tasks]: [queue_locked] says which queues are held. *)
Definition try_steal_tasks g (c : nat) (queue_locked locked : nat -> bool) : outcome (Sched Q) :=
  match find (fun v => negb (queue_locked v) && match queues g !! v with Some rq => 2 <? nr_running rq | None => false end)
          (other_queues g c) with
  | None => Ret g
  | Some v =>
      rq ← get_queue g v;
      x ← steal_loop (pq_len (ready_tasks rq) / 2) g c v locked [];
      let '(g, back) := x in
      rq ← get_queue g v;
      Ret (put_queue g v (set_ready rq (foldl (fun q x => pq_push q x.1 x.2) (ready_tasks rq) back)))
  end.

(** *** Choosing and running *)

(** [RunQueue::peek] *)
Definition peek rq : outcome (Z * ReadyTask R) := expect "called unwrap on a None value" (pq_peek (ready_tasks rq)).

(** Is the current task to be preempted? *)
Definition preempt_current rq (current : SchedTask) : outcome bool :=
  ideal_runtime ← sched_slice rq current;
  delta_exec ← usub (sum_exec_runtime current) (prev_sum_exec_runtime current);
  if negb (on_rq current) || (ideal_runtime <? delta_exec) then Ret true
  else if delta_exec <? SCHED_MIN_GRANULARITY then Ret false
  else
    next ← peek rq;
    delta ← vr_delta (vruntime current) (r_vruntime next.2);
    Ret (as_i64 ideal_runtime <? delta).

(** The choice of [pop_task_to_run]. *)
Definition choose g rq : outcome Z :=
  if nr_running rq <? 2 then x ← peek rq; Ret x.1
  else match current_task rq with
       | Some (t, r) =>
           current ← get_task g r;
           b ← preempt_current rq current;
           if (b : bool) then
             let '(_, q) := pq_remove (ready_tasks rq) t in
             x ← expect "called unwrap on a None value" (pq_peek q); Ret x.1
           else Ret t
       | None => x ← peek rq; Ret x.1
       end.

(** [RunQueue::pop_task_to_run] at the time [now]: the task, its reference and
    its runnable. *)
Definition pop_task_to_run g (c : nat) (now : Z) (queue_locked locked : nat -> bool) : outcome (Z * nat * R * Sched Q) :=
  rq ← get_queue g c;
  g ← (if nr_running rq <? 2 then try_steal_tasks g c queue_locked locked else Ret g);
  rq ← get_queue g c;
  next ← choose g rq;
  let '(x, q) := pq_remove (ready_tasks rq) next in
  x ← expect "called unwrap on a None value" x;
  r ← expect "called unwrap on a None value" (active_tasks g !! next);
  task ← get_task g r;
  let g := put_task g r (set_exec_start task now) in
  Ret (next, r, runnable x, put_queue g c (set_current (set_ready rq q) (Some (next, r)))).

(** [GlobalState::remove_task] *)
Definition global_remove_task g (t : Z) : Sched Q := mkSched (sched_tasks g) (delete t (active_tasks g)) (queues g).

(** The guard that [Executor::spawn] wraps around the future, dropped when it
    is done. *)
Definition on_drop g (r : nat) : outcome (Sched Q) :=
  task ← get_task g r;
  let g := put_task g r (set_on_rq task false) in
  g ← remove_task g (run_queue task) r;
  Ret (global_remove_task g (s_tid task)).

(** What one run of a runnable ends in: the future is done, it waits, or it
    was woken while it ran, and the runnable [x] is scheduled again. *)
Inductive RunResult := Completed | Slept | Yielded (x : R).

(** A turn of the loop of [Executor::run] on processor [c]: [res] is what the
    chosen task does, which ends at the time [later]. *)
Definition run_turn g (c : nat) (now later : Z) (queue_locked locked : nat -> bool) (res : Z -> RunResult) : outcome (Sched Q) :=
  x ← pop_task_to_run g c now queue_locked locked;
  let '(t, r, _, g) := x in
  g ← (match res t with
       | Completed => on_drop g r
       | Slept => Ret g
       | Yielded x => schedule_fn g r x
       end);
  g ← (match res t with Yielded _ => Ret g | _ => remove_task g c r end);
  task_tick g c r later.

(** [Executor::spawn] on processor [c]; [parent] is the task a fork copies the
    run time of ([SpawnExtraOptions]). *)
Definition spawn g (c : nat) (nice : Z) (parent : option nat) (x : R) : outcome (nat * Sched Q) :=
  let t := next_vacant (active_tasks g) in
  rq ← get_queue g c;
  v ← (match parent with Some p => task ← get_task g p; Ret (vruntime task) | None => Ret (min_vruntime rq) end);
  task ← task_new t nice c v;
  task ← (if feature START_DEBIT then
            s ← sched_vslice rq task;
            m ← vr_add (min_vruntime rq) s;
            v ← vr_max (vruntime task) m;
            Ret (set_vruntime task v)
          else Ret task);
  let r := fresh (dom (sched_tasks g)) in
  rq ← insert_task rq t (mkReady (vruntime task) x) (s_load task);
  let g := mkSched (<[r := set_on_rq task true]> (sched_tasks g)) (<[t := r]> (active_tasks g)) (queues g) in
  Ret (r, put_queue g c rq).

(** [Executor::new]: a queue with its idle task. *)
Definition executor_new g (c : nat) (idle : R) : outcome (Sched Q) :=
  x ← spawn (put_queue g c queue_new) c MAX_NICE None idle; Ret x.2.
End queue.
