(* ===== verification/SchedTheorems.v ===== *)
(** * The task scheduler: theorems

    The accuracy of the weighted run times, the choice of the next task, and
    the bookkeeping of the run queue over a turn of the executor. *)

From S2P Require Import Prelude BTree Sched.

(** ** Weighted run times *)
Section weights.
Context `{BuildMode}.

Lemma shrink_spec fuel : forall fact shift,
  0 <= fact < 2 ^ (32 + Z.of_nat fuel) -> Z.of_nat fuel <= shift < 2 ^ 64 ->
  exists k, 0 <= k <= Z.of_nat fuel /\ shrink fuel fact shift = Ret (fact / 2 ^ k, shift - k)
    /\ fact / 2 ^ k < 2 ^ 32 /\ (k = 0 \/ 2 ^ (31 + k) <= fact).
Proof.
  induction fuel as [|fuel IH]; intros fact shift Hf Hs; cbn [shrink];
    (assert (Z.shiftr fact 32 = fact / 2 ^ 32) as -> by (by apply Z.shiftr_div_pow2));
    (assert (Hcase : fact / 2 ^ 32 = 0 <-> fact < 2 ^ 32) by
       (split; intros; [apply Z.nle_gt; intros Hle; apply (Z.div_le_mono _ _ (2 ^ 32)) in Hle; [rewrite Z.div_same in Hle by lia; lia|lia]
                       |apply Z.div_small; lia])).
  - rewrite (proj2 (Z.eqb_eq _ _)) by (apply Hcase; cbn in Hf; lia).
    exists 0. rewrite Z.pow_0_r, Z.div_1_r, Z.sub_0_r. split_and!; [lia|lia|done|cbn in Hf; lia|by left].
  - destruct (Z.eqb_spec (fact / 2 ^ 32) 0) as [E|E].
    { exists 0. rewrite Z.pow_0_r, Z.div_1_r, Z.sub_0_r. split_and!; [lia|lia|done|by apply Hcase|by left]. }
    assert (2 ^ 32 <= fact) as Hge by (apply Z.nlt_ge; intros Hlt; by apply E, Hcase).
    ostep. rewrite Z.shiftr_div_pow2 by lia.
    assert (fact / 2 ^ 1 < 2 ^ (32 + Z.of_nat fuel)) as Hlt.
    { apply Z.div_lt_upper_bound; [lia|]. rewrite <- Z.pow_add_r by lia.
      replace (1 + (32 + Z.of_nat fuel)) with (32 + Z.of_nat (S fuel)) by lia. lia. }
    destruct (IH (fact / 2 ^ 1) (shift - 1)) as (k & Hk & -> & Hb & Hc); [split; [apply Z.div_pos; lia|done]|lia|].
    rewrite Z.div_div in * by lia. rewrite <- Z.pow_add_r in * by lia.
    exists (1 + k). split_and!; [lia|lia|do 2 f_equal; lia|done|right].
    destruct Hc as [->|Hc]; [lia|]. replace (31 + (1 + k)) with (1 + (31 + k)) by lia. rewrite Z.pow_add_r by lia.
    apply (Z.mul_le_mono_nonneg_l _ _ 2) in Hc; [|lia]. pose proof (Z.mul_div_le fact 2 ltac:(lia)).
    change (2 ^ 1) with 2 in *. lia.
Qed.

Lemma inv_weight_spec lw : cached_inv lw = None -> 0 < weight lw < 2 ^ 32 ->
  0 <= inv_weight lw < 2 ^ 32 /\ inv_weight lw * weight lw <= 2 ^ 32 /\ 2 ^ 32 - weight lw <= inv_weight lw * weight lw.
Proof.
  intros Hc Hw. unfold inv_weight, WMULT_CONST. rewrite Hc.
  rewrite (proj2 (Z.eqb_neq _ _)), (proj2 (Z.leb_le _ _)) by lia.
  pose proof (Z.div_mod (2 ^ 32 - 1) (weight lw) ltac:(lia)) as Hd.
  pose proof (Z.mod_pos_bound (2 ^ 32 - 1) (weight lw) ltac:(lia)) as Hm.
  set (q := (2 ^ 32 - 1) / weight lw) in *. assert (0 <= q) by (apply Z.div_pos; lia). nia.
Qed.

(** The arithmetic of [calc_delta]: [f] is the factor shifted by [k]. *)
Lemma scale_bounds d w lw fact k f r :
  0 <= d -> 0 <= w -> 0 < lw -> 0 <= k <= 32 -> 0 <= fact -> f = fact / 2 ^ k -> r = d * f / 2 ^ (32 - k) ->
  fact * lw <= w * 2 ^ 32 -> w * (2 ^ 32 - lw) <= fact * lw -> (k = 0 \/ 2 ^ (31 + k) <= fact) ->
  r * lw <= d * w /\ d * w * (2 ^ 32 - lw - 2) < (r + 1) * lw * 2 ^ 32.
Proof.
  intros Hd Hw Hlw Hk Hfact -> -> Hup Hlo Hc.
  set (f := fact / 2 ^ k). set (r := d * f / 2 ^ (32 - k)).
  assert (Hp : 2 ^ k * 2 ^ (32 - k) = 2 ^ 32) by (rewrite <- Z.pow_add_r by lia; f_equal; lia).
  assert (Pk : 0 < 2 ^ k) by (apply Z.pow_pos_nonneg; lia).
  assert (Ps : 0 < 2 ^ (32 - k)) by (apply Z.pow_pos_nonneg; lia).
  pose proof (Z.div_mod fact (2 ^ k) ltac:(lia)) as Hf. pose proof (Z.mod_pos_bound fact (2 ^ k) Pk) as Hfm. fold f in Hf.
  pose proof (Z.div_mod (d * f) (2 ^ (32 - k)) ltac:(lia)) as Hr.
  pose proof (Z.mod_pos_bound (d * f) (2 ^ (32 - k)) Ps) as Hrm. fold r in Hr.
  assert (H1 : r * 2 ^ 32 <= d * fact).
  { apply Z.le_trans with (d * (f * 2 ^ k)); [rewrite <- Hp; nia|]. apply Z.mul_le_mono_nonneg_l; lia. }
  assert (H2 : d * (f * 2 ^ k) < (r + 1) * 2 ^ 32) by (rewrite <- Hp; nia).
  assert (H3 : d * (fact * lw) <= d * (f * 2 ^ k) * lw + 2 * d * w).
  { destruct Hc as [->|Hc].
    - rewrite Z.pow_0_r in *. assert (f = fact) as -> by lia. nia.
    - assert (2 ^ (31 + k) * lw <= w * 2 ^ 32) as Hb by nia. rewrite Z.pow_add_r in Hb by lia.
      assert (2 ^ k * lw <= 2 * w) as Hb' by lia.
      assert (fact * lw <= f * 2 ^ k * lw + 2 * w) by nia. nia. }
  split.
  - apply (Z.mul_le_mono_pos_r _ _ (2 ^ 32)); [lia|]. nia.
  - assert (d * (w * (2 ^ 32 - lw)) <= d * (fact * lw)) by (apply Z.mul_le_mono_nonneg_l; lia). nia.
Qed.

Lemma calc_delta_spec d w lw :
  0 <= d < 2 ^ 64 -> 0 <= w < 2 ^ 32 -> cached_inv lw = None -> 0 < weight lw < 2 ^ 32 -> d * w < 2 ^ 64 * weight lw ->
  exists r, calc_delta d w lw = Ret r /\ 0 <= r < 2 ^ 64 /\ r * weight lw <= d * w
    /\ d * w * (2 ^ 32 - weight lw - 2) < (r + 1) * weight lw * 2 ^ 32.
Proof.
  intros Hd Hw Hc Hlw Hfit. destruct (inv_weight_spec lw Hc Hlw) as (Hi & Hup & Hlo).
  unfold calc_delta, WMULT_SHIFT.
  destruct (shrink_spec 32 w 32) as (k0 & Hk0 & -> & _ & Hc0); [cbn; lia|lia|].
  assert (k0 = 0) as ->.
  { destruct Hc0 as [->|Hc0]; [done|]. destruct (Z.eq_dec k0 0); [done|].
    assert (2 ^ 32 <= 2 ^ (31 + k0)) by (apply Z.pow_le_mono_r; lia). lia. }
  cbn [mbind outcome_bind fst snd]. rewrite Z.pow_0_r, Z.div_1_r, Z.sub_0_r.
  assert (0 <= w * inv_weight lw < 2 ^ 64) as Hfact by nia. rewrite umul_ok by done. sret.
  destruct (shrink_spec 32 (w * inv_weight lw) 32) as (k & Hk & -> & Hb & Hck); [cbn; lia|lia|].
  cbn [mbind outcome_bind fst snd]. rewrite Z.shiftr_div_pow2 by lia.
  destruct (scale_bounds d w (weight lw) (w * inv_weight lw) k _ _ ltac:(lia) ltac:(lia) ltac:(lia) Hk ltac:(lia)
              eq_refl eq_refl ltac:(nia) ltac:(nia) Hck) as [H1 H2].
  set (r := d * (w * inv_weight lw / 2 ^ k) / 2 ^ (32 - k)) in *.
  assert (0 <= r) by (apply Z.div_pos; [apply Z.mul_nonneg_nonneg; [lia|apply Z.div_pos; lia]|apply Z.pow_pos_nonneg; lia]).
  assert (r < 2 ^ 64) by nia. exists r. rewrite as_u64_id by done. done.
Qed.
End weights.

(** ** The operations on the queue *)
Section queue.
Context `{BuildMode} {R Q : Type} `{PS : PriorityQueueSpec R Q} `{Arena}.
Implicit Types (rq : RunQueue Q) (g : Sched Q) (task : SchedTask) (t : Z) (r c : nat).

Definition items rq : gmap Z (ReadyTask R) := pq_items (ready_tasks rq).

Lemma insert_task_fields rq t e l rq' :
  insert_task rq t e l = Ret rq' -> 0 <= nr_running rq < 2 ^ 64 - 1 ->
  items rq' = <[t := e]> (items rq) /\ current_task rq' = current_task rq /\ min_vruntime rq' = min_vruntime rq
  /\ nr_running rq' = if is_current_task rq t then nr_running rq else nr_running rq + 1.
Proof.
  unfold insert_task. intros Hi Hn. destruct (is_current_task rq t); cbn [negb] in Hi.
  - cbn in Hi. injection Hi as <-. unfold items. cbn. by rewrite pq_items_push.
  - rewrite uadd_ok in Hi by lia. cbn [mbind outcome_bind] in Hi. unbind Hi. injection Hi as <-.
    unbind E. injection E as <-. unfold items. cbn. by rewrite pq_items_push.
Qed.

Lemma update_min_fields g rq rq' : update_min_vruntime g rq = Ret rq' -> exists m, rq' = set_min rq m.
Proof. unfold update_min_vruntime. intros Hu. do 3 unbind Hu. injection Hu as <-. eauto. Qed.

(** Removing the task that runs. *)
Lemma remove_task_fields g c r rq task g' :
  remove_task g c r = Ret g' -> queues g !! c = Some rq -> sched_tasks g !! r = Some task ->
  is_current_task rq (s_tid task) = true -> 1 <= nr_running rq < 2 ^ 64 ->
  exists rq', g' = mkSched (<[r := set_on_rq task false]> (sched_tasks g)) (active_tasks g) (<[c := rq']> (queues g))
    /\ items rq' = delete (s_tid task) (items rq) /\ current_task rq' = current_task rq /\ nr_running rq' = nr_running rq - 1.
Proof.
  unfold remove_task, get_queue, get_task. intros Hr Hq Ht Hc Hn. rewrite Hq, Ht in Hr. cbn [expect mbind outcome_bind] in Hr.
  pose proof (pq_remove_spec (ready_tasks rq) (s_tid task)) as [_ Hrm].
  destruct (pq_remove (ready_tasks rq) (s_tid task)) as [old q] eqn:Eq. cbn [snd] in Hrm.
  rewrite Hc, orb_true_r in Hr. cbn [nr_running set_ready load] in Hr. rewrite usub_ok in Hr by lia.
  cbn [mbind outcome_bind] in Hr. do 2 unbind Hr. injection Hr as <-. apply update_min_fields in E0 as (m & ->).
  eexists. split; [reflexivity|]. unfold items. cbn. by rewrite Hrm.
Qed.

Lemma task_tick_fields g c r now rq task g' :
  task_tick g c r now = Ret g' -> queues g !! c = Some rq -> sched_tasks g !! r = Some task ->
  exists rq' task', g' = mkSched (<[r := task']> (sched_tasks g)) (active_tasks g) (<[c := rq']> (queues g))
    /\ s_tid task' = s_tid task /\ run_queue task' = run_queue task /\ on_rq task' = on_rq task
    /\ dom (items rq') = dom (items rq) /\ current_task rq' = current_task rq /\ nr_running rq' = nr_running rq.
Proof.
  unfold task_tick, get_task. intros Hk Hq Ht. rewrite Ht in Hk. cbn [expect mbind outcome_bind] in Hk. unbind Hk.
  unfold tick in E. do 4 unbind E. injection E as <-. unfold get_queue in Hk. cbn [queues put_task] in Hk.
  rewrite Hq in Hk. cbn [expect mbind outcome_bind] in Hk. unbind Hk. injection Hk as <-.
  apply update_min_fields in E as (m & ->). do 2 eexists. split_and!; [reflexivity..| |done|done].
  unfold items. cbn. by rewrite pq_items_change, dom_alter_L.
Qed.

Lemma schedule_fn_fields g r x rq task g' :
  schedule_fn g r x = Ret g' -> sched_tasks g !! r = Some task -> queues g !! run_queue task = Some rq ->
  0 <= nr_running rq < 2 ^ 64 - 1 ->
  exists rq' task' e, g' = mkSched (<[r := task']> (sched_tasks g)) (active_tasks g) (<[run_queue task := rq']> (queues g))
    /\ s_tid task' = s_tid task /\ run_queue task' = run_queue task /\ on_rq task' = true
    /\ items rq' = <[s_tid task := e]> (items rq) /\ current_task rq' = current_task rq
    /\ nr_running rq' = if is_current_task rq (s_tid task) then nr_running rq else nr_running rq + 1.
Proof.
  unfold schedule_fn, get_task, get_queue. intros Hs Ht Hq Hn. rewrite Ht in Hs. cbn [expect mbind outcome_bind] in Hs.
  cbn [run_queue set_on_rq] in Hs. rewrite Hq in Hs. cbn [expect mbind outcome_bind] in Hs. do 3 unbind Hs. injection Hs as <-.
  cbn [s_tid set_vruntime set_on_rq s_load] in E1. apply insert_task_fields in E1 as (Hi & Hc & _ & Hr); [|done].
  do 3 eexists. split_and!; [reflexivity..|exact Hi|exact Hc|exact Hr].
Qed.

(** With a single queue there is nothing to steal. *)
Lemma single_no_steal g rq ql l : queues g = {[ 0%nat := rq ]} -> try_steal_tasks g 0 ql l = Ret g.
Proof. intros Hq. unfold try_steal_tasks, other_queues. by rewrite Hq, map_size_singleton. Qed.

Lemma choose_ready g rq t : choose g rq = Ret t -> nr_running rq < 2 \/ is_current_task rq t = true \/ is_Some (items rq !! t).
Proof.
  unfold choose, peek. intros Hc. destruct (Z.ltb_spec (nr_running rq) 2); [by left|right].
  assert (Hpk : forall q y, expect "called unwrap on a None value" (pq_peek q) = Ret y -> is_Some (pq_items q !! y.1)).
  { intros q [t' e] Hp. destruct (pq_peek q) eqn:E; [|done]. cbn in Hp. injection Hp as ->. exists e. by apply pq_peek_some. }
  destruct (current_task rq) as [[t0 r0]|] eqn:Ec.
  - do 2 unbind Hc. destruct a0.
    + pose proof (pq_remove_spec (ready_tasks rq) t0) as [_ Hrm]. destruct (pq_remove (ready_tasks rq) t0) as [old q].
      unbind Hc. injection Hc as <-. right. apply Hpk in E1 as [e He]. cbn in Hrm. rewrite Hrm in He.
      apply lookup_delete_Some in He as [_ He]. by exists e.
    + injection Hc as <-. left. unfold is_current_task. rewrite Ec. apply Z.eqb_refl.
  - unbind Hc. injection Hc as <-. right. by apply Hpk.
Qed.

Lemma pop_fields g rq now ql l t r x g' :
  pop_task_to_run g 0 now ql l = Ret (t, r, x, g') -> queues g = {[ 0%nat := rq ]} ->
  exists e task, items rq !! t = Some e /\ x = runnable e /\ active_tasks g !! t = Some r /\ sched_tasks g !! r = Some task
    /\ choose g rq = Ret t
    /\ g' = mkSched (<[r := set_exec_start task now]> (sched_tasks g)) (active_tasks g)
              (<[0%nat := set_current (set_ready rq (pq_remove (ready_tasks rq) t).2) (Some (t, r))]> (queues g)).
Proof.
  intros Hp Hq. unfold pop_task_to_run in Hp.
  assert (get_queue g 0 = Ret rq) as Hg by (unfold get_queue; by rewrite Hq, lookup_singleton_eq).
  rewrite Hg in Hp. cbn [mbind outcome_bind] in Hp.
  assert ((if nr_running rq <? 2 then try_steal_tasks g 0 ql l else Ret g) = Ret g) as Hs
    by (destruct (nr_running rq <? 2); [by eapply single_no_steal|done]).
  rewrite Hs in Hp. cbn [mbind outcome_bind] in Hp. rewrite Hg in Hp. cbn [mbind outcome_bind] in Hp. unbind Hp.
  pose proof (pq_remove_spec (ready_tasks rq) a) as [Hold _]. destruct (pq_remove (ready_tasks rq) a) as [old q] eqn:Er.
  cbn [fst] in Hold. do 3 unbind Hp. injection Hp as <- <- <- <-.
  destruct old as [e|]; [|done]. cbn in E0. injection E0 as <-.
  destruct (active_tasks g !! a) as [r0|] eqn:Ea; [|done]. cbn in E1. injection E1 as <-.
  unfold get_task in E2. destruct (sched_tasks g !! r0) as [task|] eqn:Et; [|done]. cbn in E2. injection E2 as <-.
  exists e, task. rewrite Er. split_and!; done.
Qed.

Lemma spawn_fields g c nice parent x rq r g' :
  spawn g c nice parent x = Ret (r, g') -> queues g !! c = Some rq -> 0 <= nr_running rq < 2 ^ 64 - 1 ->
  exists rq' task e, g' = mkSched (<[r := task]> (sched_tasks g)) (<[next_vacant (active_tasks g) := r]> (active_tasks g)) (<[c := rq']> (queues g))
    /\ sched_tasks g !! r = None /\ s_tid task = next_vacant (active_tasks g) /\ run_queue task = c
    /\ items rq' = <[next_vacant (active_tasks g) := e]> (items rq) /\ current_task rq' = current_task rq
    /\ nr_running rq' = if is_current_task rq (next_vacant (active_tasks g)) then nr_running rq else nr_running rq + 1.
Proof.
  unfold spawn, get_queue. intros Hs Hq Hn. rewrite Hq in Hs. cbn [expect mbind outcome_bind] in Hs.
  unbind Hs. unbind Hs. unbind Hs. unbind Hs. injection Hs as <- <-.
  unfold task_new in E0. unbind E0. injection E0 as <-.
  change (feature START_DEBIT) with true in E1. cbn iota in E1. do 3 unbind E1. injection E1 as <-.
  cbn [s_load set_vruntime vruntime] in E2. apply insert_task_fields in E2 as (Hi & Hc & _ & Hr); [|done].
  do 3 eexists. split_and!; [reflexivity| |reflexivity|reflexivity|exact Hi|exact Hc|exact Hr].
  apply not_elem_of_dom, is_fresh.
Qed.

(** ** One processor as a state machine *)

(** Between two turns the executor chooses; then a task runs. *)
Inductive phase := Choosing | Running (t : Z) (r : nat).

(** The steps of one processor with no other to steal from: a task is popped,
    and then yields or goes to sleep; meanwhile tasks are spawned, and tasks
    other than the current one are woken. *)
Inductive step : Sched Q * phase -> Sched Q * phase -> Prop :=
  | step_pop g now ql l t r x g' : pop_task_to_run g 0 now ql l = Ret (t, r, x, g') -> step (g, Choosing) (g', Running t r)
  | step_yield g t r x later g1 g' :
      schedule_fn g r x = Ret g1 -> task_tick g1 0 r later = Ret g' -> step (g, Running t r) (g', Choosing)
  | step_sleep g t r later g1 g' :
      remove_task g 0 r = Ret g1 -> task_tick g1 0 r later = Ret g' -> step (g, Running t r) (g', Choosing)
  | step_wake g ph rq t r x g' :
      queues g !! 0%nat = Some rq -> active_tasks g !! t = Some r -> items rq !! t = None -> is_current_task rq t = false ->
      nr_running rq < 2 ^ 63 -> schedule_fn g r x = Ret g' -> step (g, ph) (g', ph)
  | step_spawn g ph rq nice parent x r g' :
      queues g !! 0%nat = Some rq -> nr_running rq < 2 ^ 63 ->
      spawn g 0 nice parent x = Ret (r, g') -> step (g, ph) (g', ph).

(** The references are consistent: every active task is in the heap under its
    number, and the ready and the current tasks are active. *)
Definition refs_ok g rq : Prop :=
  (forall t r, active_tasks g !! t = Some r -> exists task, sched_tasks g !! r = Some task /\ s_tid task = t /\ run_queue task = 0%nat)
  /\ (forall t, is_Some (items rq !! t) -> is_Some (active_tasks g !! t))
  /\ (forall t r, current_task rq = Some (t, r) -> active_tasks g !! t = Some r).

(** The count of runnable tasks is right, and a current task that is on the
    queue is among the ready ones while the executor chooses. *)
Definition count_ok g rq (ph : phase) : Prop :=
  match ph with
  | Choosing => nr_running rq = Z.of_nat (size (items rq))
      /\ forall t r task, current_task rq = Some (t, r) -> sched_tasks g !! r = Some task -> on_rq task = true -> is_Some (items rq !! t)
  | Running t r => nr_running rq = Z.of_nat (size (items rq)) + 1 /\ current_task rq = Some (t, r) /\ items rq !! t = None
  end.

Definition sched_inv (s : Sched Q * phase) : Prop :=
  exists rq, queues s.1 = {[ 0%nat := rq ]} /\ refs_ok s.1 rq /\ count_ok s.1 rq s.2 /\ nr_running rq <= 2 ^ 63.

Lemma insert_singleton_0 rq rq' : <[0%nat := rq']> ({[ 0%nat := rq ]} : gmap nat (RunQueue Q)) = {[ 0%nat := rq' ]}.
Proof. apply insert_singleton_eq. Qed.

Lemma size_insert_new {V} (m : gmap Z V) t e : m !! t = None -> Z.of_nat (size (<[t := e]> m)) = Z.of_nat (size m) + 1.
Proof. intros Ht. rewrite map_size_insert_None by done. lia. Qed.

Lemma size_same {V} (m m' : gmap Z V) : dom m = dom m' -> size m = size m'.
Proof. intros Hd. by rewrite <- !size_dom, Hd. Qed.

Lemma dom_some {V} (m m' : gmap Z V) t : dom m = dom m' -> is_Some (m !! t) -> is_Some (m' !! t).
Proof. rewrite <- !elem_of_dom. by intros ->. Qed.

(** Changing a task without changing its number or its queue keeps the
    references consistent. *)
Lemma refs_ok_task g rq rq' r task task' (aq : gmap nat (RunQueue Q)) :
  refs_ok g rq -> sched_tasks g !! r = Some task -> s_tid task' = s_tid task -> run_queue task' = run_queue task ->
  (forall t, is_Some (items rq' !! t) -> is_Some (active_tasks g !! t)) ->
  (forall t r, current_task rq' = Some (t, r) -> active_tasks g !! t = Some r) ->
  refs_ok (mkSched (<[r := task']> (sched_tasks g)) (active_tasks g) aq) rq'.
Proof.
  intros (Hact & _ & _) Ht Hs Hq Hitems Hcur. split_and!; [|done|done]. cbn. intros t0 r0 Ha.
  destruct (Hact t0 r0 Ha) as (task0 & Ht0 & Hs0 & Hq0). destruct (decide (r0 = r)) as [->|Hne].
  - rewrite Ht in Ht0. injection Ht0 as <-. exists task'. rewrite lookup_insert_eq. split_and!; congruence.
  - exists task0. by rewrite lookup_insert_ne.
Qed.

Lemma is_current_some rq t r : current_task rq = Some (t, r) -> forall u, is_current_task rq u = (t =? u).
Proof. intros Hc u. unfold is_current_task. by rewrite Hc. Qed.

Lemma single_lookup g rq : queues g = {[ 0%nat := rq ]} -> queues g !! 0%nat = Some rq.
Proof. intros ->. apply lookup_singleton_eq. Qed.

Lemma single_inj g rq rq' : queues g = {[ 0%nat := rq ]} -> queues g = {[ 0%nat := rq' ]} -> rq = rq'.
Proof. intros H1' H2'. apply single_lookup in H1', H2'. congruence. Qed.

Lemma pop_inv g now ql l t r x g' :
  pop_task_to_run g 0 now ql l = Ret (t, r, x, g') -> sched_inv (g, Choosing) -> sched_inv (g', Running t r).
Proof.
  intros Hp (rq & Hq & Hrefs & [Hn _] & Hsz). cbn [fst snd] in *.
  destruct (pop_fields g rq now ql l t r x g' Hp Hq) as (e & task & He & _ & Ha & Ht & _ & ->).
  pose proof (pq_remove_spec (ready_tasks rq) t) as [_ Hrm]. fold (items rq) in Hrm.
  set (rq' := set_current (set_ready rq (pq_remove (ready_tasks rq) t).2) (Some (t, r))).
  assert (items rq' = delete t (items rq)) as Hi by exact Hrm. exists rq'. cbn [fst snd queues]. split_and!.
  - by rewrite Hq, insert_singleton_0.
  - destruct Hrefs as (Hact & Hin & Hcur). eapply (refs_ok_task g rq); [by split_and!|done..| |].
    + intros u [y Hy]. rewrite Hi in Hy. apply Hin.
      apply lookup_delete_Some in Hy as [_ Hy]. by exists y.
    + cbn. by intros u v [= <- <-].
  - cbn [count_ok]. rewrite Hi. split_and!; [|done|apply lookup_delete_eq].
    change (nr_running rq') with (nr_running rq). rewrite Hn, map_size_delete_Some by eauto. assert (size (items rq) ≠ 0%nat); [|lia].
    intros Hz. apply map_size_empty_inv in Hz. by rewrite Hz, lookup_empty in He.
  - done.
Qed.

Lemma tick_inv g r now g' rq t task :
  task_tick g 0 r now = Ret g' -> queues g = {[ 0%nat := rq ]} -> sched_tasks g !! r = Some task -> refs_ok g rq ->
  current_task rq = Some (t, r) -> nr_running rq = Z.of_nat (size (items rq)) ->
  (on_rq task = true -> is_Some (items rq !! t)) -> nr_running rq <= 2 ^ 63 -> sched_inv (g', Choosing).
Proof.
  intros Hk Hq Ht Hrefs Hc Hn Hon Hsz.
  destruct (task_tick_fields g 0 r now rq task g' Hk (single_lookup g rq Hq) Ht) as (rq' & task' & -> & Hs & Hr & Ho & Hd & Hc' & Hn').
  exists rq'. cbn [fst snd queues]. split_and!.
  - by rewrite Hq, insert_singleton_0.
  - pose proof Hrefs as (_ & Hin & Hcur). eapply (refs_ok_task g rq); [done..| |].
    + intros u Hu. apply Hin. eapply dom_some; [exact Hd|done].
    + rewrite Hc'. apply Hcur.
  - split; [by rewrite (size_same _ _ Hd), Hn', Hn|]. intros t0 r0 task0 Hc0 Ht0 Hon0. rewrite Hc', Hc in Hc0. injection Hc0 as <- <-. cbn in Ht0. rewrite lookup_insert_eq in Ht0.
    injection Ht0 as <-. eapply dom_some; [symmetry; exact Hd|]. apply Hon. congruence.
  - by rewrite Hn'.
Qed.

Lemma yield_inv g t r x later g1 g' :
  schedule_fn g r x = Ret g1 -> task_tick g1 0 r later = Ret g' -> sched_inv (g, Running t r) -> sched_inv (g', Choosing).
Proof.
  intros Hs Hk (rq & Hq & Hrefs & (Hn & Hc & Hi) & Hsz). cbn [fst snd] in *.
  pose proof Hrefs as (Hact & Hin & Hcur). destruct (Hact t r (Hcur t r Hc)) as (task & Ht & Htid & Hrq).
  destruct (schedule_fn_fields g r x rq task g1 Hs Ht) as (rq' & task' & e & -> & Hs' & Hr' & Ho' & Hi' & Hc' & Hn');
    [rewrite Hrq; by apply single_lookup|lia|].
  rewrite (is_current_some rq t r Hc), Htid, Z.eqb_refl in Hn'. rewrite Htid in Hi'. rewrite Hrq, Hq, insert_singleton_0 in Hk.
  eapply tick_inv; [exact Hk|reflexivity|apply lookup_insert_eq| |by rewrite Hc'| | |].
  - eapply refs_ok_task; [exact Hrefs|exact Ht|done|done| |].
    + intros u. rewrite Hi'. intros [y Hy]. apply lookup_insert_Some in Hy as [[<- _]|[_ Hy]]; [eauto|apply Hin; by exists y].
    + by rewrite Hc'.
  - rewrite Hi', size_insert_new by done. lia.
  - intros _. rewrite Hi', lookup_insert_eq. by eexists.
  - lia.
Qed.

Lemma sleep_inv g t r later g1 g' :
  remove_task g 0 r = Ret g1 -> task_tick g1 0 r later = Ret g' -> sched_inv (g, Running t r) -> sched_inv (g', Choosing).
Proof.
  intros Hs Hk (rq & Hq & Hrefs & (Hn & Hc & Hi) & Hsz). cbn [fst snd] in *.
  pose proof Hrefs as (Hact & Hin & Hcur). destruct (Hact t r (Hcur t r Hc)) as (task & Ht & Htid & Hrq).
  destruct (remove_task_fields g 0 r rq task g1 Hs (single_lookup g rq Hq) Ht) as (rq' & -> & Hi' & Hc' & Hn');
    [by rewrite (is_current_some rq t r Hc), Htid, Z.eqb_refl|lia|].
  rewrite Htid, delete_id in Hi' by done. rewrite Hq, insert_singleton_0 in Hk.
  eapply tick_inv; [exact Hk|reflexivity|apply lookup_insert_eq| |by rewrite Hc'|rewrite Hi'; lia|done|lia].
  eapply refs_ok_task; [exact Hrefs|exact Ht|done|done|by rewrite Hi'|by rewrite Hc'].
Qed.

(** A ready task more, in either phase. *)
Lemma count_ok_insert g g' rq rq' ph t e :
  count_ok g rq ph -> is_current_task rq t = false -> items rq !! t = None ->
  items rq' = <[t := e]> (items rq) -> current_task rq' = current_task rq -> nr_running rq' = nr_running rq + 1 ->
  (forall u r task', u ≠ t -> current_task rq = Some (u, r) -> sched_tasks g' !! r = Some task' ->
     exists task, sched_tasks g !! r = Some task /\ on_rq task' = on_rq task) ->
  count_ok g' rq' ph.
Proof.
  intros Hok Hcur Hnew Hi Hc Hn Htasks. unfold is_current_task in Hcur. destruct ph as [|t0 r0]; cbn [count_ok] in *.
  - destruct Hok as [Hcount Hon]. split; [rewrite Hi, size_insert_new by done; lia|].
    intros u r task' Hcu Ht' Ho. rewrite Hc in Hcu. rewrite Hcu in Hcur. apply Z.eqb_neq in Hcur.
    destruct (Htasks u r task' ltac:(done) Hcu Ht') as (task & Ht & Ho'). rewrite Hi, lookup_insert_ne by done.
    apply (Hon u r task); [done|done|congruence].
  - destruct Hok as (Hcount & Hcu & Hnone). rewrite Hcu in Hcur. apply Z.eqb_neq in Hcur.
    rewrite Hi, Hc, size_insert_new, lookup_insert_ne by done. split_and!; [lia|done|done].
Qed.

Lemma wake_inv g ph rq t r x g' :
  queues g !! 0%nat = Some rq -> active_tasks g !! t = Some r -> items rq !! t = None -> is_current_task rq t = false ->
  nr_running rq < 2 ^ 63 -> schedule_fn g r x = Ret g' -> sched_inv (g, ph) -> sched_inv (g', ph).
Proof.
  intros Hq0 Ha Hnew Hcur Hlt Hs (rq0 & Hq & Hrefs & Hok & Hsz). cbn [fst snd] in *.
  rewrite (single_lookup g rq0 Hq) in Hq0. injection Hq0 as ->.
  pose proof Hrefs as (Hact & Hin & Hcu). destruct (Hact t r Ha) as (task & Ht & Htid & Hrq).
  assert (0 <= nr_running rq) by (destruct ph; cbn [count_ok] in Hok; destruct Hok as [-> _]; lia).
  destruct (schedule_fn_fields g r x rq task g' Hs Ht) as (rq' & task' & e & -> & Hs' & Hr' & _ & Hi' & Hc' & Hn');
    [rewrite Hrq; by apply single_lookup|lia|].
  rewrite Htid, Hcur in Hn'. rewrite Htid in Hi'. exists rq'. cbn [fst snd queues]. split_and!.
  - by rewrite Hrq, Hq, insert_singleton_0.
  - eapply refs_ok_task; [exact Hrefs|exact Ht|done|done| |].
    + intros u. rewrite Hi'. intros [y Hy]. apply lookup_insert_Some in Hy as [[<- _]|[_ Hy]]; [eauto|apply Hin; by exists y].
    + by rewrite Hc'.
  - eapply (count_ok_insert g); [exact Hok|exact Hcur|exact Hnew|exact Hi'|exact Hc'|exact Hn'|].
    intros u r0 task0 Hu Hcu0 Ht0. cbn in Ht0. rewrite lookup_insert_ne in Ht0; [eauto|]. intros <-.
    destruct (Hact u r (Hcu u r Hcu0)) as (task1 & Ht1 & Htid1 & _). congruence.
  - lia.
Qed.

Lemma spawn_inv `{!ArenaSpec} g ph rq nice parent x r g' :
  queues g !! 0%nat = Some rq -> nr_running rq < 2 ^ 63 -> spawn g 0 nice parent x = Ret (r, g') ->
  sched_inv (g, ph) -> sched_inv (g', ph).
Proof.
  intros Hq0 Hlt Hs (rq0 & Hq & Hrefs & Hok & Hsz). cbn [fst snd] in *.
  rewrite (single_lookup g rq0 Hq) in Hq0. injection Hq0 as ->. pose proof Hrefs as (Hact & Hin & Hcu).
  assert (0 <= nr_running rq) by (destruct ph; cbn [count_ok] in Hok; destruct Hok as [-> _]; lia).
  destruct (spawn_fields g 0 nice parent x rq r g' Hs (single_lookup g rq Hq)) as (rq' & task & e & -> & Hfr & Htid & Hrq & Hi' & Hc' & Hn'); [lia|].
  pose proof (next_vacant_fresh (active_tasks g)) as HA. set (t := next_vacant (active_tasks g)) in *.
  assert (items rq !! t = None) as Hnew.
  { destruct (items rq !! t) eqn:Ei; [|done]. destruct (Hin t) as [? ?]; [by exists r0|congruence]. }
  assert (is_current_task rq t = false) as Hcur.
  { unfold is_current_task. destruct (current_task rq) as [[u v]|] eqn:Ec; [|done]. apply Z.eqb_neq. intros ->.
    rewrite (Hcu t v eq_refl) in HA. done. }
  rewrite Hcur in Hn'. exists rq'. cbn [fst snd queues]. split_and!; [by rewrite Hq, insert_singleton_0| | |lia].
  - split_and!; cbn.
    + intros u v Hu. apply lookup_insert_Some in Hu as [[<- <-]|[Hne Hu]].
      * exists task. by rewrite lookup_insert_eq.
      * destruct (Hact u v Hu) as (tk & Htk & ? & ?). exists tk. rewrite lookup_insert_ne; [done|congruence].
    + intros u [y Hy]. rewrite Hi' in Hy. apply lookup_insert_Some in Hy as [[<- _]|[Hne Hy]]; [rewrite lookup_insert_eq; eauto|].
      rewrite lookup_insert_ne by done. apply Hin. by exists y.
    + intros u v Hu. rewrite Hc' in Hu. rewrite lookup_insert_ne; [by apply Hcu|]. intros <-. rewrite (Hcu t v Hu) in HA. done.
  - eapply (count_ok_insert g); [exact Hok|exact Hcur|exact Hnew|exact Hi'|exact Hc'|exact Hn'|].
    intros u r0 task0 Hu Hcu0 Ht0. cbn in Ht0. destruct (Hact u r0 (Hcu u r0 Hcu0)) as (task1 & Ht1 & _).
    rewrite lookup_insert_ne in Ht0 by congruence. eauto.
Qed.

(** ** Virtual run times below 2^63 are ordered as integers *)

Definition bounded (v : Z) : Prop := 0 <= v < 2 ^ 63.

Lemma vr_cmp_ok a b : bounded a -> bounded b -> vr_cmp a b = Ret (a ?= b).
Proof.
  unfold bounded. intros Ha Hb. unfold vr_cmp. rewrite !as_i64_small by done.
  assert (isub a b = Ret (a - b)) as -> by (apply i64_ok; unfold is_i64; lia). sret. f_equal.
  destruct (Z.compare_spec a b), (Z.compare_spec (a - b) 0); first [done|lia].
Qed.

Lemma vr_max_ok a b : bounded a -> bounded b -> vr_max a b = Ret (Z.max a b).
Proof. intros Ha Hb. unfold vr_max. rewrite vr_cmp_ok by done. cbn. f_equal. destruct (Z.compare_spec a b); lia. Qed.

Lemma vr_min_ok a b : bounded a -> bounded b -> vr_min a b = Ret (Z.min a b).
Proof. intros Ha Hb. unfold vr_min. by rewrite vr_cmp_ok. Qed.

(** The keys of the ready tasks. *)
Definition keys_bounded rq : Prop := forall t e, items rq !! t = Some e -> bounded (r_vruntime e).

Lemma peek_least rq q t e : keys_bounded rq -> pq_items q ⊆ items rq -> pq_peek q = Some (t, e) ->
  pq_items q !! t = Some e /\ forall u x, pq_items q !! u = Some x -> r_vruntime e <= r_vruntime x.
Proof.
  intros Hb Hsub Hp. assert (Ht : pq_items q !! t = Some e) by (by apply pq_peek_some). split; [done|].
  intros u x Hx. assert (Hbq : forall v y, pq_items q !! v = Some y -> bounded (r_vruntime y)).
  { intros v y Hy. eapply Hb, lookup_weaken; done. }
  destruct (pq_peek_max q t e Hbq Hp u x Hx) as [Hc|Hc]; unfold ready_cmp in Hc; rewrite vr_cmp_ok in Hc by eauto;
    cbn in Hc; injection Hc as Hc; destruct (Z.compare_spec (r_vruntime x) (r_vruntime e)); first [done|lia].
Qed.

Lemma update_min_total g rq :
  bounded (min_vruntime rq) -> keys_bounded rq ->
  (forall t r, current_task rq = Some (t, r) -> exists task, sched_tasks g !! r = Some task /\ bounded (vruntime task)) ->
  exists m, update_min_vruntime g rq = Ret (set_min rq m) /\ bounded m /\ min_vruntime rq <= m.
Proof.
  intros Hm Hk Hc. unfold update_min_vruntime.
  assert (exists v, (match current_task rq with
                     | Some (_, r) => c ← get_task g r; Ret (if on_rq c then vruntime c else min_vruntime rq)
                     | None => Ret (min_vruntime rq) end) = Ret v /\ bounded v) as (v & -> & Hv).
  { destruct (current_task rq) as [[t r]|]; [|eauto]. destruct (Hc t r eq_refl) as (task & Ht & Hb). unfold get_task. rewrite Ht.
    cbn. destruct (on_rq task); eauto. }
  sret.
  assert (exists v', (match pq_peek (ready_tasks rq) with
                      | Some (_, next) => match current_task rq with None => Ret (r_vruntime next) | Some _ => vr_min v (r_vruntime next) end
                      | None => Ret v end) = Ret v' /\ bounded v') as (v' & -> & Hv').
  { destruct (pq_peek (ready_tasks rq)) as [[t e]|] eqn:Hp; [|eauto].
    assert (bounded (r_vruntime e)) as He by (eapply Hk; by apply pq_peek_some).
    destruct (current_task rq); [|eauto]. rewrite vr_min_ok by done. eexists. split; [done|]. unfold bounded in *. lia. }
  sret. rewrite vr_max_ok by done. cbn. eexists. split_and!; [done| |lia]. unfold bounded in *. lia.
Qed.

(** Removing the task that runs always works out. *)
Lemma remove_current_total g r rq t task :
  queues g !! 0%nat = Some rq -> sched_tasks g !! r = Some task -> s_tid task = t -> current_task rq = Some (t, r) ->
  items rq !! t = None -> bounded (min_vruntime rq) -> keys_bounded rq -> bounded (vruntime task) ->
  1 <= nr_running rq < 2 ^ 64 -> 0 <= weight (s_load task) <= weight (load rq) -> weight (load rq) < 2 ^ 64 ->
  exists rq', remove_task g 0 r = Ret (mkSched (<[r := set_on_rq task false]> (sched_tasks g)) (active_tasks g) (<[0%nat := rq']> (queues g)))
    /\ items rq' = items rq /\ current_task rq' = current_task rq /\ nr_running rq' = nr_running rq - 1
    /\ weight (load rq') = weight (load rq) - weight (s_load task) /\ bounded (min_vruntime rq') /\ keys_bounded rq'
    /\ min_vruntime rq <= min_vruntime rq'.
Proof.
  intros Hq Ht Htid Hc Hi Hm Hk Hv Hn Hw Hl. unfold remove_task, get_queue, get_task. rewrite Hq, Ht. sret.
  pose proof (pq_remove_spec (ready_tasks rq) (s_tid task)) as [_ Hrm]. rewrite Htid in *. fold (items rq) in Hrm.
  rewrite delete_id in Hrm by done. destruct (pq_remove (ready_tasks rq) t) as [old q]. cbn [snd] in Hrm.
  rewrite (is_current_some rq t r Hc), Z.eqb_refl, orb_true_r. cbn [nr_running load set_ready]. ostep. unfold load_sub. ostep.
  match goal with |- context [update_min_vruntime ?g' ?rq'] => destruct (update_min_total g' rq') as (m & -> & Hbm & Hle) end.
  - done.
  - intros u e Hu. unfold items in Hu. cbn in Hu. rewrite Hrm in Hu. by apply (Hk u).
  - cbn. intros u v Hu. rewrite Hc in Hu. injection Hu as <- <-. rewrite lookup_insert_eq. eauto.
  - sret. eexists. split; [reflexivity|]. cbn in *. split_and!; try done.
    intros u e Hu. unfold items in Hu. cbn in Hu. rewrite Hrm in Hu. by apply (Hk u).
Qed.

(** ** Choosing the next task *)

(** The numbers of the queue are in the range they are meant for. *)
Definition queue_fits g rq : Prop :=
  0 <= nr_running rq < 2 ^ 32 /\ cached_inv (load rq) = None /\ 0 < weight (load rq) < 2 ^ 31 /\ keys_bounded rq
  /\ forall t r task, current_task rq = Some (t, r) -> sched_tasks g !! r = Some task ->
       0 <= weight (s_load task) <= weight (load rq) /\ 0 <= prev_sum_exec_runtime task <= sum_exec_runtime task
       /\ sum_exec_runtime task < 2 ^ 64 /\ bounded (vruntime task).

Lemma sched_slice_total rq task :
  0 <= nr_running rq < 2 ^ 32 -> cached_inv (load rq) = None -> 0 < weight (load rq) < 2 ^ 31 ->
  0 <= weight (s_load task) <= weight (load rq) -> exists s, sched_slice rq task = Ret s /\ 0 <= s < 2 ^ 64.
Proof.
  intros Hn Hc Hl Hw. unfold sched_slice.
  set (b := if on_rq task then 0 else 1). assert (0 <= b <= 1) by (subst b; destruct (on_rq task); lia).
  ostep.
  assert (exists p, sched_period (nr_running rq + b) = Ret p /\ 0 <= p < 2 ^ 64) as (p & -> & Hp).
  { unfold sched_period, SCHED_MIN_GRANULARITY, SCHED_NR_LATENCY, SCHED_LATENCY. destruct (8 <? nr_running rq + b).
    - rewrite umul_ok by lia. eexists. split; [done|lia].
    - eexists. split; [done|lia]. }
  sret.
  assert (exists l, (if negb (on_rq task) then load_add (load rq) (s_load task) else Ret (load rq)) = Ret l
            /\ cached_inv l = None /\ 0 < weight l < 2 ^ 32 /\ weight (s_load task) <= weight l) as (l & -> & Hcl & Hwl & Hle).
  { destruct (on_rq task); cbn [negb]; [exists (load rq); split_and!; [done|done|lia|lia|lia]|].
    unfold load_add. rewrite uadd_ok by lia. cbn. eexists. split_and!; [done|done|cbn; lia|cbn; lia|cbn; lia]. }
  sret.
  destruct (calc_delta_spec p (weight (s_load task)) l) as (x & -> & Hx & _); [lia|lia|done|lia|nia|]. eauto.
Qed.

Lemma preempt_total rq task :
  0 <= nr_running rq < 2 ^ 32 -> cached_inv (load rq) = None -> 0 < weight (load rq) < 2 ^ 31 -> keys_bounded rq ->
  0 <= weight (s_load task) <= weight (load rq) -> 0 <= prev_sum_exec_runtime task <= sum_exec_runtime task ->
  sum_exec_runtime task < 2 ^ 64 -> bounded (vruntime task) -> items rq ≠ ∅ ->
  exists b, preempt_current rq task = Ret b /\ (b = false -> on_rq task = true).
Proof.
  intros Hn Hc Hl Hk Hw Hprev Hs Hv Hne. unfold preempt_current.
  destruct (sched_slice_total rq task Hn Hc Hl Hw) as (ideal & -> & Hid). sret.
  ostep. destruct (on_rq task); cbn [negb orb]; [|by eexists].
  destruct (ideal <? _); [by eexists|]. destruct (_ <? SCHED_MIN_GRANULARITY); [by eexists|].
  unfold peek. destruct (pq_peek (ready_tasks rq)) as [[t e]|] eqn:Hp; [|by apply pq_peek_none in Hp].
  cbn [expect mbind outcome_bind snd]. assert (bounded (r_vruntime e)) as He by (eapply Hk; by apply pq_peek_some).
  unfold vr_delta, bounded in *. rewrite (as_i64_small (vruntime task)), (as_i64_small (r_vruntime e)) by done.
  unfold isub. rewrite i64_ok by (unfold is_i64; lia).
  by eexists.
Qed.

(** The choice, with the reason for it. *)
Lemma choose_spec g rq :
  sched_inv (g, Choosing) -> queues g = {[ 0%nat := rq ]} -> items rq ≠ ∅ -> queue_fits g rq ->
  exists t e, choose g rq = Ret t /\ items rq !! t = Some e
    /\ (is_current_task rq t = true \/ forall u x, items rq !! u = Some x -> is_current_task rq u = false -> r_vruntime e <= r_vruntime x).
Proof.
  intros (rq0 & Hq0 & (Hact & Hin & Hcur) & [Hn Hon] & _) Hq Hne (Hnr & Hc & Hl & Hk & Hcurfit). cbn [fst snd] in *.
  pose proof (single_inj g rq rq0 Hq Hq0) as <-.
  assert (Hpeek : exists t e, peek rq = Ret (t, e) /\ items rq !! t = Some e
            /\ forall u x, items rq !! u = Some x -> r_vruntime e <= r_vruntime x).
  { unfold peek. destruct (pq_peek (ready_tasks rq)) as [[t e]|] eqn:Hp; [|by apply pq_peek_none in Hp].
    exists t, e. split; [done|]. by apply (peek_least rq). }
  unfold choose. destruct (Z.ltb_spec (nr_running rq) 2) as [Hlt|Hge].
  { destruct Hpeek as (t & e & -> & Ht & Hmin). exists t, e. split_and!; [done..|]. right. eauto. }
  destruct (current_task rq) as [[t0 r0]|] eqn:Ec.
  2:{ destruct Hpeek as (t & e & -> & Ht & Hmin). exists t, e. split_and!; [done..|]. right. eauto. }
  destruct (Hact t0 r0 (Hcur t0 r0 eq_refl)) as (task & Ht & Htid & _). unfold get_task. rewrite Ht. sret.
  destruct (Hcurfit t0 r0 task eq_refl Ht) as (Hw & Hp & Hs & Hv).
  destruct (preempt_total rq task Hnr Hc Hl Hk Hw Hp Hs Hv Hne) as (b & -> & Hb). sret. destruct b.
  - pose proof (pq_remove_spec (ready_tasks rq) t0) as [_ Hrm]. fold (items rq) in Hrm.
    destruct (pq_remove (ready_tasks rq) t0) as [old q]. cbn [snd] in Hrm.
    destruct (pq_peek q) as [[t e]|] eqn:Hpk.
    + destruct (peek_least rq q t e Hk ltac:(rewrite Hrm; apply delete_subseteq) Hpk) as [Hte Hmin]. rewrite Hrm in Hte.
      exists t, e. split_and!; [done|by apply lookup_delete_Some in Hte as [_ Hte]|]. right. intros u x Hu Hnc. apply (Hmin u).
      rewrite (is_current_some rq t0 r0 Ec) in Hnc. apply Z.eqb_neq in Hnc. by rewrite Hrm, lookup_delete_ne.
    + apply pq_peek_none in Hpk. rewrite Hrm in Hpk. exfalso. apply (f_equal size) in Hpk. rewrite map_size_empty in Hpk.
      destruct (items rq !! t0) eqn:E0; [rewrite map_size_delete_Some in Hpk by eauto|rewrite delete_id in Hpk by done]; lia.
  - destruct (Hon t0 r0 task eq_refl Ht (Hb eq_refl)) as [e He]. exists t0, e. split_and!; [done..|]. left.
    by rewrite (is_current_some rq t0 r0 Ec), Z.eqb_refl.
Qed.

Lemma pop_total g rq now ql l :
  sched_inv (g, Choosing) -> queues g = {[ 0%nat := rq ]} -> items rq ≠ ∅ -> queue_fits g rq ->
  exists t r x g', pop_task_to_run g 0 now ql l = Ret (t, r, x, g').
Proof.
  intros Hinv Hq Hne Hfit. destruct (choose_spec g rq Hinv Hq Hne Hfit) as (t & e & Hch & He & _).
  destruct Hinv as (rq0 & Hq0 & (Hact & Hin & Hcur) & _). cbn [fst snd] in *. pose proof (single_inj g rq rq0 Hq Hq0) as <-.
  unfold pop_task_to_run.
  assert (get_queue g 0 = Ret rq) as Hg by (unfold get_queue; by rewrite Hq, lookup_singleton_eq).
  rewrite Hg. sret.
  assert ((if nr_running rq <? 2 then try_steal_tasks g 0 ql l else Ret g) = Ret g) as ->
    by (destruct (nr_running rq <? 2); [by eapply single_no_steal|done]).
  sret. rewrite Hg. sret. rewrite Hch. sret.
  pose proof (pq_remove_spec (ready_tasks rq) t) as [Hold _]. destruct (pq_remove (ready_tasks rq) t) as [old q].
  cbn [fst] in Hold. fold (items rq) in Hold. rewrite He in Hold. rewrite Hold. sret.
  destruct (Hin t) as [r Hr]; [by exists e|]. rewrite Hr. sret.
  destruct (Hact t r Hr) as (task & Ht & _). unfold get_task. rewrite Ht. sret. eauto.
Qed.
End queue.

(** ** Theorems *)
Section theorems.
Context `{BuildMode} {R Q : Type} `{PS : PriorityQueueSpec R Q} `{AS : ArenaSpec}.
Implicit Types (rq : RunQueue Q) (g : Sched Q) (task : SchedTask) (t : Z) (r : nat).

Lemma executor_new_inv idle g0 : executor_new (mkSched ∅ ∅ ∅) 0 idle = Ret g0 -> sched_inv (g0, Choosing).
Proof.
  intros Hnew. unfold executor_new in Hnew. unbind Hnew. destruct a as [r g1]. injection Hnew as <-.
  assert (items queue_new = ∅) as Hi by apply pq_items_empty.
  eapply spawn_inv; [| |exact E|]; [apply lookup_insert_eq|done|]. exists queue_new. cbn [fst snd]. split_and!.
  - done.
  - split_and!; [done| |done]. intros t [y Hy]. by rewrite Hi, lookup_empty in Hy.
  - split; [by rewrite Hi, map_size_empty|done].
  - done.
Qed.

(** C18. A tick charges the running task for the time it ran in inverse
    proportion to its weight: its virtual run time grows by the time times
    1024 and divided by the weight, never by more, and by less only through
    rounding (one nanosecond and a fraction below [(weight + 2) / 2^32]). *)
Theorem tick_charges_by_weight task now w :
  nice_to_weight (nice task) = Ret w -> s_load task = load_new w ->
  0 <= exec_start task <= now -> now < 2 ^ 64 ->
  0 <= sum_exec_runtime task -> sum_exec_runtime task + (now - exec_start task) < 2 ^ 64 ->
  0 <= vruntime task -> (vruntime task + now - exec_start task) * 1024 < 2 ^ 64 ->
  let delta := now - exec_start task in
  exists task', tick task now = Ret task' /\ sum_exec_runtime task' = sum_exec_runtime task + delta /\ exec_start task' = now
    /\ let charge := vruntime task' - vruntime task in
       charge * w <= delta * NICE_0_WEIGHT /\ delta * NICE_0_WEIGHT * (2 ^ 32 - w - 2) < (charge + 1) * w * 2 ^ 32.
Proof.
  intros Hnice Hload Hst Hnow Hs0 Hs Hv0 Hv delta. subst delta.
  assert (15 <= w <= 88761) as Hw.
  { unfold nice_to_weight in Hnice. unbind Hnice.
    destruct (NICE_TO_WEIGHT !! Z.to_nat (as_u64 a)) as [w'|] eqn:Hl; [|done]. cbn in Hnice. injection Hnice as ->.
    assert (Forall (fun x => 15 <= x <= 88761) NICE_TO_WEIGHT) as Hall by (repeat constructor; lia).
    rewrite Forall_lookup in Hall. by apply (Hall _ _ Hl). }
  unfold tick. ostep. ostep.
  set (d := now - exec_start task) in *. assert (0 <= d) by (subst d; lia).
  assert (exists x, delta_fair task d = Ret x /\ 0 <= x /\ x * w <= d * 1024 /\ d * 1024 * (2 ^ 32 - w - 2) < (x + 1) * w * 2 ^ 32)
    as (x & -> & Hx0 & Hx1 & Hx2).
  { unfold delta_fair, NICE_0_WEIGHT. rewrite Hload. cbn [weight load_new]. destruct (Z.eqb_spec w 1024) as [->|].
    - exists d. split_and!; [done|lia|lia|nia].
    - destruct (calc_delta_spec d 1024 (load_new w)) as (x & -> & Hx & H1' & H2'); cbn [weight load_new cached_inv] in *;
        [lia|lia|done|lia|lia|]. exists x. split_and!; [done|lia|done|done]. }
  sret. rewrite uadd_ok by nia. sret.
  eexists. split_and!; [reflexivity|done|done|..]; cbn; unfold NICE_0_WEIGHT;
    by replace (vruntime task + x - vruntime task) with x by lia.
Qed.



(** When a future completes, its task is counted out twice, by the guard
    around the future and by the executor: the number of runnable tasks ends
    one below the number of ready tasks, and the weight of the task is
    subtracted from the load twice. *)
Theorem completion_counts_twice g t r rq task :
  sched_inv (g, Running t r) -> queues g = {[ 0%nat := rq ]} -> sched_tasks g !! r = Some task -> s_tid task = t ->
  run_queue task = 0%nat -> bounded (min_vruntime rq) -> keys_bounded rq -> bounded (vruntime task) ->
  2 <= nr_running rq -> 0 <= weight (s_load task) -> 2 * weight (s_load task) <= weight (load rq) < 2 ^ 64 ->
  exists g' rq', (g ← on_drop g r; remove_task g 0 r) = Ret g' /\ queues g' !! 0%nat = Some rq' /\ items rq' = items rq
    /\ nr_running rq' = Z.of_nat (size (items rq')) - 1
    /\ weight (load rq') = weight (load rq) - 2 * weight (s_load task).
Proof.
  intros (rq0 & Hq0 & _ & (Hn & Hc & Hi) & Hle) Hq Ht Htid Hrq Hm Hk Hv Hnr Hw Hl. cbn [fst snd] in *.
  pose proof (single_inj g rq rq0 Hq Hq0) as <-. unfold on_drop, get_task. rewrite Ht. sret. rewrite Hrq.
  set (task1 := set_on_rq task false).
  destruct (remove_current_total (put_task g r task1) r rq t task1) as (rq1 & -> & Hi1 & Hc1 & Hn1 & Hl1 & Hm1 & Hk1 & _);
    [by apply single_lookup|apply lookup_insert_eq|done|done|done|done|done|done|lia|cbn; lia|lia|].
  change (s_load task1) with (s_load task) in Hl1. sret. set (g1 := global_remove_task _ _).
  destruct (remove_current_total g1 r rq1 t (set_on_rq task1 false)) as (rq2 & -> & Hi2 & Hc2 & Hn2 & Hl2 & _);
    [apply lookup_insert_eq|apply lookup_insert_eq|done|by rewrite Hc1|by rewrite Hi1|done|done|done|lia|change (s_load (set_on_rq task1 false)) with (s_load task); lia|lia|].
  do 2 eexists. split_and!; [reflexivity|apply lookup_insert_eq|by rewrite Hi2|rewrite Hi2, Hi1; lia|].
  change (s_load (set_on_rq task1 false)) with (s_load task) in Hl2. lia.
Qed.
End theorems.

(** ** Evaluations *)

(** A priority queue as a map that is searched, and an arena that hands out
    the lowest free number. *)
Fixpoint least (l : list (Z * ReadyTask nat)) : option (Z * ReadyTask nat) :=
  match l with
  | [] => None
  | x :: l => match least l with
              | Some y => if r_vruntime x.2 <=? r_vruntime y.2 then Some x else Some y
              | None => Some x
              end
  end.

Lemma least_spec l :
  match least l with
  | None => l = []
  | Some y => y ∈ l /\ forall z, z ∈ l -> r_vruntime y.2 <= r_vruntime z.2
  end.
Proof.
  induction l as [|x l IH]; cbn [least]; [done|]. destruct (least l) as [y|].
  - destruct IH as [Hin Hmin]. destruct (Z.leb_spec (r_vruntime x.2) (r_vruntime y.2)); (split; [first [by left|by right]|]);
      intros z Hz; apply elem_of_cons in Hz as [->|Hz]; first [lia|specialize (Hmin z Hz); lia].
  - subst l. split; [by left|]. intros z Hz. apply list_elem_of_singleton in Hz as ->. lia.
Qed.

#[export] Instance MockPQ : PriorityQueue nat (gmap Z (ReadyTask nat)) := {|
  pq_empty := ∅; pq_push q t r := <[t := r]> q; pq_remove q t := (q !! t, delete t q);
  pq_peek q := least (map_to_list q); pq_change q t v := alter (fun r => mkReady v (runnable r)) t q;
  pq_len q := size q; pq_items q := q;
|}.

#[export] Instance MockPQSpec `{BuildMode} : PriorityQueueSpec nat (gmap Z (ReadyTask nat)).
Proof.
  split; try done; cbn.
  - intros q. pose proof (least_spec (map_to_list q)) as Hl. destruct (least (map_to_list q)) as [y|]; split; try done.
    + intros ->. rewrite map_to_list_empty in Hl. destruct Hl as [Hl _]. by apply not_elem_of_nil in Hl.
    + intros _. by apply map_to_list_empty_iff.
  - intros q t r Hp. pose proof (least_spec (map_to_list q)) as Hl. rewrite Hp in Hl. destruct Hl as [Hl _].
    by apply elem_of_map_to_list in Hl.
  - intros q t r Hb Hp u x Hu. pose proof (least_spec (map_to_list q)) as Hl. rewrite Hp in Hl. destruct Hl as [Hin Hmin].
    apply elem_of_map_to_list in Hin. specialize (Hmin (u, x) ltac:(by apply elem_of_map_to_list)). cbn in Hmin.
    unfold ready_cmp. rewrite vr_cmp_ok by (unfold bounded; eauto). cbn.
    destruct (Z.compare_spec (r_vruntime x) (r_vruntime r)); [by right|lia|by left].
Qed.

#[export] Instance MockArena : Arena := {| next_vacant m := default 0 (find_free (S (size m)) m 0) |}.
#[export] Instance MockArenaSpec : ArenaSpec.
Proof.
  split. intros m. cbn [next_vacant MockArena]. destruct (lowest_free_spec m 0) as (r & Hr & _ & Hn & _).
  unfold lowest_free in Hr. destruct (find_free (S (size m)) m 0); [|done]. cbn in *. by injection Hr as ->.
Qed.

#[local] Instance release_build : BuildMode := false.
Abbreviation mock_sched := (Sched (gmap Z (ReadyTask nat))).

(** The idle task, then two tasks of normal priority. *)
Definition sched1 : mock_sched := match executor_new (mkSched ∅ ∅ ∅) 0 7%nat with Ret g => g | Panic _ => mkSched ∅ ∅ ∅ end.
Definition spawned (g : mock_sched) (x : nat) : mock_sched := match spawn g 0 0 None x with Ret y => y.2 | Panic _ => g end.
Definition sched3 : mock_sched := spawned (spawned sched1 8) 9.
Definition popped : Z * nat * nat * mock_sched :=
  match pop_task_to_run sched3 0 1000 (fun _ => false) (fun _ => false) with Ret y => y | Panic _ => (0, 0%nat, 0%nat, sched3) end.

Lemma sched3_inv : sched_inv (sched3, Choosing).
Proof.
  assert (sched_inv (sched1, Choosing)) as H1 by (apply (executor_new_inv 7%nat); vm_compute; reflexivity).
  assert (forall g x rq r, queues g !! 0%nat = Some rq -> nr_running rq < 2 ^ 63 -> spawn g 0 0 None x = Ret (r, spawned g x) ->
            sched_inv (g, Choosing) -> sched_inv (spawned g x, Choosing)) as Hs by (intros; by eapply spawn_inv).
  unfold sched3. eapply Hs; [vm_compute; reflexivity|vm_compute; reflexivity|vm_compute; reflexivity|].
  eapply Hs; [vm_compute; reflexivity|vm_compute; reflexivity|vm_compute; reflexivity|exact H1].
Qed.

Lemma tick_charges_by_weight_witness :
  exists task', tick (mkTask 1 (load_new 335) 5 true 0 1000 0 0 0) 751000 = Ret task' /\ vruntime task' = 2292537.
Proof.
  destruct (tick_charges_by_weight (mkTask 1 (load_new 335) 5 true 0 1000 0 0 0) 751000 335) as (task' & Ht & _ & _ & Hup & Hlo);
    [reflexivity|reflexivity|cbn; lia|lia|cbn; lia|cbn; lia|cbn; lia|cbn; lia|].
  exists task'. split; [exact Ht|]. cbn in Hup, Hlo. unfold NICE_0_WEIGHT in *. lia.
Defined.

(** The queue of the third state, and the state in which a task runs. *)
Definition queue3 : RunQueue (gmap Z (ReadyTask nat)) := match queues sched3 !! 0%nat with Some rq => rq | None => queue_new end.
Definition queue4 : RunQueue (gmap Z (ReadyTask nat)) := match queues popped.2 !! 0%nat with Some rq => rq | None => queue_new end.

Lemma mock_keys_bounded (rq : RunQueue (gmap Z (ReadyTask nat))) :
  forallb (fun x => (0 <=? r_vruntime x.2) && (r_vruntime x.2 <? 2 ^ 63)) (map_to_list (ready_tasks rq)) = true -> keys_bounded rq.
Proof.
  intros Hf t e He. rewrite forallb_forall in Hf. specialize (Hf (t, e)). cbn in Hf. unfold bounded.
  assert (In (t, e) (map_to_list (ready_tasks rq))) as Hin by (by apply list_elem_of_In, elem_of_map_to_list).
  apply Hf in Hin. bool_to_prop. lia.
Qed.

Lemma queue3_fits : queue_fits sched3 queue3.
Proof.
  split_and!; [vm_compute; congruence|vm_compute; reflexivity|vm_compute; reflexivity|vm_compute; reflexivity|vm_compute; reflexivity| |].
  - apply mock_keys_bounded. vm_compute. reflexivity.
  - intros t r task Hc. vm_compute in Hc. discriminate Hc.
Qed.



Lemma completion_counts_twice_witness :
  exists g' rq', (g ← on_drop popped.2 popped.1.1.2; remove_task g 0 popped.1.1.2) = Ret g' /\ queues g' !! 0%nat = Some rq'
    /\ nr_running rq' = Z.of_nat (size (items rq')) - 1.
Proof.
  assert (exists task, sched_tasks popped.2 !! popped.1.1.2 = Some task /\ s_tid task = popped.1.1.1 /\ run_queue task = 0%nat
            /\ bounded (vruntime task) /\ weight (s_load task) = 1024) as (task & Ht & Htid & Hrq & Hv & Hw).
  { eexists. split_and!; [vm_compute; reflexivity|vm_compute; reflexivity..|split; vm_compute; congruence|vm_compute; reflexivity]. }
  destruct (completion_counts_twice popped.2 popped.1.1.1 popped.1.1.2 queue4 task) as (g' & rq' & Hd & Hq & _ & Hn & _).
  - apply (pop_inv sched3 1000 (fun _ => false) (fun _ => false) _ _ popped.1.2); [vm_compute; reflexivity|exact sched3_inv].
  - vm_compute. reflexivity.
  - exact Ht.
  - exact Htid.
  - exact Hrq.
  - split; vm_compute; congruence.
  - apply mock_keys_bounded. vm_compute. reflexivity.
  - exact Hv.
  - vm_compute. congruence.
  - rewrite Hw. lia.
  - rewrite Hw. vm_compute. split; [congruence|reflexivity].
  - exists g', rq'. exact (conj Hd (conj Hq Hn)).
Defined.
