(* ===== verification/Executor.v ===== *)
(** * Executors and cooperative futures ([task/executor/mod.rs], [task/future.rs], [task/mod.rs])

    The executors of all processors as [task::init] creates them, each with
    its idle task, and the future [YieldNow] that the idle task awaits. *)

From S2P Require Import Prelude Sched SchedTheorems.

(** ** Yielding *)

(** One poll of a future: ready or not, its new state, and how often it woke
    its own task. *)
Record Polled (S : Type) := mkPolled { ready : bool; state : S; wakes : nat }.
Arguments mkPolled {S}.
Arguments ready {S}.
Arguments state {S}.
Arguments wakes {S}.

(** [yield_now] and [YieldNow::poll] *)
Definition yield_now : bool := false.
Definition yield_poll (self : bool) : Polled bool := if negb self then mkPolled false true 1 else mkPolled true self 0.

(** [idle_task], suspended at its [yield_now().await]: a poll that finds the
    yield done halts the processor and starts the next one, so it takes at
    most two turns of the loop.  The number of halts comes with it. *)
Definition idle_poll (self : bool) : Polled bool * nat :=
  let p := yield_poll self in
  if ready p then (let p' := yield_poll yield_now in (mkPolled (ready p') (state p') (wakes p + wakes p'), 1%nat)) else (p, 0%nat).

(** What the executor makes of a poll: a task that was woken while it ran is
    scheduled again. *)
Definition run_result {S R} (x : R) (p : Polled S) : RunResult :=
  if ready p then Completed else if (0 <? wakes p)%nat then Yielded x else Slept.

(** The idle task never ends and never sleeps. *)
Lemma idle_always_yields {R} (x : R) self : run_result x (idle_poll self).1 = Yielded x.
Proof. by destruct self. Qed.

Section executor.
Context `{BuildMode} {R Q : Type} `{PriorityQueue R Q} `{Arena}.
Implicit Types g : Sched Q.

(** [GlobalState::new], [init] *)
Definition global_state_new : Sched Q := mkSched ∅ ∅ ∅.
Definition sched_init (cpu_count : nat) (idle : R) : outcome (Sched Q) :=
  foldM (fun g c => executor_new g c idle) global_state_new (seq 0 cpu_count).

(** [GlobalState::executor], [local_executor] on processor [cpu_id] *)
Definition local_executor g (cpu_id : nat) : outcome (RunQueue Q) := get_queue g cpu_id.

(** [task::spawn] on processor [cpu_id]: the task and the new state. *)
Definition task_spawn g (cpu_id : nat) (future : R) : outcome (nat * Sched Q) :=
  _ ← local_executor g cpu_id; spawn g cpu_id 0 None future.
End executor.

Section theorems.
Context {R Q : Type} `{PS : PriorityQueueSpec R Q} `{AS : ArenaSpec}.
Implicit Types (g : Sched Q) (rq : RunQueue Q).

(** The virtual run time an idle task starts with: its slice of a period. *)
Definition IDLE_VRUNTIME : Z := 409599931.

(** The executor of processor [c] is fresh: nothing ran, and its only task is
    the idle task [idle] of the lowest priority. *)
Definition idle_queue g (c : nat) (idle : R) : Prop :=
  exists rq t r task, queues g !! c = Some rq /\ items rq = {[ t := mkReady IDLE_VRUNTIME idle ]} /\ nr_running rq = 1
    /\ load rq = load_new 15 /\ min_vruntime rq = 0 /\ current_task rq = None
    /\ active_tasks g !! t = Some r /\ sched_tasks g !! r = Some task
    /\ s_tid task = t /\ nice task = MAX_NICE /\ on_rq task = true /\ run_queue task = c /\ vruntime task = IDLE_VRUNTIME.

Lemma executor_new_spec g c idle :
  exists t r rq task, executor_new g c idle = Ret (mkSched (<[r := task]> (sched_tasks g)) (<[t := r]> (active_tasks g)) (<[c := rq]> (queues g)))
    /\ active_tasks g !! t = None /\ sched_tasks g !! r = None
    /\ rq = mkQueue (pq_push pq_empty t (mkReady IDLE_VRUNTIME idle)) None (load_new 15) 0 1
    /\ task = mkTask t (load_new 15) MAX_NICE true c 0 0 0 IDLE_VRUNTIME.
Proof.
  unfold executor_new, spawn, get_queue. cbn [put_queue queues active_tasks sched_tasks].
  set (t := next_vacant (active_tasks g)). rewrite lookup_insert_eq. cbn [expect mbind outcome_bind].
  change (task_new t MAX_NICE c (min_vruntime queue_new)) with (Ret (mkTask t (load_new 15) MAX_NICE false c 0 0 0 0)).
  cbn [mbind outcome_bind]. change (feature START_DEBIT) with true. cbv iota.
  change (sched_vslice queue_new (mkTask t (load_new 15) MAX_NICE false c 0 0 0 0)) with (Ret IDLE_VRUNTIME).
  cbn [mbind outcome_bind]. change (vr_add (min_vruntime queue_new) IDLE_VRUNTIME) with (Ret IDLE_VRUNTIME). cbn [mbind outcome_bind vruntime].
  change (vr_max 0 IDLE_VRUNTIME) with (Ret IDLE_VRUNTIME). cbn [mbind outcome_bind set_vruntime s_tid s_load nice on_rq run_queue exec_start sum_exec_runtime prev_sum_exec_runtime vruntime].
  change (insert_task queue_new t (mkReady IDLE_VRUNTIME idle) (load_new 15))
    with (Ret (mkQueue (pq_push pq_empty t (mkReady IDLE_VRUNTIME idle)) None (load_new 15) 0 1)).
  cbn [mbind outcome_bind snd put_queue sched_tasks active_tasks queues set_on_rq].
  exists t, (fresh (dom (sched_tasks g))), (mkQueue (pq_push pq_empty t (mkReady IDLE_VRUNTIME idle)) None (load_new 15) 0 1),
    (mkTask t (load_new 15) MAX_NICE true c 0 0 0 IDLE_VRUNTIME).
  split; [unfold put_queue; cbn [queues sched_tasks active_tasks]; by rewrite insert_insert_eq|]. split; [apply next_vacant_fresh|]. split; [|done]. apply not_elem_of_dom, is_fresh.
Qed.

Lemma sched_init_app n idle : forall g,
  sched_init n idle = Ret g -> sched_init (S n) idle = executor_new g n idle.
Proof. intros g Hg. unfold sched_init in *. rewrite seq_S, foldM_app, Hg. cbn. by destruct (executor_new g n idle). Qed.

(** [task::init] always succeeds, and leaves every processor with an
    executor of its own whose only task is an idle task of the lowest
    priority; the idle tasks have different numbers and there are no other
    tasks.  An idle task never ends and never sleeps: whatever state it is in,
    running it schedules it again. *)
Theorem sched_init_idle n idle :
  exists g, sched_init n idle = Ret g
    /\ (forall c, is_Some (queues g !! c) <-> (c < n)%nat) /\ (forall c, (c < n)%nat -> idle_queue g c idle)
    /\ size (active_tasks g) = n /\ size (sched_tasks g) = n
    /\ forall self, run_result idle (idle_poll self).1 = Yielded idle.
Proof.
  induction n as [|n (g & Hg & Hdom & Hq & Ha & Hs & Hy)].
  { eexists. split; [done|]. split; [intros c; cbn; rewrite lookup_empty; split; [by intros []|lia]|]. split; [lia|].
    split; [done|]. split; [done|]. apply idle_always_yields. }
  destruct (executor_new_spec g n idle) as (t & r & rq & task & He & Ht & Hr & Hrq & Htask).
  eexists. split; [by rewrite (sched_init_app n idle g Hg)|]. cbn [queues active_tasks sched_tasks]. split_and!.
  - intros c. destruct (decide (c = n)) as [->|Hne]; [rewrite lookup_insert_eq; split; [lia|by eexists]|].
    rewrite lookup_insert_ne, Hdom by done. lia.
  - intros c Hc. destruct (decide (c = n)) as [->|Hne].
    + exists rq, t, r, task. cbn [queues active_tasks sched_tasks]. rewrite !lookup_insert_eq, Hrq, Htask. split_and!; try done.
      unfold items. cbn. by rewrite pq_items_push, pq_items_empty, insert_empty.
    + destruct (Hq c) as (rq' & t' & r' & task' & H1' & H2' & H3' & H4' & H5' & H6' & H7' & H8' & H9'); [lia|].
      exists rq', t', r', task'. cbn [queues active_tasks sched_tasks]. rewrite lookup_insert_ne by done.
      rewrite !lookup_insert_ne by congruence. done.
  - by rewrite map_size_insert_None, Ha.
  - by rewrite map_size_insert_None, Hs.
  - done.
Qed.

(** ** Spawning on a processor that did not run yet *)

(** The queue of processor 0 while nothing ran: its tasks, and the sum of
    their weights. *)
Definition fresh_queue g (items0 : gmap Z (ReadyTask R)) (w : Z) : Prop :=
  exists rq, queues g !! 0%nat = Some rq /\ items rq = items0 /\ current_task rq = None /\ min_vruntime rq = 0
    /\ nr_running rq = Z.of_nat (size items0) /\ load rq = load_new w
    /\ forall t, is_Some (items0 !! t) -> is_Some (active_tasks g !! t).

(** A task of normal priority that is spawned there. *)
Lemma spawn_fresh g items0 w n v x :
  fresh_queue g items0 w -> Z.of_nat (size items0) = n -> 0 <= w < 2 ^ 32 -> n < 2 ^ 32 -> bounded v ->
  (forall (q : Q) t, sched_vslice (mkQueue q None (load_new w) 0 n) (mkTask t (load_new 1024) 0 false 0 0 0 0 0) = Ret v) ->
  exists t r g', task_spawn g 0 x = Ret (r, g') /\ items0 !! t = None /\ fresh_queue g' (<[t := mkReady v x]> items0) (w + 1024)
    /\ active_tasks g' = <[t := r]> (active_tasks g) /\ active_tasks g !! t = None
    /\ sched_tasks g' = <[r := mkTask t (load_new 1024) 0 true 0 0 0 0 v]> (sched_tasks g) /\ sched_tasks g !! r = None
    /\ forall c, c <> 0%nat -> queues g' !! c = queues g !! c.
Proof.
  intros (rq & Hq & Hi & Hc & Hm & Hn & Hl & Hact) <- Hw Hsz Hv Hs. destruct rq as [q cur ld mn nr]. cbn in Hc, Hm, Hn, Hl. subst cur mn nr ld.
  pose proof (next_vacant_fresh (active_tasks g)) as Hnew. unfold task_spawn, local_executor, spawn, get_queue. rewrite Hq. cbn [expect mbind outcome_bind].
  set (t := next_vacant (active_tasks g)) in *.
  assert (Hit : items0 !! t = None) by (apply eq_None_not_Some; intros Ht; destruct (Hact t Ht) as [r Hr]; congruence).
  cbn [min_vruntime]. change (task_new t 0 0 0) with (Ret (mkTask t (load_new 1024) 0 false 0 0 0 0 0)). cbn [mbind outcome_bind].
  change (feature START_DEBIT) with true. cbv iota. rewrite Hs. cbn [mbind outcome_bind]. unfold vr_add. rewrite uadd_ok by (unfold bounded in Hv; lia). sret.
  cbn [vruntime]. rewrite vr_max_ok by (unfold bounded in *; lia). rewrite Z.max_r by (unfold bounded in Hv; lia). sret.
  unfold insert_task, is_current_task. cbn [current_task negb nr_running load s_load set_vruntime vruntime]. rewrite uadd_ok by lia. sret.
  unfold load_add. cbn [weight load_new]. rewrite uadd_ok by lia. sret.
  do 3 eexists. split; [reflexivity|]. split; [exact Hit|]. split; [|cbn; split_and!; try done; [apply not_elem_of_dom, is_fresh|intros c Hc; by rewrite lookup_insert_ne]].
  eexists. cbn [queues put_queue]. rewrite lookup_insert_eq. split; [done|]. unfold items in *. cbn in Hi |- *. rewrite pq_items_push, Hi. split_and!; try done.
  - rewrite size_insert_new by done. lia.
  - intros u. rewrite !lookup_insert_is_Some'. intros [->|Hu]; [by left|right; by apply Hact].
Qed.

(** ** A wake-up that comes too early *)

(** A step that is not a wake-up of the task behind [r]. *)
Definition other_step (r : nat) (s s' : Sched Q * phase) : Prop := step s s' /\ forall y, schedule_fn s.1 r y ≠ Ret s'.1.

(** Task [t] is neither ready nor running. *)
Definition asleep (t : Z) (r : nat) (s : Sched Q * phase) : Prop :=
  sched_inv s /\ active_tasks s.1 !! t = Some r /\ (forall rq, queues s.1 !! 0%nat = Some rq -> items rq !! t = None)
  /\ forall r', s.2 ≠ Running t r'.

Lemma step_sched_inv s s' : step s s' -> sched_inv s -> sched_inv s'.
Proof.
  intros Hst. destruct Hst; intros Hi; eauto using pop_inv, yield_inv, sleep_inv, wake_inv, spawn_inv.
Qed.

Lemma sched_queue g ph : sched_inv (g, ph) -> exists rq, queues g = {[ 0%nat := rq ]} /\ queues g !! 0%nat = Some rq /\ refs_ok g rq /\ count_ok g rq ph
  /\ 0 <= nr_running rq <= 2 ^ 63.
Proof.
  intros (rq & Hq & Hr & Hc & Hn). cbn [fst snd] in *. exists rq. split_and!; [done|by apply single_lookup|done|done| |done].
  destruct ph; cbn in Hc; lia.
Qed.

(** What the end of a turn does with a task that is not ready. *)
Lemma asleep_turn g t r r' g1 later g' rq1 task :
  task_tick g1 0 r' later = Ret g' -> active_tasks g !! t = Some r ->
  queues g1 = {[ 0%nat := rq1 ]} -> active_tasks g1 = active_tasks g -> sched_tasks g1 !! r' = Some task -> items rq1 !! t = None ->
  active_tasks g' !! t = Some r /\ forall rq, queues g' !! 0%nat = Some rq -> items rq !! t = None.
Proof.
  intros Hk Ha Hq Ha1 Ht Hi. destruct (task_tick_fields g1 0 r' later rq1 task g' Hk) as (rq2 & task2 & -> & _ & _ & _ & Hd & _);
    [by apply single_lookup|done|]. cbn. rewrite Ha1. split; [done|]. intros rq. rewrite lookup_insert_eq. intros [= <-].
  apply not_elem_of_dom. rewrite Hd. by apply not_elem_of_dom.
Qed.

(** A task that is not ready stays asleep when the current task goes to sleep,
    also when it is the current task itself. *)
Lemma asleep_sleep g t r u v later g1 g' :
  remove_task g 0 v = Ret g1 -> task_tick g1 0 v later = Ret g' -> sched_inv (g, Running u v) -> active_tasks g !! t = Some r ->
  (forall rq, queues g !! 0%nat = Some rq -> items rq !! t = None) -> asleep t r (g', Choosing).
Proof.
  intros Hs Hk Hinv Ha Hi. split; [by eapply sleep_inv|]. cbn [fst snd].
  destruct (sched_queue _ _ Hinv) as (rq0 & Hq0 & Hq1 & (Hact & Hin & Hcur) & (Hn & Hc & _) & Hnr).
  destruct (Hact u v (Hcur u v Hc)) as (task & Ht & Htid & Hrq).
  destruct (remove_task_fields g 0 v rq0 task g1 Hs Hq1 Ht) as (rq1 & -> & Hi1 & _); [by rewrite (is_current_some rq0 u v Hc), Htid, Z.eqb_refl|lia|].
  assert (active_tasks g' !! t = Some r /\ forall rq, queues g' !! 0%nat = Some rq -> items rq !! t = None) as [Ha' Hi']; [|by split_and!].
  eapply (asleep_turn g t r v); [exact Hk|exact Ha| |reflexivity|apply lookup_insert_eq|].
  - cbn. by rewrite Hq0, insert_singleton_0.
  - rewrite Hi1. apply lookup_delete_None. right. by apply Hi.
Qed.

Lemma asleep_step t r s s' : other_step r s s' -> asleep t r s -> asleep t r s'.
Proof.
  intros [Hst Hno] (Hinv & Ha & Hi & Hph). split; [by eapply step_sched_inv|].
  destruct Hst as [g now ql l u v x g' Hp|g u v x later g1 g' Hs Hk|g u v later g1 g' Hs Hk|g ph rq u v x g' Hq Hu Hn Hc Hlt Hs|g ph rq ni pa x v g' Hq Hlt Hs];
    cbn [fst snd] in *; destruct (sched_queue _ _ Hinv) as (rq0 & Hq0 & Hq1 & (Hact & Hin & Hcur) & Hcount & Hnr).
  - destruct (pop_fields g rq0 now ql l u v x g' Hp Hq0) as (e & task & He & _ & Hav & _ & _ & ->). cbn.
    assert (u ≠ t) as Hne by (intros ->; by rewrite (Hi _ Hq1) in He). split_and!; [done| |by intros r' [= ->]].
    intros rq'. rewrite lookup_insert_eq. intros [= <-]. unfold items. cbn. rewrite (proj2 (pq_remove_spec _ _)), lookup_delete_ne by done. by apply Hi.
  - destruct Hcount as (_ & Hc & _). assert (u ≠ t) as Hne by (intros ->; by apply (Hph v)).
    destruct (Hact u v (Hcur u v Hc)) as (task & Ht & Htid & Hrq).
    destruct (schedule_fn_fields g v x rq0 task g1 Hs Ht) as (rq1 & task1 & e & -> & _ & _ & _ & Hi1 & _); [by rewrite Hrq|lia|].
    assert (active_tasks g' !! t = Some r /\ forall rq, queues g' !! 0%nat = Some rq -> items rq !! t = None) as [Ha' Hi']; [|by split_and!].
    eapply (asleep_turn g t r v); [exact Hk|exact Ha| |reflexivity|apply lookup_insert_eq|].
    + cbn. by rewrite Hrq, Hq0, insert_singleton_0.
    + rewrite Hi1, Htid, lookup_insert_ne by done. by apply Hi.
  - apply (asleep_sleep g t r u v later g1 g' Hs Hk Hinv Ha Hi).
  - assert (u ≠ t) as Hne. { intros ->. rewrite Ha in Hu. injection Hu as <-. by apply (Hno x). }
    rewrite Hq1 in Hq. injection Hq as <-. destruct (Hact u v Hu) as (task & Ht & Htid & Hrq).
    destruct (schedule_fn_fields g v x rq0 task g' Hs Ht) as (rq1 & task1 & e & -> & _ & _ & _ & Hi1 & _); [by rewrite Hrq|lia|].
    cbn. split_and!; [done| |done]. intros rq'. rewrite Hrq, lookup_insert_eq. intros [= <-]. rewrite Hi1, Htid, lookup_insert_ne by done. by apply Hi.
  - rewrite Hq1 in Hq. injection Hq as <-. destruct (spawn_fields g 0 ni pa x rq0 v g' Hs Hq1) as (rq1 & task & e & -> & Hnew & _ & _ & Hi1 & _); [lia|].
    cbn. assert (next_vacant (active_tasks g) ≠ t) as Hne by (intros Hn; pose proof (next_vacant_fresh (active_tasks g)) as Hf; rewrite Hn in Hf; congruence).
    split_and!; [by rewrite lookup_insert_ne| |done]. intros rq'. rewrite lookup_insert_eq. intros [= <-]. rewrite Hi1, lookup_insert_ne by done. by apply Hi.
Qed.

Lemma schedule_fn_queues g r x task rq g1 :
  schedule_fn g r x = Ret g1 -> sched_tasks g !! r = Some task -> queues g !! run_queue task = Some rq -> 0 <= nr_running rq < 2 ^ 64 - 1 ->
  exists rq1 v, queues g1 !! run_queue task = Some rq1 /\ items rq1 !! s_tid task = Some (mkReady v x).
Proof.
  unfold schedule_fn, get_task, get_queue. intros Hs Ht Hq Hn. rewrite Ht in Hs. cbn [expect mbind outcome_bind] in Hs.
  cbn [run_queue set_on_rq] in Hs. rewrite Hq in Hs. cbn [expect mbind outcome_bind] in Hs. do 3 unbind Hs. injection Hs as <-.
  cbn [s_tid set_vruntime set_on_rq s_load] in E1. apply insert_task_fields in E1 as (Hi & _); [|done].
  do 2 eexists. cbn. rewrite lookup_insert_eq. split; [done|]. rewrite Hi. apply lookup_insert_eq.
Qed.

End theorems.

(** ** An evaluation *)

#[local] Instance release_build : BuildMode := false.

Lemma sched_init_idle_witness :
  exists g : Sched (gmap Z (ReadyTask nat)), sched_init 4 7%nat = Ret g /\ size (active_tasks g) = 4%nat /\ idle_queue g 3 7%nat.
Proof.
  destruct (sched_init_idle (Q := gmap Z (ReadyTask nat)) 4 7%nat) as (g & Hg & _ & Hq & Ha & _). exists g.
  exact (conj Hg (conj Ha (Hq 3%nat (le_n 4)))).
Defined.

Definition after {A} (o : outcome A) (a : A) : A := match o with Ret x => x | Panic _ => a end.
Definition woken : mock_sched := after (schedule_fn popped.2 popped.1.1.2 popped.1.2) sched1.
Definition removed : mock_sched := after (remove_task woken 0 popped.1.1.2) sched1.
Definition ticked : mock_sched := after (task_tick removed 0 popped.1.1.2 5000) sched1.

