(* ===== verification/Timer.v ===== *)
(** * Timers ([task/timer.rs], [arch/aarch64/timer.rs])

    The clock computed from the counter registers, and the naive timer: a
    [BTreeMap] from deadlines to wakers.  Durations are in nanoseconds; a
    waker is the number of its task. *)

From stdpp Require Import sorting.
From S2P Require Import Prelude BTree Sched.

(** ** The clock *)
Section clock.
Context `{BuildMode}.

Definition NSEC : Z := 1000000000.

(** [GenericTimer::read_ns] with the registers CNTFRQ_EL0 and CNTPCT_EL0,
    and [GenericTimer::read]. *)
Definition read_ns (freq count : Z) : outcome Z :=
  x ← umul count NSEC;
  if freq =? 0 then Panic "attempt to divide by zero" else Ret (x / freq).

(** [GenericTimer::tick_in]: the value for CNTP_TVAL_EL0; the assertion is
    checked in debug builds only. *)
Definition tick_in (freq ns : Z) : outcome Z :=
  x ← umul freq ns;
  let count := x / NSEC in
  if overflow_checks && (2 ^ 32 - 1 <? count) then Panic "assertion failed" else Ret count.
End clock.

(** ** The timer *)

(** [Timer] *)
Abbreviation Timer := (gmap Z nat).
Definition timer_new : Timer := ∅.

(** [Duration + Duration], checked in every build. *)
Definition dadd (a b : Z) : outcome Z :=
  if a + b <? 2 ^ 64 * NSEC then Ret (a + b) else Panic "overflow when adding durations".

(** The loop of [Timer::add]: among [size t + 1] consecutive deadlines one is
    free, so [size t + 1] turns are enough. *)
Fixpoint free_deadline (fuel : nat) (t : Timer) (deadline : Z) : outcome Z :=
  match t !! deadline with
  | None => Ret deadline
  | Some _ => match fuel with
              | O => Panic "unreachable"
              | S fuel => d ← dadd deadline 1; free_deadline fuel t d
              end
  end.

(** [Timer::add] *)
Definition timer_add (t : Timer) (deadline : Z) (waker : nat) : outcome Timer :=
  d ← free_deadline (size t) t deadline; Ret (<[d := waker]> t).

(** [Timer::expire]: each turn removes an entry. *)
Fixpoint expire_loop (fuel : nat) (t : Timer) (now : Z) : Timer * list nat :=
  match fuel, btree_iter t with
  | S fuel, (d, w) :: _ =>
      if now <? d then (t, []) else let '(t', ws) := expire_loop fuel (delete d t) now in (t', w :: ws)
  | _, _ => (t, [])
  end.
Definition expire (t : Timer) (now : Z) : Timer * list nat := expire_loop (size t) t now.

(** [DelayFuture::poll]: [true] is [Poll::Ready]. *)
Definition delay_poll (t : Timer) (now deadline : Z) (waker : nat) : outcome (bool * Timer) :=
  if deadline <=? now then Ret (true, t) else t ← timer_add t deadline waker; Ret (false, t).

(** The deadline of [delay_for]. *)
Definition delay_for (now duration : Z) : outcome Z := dadd now duration.

(** [GenericTimer::handle_interrupt]: the tasks to wake and the next tick. *)
Definition timer_interrupt `{BuildMode} (t : Timer) (freq count : Z) : outcome (Timer * list nat * Z) :=
  now ← read_ns freq count;
  let '(t, ws) := expire t now in
  tval ← tick_in freq SCHED_MIN_GRANULARITY;
  Ret (t, ws, tval).

(** ** Lemmas *)

Lemma free_deadline_spec fuel : forall (t : Timer) d,
  d + Z.of_nat fuel < 2 ^ 64 * NSEC ->
  match free_deadline fuel t d with
  | Ret r => d <= r <= d + Z.of_nat fuel /\ t !! r = None
  | Panic _ => forall j, d <= j < d + Z.of_nat (S fuel) -> is_Some (t !! j)
  end.
Proof.
  induction fuel as [|fuel IH]; intros t d Hd; cbn [free_deadline].
  - destruct (t !! d) as [w|] eqn:E; [|split; [lia|done]]. intros j Hj. assert (j = d) as -> by lia. by exists w.
  - destruct (t !! d) as [w|] eqn:E; [|split; [lia|done]]. unfold dadd.
    rewrite (proj2 (Z.ltb_lt _ _)) by lia. sret. specialize (IH t (d + 1) ltac:(lia)).
    destruct (free_deadline fuel t (d + 1)) as [r|].
    + destruct IH as [Hr Hn]. split; [lia|done].
    + intros j Hj. destruct (Z.eq_dec j d) as [->|]; [by exists w|]. apply IH. lia.
Qed.

Lemma timer_add_spec t deadline w :
  deadline + Z.of_nat (size t) < 2 ^ 64 * NSEC ->
  exists d, timer_add t deadline w = Ret (<[d := w]> t) /\ deadline <= d <= deadline + Z.of_nat (size t) /\ t !! d = None.
Proof.
  intros Hd. unfold timer_add. pose proof (free_deadline_spec (size t) t deadline Hd) as Hf.
  destruct (free_deadline (size t) t deadline) as [d|].
  - exists d. split; [done|]. apply Hf.
  - apply full_range_size in Hf. lia.
Qed.

(** The entries up to [now], in the order of their deadlines. *)
Definition due (t : Timer) (now : Z) : list (Z * nat) := List.filter (fun x => x.1 <=? now) (btree_iter t).

Lemma expire_loop_spec fuel : forall t now, (size t <= fuel)%nat ->
  expire_loop fuel t now = (filter (fun x => now < x.1) t, (due t now).*2).
Proof.
  induction fuel as [|fuel IH]; intros t now Hf; cbn [expire_loop].
  { assert (t = ∅) as -> by (apply map_size_empty_inv; lia). unfold due. by rewrite map_filter_empty, btree_empty. }
  unfold due. destruct (btree_iter t) as [|[d w] l] eqn:Ht.
  - assert (t = ∅) as ->.
    { apply map_eq. intros i. rewrite lookup_empty. destruct (t !! i) as [v|] eqn:E; [|done].
      apply btree_in in E. rewrite Ht in E. by apply not_elem_of_nil in E. }
    by rewrite map_filter_empty.
  - destruct (btree_first t d w l Ht) as (Hd & Hmin & Hl). destruct (Z.ltb_spec now d) as [Hlt|Hge].
    + rewrite map_filter_id.
      2:{ intros i v Hi. cbn. specialize (Hmin i ltac:(by exists v)). lia. }
      f_equal. symmetry. cbn [List.filter fst]. rewrite (proj2 (Z.leb_gt _ _)) by lia.
      pose proof (btree_sorted t) as Hs. rewrite Ht in Hs. apply StronglySorted_inv in Hs as [_ Hall].
      rewrite List.Forall_forall in Hall. clear -Hall Hlt. induction l as [|[i v] l IHl]; cbn; [done|].
      pose proof (Hall (i, v) ltac:(by left)) as Hi. unfold key_le in Hi. cbn in Hi.
      rewrite (proj2 (Z.leb_gt _ _)) by lia. apply IHl. intros x Hx. apply Hall. by right.
    + rewrite IH by (rewrite map_size_delete_Some by eauto; lia). unfold due. rewrite Hl. f_equal.
      * rewrite map_filter_delete. apply delete_id. apply map_lookup_filter_None. right. intros v _. cbn. lia.
      * cbn [List.filter fst]. by rewrite (proj2 (Z.leb_le _ _)) by lia.
Qed.

Lemma expire_spec t now : expire t now = (filter (fun x => now < x.1) t, (due t now).*2).
Proof. by apply expire_loop_spec. Qed.

Lemma due_in t now d w : (d, w) ∈ due t now <-> t !! d = Some w /\ d <= now.
Proof.
  unfold due. rewrite list_elem_of_In, filter_In, <- list_elem_of_In, btree_in. cbn. by rewrite Z.leb_le.
Qed.

(** [handle_interrupt] while the clock is in range. *)
Lemma timer_interrupt_spec `{BuildMode} (t : Timer) freq count :
  0 < freq < 2 ^ 32 -> 0 <= count -> count * NSEC < 2 ^ 64 ->
  timer_interrupt t freq count
  = Ret (filter (fun x => count * NSEC / freq < x.1) t, (due t (count * NSEC / freq)).*2, freq * SCHED_MIN_GRANULARITY / NSEC).
Proof.
  intros Hf Hc Hn. unfold timer_interrupt, read_ns, tick_in. unfold NSEC, SCHED_MIN_GRANULARITY in *.
  rewrite (umul_ok count) by lia. cbn [mbind outcome_bind]. rewrite (proj2 (Z.eqb_neq _ _)) by lia. cbn [mbind outcome_bind].
  rewrite expire_spec, umul_ok by lia. cbn [mbind outcome_bind].
  assert (freq * 750000 / 1000000000 < 2 ^ 32) by (apply Z.div_lt_upper_bound; lia).
  rewrite (proj2 (Z.ltb_ge _ _)) by lia. by rewrite andb_false_r.
Qed.

(** A waker that is registered once is woken once. *)
Lemma due_NoDup t now : (forall k k' w, t !! k = Some w -> t !! k' = Some w -> k = k') -> NoDup (due t now).*2.
Proof.
  intros Hinj. apply NoDup_fmap_2_strong.
  - intros [k w] [k' w'] [Hk _]%due_in [Hk' _]%due_in E. cbn in E. subst w'. f_equal. by eapply Hinj.
  - apply NoDup_ListNoDup, List.NoDup_filter, NoDup_ListNoDup. rewrite btree_perm. apply NoDup_map_to_list.
Qed.

Lemma due_length t now : (length (due t now).*2 <= size t)%nat.
Proof.
  rewrite length_fmap. unfold due. etransitivity; [apply List.filter_length_le|]. by rewrite btree_perm, length_map_to_list.
Qed.

(** ** Theorems *)

(** No timer is lost and none fires early.  [Timer::add] registers the
    waker at a free deadline not before the one asked for (later by at most
    one nanosecond per pending timer), keeping every other timer; [expire]
    wakes exactly the timers whose deadline has come, in the order of their
    deadlines, and keeps exactly the others. *)
Theorem timer_exact t deadline w :
  deadline + Z.of_nat (size t) < 2 ^ 64 * NSEC ->
  exists d t', timer_add t deadline w = Ret t' /\ deadline <= d <= deadline + Z.of_nat (size t) /\ t' !! d = Some w
    /\ (forall i v, t !! i = Some v -> t' !! i = Some v)
    /\ forall now, let '(rest, woken) := expire t' now in
         (forall i v, rest !! i = Some v <-> t' !! i = Some v /\ now < i)
         /\ exists fired, woken = fired.*2 /\ StronglySorted (fun x y => x.1 <= y.1) fired
              /\ forall i v, (i, v) ∈ fired <-> t' !! i = Some v /\ i <= now.
Proof.
  intros Hd. destruct (timer_add_spec t deadline w Hd) as (d & Ha & Hr & Hn).
  exists d, (<[d := w]> t). split_and!; [done|lia|lia|by rewrite lookup_insert_eq| |].
  - intros i v Hi. rewrite lookup_insert_ne; [done|congruence].
  - intros now. rewrite expire_spec. split.
    + intros i v. by rewrite map_lookup_filter_Some.
    + exists (due (<[d := w]> t) now). split_and!; [done| |intros i v; apply due_in].
      unfold due. pose proof (btree_sorted (<[d := w]> t)) as Hs.
      induction Hs as [|x l Hs IH Hall]; cbn; [constructor|]. destruct (x.1 <=? now); [|done]. constructor; [done|].
      rewrite List.Forall_forall in Hall |- *. intros y Hy. apply filter_In in Hy as [Hy _]. by apply Hall.
Qed.

Lemma timer_exact_witness :
  exists d t', timer_add {[ 100 := 1%nat; 101 := 2%nat ]} 100 3 = Ret t' /\ 100 <= d <= 102 /\ t' !! d = Some 3%nat.
Proof.
  destruct (timer_exact {[ 100 := 1%nat; 101 := 2%nat ]} 100 3) as (d & t' & Ha & Hd & Hl & _); [vm_compute; reflexivity|].
  exists d, t'. split_and!; [exact Ha|apply Hd|apply Hd|exact Hl].
Defined.

(** The clock is right only while the counter is below 2^64 / 10^9, about
    18.4 * 10^9 ticks.  Up to there it is the counter scaled to nanoseconds and
    never runs backwards; the next tick panics with overflow checks and
    otherwise sets the clock back to (almost) zero. *)
Theorem clock_overflows `{BuildMode} freq : 0 < freq <= NSEC ->
  (forall c, 0 <= c <= 18446744073 -> read_ns freq c = Ret (c * NSEC / freq))
  /\ (forall c c', 0 <= c <= c' -> c' <= 18446744073 -> exists x y, read_ns freq c = Ret x /\ read_ns freq c' = Ret y /\ x <= y)
  /\ read_ns freq 18446744074 = if overflow_checks then Panic "attempt to multiply with overflow" else Ret (290448384 / freq).
Proof.
  unfold NSEC. intros Hf.
  assert (forall c, 0 <= c <= 18446744073 -> read_ns freq c = Ret (c * NSEC / freq)) as Hok.
  { intros c Hc. unfold read_ns. rewrite umul_ok by (unfold NSEC; lia). sret.
    by rewrite (proj2 (Z.eqb_neq _ _)) by lia. }
  split_and!; [done| |].
  - intros c c' Hc Hc'. do 2 eexists. split_and!; [apply Hok; lia|apply Hok; lia|].
    apply Z.div_le_mono; unfold NSEC; lia.
  - unfold read_ns, umul, u64, NSEC. rewrite (proj2 (Z.eqb_neq freq 0)) by lia.
    assert (forall msg, arith 0 64 (18446744074 * 1000000000) msg = if overflow_checks then Panic msg else Ret 290448384) as ->
      by (unfold arith, overflow_checks; by destruct H). by destruct overflow_checks.
Qed.

Lemma clock_overflows_witness : read_ns (H := false) 62500000 18446744074 = Ret 4.
Proof. exact (proj2 (proj2 (@clock_overflows false 62500000 ltac:(unfold NSEC; lia)))). Defined.
