(* ===== verification/Sleep.v ===== *)
(** * Tasks that wait for a time ([task/timer.rs], [task/executor])

    The timer, the scheduler and the interrupt of the timer together: a task
    that polls a [DelayFuture] registers its waker and leaves the run queue,
    and the interrupt hands the wakers that are due to the scheduler.  One
    processor. *)

From S2P Require Import Prelude BTree Sched SchedTheorems Executor Timer.

Section sleep.
Context `{BM : BuildMode} {R Q : Type} `{PQ : PriorityQueue R Q}.
Implicit Types (g : Sched Q) (tm : Timer).

(** The waker of a task calls the closure of [SchedTask::schedule_fn] with the
    [Runnable] of the task: [run r] for the task behind [r]. *)
Variable run : nat -> R.

(** [Waker::wake] for the wakers that [Timer::expire] removes, in order. *)
Definition wake_all g (ws : list nat) : outcome (Sched Q) := foldM (fun g r => schedule_fn g r (run r)) g ws.

(** [GenericTimer::handle_interrupt] with the counter at [count]. *)
Definition timer_irq g tm (freq count : Z) : outcome (Sched Q * Timer) :=
  x ← timer_interrupt tm freq count;
  g ← wake_all g x.1.2;
  Ret (g, x.1.1).

(** The rest of a turn of [Executor::run] whose task, behind [r], ends in the
    poll of a [DelayFuture] at the time [now].  When the deadline has come the
    task goes on, and [None] stands for that. *)
Definition delay_turn g tm (r : nat) (now deadline later : Z) : outcome (option (Sched Q * Timer)) :=
  x ← delay_poll tm now deadline r;
  if (x.1 : bool) then Ret None
  else
    g ← remove_task g 0 r;
    g ← task_tick g 0 r later;
    Ret (Some (g, x.2)).
End sleep.

Section laws.
Context {R Q : Type} `{PS : PriorityQueueSpec R Q} `{AS : ArenaSpec}.
Implicit Types (g : Sched Q) (rq : RunQueue Q) (tm : Timer).
Variable run : nat -> R.

(** ** Waking *)

(** How far before the least virtual run time a woken task is queued: virtual
    run times are compared by the sign of their difference, so a key below
    zero may wrap around. *)
Definition WAKE_CREDIT : Z := 3000000.
Definition wake_key rq : Z := (min_vruntime rq - WAKE_CREDIT) mod 2 ^ 64.
Definition MAX_WEIGHT : Z := 88761.

(** The subtraction wraps around or is in range. *)
Definition credit_ok rq : Prop := (overflow_checks = false \/ WAKE_CREDIT <= min_vruntime rq) /\ 0 <= min_vruntime rq < 2 ^ 62.

Lemma vr_credit rq : credit_ok rq -> vr_sub (min_vruntime rq) WAKE_CREDIT = Ret (wake_key rq).
Proof.
  intros (Ho & Hm). unfold wake_key, WAKE_CREDIT in *. destruct (Z.leb_spec 3000000 (min_vruntime rq)).
  - unfold vr_sub. rewrite usub_ok, Z.mod_small by lia. done.
  - destruct Ho as [Ho|?]; [|lia]. unfold vr_sub, usub, u64, arith, wrap, overflow_checks in *. rewrite (proj2 (Z.leb_gt 0 _)) by lia. rewrite Ho.
    cbn [andb]. by rewrite Z.sub_0_r, Z.add_0_l.
Qed.

Lemma wake_key_i64 rq : credit_ok rq -> as_i64 (wake_key rq) = min_vruntime rq - WAKE_CREDIT.
Proof.
  intros (_ & Hm). unfold wake_key, WAKE_CREDIT in *. destruct (Z.leb_spec 3000000 (min_vruntime rq)).
  - rewrite Z.mod_small by lia. apply as_i64_small. lia.
  - rewrite <- (Z.mod_unique (min_vruntime rq - 3000000) (2 ^ 64) (-1) (min_vruntime rq - 3000000 + 2 ^ 64)) by lia.
    rewrite as_i64_big by lia. lia.
Qed.

(** The run time of a woken task: never set back. *)
Lemma vr_max_credit rq v : credit_ok rq -> 0 <= v < 2 ^ 62 ->
  exists m, vr_max v (wake_key rq) = Ret m /\ m = Z.max v (min_vruntime rq - WAKE_CREDIT).
Proof.
  intros Hc Hv. pose proof Hc as (_ & Hm). unfold vr_max, vr_cmp. rewrite wake_key_i64, as_i64_small by (done || lia). unfold isub.
  rewrite i64_ok by (unfold is_i64, WAKE_CREDIT; lia). sret. eexists. split; [done|].
  destruct (Z.compare_spec (v - (min_vruntime rq - WAKE_CREDIT)) 0) as [Heq|Hlt|Hgt]; [| |lia];
    unfold wake_key; rewrite Z.mod_small by (unfold WAKE_CREDIT in *; lia); lia.
Qed.

Lemma schedule_fn_total g r x task rq :
  sched_tasks g !! r = Some task -> run_queue task = 0%nat -> queues g !! 0%nat = Some rq ->
  credit_ok rq -> 0 <= vruntime task < 2 ^ 62 -> is_current_task rq (s_tid task) = false ->
  0 <= nr_running rq < 2 ^ 64 - 1 -> 0 <= weight (load rq) -> 0 <= weight (s_load task) -> weight (load rq) + weight (s_load task) < 2 ^ 64 ->
  exists v rq', schedule_fn g r x = Ret (mkSched (<[r := set_vruntime (set_on_rq task true) v]> (sched_tasks g)) (active_tasks g) (<[0%nat := rq']> (queues g)))
    /\ 0 <= v < 2 ^ 62 /\ items rq' = <[s_tid task := mkReady (wake_key rq) x]> (items rq)
    /\ current_task rq' = current_task rq /\ min_vruntime rq' = min_vruntime rq /\ nr_running rq' = nr_running rq + 1
    /\ weight (load rq') = weight (load rq) + weight (s_load task).
Proof.
  intros Ht Hrq Hq Hm Hv Hc Hn Hl Hw Hlw. unfold schedule_fn, get_task, get_queue in *. rewrite Ht.
  cbn [expect mbind outcome_bind run_queue set_on_rq vruntime]. rewrite Hrq, Hq. cbn [expect mbind outcome_bind].
  change (if feature GENTLE_FAIR_SLEEPERS then Z.shiftr SCHED_LATENCY 1 else SCHED_LATENCY) with WAKE_CREDIT.
  rewrite vr_credit by done. sret. destruct (vr_max_credit rq (vruntime task) Hm Hv) as (m & -> & Hmax). sret.
  cbn [s_tid s_load set_vruntime set_on_rq run_queue]. unfold insert_task. rewrite Hc. cbn [negb]. rewrite uadd_ok by lia. sret.
  unfold load_add. rewrite uadd_ok by lia. sret. do 2 eexists. split; [unfold put_queue, put_task; cbn; by rewrite Hrq|].
  unfold items. cbn. rewrite pq_items_push. destruct Hm as [_ Hm]. unfold WAKE_CREDIT in Hmax. split_and!; try done; lia.
Qed.

(** The numbers leave room for [n] tasks to be woken. *)
Definition wake_fits g rq (n : nat) : Prop :=
  credit_ok rq /\ nr_running rq + Z.of_nat n <= 2 ^ 63
  /\ 0 <= weight (load rq) /\ weight (load rq) + MAX_WEIGHT * Z.of_nat n < 2 ^ 64
  /\ forall r task, sched_tasks g !! r = Some task -> 0 <= vruntime task < 2 ^ 62 /\ 0 <= weight (s_load task) <= MAX_WEIGHT.

(** No two numbers stand for one task. *)
Lemma active_inj g ph t t' r : sched_inv (g, ph) -> active_tasks g !! t = Some r -> active_tasks g !! t' = Some r -> t = t'.
Proof.
  intros (rq & _ & (Hact & _) & _) Ht Ht'. cbn [fst] in *. destruct (Hact t r Ht) as (x & Hx & <- & _).
  destruct (Hact t' r Ht') as (y & Hy & <- & _). congruence.
Qed.

Lemma wake_one g u v rq t r n :
  asleep t r (g, Running u v) -> queues g !! 0%nat = Some rq -> wake_fits g rq (S n) ->
  exists g' rq', schedule_fn g r (run r) = Ret g' /\ queues g' !! 0%nat = Some rq' /\ sched_inv (g', Running u v) /\ wake_fits g' rq' n
    /\ active_tasks g' = active_tasks g /\ wake_key rq' = wake_key rq
    /\ items rq' = <[t := mkReady (wake_key rq) (run r)]> (items rq).
Proof.
  intros (Hinv & Ha & Hi & Hph) Hq (Hm & Hn & Hl & Hlw & Hall). cbn [fst snd] in *. unfold MAX_WEIGHT in *.
  destruct (sched_queue _ _ Hinv) as (rq0 & Hq0 & Hq1 & (Hact & _) & (Hcount & Hc & _) & Hnr). rewrite Hq1 in Hq. injection Hq as ->.
  destruct (Hact t r Ha) as (task & Ht & Htid & Hrq). destruct (Hall r task Ht) as [Hv Hw].
  assert (is_current_task rq t = false) as Hcur.
  { rewrite (is_current_some rq u v Hc). apply Z.eqb_neq. intros ->. by apply (Hph v). }
  destruct (schedule_fn_total g r (run r) task rq) as (m & rq' & Hs & Hbm & Hi' & Hc' & Hm' & Hn' & Hl'); try done; [by rewrite Htid|lia..|].
  do 2 eexists. split; [exact Hs|]. cbn [queues]. rewrite lookup_insert_eq, Htid in *. split; [done|]. split; [|split; [|split; [done|split; [unfold wake_key; by rewrite Hm'|done]]]].
  - eapply wake_inv; [exact Hq1|exact Ha|by apply Hi|exact Hcur|lia|exact Hs|exact Hinv].
  - unfold wake_fits, MAX_WEIGHT. rewrite Hn', Hl'. split; [unfold credit_ok; by rewrite Hm'|]. split_and!; try lia. intros r1 task1 E1. cbn in E1.
    apply lookup_insert_Some in E1 as [[<- <-]|[_ E1]]; [by split|by apply (Hall r1)].
Qed.

Lemma wake_all_spec u v ws : forall g rq,
  sched_inv (g, Running u v) -> NoDup ws -> (forall r, r ∈ ws -> exists t, asleep t r (g, Running u v)) -> queues g !! 0%nat = Some rq -> wake_fits g rq (length ws) ->
  exists g' rq', wake_all run g ws = Ret g' /\ queues g' !! 0%nat = Some rq' /\ sched_inv (g', Running u v)
    /\ active_tasks g' = active_tasks g
    /\ (forall r t, r ∈ ws -> active_tasks g !! t = Some r -> items rq' !! t = Some (mkReady (wake_key rq) (run r)))
    /\ forall t, (forall r, r ∈ ws -> active_tasks g !! t <> Some r) -> items rq' !! t = items rq !! t.
Proof.
  induction ws as [|r ws IH]; intros g rq Hinv Hnd Hsl Hq Hfit.
  { exists g, rq. split_and!; try done. intros r t Hr. by apply not_elem_of_nil in Hr. }
  apply NoDup_cons in Hnd as [Hr Hnd]. destruct (Hsl r ltac:(by left)) as [t Hrt]. pose proof Hrt as (_ & Ha & _).
  destruct (wake_one g u v rq t r (length ws) Hrt Hq Hfit) as (g1 & rq1 & Hs & Hq1 & Hinv1 & Hfit1 & Ha1 & Hm1 & Hi1).
  destruct (IH g1 rq1 Hinv1 Hnd) as (g' & rq' & Hw & Hq' & Hinv' & Ha' & Hin & Hout); try done.
  { intros r1 Hr1. destruct (Hsl r1 ltac:(by right)) as (t1 & _ & Hact1 & Hi2 & Hp1). exists t1. split; [done|]. cbn [fst snd] in *.
    rewrite Ha1. split_and!; try done. intros rq2. rewrite Hq1. intros [= <-]. rewrite Hi1, lookup_insert_ne; [by apply Hi2|congruence]. }
  exists g', rq'. split; [unfold wake_all in *; cbn [foldM]; by rewrite Hs|]. rewrite Ha1, Hm1 in *. split_and!; try done.
  - intros r1 t1 [->|Hr1]%elem_of_cons Ht1; [|by apply Hin]. assert (t1 = t) as -> by by eapply (active_inj g).
    rewrite Hout, Hi1; [by rewrite lookup_insert_eq|]. cbn in Ha. congruence.
  - intros t1 Hno. rewrite Hout, Hi1, lookup_insert_ne; [done| |].
    + intros <-. by apply (Hno r); [left|].
    + intros r1 Hr1. apply Hno. by right.
Qed.
(** ** The tasks that wait *)

(** The scheduler, the timer, and for every task that waits for a time the
    deadline it asked for. *)
Record zstate := mkZ { z_sched : Sched Q * phase; z_timer : Timer; z_wait : gmap nat Z }.

(** At most [N] timers are pending when one more is added. *)
Variable N : Z.

Definition clock_ok (freq count : Z) : Prop := 0 < freq < 2 ^ 32 /\ 0 <= count /\ count * NSEC < 2 ^ 64.

(** The scheduler steps without waking a task that waits for a time; the task
    that runs waits for a time; and the timer interrupts the task that runs. *)
Inductive zstep : zstate -> zstate -> Prop :=
  | z_turn s s' tm zs : step s s' -> (forall r y, is_Some (zs !! r) -> schedule_fn s.1 r y <> Ret s'.1) -> zstep (mkZ s tm zs) (mkZ s' tm zs)
  | z_delay g t r tm zs now d later g' tm' :
      Z.of_nat (size tm) <= N -> d + N < 2 ^ 64 * NSEC -> delay_turn g tm r now d later = Ret (Some (g', tm')) ->
      zstep (mkZ (g, Running t r) tm zs) (mkZ (g', Choosing) tm' (<[r := d]> zs))
  | z_irq g rq t r tm zs freq count g' tm' :
      clock_ok freq count -> queues g !! 0%nat = Some rq -> wake_fits g rq (size tm) -> timer_irq run g tm freq count = Ret (g', tm') ->
      zstep (mkZ (g, Running t r) tm zs) (mkZ (g', Running t r) tm' (filter (fun x => x.1 ∈ map_img (SA := gset nat) tm') zs)).

(** The timer has one entry for every task that waits, not before its
    deadline and at most [N] nanoseconds behind it, and no other entries; the
    tasks that wait are asleep. *)
Definition waiting_ok (z : zstate) : Prop :=
  sched_inv (z_sched z)
  /\ (forall k r, z_timer z !! k = Some r -> exists d, z_wait z !! r = Some d /\ d <= k <= d + N)
  /\ (forall k k' r, z_timer z !! k = Some r -> z_timer z !! k' = Some r -> k = k')
  /\ forall r d, z_wait z !! r = Some d -> (exists k, z_timer z !! k = Some r) /\ exists t, asleep t r (z_sched z).

(** The interrupt on a state with the invariant. *)
Lemma timer_irq_spec g u v tm zs rq freq count :
  waiting_ok (mkZ (g, Running u v) tm zs) -> clock_ok freq count -> queues g !! 0%nat = Some rq -> wake_fits g rq (size tm) ->
  let now := count * NSEC / freq in
  exists g' rq', timer_irq run g tm freq count = Ret (g', filter (fun x => now < x.1) tm) /\ queues g' !! 0%nat = Some rq'
    /\ sched_inv (g', Running u v) /\ active_tasks g' = active_tasks g
    /\ (forall k r t, tm !! k = Some r -> k <= now -> active_tasks g !! t = Some r ->
          items rq' !! t = Some (mkReady (wake_key rq) (run r)))
    /\ (forall t, (forall k r, tm !! k = Some r -> k <= now -> active_tasks g !! t <> Some r) -> items rq' !! t = items rq !! t).
Proof.
  intros (Hinv & Htm & Hinj & Hzs) (Hf & Hc & Hn) Hq Hfit now. cbn [z_sched z_timer z_wait] in *.
  unfold timer_irq. rewrite timer_interrupt_spec by done. cbn [mbind outcome_bind fst snd]. fold now.
  destruct (wake_all_spec u v (due tm now).*2 g rq) as (g' & rq' & -> & Hq' & Hinv' & Ha' & Hin & Hout); try done.
  - by apply due_NoDup.
  - intros r ([k r'] & -> & [Hk _]%due_in)%list_elem_of_fmap. destruct (Htm k r' Hk) as (d & Hd & _). apply (Hzs _ _ Hd).
  - pose proof (due_length tm now). destruct Hfit as (? & ? & ? & ? & ?). unfold wake_fits, MAX_WEIGHT in *. split_and!; try done; lia.
  - exists g', rq'. split_and!; try done.
    + intros k r t Hk Hle Ha. apply Hin; [|done]. apply list_elem_of_fmap. exists (k, r). split; [done|]. by apply due_in.
    + intros t Hno. apply Hout. intros r ([k r'] & -> & [Hk Hle]%due_in)%list_elem_of_fmap. by eapply Hno.
Qed.

Lemma z_irq_ok g u v tm zs rq freq count g' tm' :
  waiting_ok (mkZ (g, Running u v) tm zs) -> clock_ok freq count -> queues g !! 0%nat = Some rq -> wake_fits g rq (size tm) ->
  timer_irq run g tm freq count = Ret (g', tm') ->
  waiting_ok (mkZ (g', Running u v) tm' (filter (fun x => x.1 ∈ map_img (SA := gset nat) tm') zs)).
Proof.
  intros Hok Hc Hq Hfit Hi. destruct (timer_irq_spec g u v tm zs rq freq count Hok Hc Hq Hfit) as (g1 & rq1 & Hi1 & Hq1 & Hinv1 & Ha1 & _ & Hout).
  rewrite Hi1 in Hi. injection Hi as <- <-. destruct Hok as (Hinv & Htm & Hinj & Hzs). cbn [z_sched z_timer z_wait] in *.
  split_and!; cbn [z_sched z_timer z_wait]; [done| | |].
  - intros k r Hk. pose proof Hk as [Hk' _]%map_lookup_filter_Some. destruct (Htm k r Hk') as (d & Hd & Hkd). exists d. split; [|done].
    apply map_lookup_filter_Some. split; [done|]. apply elem_of_map_img. by exists k.
  - intros k k' r [Hk _]%map_lookup_filter_Some [Hk' _]%map_lookup_filter_Some. by eapply Hinj.
  - intros r d [Hd (k & Hk)%elem_of_map_img]%map_lookup_filter_Some. cbn [fst] in Hk. split; [by exists k|].
    destruct (Hzs r d Hd) as (_ & t & _ & Ha & Hi & Hp). exists t. split; [done|]. cbn [fst snd] in *. split_and!; [by rewrite Ha1| |done].
    intros rq2. rewrite Hq1. intros [= <-]. rewrite Hout; [by apply Hi|]. intros k' r' Hk' Hle Ha'. assert (r' = r) as -> by congruence.
    apply map_lookup_filter_Some in Hk as [Hk Hlt]. cbn in Hlt. assert (k' = k) by by eapply Hinj. lia.
Qed.

Lemma z_delay_ok g t r tm zs now d later g' tm' :
  waiting_ok (mkZ (g, Running t r) tm zs) -> Z.of_nat (size tm) <= N -> d + N < 2 ^ 64 * NSEC ->
  delay_turn g tm r now d later = Ret (Some (g', tm')) -> waiting_ok (mkZ (g', Choosing) tm' (<[r := d]> zs)).
Proof.
  intros (Hinv & Htm & Hinj & Hzs) Hsz Hd Hz. cbn [z_sched z_timer z_wait] in *. unfold delay_turn, delay_poll in Hz.
  destruct (d <=? now); [done|]. destruct (timer_add_spec tm d r) as (k & Hadd & Hk & Hnew); [lia|]. rewrite Hadd in Hz.
  cbn [mbind outcome_bind fst snd] in Hz. do 2 unbind Hz. injection Hz as <- <-.
  destruct (sched_queue _ _ Hinv) as (rq & _ & Hq & (_ & _ & Hcur) & (_ & Hc & Hnone) & _).
  assert (zs !! r = None) as Hr.
  { apply eq_None_not_Some. intros [d0 Hd0]. destruct (Hzs r d0 Hd0) as (_ & t0 & _ & Ha0 & _ & Hp). cbn [fst snd] in *.
    assert (t0 = t) as -> by (eapply (active_inj g); [exact Hinv|exact Ha0|by apply Hcur]). by apply (Hp r). }
  assert (forall j, tm !! j <> Some r) as Hnr. { intros j Hj. destruct (Htm j r Hj) as (? & ? & _). congruence. }
  split_and!; cbn [z_sched z_timer z_wait].
  - by eapply sleep_inv.
  - intros j r' [[<- <-]|[_ Hj]]%lookup_insert_Some; [exists d; rewrite lookup_insert_eq; split; [done|lia]|].
    destruct (Htm j r' Hj) as (d' & Hd' & ?). exists d'. rewrite lookup_insert_ne by congruence. by split.
  - intros j j' r' [[<- <-]|[? Hj]]%lookup_insert_Some [[<- E']|[? Hj']]%lookup_insert_Some; subst; try done; try (by apply Hnr in Hj'); try (by apply Hnr in Hj). by eapply Hinj.
  - intros r' d' [[<- <-]|[Hne Hd']]%lookup_insert_Some.
    + split; [exists k; by rewrite lookup_insert_eq|]. exists t. eapply asleep_sleep; [done|done|exact Hinv|by apply Hcur|].
      intros rq'. rewrite Hq. intros [= <-]. done.
    + destruct (Hzs r' d' Hd') as ((j & Hj) & t' & _ & Ha & Hi & _). split; [exists j; rewrite lookup_insert_ne; [done|congruence]|].
      exists t'. by eapply asleep_sleep.
Qed.

Lemma zstep_ok z z' : zstep z z' -> waiting_ok z -> waiting_ok z'.
Proof.
  intros Hst Hok. destruct Hst as [s s' tm zs Hst Hno|g t r tm zs now d later g' tm' Hsz Hd Hz|g rq t r tm zs freq count g' tm' Hc Hq Hfit Hi].
  - destruct Hok as (Hinv & Htm & Hinj & Hzs). cbn [z_sched z_timer z_wait] in *. split_and!; cbn [z_sched z_timer z_wait]; [by eapply step_sched_inv|done|done|].
    intros r d Hd. destruct (Hzs r d Hd) as (Hk & t & Ha). split; [done|]. exists t. eapply asleep_step; [|exact Ha]. split; [done|].
    intros y. apply Hno. by exists d.
  - by eapply z_delay_ok.
  - by eapply z_irq_ok.
Qed.
(** ** Theorems *)


(** [current_task] still names the last task after that went to sleep.  When
    it is woken before another task is chosen, [insert_task] takes it for the
    task that runs: it becomes ready without being counted. *)
Theorem last_task_not_counted g t r later x g1 g2 g3 :
  sched_inv (g, Running t r) -> remove_task g 0 r = Ret g1 -> task_tick g1 0 r later = Ret g2 -> schedule_fn g2 r x = Ret g3 ->
  exists rq3, queues g3 !! 0%nat = Some rq3 /\ is_Some (items rq3 !! t) /\ nr_running rq3 = Z.of_nat (size (items rq3)) - 1.
Proof.
  intros Hinv Hr Hk Hs. destruct (sched_queue _ _ Hinv) as (rq & Hq0 & Hq & (Hact & _ & Hcur) & (Hn & Hc & Hnone) & Hnr).
  assert (asleep t r (g2, Choosing)) as (Hinv2 & Ha2 & Hi2 & _).
  { eapply asleep_sleep; [exact Hr|exact Hk|exact Hinv|by apply Hcur|]. intros rq'. rewrite Hq. by intros [= <-]. }
  destruct (sched_queue _ _ Hinv2) as (rq2 & _ & Hq2 & (Hact2 & _) & (Hn2 & _) & Hnr2). cbn [fst] in *.
  destruct (Hact2 t r Ha2) as (task2 & Ht2 & Htid2 & Hrq2).
  assert (current_task rq2 = Some (t, r)) as Hc2.
  { destruct (Hact t r (Hcur t r Hc)) as (task & Ht & Htid & Hrq).
    destruct (remove_task_fields g 0 r rq task g1 Hr Hq Ht) as (rq1 & -> & _ & Hc1 & _); [by rewrite (is_current_some rq t r Hc), Htid, Z.eqb_refl|lia|].
    destruct (task_tick_fields _ 0 r later rq1 (set_on_rq task false) g2 Hk) as (rq2' & task' & -> & _ & _ & _ & _ & Hc2 & _); [apply lookup_insert_eq..|].
    cbn in Hq2. rewrite lookup_insert_eq in Hq2. injection Hq2 as <-. congruence. }
  destruct (schedule_fn_fields g2 r x rq2 task2 g3 Hs Ht2) as (rq3 & task3 & e & -> & _ & _ & _ & Hi3 & _ & Hn3); [by rewrite Hrq2|lia|].
  exists rq3. cbn [queues]. rewrite Hrq2, lookup_insert_eq, Hi3, Htid2 in *. split_and!; [done|rewrite lookup_insert_eq; by eexists|].
  rewrite (is_current_some rq2 t r Hc2), Z.eqb_refl in Hn3. rewrite size_insert_new by (by apply Hi2). lia.
Qed.

(** ** With overflow checks *)

(** While the least virtual run time is below the credit of a woken task, the
    subtraction in [schedule_fn] underflows. *)
Lemma wake_underflows g r x task rq :
  overflow_checks = true -> sched_tasks g !! r = Some task -> queues g !! run_queue task = Some rq -> 0 <= min_vruntime rq < WAKE_CREDIT ->
  schedule_fn g r x = Panic "attempt to subtract with overflow".
Proof.
  intros Ho Ht Hq Hm. unfold schedule_fn, get_task, get_queue, WAKE_CREDIT in *. rewrite Ht. cbn [expect mbind outcome_bind run_queue set_on_rq].
  rewrite Hq. cbn [expect mbind outcome_bind]. change (if feature GENTLE_FAIR_SLEEPERS then Z.shiftr SCHED_LATENCY 1 else SCHED_LATENCY) with 3000000.
  unfold vr_sub, usub, u64, arith. rewrite (proj2 (Z.leb_gt 0 _)) by lia. cbn. unfold overflow_checks in *. by rewrite Ho.
Qed.

(** A task that is off the queue does not move the least virtual run time
    away from zero. *)
Lemma update_min_zero g rq t r task rq' :
  update_min_vruntime g rq = Ret rq' -> current_task rq = Some (t, r) -> sched_tasks g !! r = Some task -> on_rq task = false ->
  min_vruntime rq = 0 -> min_vruntime rq' = 0 /\ current_task rq' = current_task rq.
Proof.
  unfold update_min_vruntime, get_task. intros Hu Hc Ht Ho Hm. rewrite Hc, Ht in Hu. cbn [expect mbind outcome_bind] in Hu. rewrite Ho, Hm in Hu.
  destruct (pq_peek (ready_tasks rq)) as [[u e]|]; do 2 unbind Hu; injection Hu as <-; cbn; split; try done.
  - unfold vr_min in E. destruct (vr_cmp 0 (r_vruntime e)) as [[]|] eqn:Ec; try done; cbn in E; injection E as <-;
      unfold vr_max in E0; rewrite ?Ec in E0; cbn in E0; by injection E0 as <-.
  - injection E as <-. cbn in E0. by injection E0 as <-.
Qed.

(** The queue of the one processor has its least virtual run time at zero. *)
Definition at_zero g : Prop := forall rq, queues g !! 0%nat = Some rq -> min_vruntime rq = 0.

Lemma sleep_at_zero g t r later g1 g' :
  remove_task g 0 r = Ret g1 -> task_tick g1 0 r later = Ret g' -> sched_inv (g, Running t r) -> at_zero g -> at_zero g'.
Proof.
  intros Hr Hk Hinv Hz. destruct (sched_queue _ _ Hinv) as (rq & _ & Hq & (Hact & _ & Hcur) & (Hn & Hc & Hnone) & Hnr). cbn [fst] in *.
  destruct (Hact t r (Hcur t r Hc)) as (task & Ht & Htid & _). specialize (Hz rq Hq).
  unfold remove_task, get_queue, get_task in Hr. rewrite Hq, Ht in Hr. cbn [expect mbind outcome_bind] in Hr.
  destruct (pq_remove (ready_tasks rq) (s_tid task)) as [old q]. rewrite Htid, (is_current_some rq t r Hc), Z.eqb_refl, orb_true_r in Hr.
  do 3 unbind Hr. injection Hr as <-. apply (update_min_zero _ _ t r (set_on_rq task false)) in E1 as [Hm1 Hc1]; try done; [|apply lookup_insert_eq].
  unfold task_tick, get_task in Hk. cbn [put_queue put_task sched_tasks] in Hk. rewrite lookup_insert_eq in Hk. cbn [expect mbind outcome_bind] in Hk.
  unbind Hk. unfold tick in E1. do 4 unbind E1. injection E1 as <-. unfold get_queue in Hk. cbn [put_queue put_task queues] in Hk.
  rewrite lookup_insert_eq in Hk. cbn [expect mbind outcome_bind] in Hk. unbind Hk. injection Hk as <-.
  eapply (update_min_zero _ _ t r) in E1 as [Hm2 _]; [|cbn in *; congruence|apply lookup_insert_eq|done|done].
  intros rq2. cbn. rewrite lookup_insert_eq. by intros [= <-].
Qed.

(** With one queue, a wake-up at zero panics. *)
Lemma wake_at_zero g ph t r x :
  overflow_checks = true -> sched_inv (g, ph) -> at_zero g -> active_tasks g !! t = Some r -> schedule_fn g r x = Panic "attempt to subtract with overflow".
Proof.
  intros Ho Hinv Hz Ha. destruct (sched_queue _ _ Hinv) as (rq & _ & Hq & (Hact & _) & _). destruct (Hact t r Ha) as (task & Ht & _ & Hrq).
  eapply wake_underflows; [done|exact Ht|by rewrite Hrq|]. rewrite (Hz rq Hq). done.
Qed.

Lemma step_at_zero s s' : overflow_checks = true -> step s s' -> sched_inv s -> at_zero s.1 -> at_zero s'.1.
Proof.
  intros Ho Hst Hinv Hz.
  destruct Hst as [g now ql l u v x g' Hp|g u v x later g1 g' Hs Hk|g u v later g1 g' Hs Hk|g ph rq u v x g' Hq Hu Hn Hc Hlt Hs|g ph rq ni pa x v g' Hq Hlt Hs];
    cbn [fst snd] in *; destruct (sched_queue _ _ Hinv) as (rq0 & Hq0 & Hq1 & (Hact & Hin & Hcur) & Hcount & Hnr).
  - destruct (pop_fields g rq0 now ql l u v x g' Hp Hq0) as (e & task & _ & _ & _ & _ & _ & ->). intros rq'. cbn. rewrite lookup_insert_eq. intros [= <-].
    by apply (Hz rq0).
  - destruct Hcount as (_ & Hc & _). by rewrite (wake_at_zero g _ u v x Ho Hinv Hz (Hcur u v Hc)) in Hs.
  - by eapply sleep_at_zero.
  - by rewrite (wake_at_zero g _ u v x Ho Hinv Hz Hu) in Hs.
  - rewrite Hq1 in Hq. injection Hq as <-. specialize (Hz rq0 Hq1). unfold spawn, get_queue in Hs. rewrite Hq1 in Hs. cbn [expect mbind outcome_bind] in Hs.
    do 3 unbind Hs. unfold insert_task in Hs. unbind Hs. unbind E2. injection Hs as <- <-. intros rq'. cbn. rewrite lookup_insert_eq. intros [= <-].
    injection E2 as <-. cbn. destruct (negb _); [do 2 unbind E3|]; by injection E3 as <-.
Qed.

(** C20. With overflow checks the kernel does not survive its first yield or
    wake-up.  The least virtual run time of the queue starts at zero and only
    a task that yielded can raise it; but a task that yields or is woken is
    queued three milliseconds before it, and this subtraction panics.  So
    whatever tasks were spawned, ran and went to sleep, scheduling any of them
    again panics, and a turn in which the task yields, as the idle task does
    each time, never returns. *)
Theorem checked_build_panics idle g0 g ph :
  overflow_checks = true -> executor_new (mkSched ∅ ∅ ∅) 0 idle = Ret g0 -> rtc step (g0, Choosing) (g, ph) ->
  (forall t r x, active_tasks g !! t = Some r -> schedule_fn g r x = Panic "attempt to subtract with overflow")
  /\ (ph = Choosing -> forall now later ql l x g', run_turn g 0 now later ql l (fun _ => Yielded x) <> Ret g').
Proof.
  intros Ho Hg0 Hr.
  assert (forall s, rtc step (g0, Choosing) s -> sched_inv s /\ at_zero s.1) as Hall.
  { apply (rtc_ind_r (fun s => sched_inv s /\ at_zero s.1)).
    - split; [by eapply executor_new_inv|]. destruct (executor_new_spec (mkSched ∅ ∅ ∅) 0 idle) as (t & r & rq & task & He & _ & _ & -> & _).
      rewrite Hg0 in He. injection He as ->. intros rq'. cbn. rewrite lookup_insert_eq. by intros [= <-].
    - intros s s' _ Hst [Hinv Hz]. split; [by eapply step_sched_inv|by eapply step_at_zero]. }
  destruct (Hall _ Hr) as [Hinv Hz]. cbn [fst] in Hz. split; [intros t r x Ha; by eapply wake_at_zero|].
  intros -> now later ql l x g' Hrun. unfold run_turn in Hrun. destruct (pop_task_to_run g 0 now ql l) as [[[[t r] y] g1]|] eqn:Hp; [|done].
  cbn [mbind outcome_bind] in Hrun.
  destruct (Hall (g1, Running t r)) as [Hinv1 Hz1]; [eapply rtc_r; [exact Hr|by eapply step_pop]|].
  destruct (sched_queue _ _ Hinv1) as (rq1 & _ & _ & (_ & _ & Hcur) & (_ & Hc & _) & _).
  by rewrite (wake_at_zero g1 _ t r x Ho Hinv1 Hz1 (Hcur t r Hc)) in Hrun.
Qed.
End laws.

(** ** An evaluation *)
Section concrete.
#[local] Instance unchecked : BuildMode := false.

(** The idle task and two others: the first that runs waits for a millisecond,
    and the timer interrupts the second. *)
Definition nobody : nat -> bool := fun _ => false.
Definition pop_to (g : mock_sched) (now : Z) : Z * nat * nat * mock_sched := after (pop_task_to_run g 0 now nobody nobody) (0, 0%nat, 0%nat, g).
Definition demo_run := pop_to sched3 1000.
Definition demo_wait : mock_sched * Timer :=
  match delay_turn demo_run.2 ∅ 2 1500 1001500 2000 with Ret (Some x) => x | _ => (sched3, ∅) end.
Definition demo_next := pop_to demo_wait.1 3000.
Definition demo_queue : RunQueue (gmap Z (ReadyTask nat)) := default queue_new (queues demo_next.2 !! 0%nat).

Lemma mock_tasks_fit (g : mock_sched) :
  forallb (fun x => (0 <=? vruntime x.2) && (vruntime x.2 <? 2 ^ 62) && (0 <=? weight (s_load x.2)) && (weight (s_load x.2) <=? MAX_WEIGHT))
    (map_to_list (sched_tasks g)) = true ->
  forall r task, sched_tasks g !! r = Some task -> 0 <= vruntime task < 2 ^ 62 /\ 0 <= weight (s_load task) <= MAX_WEIGHT.
Proof.
  intros Hf r task Ht. rewrite forallb_forall in Hf. specialize (Hf (r, task)). cbn [snd] in Hf.
  assert (In (r, task) (map_to_list (sched_tasks g))) as Hin by (by apply list_elem_of_In, elem_of_map_to_list).
  apply Hf in Hin. bool_to_prop. lia.
Qed.

Lemma demo_reached : rtc (zstep (R := nat) id 4) (mkZ (sched1, Choosing) ∅ ∅) (mkZ (demo_next.2, Running 1 1) demo_wait.2 {[2%nat := 1001500]}).
Proof.
  assert (forall s s' tm (zs : gmap nat Z), step s s' -> (forall r y, is_Some (zs !! r) -> schedule_fn s.1 r y <> Ret s'.1) ->
            zstep (R := nat) id 4 (mkZ s tm zs) (mkZ s' tm zs)) as Hturn by (intros; by apply z_turn).
  assert (forall r : nat, ~ is_Some ((∅ : gmap nat Z) !! r)) as Hno by (intros r [x Hx]; by rewrite lookup_empty in Hx).
  eapply rtc_l; [apply (Hturn _ (spawned sched1 8, Choosing)); [eapply (step_spawn _ _ _ 0 None 8%nat 1); [vm_compute; reflexivity|vm_compute; reflexivity|vm_compute; reflexivity]|intros r y Hz; destruct (Hno r Hz)]|].
  eapply rtc_l; [apply (Hturn _ (sched3, Choosing)); [eapply (step_spawn _ _ _ 0 None 9%nat 2); [vm_compute; reflexivity|vm_compute; reflexivity|vm_compute; reflexivity]|intros r y Hz; destruct (Hno r Hz)]|].
  eapply rtc_l; [apply (Hturn _ (demo_run.2, Running 2 2)); [eapply (step_pop _ 1000 nobody nobody); vm_compute; reflexivity|intros r y Hz; destruct (Hno r Hz)]|].
  eapply rtc_l; [apply (z_delay id 4 demo_run.2 2 2 ∅ ∅ 1500 1001500 2000 demo_wait.1 demo_wait.2); [done|done|vm_compute; reflexivity]|].
  eapply rtc_l; [|apply rtc_refl]. apply Hturn; [eapply (step_pop _ 3000 nobody nobody); vm_compute; reflexivity|].
  intros r y [d [<- _]%lookup_singleton_Some] Hs.
  apply (f_equal (fun o => match o with Ret g => current_task (default queue_new (queues g !! 0%nat)) | Panic _ => None end)) in Hs. vm_compute in Hs. discriminate Hs.
Qed.

End concrete.

(** The same start in a build with overflow checks: the idle task is spawned
    and runs, and its first yield panics. *)
Section checked.
#[local] Instance checked : BuildMode := true.

Definition checked_sched : mock_sched := after (executor_new (mkSched ∅ ∅ ∅) 0 7%nat) (mkSched ∅ ∅ ∅).
Definition checked_run := pop_to checked_sched 1000.

Lemma checked_build_panics_witness : schedule_fn checked_run.2 0 7%nat = Panic "attempt to subtract with overflow".
Proof.
  refine (proj1 (checked_build_panics (R := nat) 7%nat checked_sched checked_run.2 (Running 0 0) _ _ _) 0 0%nat 7%nat _).
  - reflexivity.
  - vm_compute. reflexivity.
  - eapply rtc_l; [|apply rtc_refl]. eapply (step_pop _ 1000 nobody nobody). vm_compute. reflexivity.
  - vm_compute. reflexivity.
Defined.
End checked.
