(* ===== verification/FirstTasks.v ===== *)
(** * The first tasks ([arch/aarch64/mod.rs])

    The two [async] blocks that [async_test] spawns: each prints a line, waits
    for a while with [delay_for], and does so for ever; the second waits once
    before.  A block is a state machine that [poll] runs until it waits.  The
    clock is read twice for every wait: for the deadline, and when the
    [DelayFuture] is polled. *)

From S2P Require Import Prelude Timer.

Definition FROM_SECS (s : Z) : Z := s * NSEC.
Definition FROM_MILLIS (ms : Z) : Z := ms * 1000000.

(** Where a block is: before its first wait, about to print, or in
    [DelayFuture]. *)
Inductive Point := AtStart | AtPrint | InDelay (deadline : Z).

Section hello.
(** Reading [i] of the clock, in nanoseconds. *)
Variable clk : nat -> Z.

(** How long a block waits before its loop and in its loop. *)
Variables (first period : Z).

(** A poll of the block that starts with reading [i]: where it waits, the next
    reading, the timer, and the number of readings before each line that was
    printed. *)
Fixpoint hello_poll (fuel : nat) (waker : nat) (pt : Point) (i : nat) (tm : Timer) (out : list nat) : outcome (Point * nat * Timer * list nat) :=
  match fuel with
  | O => Panic "out of fuel"
  | S fuel =>
      match pt with
      | AtStart => d ← delay_for (clk i) first; hello_poll fuel waker (InDelay d) (S i) tm out
      | AtPrint => d ← delay_for (clk i) period; hello_poll fuel waker (InDelay d) (S i) tm (out ++ [i])
      | InDelay d =>
          x ← delay_poll tm (clk i) d waker;
          if (x.1 : bool) then hello_poll fuel waker AtPrint (S i) x.2 out else Ret (InDelay d, S i, x.2, out)
      end
  end.

(** Polls of the block, with anything in between: other tasks read the clock
    and use the timer. *)
Inductive hello_step : Point * nat * list nat -> Point * nat * list nat -> Prop :=
| hello_polled fuel waker pt i out j tm pt' i' tm' out' :
    (i <= j)%nat -> hello_poll fuel waker pt j tm out = Ret (pt', i', tm', out') -> hello_step (pt, i, out) (pt', i', out').

(** The reading before a line is at least [period] after the reading that
    followed the line before it. *)
Fixpoint spaced (out : list nat) : Prop :=
  match out with
  | i :: (j :: _) as rest => (i < j)%nat /\ clk i + period <= clk (j - 1) /\ spaced rest
  | _ => True
  end.

(** What a block knows about its last line. *)
Definition hello_ok (pt : Point) (i : nat) (out : list nat) : Prop :=
  spaced out /\ match last out with
  | None => True
  | Some k => (k < i)%nat /\ match pt with
              | AtStart => False
              | AtPrint => clk k + period <= clk (i - 1)
              | InDelay d => clk k + period <= d
              end
  end.

Lemma spaced_snoc out k i : spaced out -> last out = Some k -> (k < i)%nat -> clk k + period <= clk (i - 1) -> spaced (out ++ [i]).
Proof.
  induction out as [|a [|b out] IH]; intros Hs Hl Hk Hc; [done| |].
  - injection Hl as ->. done.
  - destruct Hs as (? & ? & Hs). cbn [app spaced]. split; [done|]. split; [done|]. by apply IH.
Qed.

Lemma spaced_print out i : hello_ok AtPrint i out -> spaced (out ++ [i]).
Proof.
  intros [Hs Hl]. destruct (last out) as [k|] eqn:E; [|by apply last_None in E as ->]. destruct Hl as [Hk Hc]. by eapply spaced_snoc.
Qed.

Lemma delay_for_ret now d r : delay_for now d = Ret r -> r = now + d.
Proof. unfold delay_for, dadd. case_match; [by intros [= <-]|done]. Qed.

Lemma hello_poll_ok fuel waker : forall pt i tm out pt' i' tm' out',
  hello_ok pt i out -> hello_poll fuel waker pt i tm out = Ret (pt', i', tm', out') -> hello_ok pt' i' out' /\ exists new, out' = out ++ new.
Proof.
  induction fuel as [|fuel IH]; intros pt i tm out pt' i' tm' out' Hok Hp; [done|]. cbn [hello_poll] in Hp. destruct pt as [| |d].
  - unbind Hp. eapply IH; [|exact Hp]. destruct Hok as [Hs Hl]. split; [done|]. by destruct (last out) as [k|]; [destruct Hl|].
  - unbind Hp. apply delay_for_ret in E as ->. assert (Hok' : hello_ok (InDelay (clk i + period)) (S i) (out ++ [i])).
    { split; [by apply spaced_print|]. rewrite last_snoc. split; lia. }
    destruct (IH _ _ _ _ _ _ _ _ Hok' Hp) as [H1 (new & ->)]. split; [done|]. exists (i :: new). by rewrite <- app_assoc.
  - unbind Hp. destruct a as [[|] tm1]; cbn [fst snd] in Hp.
    + eapply IH; [|exact Hp]. destruct Hok as [Hs Hl]. split; [done|]. destruct (last out) as [k|]; [|done]. destruct Hl as [Hk Hd].
      split; [lia|]. replace (S i - 1)%nat with i by lia. unfold delay_poll in E. destruct (Z.leb_spec d (clk i)); [lia|]. unbind E. done.
    + injection Hp as <- <- <- <-. split; [|exists []; by rewrite app_nil_r]. destruct Hok as [Hs Hl]. split; [done|].
      destruct (last out) as [k|]; [|done]. destruct Hl as [Hk Hd]. split; [lia|done].
Qed.

(** The clock does not run backwards. *)
Hypothesis clk_mono : forall i j, (i <= j)%nat -> clk i <= clk j.

Lemma hello_step_ok s s' : hello_step s s' -> hello_ok s.1.1 s.1.2 s.2 -> hello_ok s'.1.1 s'.1.2 s'.2.
Proof.
  intros [fuel waker pt i out j tm pt' i' tm' out' Hj Hp] [Hs Hl]. cbn [fst snd] in *. eapply hello_poll_ok; [|exact Hp]. split; [done|].
  destruct (last out) as [k|]; [|done]. destruct Hl as [Hk Hd]. split; [lia|]. destruct pt; [done| |done].
  specialize (clk_mono (i - 1) (j - 1)). lia.
Qed.

(** A poll that finds the deadline reached prints one line and waits again,
    with its waker in the timer, when the clock does not jump over the whole
    period meanwhile. *)
Lemma due_poll_prints waker d i tm out :
  d <= clk i -> clk (S (S i)) < clk (S i) + period -> clk (S i) + period + Z.of_nat (size tm) < 2 ^ 64 * NSEC ->
  exists e, hello_poll 3 waker (InDelay d) i tm out = Ret (InDelay (clk (S i) + period), S (S (S i)), <[e := waker]> tm, out ++ [S i])
    /\ clk (S i) + period <= e.
Proof.
  intros Hd Hj Hb. cbn [hello_poll]. unfold delay_poll. rewrite (proj2 (Z.leb_le d (clk i))) by done. cbn [mbind outcome_bind fst snd].
  unfold delay_for, dadd. rewrite (proj2 (Z.ltb_lt (clk (S i) + period) _)) by lia. cbn [mbind outcome_bind]. rewrite (proj2 (Z.leb_gt (clk (S i) + period) _)) by lia.
  destruct (timer_add_spec tm (clk (S i) + period) waker Hb) as (e & -> & He & _). cbn [mbind outcome_bind fst snd]. exists e. split; [done|lia].
Qed.
End hello.

(** The blocks of [async_test]. *)
Definition task_a_poll (clk : nat -> Z) := hello_poll clk 0 (FROM_SECS 1).
Definition task_b_poll (clk : nat -> Z) := hello_poll clk (FROM_MILLIS 500) (FROM_SECS 2).

(** The lines of the first tasks come at the pace the program asks for:
    however often the two blocks are polled and whenever, two lines of the
    first are a second apart and two of the second two seconds. *)
Theorem lines_spaced (clk : nat -> Z) first period pt i s :
  (forall i j, (i <= j)%nat -> clk i <= clk j) -> rtc (hello_step clk first period) (pt, i, []) s -> spaced clk period s.2.
Proof.
  intros Hmono Hr. assert (Hok : hello_ok clk period s.1.1 s.1.2 s.2); [|apply Hok].
  remember (pt, i, []) as s0 eqn:E. assert (hello_ok clk period s0.1.1 s0.1.2 s0.2) as H0 by (rewrite E; done). clear E.
  induction Hr as [|x y z Hs _ IH]; [done|]. apply IH. by eapply hello_step_ok.
Qed.

(** A clock that ticks every quarter of a second: the second block waits at
    its first poll, and prints at a poll half a second later. *)
Definition demo_clock (i : nat) : Z := Z.of_nat i * 250000000.
Lemma task_b_example :
  task_b_poll demo_clock 5 7 AtStart 0 ∅ [] = Ret (InDelay 500000000, 2%nat, {[500000000 := 7%nat]}, [])
  /\ task_b_poll demo_clock 5 7 (InDelay 500000000) 2 ∅ [] = Ret (InDelay 2750000000, 5%nat, {[2750000000 := 7%nat]}, [3%nat]).
Proof. by split; vm_compute. Qed.
