(* ===== verification/Drivers.v ===== *)
(** * Bringing up the devices ([arch/aarch64/interrupt/mod.rs] and the
      [driver_init] functions)

    At boot the kernel looks its devices up in the device tree, initialises
    them and registers them with the interrupt controller; from then on an
    interrupt runs the handler of its driver.  A driver is an object behind a
    reference; a device is what answers at its address. *)

From S2P Require Import Prelude Paging Mmio Uart DeviceTree Gic Rtc Sched Timer.

(** ** Drivers *)

(** [dyn Driver] *)
Inductive DriverObj (U R : Type) :=
| TimerDriver
| UartDriver (u : Pl011UartInner U)
| RtcDriver (r : R).
Arguments TimerDriver {U R}.
Arguments UartDriver {U R}.
Arguments RtcDriver {U R}.

(** The registers of the generic timer, the state of [task::timer::TIMER] with
    the tasks its expirations woke, the console [bsp::uart::UART],
    [RTC_DRIVER], and whether the processor takes interrupts. *)
Record Drv (U R : Type) := mkDrv {
  objs : list (DriverObj U R); cntp_ctl : Z; cntp_tval : Z; timers : gmap Z nat; woken : list nat;
  console : Z; rtc_driver : option nat; irqs_on : bool;
}.
Arguments mkDrv {U R}.
Arguments objs {U R}.
Arguments cntp_ctl {U R}.
Arguments cntp_tval {U R}.
Arguments timers {U R}.
Arguments woken {U R}.
Arguments console {U R}.
Arguments rtc_driver {U R}.
Arguments irqs_on {U R}.

(** The devices, by address. *)
Record Bus (D C U R : Type) := mkBus {
  bus_gicd : Z -> option D; bus_gicc : Z -> option C; bus_uart : Z -> option U; bus_rtc : Z -> option R;
}.
Arguments mkBus {D C U R}.
Arguments bus_gicd {D C U R}.
Arguments bus_gicc {D C U R}.
Arguments bus_uart {D C U R}.
Arguments bus_rtc {D C U R}.

(** [DeviceType] and its [Display], and what each driver says it is *)
Inductive DeviceType := DevNet | DevGpu | DevInput | DevBlock | DevRtc | DevSerial | DevIntc | DevTimer.
Definition description (t : DeviceType) : string :=
  match t with
  | DevNet => "Net" | DevGpu => "GPU" | DevInput => "Input" | DevBlock => "Block" | DevRtc => "RTC" | DevSerial => "Serial"
  | DevIntc => "Interrupt Controller" | DevTimer => "Timer"
  end.
Definition device_type {U R} (o : DriverObj U R) : DeviceType :=
  match o with TimerDriver => DevTimer | UartDriver _ => DevSerial | RtcDriver _ => DevRtc end.

Definition IRQ_NUMBER : Z := 30.
Definition TIMER_COMPATIBLE : string := "arm,armv8-timer".
Definition GIC_COMPATIBLE : string := "arm,cortex-a15-gic".
Definition UART_COMPATIBLE : string := "arm,pl011".
Definition RTC_COMPATIBLE : string := "arm,pl031".
Definition compatible {U R} (o : DriverObj U R) : string :=
  match o with TimerDriver => TIMER_COMPATIBLE | UartDriver _ => UART_COMPATIBLE | RtcDriver _ => RTC_COMPATIBLE end.

(** A driver can be told by its type and by the string the device tree is
    searched for. *)
Lemma driver_kinds {U R} (a b : DriverObj U R) : compatible a = compatible b <-> description (device_type a) = description (device_type b).
Proof. by destruct a, b. Qed.

Section drivers.
Context `{BuildMode, Fdt, Tock} {D C U R : Type}
  `{Registers GicdReg D, Registers GiccReg C, Registers UartReg U, Registers RtcReg R}.
Abbreviation gic := (GicV2 D C).
Abbreviation drv := (Drv U R).
Implicit Types (dt : Dt) (bus : Bus D C U R) (g : gic) (k : drv).

(** An access to the device at an address. *)
Definition device {A} (o : option A) : outcome A := expect "no device answers" o.

(** The address of the next range of an iterator. *)
Definition next_start (it : RegRangeIter) : outcome (option Z * RegRangeIter) :=
  x ← range_next it; Ret (match x.1 with Some r => Some r.1 | None => None end, x.2).

(** [gicv2::driver_init] *)
Definition gic_driver_init (cpu : Z) bus dt : outcome (option gic) :=
  match find_node_with_prop dt (prop_is "compatible" GIC_COMPATIBLE) with
  | None => Ret None
  | Some gic_node =>
      it ← node_reg_range_iter dt gic_node;
      match it with
      | None => Ret None
      | Some it =>
          x ← next_start it;
          match x.1 with
          | None => Ret None
          | Some gicd_start =>
              y ← next_start x.2;
              match y.1 with
              | None => Ret None
              | Some gicc_start =>
                  d ← device (bus_gicd bus (Addr.as_upper_range gicd_start));
                  c ← device (bus_gicc bus (Addr.as_upper_range gicc_start));
                  g ← gic_init cpu (gic_new d c);
                  Ret (Some g)
              end
          end
      end
  end.

(** [GenericTimer::init], [stop] *)
Definition timer_ctl (v : FieldValue) k : drv :=
  mkDrv (objs k) (fv_value v) (cntp_tval k) (timers k) (woken k) (console k) (rtc_driver k) (irqs_on k).
Definition timer_init k : drv := timer_ctl (SET 0) k.
Definition timer_stop k : drv := timer_ctl (CLEAR 0 1) k.

(** [Arc::new] of a driver, and its registration for an interrupt. *)
Definition new_driver k (o : DriverObj U R) : nat * drv :=
  (length (objs k), mkDrv (objs k ++ [o]) (cntp_ctl k) (cntp_tval k) (timers k) (woken k) (console k) (rtc_driver k) (irqs_on k)).

(** [timer::driver_init] *)
Definition timer_driver_init g k : outcome (gic * drv) :=
  let '(timer, k) := new_driver k TimerDriver in
  let k := timer_init k in
  g ← register_and_enable_local_irq g IRQ_NUMBER timer;
  Ret (g, k).

(** [bsp::uart::set_new_uart] *)
Definition set_new_uart (addr : Z) k : drv :=
  mkDrv (objs k) (cntp_ctl k) (cntp_tval k) (timers k) (woken k) addr (rtc_driver k) (irqs_on k).

(** The address of the first range of a node. *)
Definition first_start dt (node : Node) : outcome (option Z) :=
  it ← node_reg_range_iter dt node;
  match it with None => Ret None | Some it => x ← next_start it; Ret x.1 end.

(** [pl011_uart::driver_init]; [fuel] bounds the wait for the transmitter. *)
Definition uart_driver_init (fuel : nat) bus dt g k : outcome (option nat * (gic * drv)) :=
  match find_node_with_prop dt (prop_is "compatible" UART_COMPATIBLE) with
  | None => Ret (None, (g, k))
  | Some uart_node =>
      s ← first_start dt uart_node;
      match s with
      | None => Ret (None, (g, k))
      | Some start =>
          let vaddr := Addr.as_upper_range start in
          let k := set_new_uart vaddr k in
          cell ← node_interrupt_cell uart_node;
          match cell with
          | None => Ret (None, (g, k))
          | Some cell =>
              irq_num ← irq_number cell;
              d ← device (bus_uart bus vaddr);
              u ← uart_init fuel (uart_new d);
              let '(uart, k) := new_driver k (UartDriver u) in
              g ← register_and_enable_local_irq g irq_num uart;
              Ret (Some uart, (g, k))
          end
      end
  end.

(** [RTC_DRIVER.call_once] *)
Definition set_rtc_driver (rtc : nat) k : drv :=
  mkDrv (objs k) (cntp_ctl k) (cntp_tval k) (timers k) (woken k) (console k)
    (match rtc_driver k with Some r => Some r | None => Some rtc end) (irqs_on k).

(** [pl031::driver_init] *)
Definition rtc_driver_init bus dt g k : outcome (option nat * (gic * drv)) :=
  match find_node_with_prop dt (prop_is "compatible" RTC_COMPATIBLE) with
  | None => Ret (None, (g, k))
  | Some rtc_node =>
      s ← first_start dt rtc_node;
      match s with
      | None => Ret (None, (g, k))
      | Some start =>
          cell ← node_interrupt_cell rtc_node;
          match cell with
          | None => Ret (None, (g, k))
          | Some cell =>
              irq_num ← irq_number cell;
              d ← device (bus_rtc bus (Addr.as_upper_range start));
              let '(rtc, k) := new_driver k (RtcDriver (rtc_init d)) in
              g ← register_and_enable_local_irq g irq_num rtc;
              Ret (Some rtc, (g, set_rtc_driver rtc k))
          end
      end
  end.

(** [interrupt::enable] *)
Definition irq_enable k : drv :=
  mkDrv (objs k) (cntp_ctl k) (cntp_tval k) (timers k) (woken k) (console k) (rtc_driver k) true.

(** [interrupt::init], on the boot processor, and [interrupt::init_other], on
    another, for which [g] is the controller as that processor sees it. *)
Definition interrupt_init (fuel : nat) (cpu : Z) bus dt k : outcome (gic * drv) :=
  o ← gic_driver_init cpu bus dt;
  g ← expect "called unwrap on a None value" o;
  g ← gic_init cpu g;
  x ← timer_driver_init g k;
  x ← uart_driver_init fuel bus dt x.1 x.2;
  x ← rtc_driver_init bus dt x.2.1 x.2.2;
  _ ← expect "called unwrap on a None value" x.1;
  Ret (x.2.1, irq_enable x.2.2).
Definition interrupt_init_other (cpu : Z) g k : outcome (gic * drv) :=
  g ← gic_init cpu g;
  Ret (g, irq_enable k).

(** [Driver::handle_interrupt] of the three drivers; [freq] and [count] are
    the counter registers, [fuel] and [spins] bound the loops of the UART. *)
Definition driver_handle (freq count : Z) (fuel spins : nat) k (driver : nat) : outcome drv :=
  match objs k !! driver with
  | Some TimerDriver =>
      x ← timer_interrupt (timers k) freq count;
      Ret (mkDrv (objs k) (cntp_ctl k) x.2 x.1.1 (woken k ++ x.1.2) (console k) (rtc_driver k) (irqs_on k))
  | Some (UartDriver u) =>
      u ← Uart.handle_interrupt fuel spins u;
      Ret (mkDrv (<[driver := UartDriver u]> (objs k)) (cntp_ctl k) (cntp_tval k) (timers k) (woken k) (console k) (rtc_driver k) (irqs_on k))
  | Some (RtcDriver r) =>
      r ← rtc_handle_interrupt r;
      Ret (mkDrv (<[driver := RtcDriver r]> (objs k)) (cntp_ctl k) (cntp_tval k) (timers k) (woken k) (console k) (rtc_driver k) (irqs_on k))
  | None => Panic "dangling reference"
  end.

(** [handle_pending_irqs] of the controller, with these drivers. *)
Definition kernel_irq (freq count : Z) (fuel spins : nat) (gk : gic * drv) : outcome (gic * drv) :=
  handle_pending_irqs (driver_handle freq count fuel spins) gk.1 gk.2.
End drivers.

(** ** The machine after boot *)
Section boot.
Context `{BM : BuildMode, FD : Fdt, TS : TockSpec} {D C U R : Type}
  `{GS : GicdSpec D, CS : GiccSpec C, PS : Pl011Spec U, RS : Pl031Spec R}.
Abbreviation gic := (GicV2 D C).
Abbreviation drv := (Drv U R).
Implicit Types (dt : Dt) (bus : Bus D C U R) (g : gic) (k : drv).

(** What the device tree and the board have to say about the controller and
    about a device with one range and one interrupt. *)
Definition gic_described dt bus (d : D) (c : C) : Prop :=
  exists node it it' it'' a b,
    find_node_with_prop dt (prop_is "compatible" GIC_COMPATIBLE) = Some node /\ node_reg_range_iter dt node = Ret (Some it)
    /\ next_start it = Ret (Some a, it') /\ next_start it' = Ret (Some b, it'')
    /\ bus_gicd bus (Addr.as_upper_range a) = Some d /\ bus_gicc bus (Addr.as_upper_range b) = Some c.
Definition device_described {X} dt (compatible : string) (at_ : Z -> option X) (vaddr irq : Z) (x : X) : Prop :=
  exists node start cell,
    find_node_with_prop dt (prop_is "compatible" compatible) = Some node /\ first_start dt node = Ret (Some start)
    /\ vaddr = Addr.as_upper_range start /\ node_interrupt_cell node = Ret (Some cell) /\ irq_number cell = Ret irq
    /\ at_ vaddr = Some x.

Lemma gic_init_boot g :
  lines (gicd g) <> 0 -> exists g', gic_init BOOT_CORE_ID g = Ret g' /\ irq_map g' = irq_map g
    /\ priority_mask (gicc g') = 255 /\ signalling (gicc g') = true /\ active (gicc g') = active (gicc g)
    /\ routed (gicd g) (gicd g').
Proof.
  intros Hl. destruct (boot_core_init_spec (gicd g)) as [_ Hr]. destruct (Hr Hl) as (d' & Hd & Hr').
  unfold gic_init. cbn [Z.eqb BOOT_CORE_ID]. rewrite Hd. sret. eexists. split; [done|]. cbn.
  destruct (gicc_init_spec (gicc g)) as (Ha & Hp & Hs). done.
Qed.

(** Initialising twice is initialising once. *)
Lemma routed_again (d d' d'' : D) : routed d d' -> routed d' d'' -> routed d d''.
Proof.
  intros (Hf & Hl & Ho & He & Hp & Ht & Ht') (Hf2 & Hl2 & Ho2 & He2 & Hp2 & Ht2 & Ht2').
  assert (Hi : irqs d' = irqs d) by (unfold irqs; by rewrite Hl). rewrite Hi in *.
  split; [done|]. split; [congruence|]. split; [congruence|]. split; [done|].
  split; [intros x Hx; by rewrite Hp2, Hp|]. split; intros x Hx; [by rewrite Ht2|by rewrite Ht2', Ht'].
Qed.

Lemma gic_driver_init_spec bus dt (d : D) (c : C) :
  gic_described dt bus d c -> lines d <> 0 ->
  exists g, gic_driver_init BOOT_CORE_ID bus dt = Ret (Some g) /\ irq_map g = ∅ /\ active (gicc g) = active c /\ routed d (gicd g).
Proof.
  intros (node & it & it' & it'' & a & b & Hn & Hit & Ha & Hb & Hd & Hc) Hl. unfold gic_driver_init.
  rewrite Hn, Hit. sret. rewrite Ha. sret. cbn [fst snd]. rewrite Hb. sret. cbn [fst snd]. rewrite Hd, Hc. cbn [device expect mbind outcome_bind].
  destruct (gic_init_boot (gic_new d c) Hl) as (g & -> & Hm & _ & _ & Hac & Hr). sret. by exists g.
Qed.

Lemma uart_driver_init_spec fuel bus dt g k vaddr irq (u : U) :
  device_described dt UART_COMPATIBLE (bus_uart bus) vaddr irq u -> 0 <= irq < irqs (gicd g) -> (max_wait < fuel)%nat ->
  exists g' u', uart_driver_init fuel bus dt g k
      = Ret (Some (length (objs k)), (g', (new_driver (set_new_uart vaddr k) (UartDriver u')).2))
    /\ register_and_enable_local_irq g irq (length (objs k)) = Ret g'
    /\ conf IMSC (registers u') = 0x50 /\ conf CR (registers u') = 0x301 /\ latched (registers u') = (3, 16)
    /\ sent (registers u') = sent u /\ keeps_raw u (registers u').
Proof.
  intros (node & start & cell & Hn & Hs & -> & Hc & Hi & Hu) Hirq Hf. unfold uart_driver_init. rewrite Hn, Hs. sret. rewrite Hc. sret.
  rewrite Hi. sret. rewrite Hu. cbn [device expect mbind outcome_bind].
  destruct (uart_init_spec fuel (uart_new u) Hf) as (u' & -> & Hl & _ & _ & Him & Hcr & Hse & _ & _ & Hk). sret.
  destruct (register_spec g irq (length (objs k)) Hirq) as (g' & Hg & _). cbn [new_driver set_new_uart objs]. rewrite Hg. sret.
  exists g', u'. done.
Qed.

Lemma rtc_driver_init_spec bus dt g k vaddr irq (r : R) :
  device_described dt RTC_COMPATIBLE (bus_rtc bus) vaddr irq r -> 0 <= irq < irqs (gicd g) ->
  exists g', rtc_driver_init bus dt g k
      = Ret (Some (length (objs k)), (g', set_rtc_driver (length (objs k)) (new_driver k (RtcDriver (rtc_init r))).2))
    /\ register_and_enable_local_irq g irq (length (objs k)) = Ret g'.
Proof.
  intros (node & start & cell & Hn & Hs & -> & Hc & Hi & Hr) Hirq. unfold rtc_driver_init. rewrite Hn, Hs. sret. rewrite Hc. sret.
  rewrite Hi. sret. rewrite Hr. cbn [device expect mbind outcome_bind].
  destruct (register_spec g irq (length (objs k)) Hirq) as (g' & Hg & _). cbn [new_driver objs]. rewrite Hg. sret. by exists g'.
Qed.

(** The machine is ready after [interrupt::init].  On a board whose device
    tree describes a controller with shared interrupts, a UART and a clock, it
    returns; the enabled interrupts are exactly the timer, the UART, the clock
    and the private ones that were enabled before, each of the three is
    registered with its own driver and nothing else is registered; shared
    interrupts but the last four go to the boot processor and the controller
    signals them.  The UART has its receive interrupts unmasked, the timer and
    the clock run, the console writes to the UART, and the processor takes
    interrupts.  The interrupt of the clock itself stays masked. *)
Theorem interrupt_init_ready fuel bus dt k (d : D) (c : C) (u : U) (r : R) uart_addr uart_irq rtc_addr rtc_irq :
  gic_described dt bus d c -> lines d <> 0 ->
  device_described dt UART_COMPATIBLE (bus_uart bus) uart_addr uart_irq u -> 32 <= uart_irq < irqs d ->
  device_described dt RTC_COMPATIBLE (bus_rtc bus) rtc_addr rtc_irq r -> 32 <= rtc_irq < irqs d -> uart_irq <> rtc_irq ->
  (max_wait < fuel)%nat -> objs k = [] -> rtc_driver k = None ->
  exists g k' u' r', interrupt_init fuel BOOT_CORE_ID bus dt k = Ret (g, k')
    /\ irq_map g = <[IRQ_NUMBER := [0%nat]]> (<[uart_irq := [1%nat]]> {[rtc_irq := [2%nat]]})
    /\ objs k' = [TimerDriver; UartDriver u'; RtcDriver r']
    /\ (forall x, 0 <= x < irqs d ->
         enabled (gicd g) x = (x =? IRQ_NUMBER) || (x =? uart_irq) || (x =? rtc_irq) || ((x <? 32) && enabled d x))
    /\ (forall x, 32 <= x < irqs d - 4 -> target (gicd g) x = own_mask d)
    /\ forwarding (gicd g) = true /\ signalling (gicc g) = true /\ priority_mask (gicc g) = 255 /\ active (gicc g) = active c
    /\ conf IMSC (registers u') = 0x50 /\ conf CR (registers u') = 0x301 /\ running r' = true /\ unmasked r' = false
    /\ Z.testbit (cntp_ctl k') 0 = true /\ console k' = uart_addr /\ rtc_driver k' = Some 2%nat /\ irqs_on k' = true.
Proof.
  intros Hg Hl Hu Hui Hr Hri Hne Hf Ho Hrd. unfold interrupt_init.
  destruct (gic_driver_init_spec bus dt d c Hg Hl) as (g0 & -> & Hm0 & Ha0 & Hr0). cbn [expect mbind outcome_bind].
  destruct (gic_init_boot g0) as (g1 & -> & Hm1 & Hp1 & Hs1 & Ha1 & Hr1); [by rewrite (proj1 (proj2 Hr0))|]. sret.
  pose proof (routed_again _ _ _ Hr0 Hr1) as (Hfw & Hli & _ & Hoff & Hpriv & Htgt & _). clear Hr0 Hr1.
  pose proof (lines_range d) as Hrange. assert (Hirqs : irqs (gicd g1) = irqs d) by (unfold irqs; by rewrite Hli).
  assert (Hlow : IRQ_NUMBER < 32 /\ 32 < irqs d) by (unfold IRQ_NUMBER, irqs; lia).
  unfold timer_driver_init. cbn [new_driver]. rewrite Ho.
  destruct (register_spec g1 IRQ_NUMBER 0) as (g2 & Hg2 & Hc2 & Hm2 & Hsr2 & He2); [unfold IRQ_NUMBER in *; lia|]. cbn [length]. rewrite Hg2. sret.
  cbn [fst snd]. set (k1 := timer_init _). destruct Hsr2 as (Ht2 & Hl2 & _ & Hf2).
  destruct (uart_driver_init_spec fuel bus dt g2 k1 uart_addr uart_irq u Hu) as (g3 & u' & -> & Hg3 & Him & Hcr & _); [unfold irqs in *; lia|done|].
  destruct (register_spec g2 uart_irq (length (objs k1))) as (g3' & Hg3' & Hc3 & Hm3 & (Ht3 & Hl3 & _ & Hf3) & He3); [unfold irqs in *; lia|].
  rewrite Hg3 in Hg3'. injection Hg3' as <-. sret. cbn [fst snd]. set (k2 := (new_driver _ _).2).
  destruct (rtc_driver_init_spec bus dt g3 k2 rtc_addr rtc_irq r Hr) as (g4 & -> & Hg4); [unfold irqs in *; lia|].
  destruct (register_spec g3 rtc_irq (length (objs k2))) as (g4' & Hg4' & Hc4 & Hm4 & (Ht4 & Hl4 & _ & Hf4) & He4); [unfold irqs in *; lia|].
  rewrite Hg4 in Hg4'. injection Hg4' as <-. sret. cbn [fst snd expect mbind outcome_bind].
  destruct (rtc_init_spec r) as (Hrun & Hmask & _). unfold irqs in *.
  eexists g4, _, u', (rtc_init r). split; [done|]. split_and!; try done.
  - rewrite Hm4, Hm3, Hm2, Hm1, Hm0. unfold IRQ_NUMBER in *. rewrite !lookup_insert_ne, lookup_empty by lia. cbn.
    by rewrite (insert_insert_ne _ rtc_irq uart_irq), (insert_insert_ne _ rtc_irq 30), (insert_insert_ne _ uart_irq 30) by lia.
  - intros x Hx. rewrite He4, He3, He2 by lia. destruct (Z.ltb_spec x 32).
    + rewrite Hpriv by lia. by destruct (_ =? _), (_ =? _), (_ =? _), (enabled d x).
    + rewrite Hoff by lia. by destruct (_ =? _), (_ =? _), (_ =? _).
  - intros x Hx. by rewrite Ht4, Ht3, Ht2, Htgt by lia.
  - congruence.
  - congruence.
  - congruence.
  - congruence.
  - cbn. unfold SET. by rewrite fv_value_val.
  - cbn. by rewrite Hrd.
Qed.

End boot.

(** ** A board *)
Section concrete.
#[local] Instance debug : BuildMode := true.
#[local] Existing Instance FlatTree.fdt.

(** The text of a property, and 32-bit big-endian words. *)
Definition cstr (s : string) : list Z := bytes_of s ++ [0].
Definition be (z : Z) : list Z := [z / 2 ^ 24 mod 256; z / 2 ^ 16 mod 256; z / 2 ^ 8 mod 256; z mod 256].
Definition node_of (compatible : string) (regs : list Z) (interrupt : list Z) : FlatTree.T_node :=
  [("compatible"%string, cstr compatible); ("reg"%string, mjoin (be <$> regs)); ("interrupts"%string, mjoin (be <$> interrupt))].

(** The virt board: one cell each keeps the example small. *)
Definition board_tree : Dt (Fdt := FlatTree.fdt) :=
  [[("#address-cells"%string, be 1); ("#size-cells"%string, be 1)];
   node_of GIC_COMPATIBLE [0x08000000; 0x10000; 0x08010000; 0x10000] [];
   node_of UART_COMPATIBLE [0x09000000; 0x1000] [0; 1; 4];
   node_of RTC_COMPATIBLE [0x09010000; 0x1000] [0; 2; 4]].

Definition clock0 : Clock := mkClock 1000 0 false true true.
Definition board : Bus Dist Iface Port Clock := mkBus
  (fun a => if a =? 0xffff000008000000 then Some (gicd gic0) else None)
  (fun a => if a =? 0xffff000008010000 then Some (gicc gic0) else None)
  (fun a => if a =? 0xffff000009000000 then Some port0 else None)
  (fun a => if a =? 0xffff000009010000 then Some clock0 else None).
Definition drv0 : Drv Port Clock := mkDrv [] 0 0 (<[100 := 5%nat]> {[2000000000 := 6%nat]}) [] 0x09000000 None false.

Definition the_node (c : string) : FlatTree.T_node :=
  match find_node_with_prop (FD := FlatTree.fdt) board_tree (prop_is "compatible" c) with Some n => n | None => [] end.

Lemma board_gic : gic_described board_tree board (gicd gic0) (gicc gic0).
Proof.
  exists (the_node GIC_COMPATIBLE),
    (mkIter (FD := FlatTree.fdt) ("reg"%string, mjoin (be <$> [0x08000000; 0x10000; 0x08010000; 0x10000])) 1 0 2).
  do 2 eexists. exists 0x08000000, 0x08010000.
  split; [reflexivity|]. split; [reflexivity|]. split; [reflexivity|]. split; [reflexivity|]. split; reflexivity.
Qed.

Lemma board_uart : device_described board_tree UART_COMPATIBLE (bus_uart board) 0xffff000009000000 33 port0.
Proof.
  exists (the_node UART_COMPATIBLE), 0x09000000, (mkCell 0 1 4). repeat (split; [reflexivity|]). reflexivity.
Qed.

Lemma board_rtc : device_described board_tree RTC_COMPATIBLE (bus_rtc board) 0xffff000009010000 34 clock0.
Proof.
  exists (the_node RTC_COMPATIBLE), 0x09010000, (mkCell 0 2 4). repeat (split; [reflexivity|]). reflexivity.
Qed.

Lemma interrupt_init_ready_witness :
  exists g k', interrupt_init 2 BOOT_CORE_ID board board_tree drv0 = Ret (g, k')
    /\ irq_map g = <[IRQ_NUMBER := [0%nat]]> (<[33 := [1%nat]]> {[34 := [2%nat]]}) /\ console k' = 0xffff000009000000.
Proof.
  destruct (interrupt_init_ready 2 board board_tree drv0 (gicd gic0) (gicc gic0) port0 clock0 0xffff000009000000 33 0xffff000009010000 34)
    as (g & k' & u' & r' & Hi & Hm & _ & _ & _ & _ & _ & _ & _ & _ & _ & _ & _ & _ & Hc & _).
  - exact board_gic.
  - vm_compute. congruence.
  - exact board_uart.
  - split; vm_compute; congruence.
  - exact board_rtc.
  - split; vm_compute; congruence.
  - congruence.
  - cbn. lia.
  - reflexivity.
  - reflexivity.
  - exists g, k'. split; [exact Hi|]. split; [exact Hm|exact Hc].
Defined.

Definition ready_gic : GicV2 Dist Iface := mkGic (gicd gic0) (mkIface 255 true [30] []) {[30 := [0%nat]]}.
Definition ready_drv : Drv Port Clock :=
  mkDrv [TimerDriver] 1 0 (<[100 := 5%nat]> {[2000000000 := 6%nat]}) [] 0x09000000 None true.

End concrete.
