(* ===== verification/Startup.v ===== *)
(** * Starting the kernel ([arch/aarch64/mod.rs], [lib.rs])

    [main_start] runs on the boot processor once the assembly has switched the
    MMU on: it finds the memory in the device tree, sets up the allocators and
    the kernel's address space, reads the device tree again through the direct
    map, starts the scheduler and the devices and spawns the first tasks. *)

From S2P Require Import Prelude Paging FrameUse Handler PageTables MemorySet AddressSpace Requests KernelSpace Boot.
From S2P Require Import Mock MockTables Mmio Uart DeviceTree Gic Rtc Sched SchedTheorems Executor Timer Drivers.
Import Addr Frames.

(** The heap allocator of the [allocators] crate. *)
Class HeapAllocator (H : Type) := { heap_init : H -> Z -> Z -> H }.

Definition KERNEL_HEAP_SIZE : Z := 64 * 1024 * 1024.

(** [Result::unwrap] *)
Definition unwrap {A E} (r : result A E) : outcome A :=
  match r with Ok a => Ret a | Err _ => Panic "called unwrap on an Err value" end.

(** What [main_start] leaves behind: the kernel's address space, the frames,
    the translation registers, the heap, the interrupt controller, the drivers
    and the scheduler. *)
Record Kernel (B M F H D C U R Q : Type) := mkKernel {
  k_set : MemorySet F (PageTableImpl M); k_world : world B; k_mmu : Mmu; k_heap : H;
  k_gic : GicV2 D C; k_drv : Drv U R; k_sched : Sched Q;
}.
Arguments mkKernel {B M F H D C U R Q}.
Arguments k_set {B M F H D C U R Q}.
Arguments k_world {B M F H D C U R Q}.
Arguments k_mmu {B M F H D C U R Q}.
Arguments k_heap {B M F H D C U R Q}.
Arguments k_gic {B M F H D C U R Q}.
Arguments k_drv {B M F H D C U R Q}.
Arguments k_sched {B M F H D C U R Q}.

(** The addresses of the static [HEAP] and of the symbol [_end]. *)
Class ImageSymbols := { HEAP : Z; image_end : Z }.

Section startup.
Context `{BM : BuildMode} {B M F H D C U R Run Q : Type}.
Context `{BA : BuddyAllocator B, HA : HeapAllocator H, OS : !FrameAllocatorSpec B, PL : PteLayout, PLS : !PteLayoutSpec,
  OI : OffsetPageTable B M, OPS : !OffsetPageTableSpec B M, RI : Read F, SY : Symbols, BL : Blocks, IS : ImageSymbols}.
Context `{FD : Fdt, FRW : !FdtRaw, TK : Tock, DR : Registers GicdReg D, CR : Registers GiccReg C, UR : Registers UartReg U, RR : Registers RtcReg R}.
Context `{PQ : PriorityQueue Run Q, AR : Arena}.

(** A load from the physical memory [ram] through the tables of the assembly,
    whose words are [m], and through the direct map of a kernel table. *)
Definition boot_read (mmu : Mmu) (m : Words) (ram : Z -> Z) (va : Z) : outcome Z :=
  match hw_translate mmu m va with Some x => Ret (ram x.1) | None => Panic "data abort" end.
Definition direct_read (t : PageTableImpl M) (ram : Z -> Z) (va : Z) : outcome Z :=
  match opt_blocks (opt t) !! (va / ALIGN_2MIB) with
  | Some e => Ret (ram (pte_addr e + va mod ALIGN_2MIB))
  | None => Panic "data abort"
  end.

(** [memory::init_heap], with its static array *)
Definition init_heap (h : H) : H := heap_init h HEAP KERNEL_HEAP_SIZE.

(** [arch::memory::init] *)
Definition memory_init (h : H) (b : B) (contents : Z -> list Z) (mmu : Mmu) (phys_mem_range : Z * Z)
    : outcome (H * (MemorySet F (PageTableImpl M) * world B * Mmu)) :=
  let h := init_heap h in
  b ← init_frame_allocator b image_end phys_mem_range.1 phys_mem_range.2;
  x ← map_kernel phys_mem_range.1 phys_mem_range.2 (mkWorld b contents) mmu;
  Ret (h, x).

(** [log_system_info], without the messages *)
Definition log_system_info (device_tree : Dt) : outcome unit :=
  r ← probe_memory device_tree; _ ← expect "called unwrap on a None value" r; Ret tt.

(** [async_test] up to [local_executor().run()]: the two tasks *)
Definition async_test (g : Sched Q) (a b : Run) : outcome (Sched Q) :=
  x ← task_spawn g (Z.to_nat BOOT_CORE_ID) a;
  x ← task_spawn x.2 (Z.to_nat BOOT_CORE_ID) b;
  Ret x.2.

(** [main_start] up to [local_executor().run()]; [x23] has the address of the
    device tree, [m] and [mmu] are the tables of the assembly, and [fuel]
    bounds the wait for the transmitter of the UART.  [logging::init] only
    installs the logger; its messages are in [Diagnostics]. *)
Definition main_start (fuel : nat) (x23 : Z) (ram : Z -> Z) (m : Words) (mmu : Mmu) (h : H) (b : B) (contents : Z -> list Z)
    (bus : Bus D C U R) (k : Drv U R) (idle ta tb : Run) : outcome (Kernel B M F H D C U R Q) :=
  r ← from_raw (boot_read mmu m ram) x23;
  device_tree ← unwrap r;
  _ ← log_system_info device_tree;
  r ← probe_memory device_tree;
  phys_mem_range ← expect "called unwrap on a None value" r;
  y ← memory_init h b contents mmu phys_mem_range;
  let '(h, (ms, w, mmu)) := y in
  va ← phys_to_virt x23;
  r ← from_raw (direct_read (page_table ms) ram) va;
  device_tree ← unwrap r;
  let buf := fdt_buf device_tree in
  device_tree ← unwrap (dt_new buf);
  g ← sched_init (Z.to_nat CPU_NUM) idle;
  z ← interrupt_init fuel BOOT_CORE_ID bus device_tree k;
  g ← async_test g ta tb;
  Ret (mkKernel ms w mmu h z.1 z.2 g).

(** [others_start] after its wait for [AP_CAN_INIT], on processor [cpu], with
    the controller as that processor sees it *)
Definition others_start (kms : option (MemorySet F (PageTableImpl M))) (cpu : Z) (mmu : Mmu) (g : GicV2 D C) (k : Drv U R)
    : outcome (Mmu * (GicV2 D C * Drv U R)) :=
  let mmu := init_other kms mmu in
  x ← interrupt_init_other cpu g k;
  Ret (mmu, x).
End startup.

Section laws.
Context `{BM : BuildMode} {B M F H D C U R Run Q : Type}.
Context `{BS : BuddySpec B, HA : HeapAllocator H, PLS : PteLayoutSpec, OI : OffsetPageTable B M, OPS : !OffsetPageTableSpec B M,
  RI : Read F, SY : Symbols, IS : ImageSymbols, BLS : BlocksSpec, RT : RawTable, RTS : !RawTableSpec, BSY : BootSymbols}.
Context `{FD : Fdt, FRW : !FdtRaw, FRS : !FdtRawSpec, TS : TockSpec, GS : GicdSpec D, CS : GiccSpec C, PS : Pl011Spec U, RS : Pl031Spec R}.
Context `{PI : PriorityQueue Run Q, PQS : !PriorityQueueSpec Run Q, AS : ArenaSpec}.
Implicit Types (g : Sched Q) (ram : Z -> Z).

(** ** The device tree *)

(** The bytes of a tree in physical memory. *)
Definition tree_at ram (x23 : Z) (len : Z) (dt : Dt) : Prop :=
  Z.of_nat MIN_HEADER_SIZE <= len /\ read_totalsize (ram <$> seqZ x23 (Z.of_nat MIN_HEADER_SIZE)) = Ok len
  /\ fdt_new (ram <$> seqZ x23 len) = Ok dt.

Lemma from_raw_ok ram (read : Z -> outcome Z) base x23 len dt :
  tree_at ram x23 len dt -> (forall i, x23 <= i < x23 + len -> read (i + base) = Ret (ram i)) ->
  from_raw read (x23 + base) = Ret (Ok dt).
Proof.
  intros (Hlen & Hsz & Hnew) Hr. unfold from_raw.
  assert (Hp : forall n, Z.of_nat n <= len -> from_raw_parts read (x23 + base) n = Ret (ram <$> seqZ x23 (Z.of_nat n))).
  { intros n Hn. rewrite (from_raw_parts_ok read ram (- base)); [by replace (x23 + base + - base) with x23 by lia|].
    intros i Hi. rewrite <- (Hr (i + - base)) by lia. f_equal. lia. }
  rewrite Hp by done. sret. rewrite Hsz, Hp, Z2Nat.id by lia. sret. by rewrite Hnew.
Qed.

(** The tree is read again and parsed again from its own bytes. *)
Lemma read_again {X : Type} ram x23 len dt (o : outcome (result Dt FdtError)) (k : Dt -> outcome X) :
  tree_at ram x23 len dt -> o = Ret (Ok dt) -> (r ← o; dt' ← unwrap r; dt'' ← unwrap (dt_new (fdt_buf dt')); k dt'') = k dt.
Proof.
  intros (_ & _ & Hnew) ->. cbn [unwrap mbind outcome_bind]. unfold dt_new. rewrite (fdt_buf_new _ _ Hnew), Hnew. reflexivity.
Qed.

(** ** The frames *)

Lemma init_frames_avail (b : B) mem_start mem_end : free b = ∅ -> memory_ok image_end mem_start mem_end -> mem_end <= 2 ^ 47 ->
  exists b', init_frame_allocator b image_end mem_start mem_end = Ret b'
    /\ avail b' = Z.to_nat ((mem_end - as_lower_range image_end) / PAGE_SIZE)
    /\ forall f, frame_addr f -> as_lower_range image_end <= f < mem_end -> f ∉ owned b'.
Proof.
  intros Hb Hm He. destruct (init_frames b _ _ _ Hb Hm) as (b' & Hi & Hok & Hin). exists b'. split; [done|].
  destruct Hm as (-> & Hmi & Hme & Hr & H63). set (i := as_lower_range image_end) in *. unfold address, MEMORY_OFFSET in *. rewrite PAGE_SIZE_eq in *.
  pose proof (Z.div_mod i 4096). pose proof (Z.div_mod mem_end 4096).
  assert (Hset : free b' = list_to_set (seqZ (i / 4096 - 0x40000) ((mem_end - i) / 4096))).
  { apply set_eq. intros id. rewrite Hin, elem_of_list_to_set, elem_of_seqZ.
    assert ((mem_end - i) / 4096 = mem_end / 4096 - i / 4096) as -> by (symmetry; apply Z.div_unique_exact; lia). lia. }
  assert (Hv : all_valid b' = true).
  { apply all_valid_spec. intros id Hid%Hin. apply valid_id_address. unfold address, MEMORY_OFFSET. rewrite PAGE_SIZE_eq. specialize (Hok id). lia. }
  split.
  - rewrite avail_spec, Hset, size_list_to_set by (done || apply NoDup_seqZ). by rewrite length_seqZ.
  - intros f [Hf _] Hfr (id & -> & _ & Hn)%owned_spec. apply Hn, Hin. unfold address, MEMORY_OFFSET, aligned in *. rewrite PAGE_SIZE_eq in *.
    pose proof (Z.div_mod (id * 4096 + 0x40000000) 4096). lia.
Qed.
(** ** The direct map *)

Lemma direct_entry_addr k : frame_addr (k * ALIGN_2MIB) -> pte_addr (direct_entry k) = k * ALIGN_2MIB.
Proof.
  intros Hf. apply addr_of_built.
  - by apply frame_in_mask.
  - unfold block_flags. by rewrite !Z.land_lor_distr_l, !mask_in_flags, default_block_flags.
  - pose proof mair_in_mask as Hall. by apply Forall_cons in Hall as [? _].
Qed.

(** Loads through the direct map reach the physical memory. *)
Lemma direct_read_ok (t : PageTableImpl M) ram mem_start mem_end i :
  (forall k, first_block mem_start <= k < end_block mem_end -> opt_blocks (opt t) !! direct_page k = Some (direct_entry k)) ->
  0 <= mem_start <= i -> i < mem_end -> mem_end <= 2 ^ 46 -> direct_read t ram (i + PHYSICAL_MEMORY_OFFSET) = Ret (ram i).
Proof.
  intros Hd Hs He Hmax. unfold direct_read.
  assert ((i + PHYSICAL_MEMORY_OFFSET) / ALIGN_2MIB = direct_page (i / ALIGN_2MIB)) as ->.
  { unfold direct_page. change PHYSICAL_MEMORY_OFFSET with (0x7fffc000000 * ALIGN_2MIB). by rewrite Z.div_add, Z.div_mul. }
  assert ((i + PHYSICAL_MEMORY_OFFSET) mod ALIGN_2MIB = i mod ALIGN_2MIB) as ->.
  { change PHYSICAL_MEMORY_OFFSET with (0x7fffc000000 * ALIGN_2MIB). by rewrite Z.mod_add. }
  pose proof (Z.div_mod i ALIGN_2MIB ltac:(done)) as Hi. pose proof (Z.mod_pos_bound i ALIGN_2MIB ltac:(done)) as Hb.
  rewrite Hd, direct_entry_addr.
  - do 2 f_equal. lia.
  - split; [|unfold ALIGN_2MIB in *; lia]. unfold aligned, ALIGN_2MIB. change 0x200000 with (512 * 4096). rewrite Z.mul_assoc. by apply Z.mod_mul.
  - unfold first_block, end_block. split; [by apply Z.div_le_mono; lia|].
    pose proof (Z.div_mod (mem_end + (ALIGN_2MIB - 1)) ALIGN_2MIB ltac:(done)). pose proof (Z.mod_pos_bound (mem_end + (ALIGN_2MIB - 1)) ALIGN_2MIB ltac:(done)).
    unfold ALIGN_2MIB in *. lia.
Qed.

(** ** Memory *)

(** The image, the memory and the frames that the kernel's tables need. *)
Definition memory_fits (mem_start mem_end : Z) : Prop :=
  layout_ok /\ kernel_pages_ok (A := B) (M := M) mem_start mem_end /\ memory_ok image_end mem_start mem_end /\ mem_end + ALIGN_2MIB <= 2 ^ 46
  /\ 1 + 4 * Z.of_nat (cost (kernel_requests (F := F))) + 2 * (end_block mem_end - first_block mem_start) <= (mem_end - as_lower_range image_end) / PAGE_SIZE.

Lemma memory_init_spec (h : H) (b : B) contents mmu mem_start mem_end :
  free b = ∅ -> memory_fits mem_start mem_end ->
  exists ms w mmu', memory_init h b contents mmu (mem_start, mem_end) = Ret (heap_init h HEAP KERNEL_HEAP_SIZE, (ms, w, mmu'))
    /\ ttbr1 mmu' = root_frame (page_table (F := F) ms)
    /\ (forall k, first_block mem_start <= k < end_block mem_end -> opt_blocks (opt (page_table ms)) !! direct_page k = Some (direct_entry k))
    /\ (forall p, (forall x, hw_access (page_table ms) EL0 x p = false)
         /\ (hw_access (page_table ms) EL1 Fetch p && hw_access (page_table ms) EL1 Store p)%bool = false
         /\ (hw_access (page_table ms) EL1 Fetch p = true <-> stext <= p * 4096 < etext)).
Proof.
  intros Hb (Hl & Hpg & Hm & Hmax & Hav). unfold memory_init. cbn [fst snd].
  destruct (init_frames_avail b mem_start mem_end Hb Hm) as (b' & -> & Hav' & _); [unfold ALIGN_2MIB in *; lia|]. sret.
  destruct Hm as (Hms & _ & _ & Hr & _). unfold MEMORY_OFFSET in Hms.
  destruct (map_kernel_spec (F := F) mem_start mem_end (mkWorld b' contents) mmu) as (ms & w & mmu' & -> & Hinv & Ht & Hlk & Hd); [done..|lia|done| |].
  { cbn [fa]. rewrite Hav'. destruct (blocks_range mem_start mem_end); [lia|done|]. lia. }
  sret. exists ms, w, mmu'. split_and!; [done..|]. by eapply kernel_protection.
Qed.
(** ** The scheduler *)

(** The tasks of processor 0 at the end of [async_test]. *)
Definition first_tasks g (idle ta tb : Run) : Prop :=
  exists ti t1 t2, NoDup [ti; t1; t2]
    /\ fresh_queue g (<[t2 := mkReady 2978186 tb]> (<[t1 := mkReady 5913378 ta]> {[ti := mkReady IDLE_VRUNTIME idle]})) 2063.

Lemma idle_fresh g idle : idle_queue g 0 idle -> exists ti, fresh_queue g {[ti := mkReady IDLE_VRUNTIME idle]} 15.
Proof.
  intros (rq & ti & r & task & Hq & Hi & Hn & Hl & Hm & Hc & Ha & _). exists ti, rq. rewrite map_size_singleton. split_and!; try done.
  intros u [y [<- _]%lookup_singleton_Some]. by exists r.
Qed.

Lemma idle_queue_keeps g g' c idle :
  idle_queue g c idle -> queues g' !! c = queues g !! c -> active_tasks g ⊆ active_tasks g' -> sched_tasks g ⊆ sched_tasks g' -> idle_queue g' c idle.
Proof.
  intros (rq & ti & r & task & Hq & Hi & Hn & Hl & Hm & Hc & Ha & Ht & Hr) Hq' Ha' Ht'. exists rq, ti, r, task. rewrite Hq'.
  split_and!; try done; [by eapply lookup_weaken|by eapply lookup_weaken|apply Hr..].
Qed.

Lemma async_test_spec idle ta tb :
  exists g g', sched_init (Z.to_nat CPU_NUM) idle = Ret g /\ async_test g ta tb = Ret g' /\ first_tasks g' idle ta tb
    /\ (forall c, (0 < c < 4)%nat -> idle_queue g' c idle) /\ size (active_tasks g') = 6%nat.
Proof.
  change (Z.to_nat CPU_NUM) with 4%nat. destruct (sched_init_idle 4 idle) as (g & Hg & _ & Hq & Ha & _). exists g.
  destruct (idle_fresh g idle) as [ti Hf0]; [apply Hq; lia|]. unfold async_test. change (Z.to_nat BOOT_CORE_ID) with 0%nat.
  destruct (spawn_fresh g _ 15 1 5913378 ta Hf0) as (t1 & r1 & g1 & -> & Hn1 & Hf1 & Ha1 & Hx1 & Ht1 & Hy1 & Hk1);
    [by rewrite map_size_singleton|lia|lia|by split|reflexivity|]. cbn [mbind outcome_bind snd].
  destruct (spawn_fresh g1 _ 1039 2 2978186 tb Hf1) as (t2 & r2 & g2 & -> & Hn2 & Hf2 & Ha2 & Hx2 & Ht2 & Hy2 & Hk2);
    [by rewrite size_insert_new, map_size_singleton|lia|lia|by split|reflexivity|]. cbn [mbind outcome_bind snd].
  exists g2. split_and!; [done..| | |].
  - exists ti, t1, t2. split; [|exact Hf2]. apply lookup_singleton_None in Hn1. apply lookup_insert_None in Hn2 as [Hn2 Hn3]. apply lookup_singleton_None in Hn2.
    clear -Hn1 Hn2 Hn3. rewrite !NoDup_cons, !not_elem_of_cons. split_and!; try done; try apply not_elem_of_nil. apply NoDup_nil_2.
  - intros c Hc. eapply (idle_queue_keeps g); [apply Hq; lia|by rewrite Hk2, Hk1 by lia|rewrite Ha2, Ha1|rewrite Ht2, Ht1].
    + etransitivity; [by apply (insert_subseteq _ t1 r1)|]. apply insert_subseteq. by rewrite <- Ha1.
    + etransitivity; [by apply (insert_subseteq _ r1)|]. apply insert_subseteq. by rewrite <- Ht1.
  - rewrite Ha2, map_size_insert_None, Ha1, map_size_insert_None by (done || by rewrite <- Ha1). by rewrite Ha.
Qed.
(** ** Theorems *)

(** Before that, loads from memory go through the tables of the assembly. *)
Lemma boot_read_ok m mmu ram i :
  tables_ok -> ttbr0 mmu = page_table_lvl4 -> ttbr1 mmu = page_table_lvl4 -> MEMORY_START <= i < MEMORY_END ->
  boot_read mmu (create_init_paging m) ram i = Ret (ram i).
Proof.
  intros Hok Ht0 Ht1 Hi. unfold boot_read. unfold MEMORY_START, MEMORY_END in Hi.
  assert (Hleaf : exists y, boot_leaf i = Some (i, y)).
  { unfold boot_leaf, PERIPHERALS_END, MEMORY_START, MEMORY_END. rewrite (proj2 (Z.ltb_ge i 0x10000000)), andb_false_r by lia.
    rewrite (proj2 (Z.leb_le 0x40000000 i)), (proj2 (Z.ltb_lt i 0x80000000)) by lia. by eexists. }
  destruct Hleaf as [y Hy]. pose proof (translate_alias m mmu i 0 0 Hok Ht0 Ht1) as Hal. rewrite !Z.mul_0_l, !Z.add_0_r, Hy in Hal.
  rewrite Hal; auto; congruence.
Qed.

(** What the device tree says about the board, and what is on it. *)
Definition board_ok (fuel : nat) (dt : Dt) (bus : Bus D C U R) (d : D) (c : C) (u : U) (r : R) (uart_addr uart_irq rtc_addr rtc_irq : Z) : Prop :=
  gic_described dt bus d c /\ lines d <> 0
  /\ device_described dt UART_COMPATIBLE (bus_uart bus) uart_addr uart_irq u /\ 32 <= uart_irq < irqs d
  /\ device_described dt RTC_COMPATIBLE (bus_rtc bus) rtc_addr rtc_irq r /\ 32 <= rtc_irq < irqs d /\ uart_irq <> rtc_irq
  /\ (max_wait < fuel)%nat.

(** The device tree is where the boot tables map memory and no frame is taken. *)
Definition tree_safe (x23 len mem_start : Z) : Prop :=
  MEMORY_START <= x23 /\ mem_start <= x23 /\ x23 + len <= MEMORY_END /\ x23 + len <= as_lower_range image_end.

End laws.

(** ** A concrete board

    One gigabyte of memory, the kernel loaded at 0x40080000 and the device
    tree at the start of the memory. *)
Section concrete.
#[local] Instance debug : BuildMode := true.
#[local] Existing Instance KernelSpace.blocks.
#[local] Existing Instance KernelSpace.blocks_spec.

#[local] Instance virt_image : Symbols := {|
  stext := KERNEL_OFFSET + 0x40080000; etext := KERNEL_OFFSET + 0x40180000;
  srodata := KERNEL_OFFSET + 0x40180000; erodata := KERNEL_OFFSET + 0x401a0000;
  sgot := KERNEL_OFFSET + 0x401a0000; egot := KERNEL_OFFSET + 0x401b0000;
  sdata := KERNEL_OFFSET + 0x401b0000; edata := KERNEL_OFFSET + 0x401d0000;
  bootstack := KERNEL_OFFSET + 0x40200000; bootstacktop := KERNEL_OFFSET + 0x40300000;
  sbss := KERNEL_OFFSET + 0x40300000; ebss := KERNEL_OFFSET + 0x44400000;
|}.
#[local] Instance virt_end : ImageSymbols := {| HEAP := KERNEL_OFFSET + 0x40400000; image_end := KERNEL_OFFSET + 0x44400000 |}.
#[local] Instance virt_boot : BootSymbols := {|
  page_table_lvl4 := 0x401b0000; page_table_lvl3 := 0x401b1000; page_table_lvl2_0 := 0x401b2000; page_table_lvl2_1 := 0x401b3000;
  phys_bootstacktop := 0x40300000; phys_sbss := 0x40300000; phys_ebss := 0x44400000;
|}.
#[local] Instance region_heap : HeapAllocator (list (Z * Z)) := {| heap_init h start size := (start, size) :: h |}.

(** Trees with their bytes: every slice is the tree of the board. *)
Definition virt_tree : list FlatTree.T_node :=
  board_tree ++ [[("device_type"%string, cstr "memory"); ("reg"%string, mjoin (be <$> [0x40000000; 0x40000000]))]].
#[local] Instance bytes_fdt : Fdt := {|
  Dt := list Z * list FlatTree.T_node; Node := FlatTree.T_node; Prop_ := string * list Z; FdtError := unit;
  fdt_new l := Ok (l, virt_tree);
  fdt_root dt := Ok (head dt.2);
  fdt_nodes dt := Ok <$> dt.2;
  node_props n := Ok <$> n;
  prop_name p := Ok p.1;
  prop_str p := Ok (FlatTree.text p.2);
  prop_length p := Z.of_nat (length (FlatTree.bytes p));
  prop_u32 := FlatTree.word 4;
  prop_u64 := FlatTree.word 8;
|}.
#[local] Instance bytes_raw : FdtRaw := {| MIN_HEADER_SIZE := 40; read_totalsize _ := Ok 64; fdt_buf dt := dt.1; fdt_totalsize _ := 64 |}.
#[local] Instance bytes_raw_spec : FdtRawSpec.
Proof. split. intros l dt [= <-]. reflexivity. Qed.

Definition zeros : list Z := (fun _ => 0) <$> seqZ 0x40000000 64.
Definition virt_dt : Dt (Fdt := bytes_fdt) := (zeros, virt_tree).
Definition virt_node (c : string) : FlatTree.T_node :=
  match find_node_with_prop virt_dt (prop_is "compatible" c) with Some n => n | None => [] end.

Lemma virt_board : board_ok 2 virt_dt board (gicd gic0) (gicc gic0) port0 clock0 0xffff000009000000 33 0xffff000009010000 34.
Proof.
  split; [|split; [vm_compute; congruence|split; [|split; [split; vm_compute; congruence|split; [|split; [split; vm_compute; congruence|split; [done|cbn; lia]]]]]]].
  - exists (virt_node GIC_COMPATIBLE), (mkIter (FD := bytes_fdt) ("reg"%string, mjoin (be <$> [0x08000000; 0x10000; 0x08010000; 0x10000])) 1 0 2).
    do 2 eexists. exists 0x08000000, 0x08010000. repeat (split; [reflexivity|]). reflexivity.
  - exists (virt_node UART_COMPATIBLE), 0x09000000, (mkCell 0 1 4). repeat (split; [reflexivity|]). reflexivity.
  - exists (virt_node RTC_COMPATIBLE), 0x09010000, (mkCell 0 2 4). repeat (split; [reflexivity|]). reflexivity.
Qed.

Lemma virt_memory : memory_fits (B := gset Z) (M := FlatTable) (F := list Z) 0x40000000 0x80000000.
Proof.
  split; [split; [by repeat constructor|]; cbn; unfold KERNEL_OFFSET; lia|]. split; [by split|]. split; [by repeat split|]. split; [by vm_compute|].
  assert (Z.of_nat (cost (kernel_requests (F := list Z))) = 50000) as Hc by (vm_compute; reflexivity).
  rewrite Hc. vm_compute. discriminate.
Qed.

End concrete.
