(* ===== verification/Dispatch.v ===== *)
(** * The system call dispatcher ([syscall/mod.rs], [arch/aarch64/syscall.rs])

    [handle_syscall] reads the number and the arguments of a call from the
    user context, runs the handler and puts the result into the context.  A
    call that suspends is the description of what it waits for. *)

From S2P Require Import Prelude BTree Paging Handler Mock MemorySet AddressSpace UserMemory MemoryTheorems Signal EventBus Files Process SyscallNumbers.
From S2P Require Import ProcessTheorems SysProcess SignalDelivery Path SysFs Timer.
Import Addr Frames Table.

Definition SYS_GETCWD : Z := 17.
Definition SYS_DUP3 : Z := 24.
Definition SYS_MKDIRAT : Z := 34.
Definition SYS_UNLINKAT : Z := 35.
Definition SYS_SYMLINKAT : Z := 36.
Definition SYS_LINKAT : Z := 37.
Definition SYS_RENAMEAT : Z := 38.
Definition SYS_TRUNCATE : Z := 45.
Definition SYS_FTRUNCATE : Z := 46.
Definition SYS_FACCESSAT : Z := 48.
Definition SYS_CHDIR : Z := 49.
Definition SYS_OPENAT : Z := 56.
Definition SYS_CLOSE : Z := 57.
Definition SYS_LSEEK : Z := 62.
Definition SYS_READ : Z := 63.
Definition SYS_WRITE : Z := 64.
Definition SYS_PREAD64 : Z := 67.
Definition SYS_PWRITE64 : Z := 68.
Definition SYS_FSYNC : Z := 82.
Definition SYS_FDATASYNC : Z := 83.
Definition SYS_EXIT : Z := 93.
Definition SYS_EXIT_GROUP : Z := 94.
Definition SYS_SET_TID_ADDRESS : Z := 96.
Definition SYS_NANOSLEEP : Z := 101.
Definition SYS_CLOCK_GETTIME : Z := 113.
Definition SYS_SCHED_YIELD : Z := 124.
Definition SYS_CLONE : Z := 220.
Definition SYS_WAIT4 : Z := 260.

(** What a suspended call waits for. *)
Inductive Wait :=
  | WRead (fd off base len : Z)
  | WPread (fd base len pos : Z)
  | WChild (target : WaitFor) (wstatus : Z)
  | WSleep (deadline duration : Z)
  | WYield.

(** The methods of [queen_fs::TimeSpec] (an external crate), the clock when
    the call is made, and the bit [CHILD_CLEARTID] of the external
    [CloneFlags]. *)
Class Clock := {
  ts_is_zero : TimeSpec -> bool;
  ts_duration : TimeSpec -> Z;
  clock_now : outcome Z;
  cf_child_cleartid : Z -> bool;
}.

Section dispatch.
Context `{BuildMode} {V : Vfs} `{SE : !SysErrors} {X E A F T : Type} `{UserCtx X}.
Context `{EI : Entry E, FI : FrameAllocator A, PI : !PageTable E A T, RI : Read F}.
Context `{SF : SysFlags, M : Machine, C : Clock}.
Abbreviation sys := (sysM X A F T).

(** *** Sleeping *)

(** [Syscall::sys_nanosleep] up to the wait: [None] when there is nothing to
    wait for. *)
Definition sys_nanosleep (t : nat) (req : Z) : sys (option Wait) :=
  v ← user_vm t;
  bytes ← lift (load_bytes (user_mem v) 16 req);
  let time := mkTime (as_i64 (le_word (take 8 bytes))) (as_i64 (le_word (drop 8 bytes))) in
  if ts_is_zero time then mret None
  else
    now ← lift clock_now;
    deadline ← lift (dadd now (ts_duration time));
    mret (Some (WSleep deadline (ts_duration time))).

(** [SleepFuture::poll] at the time [now]: [None] is [Poll::Pending]. *)
Definition sleep_poll (k : Kernel X A F T) (t : nat) (tm : Timer) (now deadline duration : Z) (waker : nat)
    : outcome (option (result Z SysError) * Kernel X A F T * Timer) :=
  if deadline <=? now then Ret (Some (Ok 0), k, tm)
  else
    b ← has_signal_to_handle k t;
    if (b : bool) then Ret (Some (Err EINTR), k, tm)
    else
      tm ← (if duration <? 2 ^ 63 - 1 then timer_add tm deadline waker else Ret tm);
      th ← get_thread k t;
      p ← get_proc k (process th);
      Ret (None, put_proc k (process th) (with_bus p (subscribe (event_bus p) (OnAny waker))), tm).

(** The end of [sys_nanosleep], after the wait. *)
Definition nanosleep_done (t : nat) (r : result Z SysError) : sys Z :=
  _ ← try r;
  k ← get_kernel;
  b ← lift (has_signal_to_handle k t);
  if (b : bool) then throw EINTR else mret 0.

(** *** Dispatch *)

Definition now_done (m : sys Z) : sys (Z + Wait) := r ← m; mret (inl r).
Definition or_wait (m : sys (option Z)) (w : Wait) : sys (Z + Wait) :=
  r ← m; mret (match r with Some n => inl n | None => inr w end).

(** The offset a read that goes to wait keeps. *)
Definition offset_of (t : nat) (fd : Z) : sys Z :=
  p ← self_process t; k ← get_kernel;
  match files p !! fd with
  | Some h => d ← lift (desc_of (open_files k) h); mret (offset d)
  | None => mret 0
  end.

(** [Syscall::syscall]: the call's value, or what it waits for. *)
Definition syscall (t : nat) (ctx : UserContext X) (id : Z) (args : list Z) : sys (Z + Wait) :=
  let a i := nth i args 0 in
  if id =? SYS_READ then
    off ← offset_of t (a 0%nat);
    or_wait (sys_read t (a 0%nat) (a 1%nat) (a 2%nat)) (WRead (a 0%nat) off (a 1%nat) (a 2%nat))
  else if id =? SYS_WRITE then now_done (sys_write t (a 0%nat) (a 1%nat) (a 2%nat))
  else if id =? SYS_OPENAT then now_done (sys_open_at t (a 0%nat) (a 1%nat) (a 2%nat) (a 3%nat))
  else if id =? SYS_CLOSE then now_done (sys_close t (a 0%nat))
  else if id =? SYS_LSEEK then now_done (sys_lseek t (a 0%nat) (as_i64 (a 1%nat)) (a 2%nat mod 2 ^ 8))
  else if id =? SYS_PREAD64 then
    or_wait (sys_pread t (a 0%nat) (a 1%nat) (a 2%nat) (a 3%nat)) (WPread (a 0%nat) (a 1%nat) (a 2%nat) (a 3%nat))
  else if id =? SYS_PWRITE64 then now_done (sys_pwrite t (a 0%nat) (a 1%nat) (a 2%nat) (a 3%nat))
  else if id =? SYS_FSYNC then now_done (sys_fsync t (a 0%nat))
  else if id =? SYS_FDATASYNC then now_done (sys_fdata_sync t (a 0%nat))
  else if id =? SYS_TRUNCATE then now_done (sys_truncate t (a 0%nat) (a 1%nat))
  else if id =? SYS_FTRUNCATE then now_done (sys_ftruncate t (a 0%nat) (a 1%nat))
  else if id =? SYS_GETCWD then now_done (sys_get_cwd t (a 0%nat) (a 1%nat))
  else if id =? SYS_CHDIR then now_done (sys_chdir t (a 0%nat))
  else if id =? SYS_RENAMEAT then now_done (sys_rename_at t (a 0%nat) (a 1%nat) (a 2%nat) (a 3%nat))
  else if id =? SYS_MKDIRAT then now_done (sys_mkdir_at t (a 0%nat) (a 1%nat) (a 2%nat))
  else if id =? SYS_LINKAT then now_done (sys_link_at t (a 0%nat) (a 1%nat) (a 2%nat) (a 3%nat) (a 4%nat))
  else if id =? SYS_UNLINKAT then now_done (sys_unlink_at t (a 0%nat) (a 1%nat) (a 2%nat))
  else if id =? SYS_SYMLINKAT then now_done (sys_symlink_at t (a 0%nat) (a 1%nat) (a 2%nat))
  else if id =? SYS_FACCESSAT then now_done (sys_faccess_at t (a 0%nat) (a 1%nat) (a 2%nat) (a 3%nat))
  else if id =? SYS_DUP3 then now_done (sys_dup3 t (a 0%nat) (a 1%nat) (a 2%nat))
  else if id =? SYS_SCHED_YIELD then mret (inr WYield)
  else if id =? SYS_CLONE then
    now_done (sys_clone t ctx cf_child_cleartid (a 0%nat) (a 1%nat) (a 2%nat) (a 3%nat) (a 4%nat))
  else if id =? SYS_EXIT then now_done (sys_exit t (a 0%nat))
  else if id =? SYS_EXIT_GROUP then now_done (sys_exit_group t (a 0%nat))
  else if id =? SYS_WAIT4 then
    target ← lift (wait_target (as_i64 (a 0%nat)));
    or_wait (wait4_turn t target (a 1%nat)) (WChild target (a 1%nat))
  else if id =? SYS_SET_TID_ADDRESS then now_done (sys_set_tid_address t (a 0%nat))
  else if id =? SYS_NANOSLEEP then
    w ← sys_nanosleep t (a 0%nat); mret (match w with Some w => inr w | None => inl 0 end)
  else if id =? SYS_CLOCK_GETTIME then
    if a 1%nat =? 0 then lift (Panic "called unwrap on a None value")
    else now_done (sys_clock_get_time t (a 0%nat) (a 1%nat))
  else lift (Panic "not yet implemented").

(** The value for the return register. *)
Definition ret_code (r : result Z SysError) : Z :=
  match r with Ok code => as_i64 code | Err err => - errno_of err end.

(** [handle_syscall], up to a wait: the context with its return value and
    [exit], or what the call waits for. *)
Definition handle_syscall (t : nat) (ctx : UserContext X) (k : Kernel X A F T)
    : outcome ((UserContext X * bool + Wait) * SysState X A F T) :=
  x ← syscall t ctx (get_syscall_num ctx) (get_syscall_args ctx) (mkSys k false []);
  let '(r, s) := x in
  Ret (match r with
       | Ok (inr w) => inr w
       | Ok (inl code) => inl (set_syscall_ret ctx (as_u64 (ret_code (Ok code))), exiting s)
       | Err e => inl (set_syscall_ret ctx (as_u64 (ret_code (Err e))), exiting s)
       end, s).
End dispatch.

(** ** Theorems *)

(** The numbers the dispatcher knows. *)
Definition known_calls : list Z :=
  [SYS_GETCWD; SYS_DUP3; SYS_MKDIRAT; SYS_UNLINKAT; SYS_SYMLINKAT; SYS_LINKAT; SYS_RENAMEAT; SYS_TRUNCATE; SYS_FTRUNCATE;
   SYS_FACCESSAT; SYS_CHDIR; SYS_OPENAT; SYS_CLOSE; SYS_LSEEK; SYS_READ; SYS_WRITE; SYS_PREAD64; SYS_PWRITE64; SYS_FSYNC;
   SYS_FDATASYNC; SYS_EXIT; SYS_EXIT_GROUP; SYS_SET_TID_ADDRESS; SYS_NANOSLEEP; SYS_CLOCK_GETTIME; SYS_SCHED_YIELD;
   SYS_CLONE; SYS_WAIT4].

(** They are the numbers of the table, no two of them are equal (so no arm of
    the dispatcher hides another), and they are a tenth of the table. *)
Lemma known_calls_numbers :
  Forall (fun x => number_of x.1 syscall_numbers = Some x.2)
       [("SYS_GETCWD", SYS_GETCWD); ("SYS_DUP3", SYS_DUP3); ("SYS_MKDIRAT", SYS_MKDIRAT);
        ("SYS_UNLINKAT", SYS_UNLINKAT); ("SYS_SYMLINKAT", SYS_SYMLINKAT); ("SYS_LINKAT", SYS_LINKAT);
        ("SYS_RENAMEAT", SYS_RENAMEAT); ("SYS_TRUNCATE", SYS_TRUNCATE); ("SYS_FTRUNCATE", SYS_FTRUNCATE);
        ("SYS_FACCESSAT", SYS_FACCESSAT); ("SYS_CHDIR", SYS_CHDIR); ("SYS_OPENAT", SYS_OPENAT);
        ("SYS_CLOSE", SYS_CLOSE); ("SYS_LSEEK", SYS_LSEEK); ("SYS_READ", SYS_READ); ("SYS_WRITE", SYS_WRITE);
        ("SYS_PREAD64", SYS_PREAD64); ("SYS_PWRITE64", SYS_PWRITE64); ("SYS_FSYNC", SYS_FSYNC);
        ("SYS_FDATASYNC", SYS_FDATASYNC); ("SYS_EXIT", SYS_EXIT); ("SYS_EXIT_GROUP", SYS_EXIT_GROUP);
        ("SYS_SET_TID_ADDRESS", SYS_SET_TID_ADDRESS); ("SYS_NANOSLEEP", SYS_NANOSLEEP);
        ("SYS_CLOCK_GETTIME", SYS_CLOCK_GETTIME); ("SYS_SCHED_YIELD", SYS_SCHED_YIELD); ("SYS_CLONE", SYS_CLONE);
        ("SYS_WAIT4", SYS_WAIT4)]%string
  /\ NoDup known_calls /\ length known_calls = 28%nat /\ length syscall_numbers = 277%nat.
Proof. split; [by repeat constructor|]. split; [apply (bool_decide_unpack _); by vm_compute|done]. Qed.

Section theorems.
Context `{BuildMode} {V : Vfs} `{SE : !SysErrors} {X E A F T : Type} `{UserCtx X}.
Context `{ES : EntrySpec E, FS : FrameAllocatorSpec A, FR : !FrameReturnSpec A, PI : !PageTable E A T, !PageTableSpec E A T, RI : Read F}.
Context `{SF : SysFlags, M : Machine, C : Clock}.
Implicit Types (k : Kernel X A F T) (p : Process V).

(** [fork] returns twice: the caller gets the number of the new process in
    its return register, and the new thread will run the same context with 0
    there. *)
Theorem fork_returns_twice R k t ctx th ms p args :
  get_syscall_num ctx = SYS_CLONE -> get_syscall_args ctx = 0x11 :: args ->
  thrds k !! t = Some th -> vms k !! t_vm th = Some ms -> procs k !! process th = Some p ->
  vm_inv R ms (phys k) -> mem_wf (phys k) -> (4 * set_pages (areas ms) < avail (fa (phys k)))%nat ->
  Z.of_nat (size (THREADS k)) + 1 < 2 ^ 64 ->
  exists n t' th' s', handle_syscall t ctx k = Ret (inl (set_syscall_ret ctx n, false), s')
    /\ n ≠ 0 /\ PROCESSES (kern s') !! n = Some (process th') /\ process th' ≠ process th
    /\ thrds (kern s') !! t' = Some th' /\ tid th' = n /\ context (inner th') = Some (set_syscall_ret ctx 0).
Proof.
  intros Hnum Hargs Ht Hv Hp Hinv Hwf Hav Hsz.
  destruct (fork_spec R k t ctx th ms p Ht Hv Hp Hinv Hwf Hav)
    as (t' & n & v & r & ms' & w' & k' & Hf & _ & Hn & _ & Hall & _ & _ & Hfr & Et & _ & EP & _).
  assert (n < 2 ^ 64) as Hb.
  { assert (Z.to_nat (n - PID_INIT) <= size (THREADS k))%nat as Hle.
    { apply (full_range_size _ _ PID_INIT). intros j Hj. apply Hall. lia. }
    unfold PID_INIT in *. lia. }
  exists n, t', (mkThread (mkInner (Some (set_syscall_ret ctx 0)) 0 (sig_mask (inner th)) (signal_alternate_stack (inner th))) r v n),
    (mkSys k' false []).
  split_and!.
  - unfold handle_syscall. rewrite Hnum, Hargs.
    assert (syscall t ctx SYS_CLONE (0x11 :: args) (mkSys k false []) = Ret (Ok (inl n), mkSys k' false [])) as ->.
    { transitivity (now_done (sys_fork t ctx) (mkSys k false [])); [reflexivity|]. unfold now_done.
      assert (sys_fork t ctx (mkSys k false []) = Ret (Ok n, mkSys k' false [])) as Hs.
      { unfold sys_fork, mbind, sys_bind, get_kernel, lift. cbn [kern]. by rewrite Hf. }
      by rewrite (after Hs). }
    cbn [mbind outcome_bind ret_code exiting]. rewrite as_u64_as_i64; [done|]. unfold is_u64, PID_INIT in *. lia.
  - unfold PID_INIT in Hn. lia.
  - cbn [kern]. rewrite EP. apply lookup_insert_eq.
  - cbn. congruence.
  - cbn [kern]. rewrite Et. apply lookup_insert_eq.
  - done.
  - done.
Qed.

(** A call with a number the dispatcher does not know stops the kernel:
    it panics instead of returning an error to the caller. *)
Theorem unknown_syscall_panics k t ctx :
  get_syscall_num ctx ∉ known_calls -> handle_syscall t ctx k = Panic "not yet implemented".
Proof.
  intros Hn. unfold handle_syscall, syscall.
  assert (forall c, c ∈ known_calls -> (get_syscall_num ctx =? c) = false) as Hf.
  { intros c Hc. apply Z.eqb_neq. intros Heq. apply Hn. by rewrite Heq. }
  repeat match goal with |- context [get_syscall_num ctx =? ?c] =>
    rewrite (Hf c) by (unfold known_calls; repeat (first [apply elem_of_cons; left; reflexivity|apply elem_of_cons; right])) end.
  reflexivity.
Qed.
End theorems.

(** ** Evaluations *)

#[local] Existing Instance release.
#[export] Instance MockClock : Clock := {|
  ts_is_zero x := (secs x =? 0) && (nsecs x =? 0);
  ts_duration x := secs x * NSEC + nsecs x;
  clock_now := Ret 0;
  cf_child_cleartid f := Z.testbit f 21;
|}.

(** A user context about to make the call [n] with first argument [a]. *)
Definition call_ctx (n a : Z) : UserContext unit :=
  mkUser (mkRegs a 0 0 0 0 0 0 0 n 0 0 0 0 0 0 0 0 0 0 0 0 0 0 0 0 0 0 0 0 0 0) 0 0 0 tt.

Lemma fork_returns_twice_witness :
  exists n s', handle_syscall 0 (call_ctx 220 0x11) kernel0 = Ret (inl (with_x0 (call_ctx 220 0x11) n, false), s') /\ n ≠ 0.
Proof.
  destruct (fork_returns_twice ∅ kernel0 0 (call_ctx 220 0x11) (thread_of 0 0 1) set3.1 init_proc [0; 0; 0; 0; 0])
    as (n & t' & th' & s' & Hs & Hn & _);
    [reflexivity|reflexivity|reflexivity|reflexivity|reflexivity|exact (proj1 kernel0_vm)|exact (proj2 kernel0_vm)|vm_compute; lia|
     vm_compute; reflexivity|].
  exists n, s'. exact (conj Hs Hn).
Defined.

Lemma unknown_syscall_panics_witness : handle_syscall 0 (call_ctx 172 0) kernel0 = Panic "not yet implemented".
Proof.
  apply unknown_syscall_panics. cbn [get_syscall_num MockUserCtx]. cbn. apply (bool_decide_unpack _). vm_compute. exact I.
Defined.
