(* ===== verification/Trap.v ===== *)
(** * Traps and the user-mode loop ([arch/aarch64/interrupt], [process/thread.rs])

    Decoding the exception syndrome, the handler of traps taken in the kernel,
    and a turn of the loop of [Thread::spawn], which runs a thread in user
    mode and handles what brought it back. *)

From S2P Require Import Prelude BTree Paging Handler Mock MemorySet AddressSpace UserMemory MemoryTheorems Signal EventBus Files Process.
From S2P Require Import ProcessTheorems SysProcess SignalDelivery Path SysFs Sched Timer Dispatch.
Import Addr Frames Table.

(** ** Syndromes ([interrupt/syndrome.rs]) *)

(** [Fault] *)
Inductive Fault := AddressSize | Translation | AccessFlag | Permission | Alignment | TlbConflict | OtherFault (code : Z).

(** [From<u32> for Fault] *)
Definition fault_from (val : Z) : Fault :=
  match Z.land val 0x3c with
  | 0x0 => AddressSize
  | 0x4 => Translation
  | 0x8 => AccessFlag
  | 0xc => Permission
  | 0x20 => Alignment
  | 0x30 => TlbConflict
  | _ => OtherFault (Z.land val 0x3f)
  end.

(** [Syndrome] *)
Inductive Syndrome :=
  | Unknown | WfiWfe | McrMrc | McrrMrrc | LdcStc | SimdFp | Vmrs | Mrrc | IllegalExecutionState
  | Svc (n : Z) | Hvc (n : Z) | Smc (n : Z) | MsrMrsSystem
  | InstructionAbort (kind : Fault) (level : Z) | PCAlignmentFault | DataAbort (kind : Fault) (level : Z) | SpAlignmentFault
  | TrappedFpu | SError | Breakpoint | Step | Watchpoint | Brk (n : Z) | OtherSyndrome (ec : Z).

(** [From<u32> for Syndrome] *)
Definition syndrome_from (esr : Z) : Syndrome :=
  let ec := Z.shiftr esr 26 in
  let iss := Z.land esr 0xFFFFFF in
  match ec with
  | 0x0 => Unknown
  | 0x1 => WfiWfe
  | 0x3 => McrMrc
  | 0x4 => McrrMrrc
  | 0x5 => McrMrc
  | 0x6 => LdcStc
  | 0x7 => SimdFp
  | 0x8 => Vmrs
  | 0xc => Mrrc
  | 0xe => IllegalExecutionState
  | 0x11 => Svc (Z.land iss 0xFFFF)
  | 0x12 => Hvc (Z.land iss 0xFFFF)
  | 0x13 => Smc (Z.land iss 0xFFFF)
  | 0x15 => Svc (Z.land iss 0xFFFF)
  | 0x16 => Hvc (Z.land iss 0xFFFF)
  | 0x17 => Smc (Z.land iss 0xFFFF)
  | 0x18 => MsrMrsSystem
  | 0x20 | 0x21 => InstructionAbort (fault_from iss) (Z.land iss 0x3)
  | 0x22 => PCAlignmentFault
  | 0x24 | 0x25 => DataAbort (fault_from iss) (Z.land iss 0x3)
  | 0x26 => SpAlignmentFault
  | 0x28 => TrappedFpu
  | 0x2c => TrappedFpu
  | 0x2f => SError
  | 0x30 => Breakpoint
  | 0x31 => Breakpoint
  | 0x32 => Step
  | 0x33 => Step
  | 0x34 => Watchpoint
  | 0x35 => Watchpoint
  | 0x3c => Brk (Z.land iss 0xFFFF)
  | other => OtherSyndrome other
  end.

(** ** Traps in the kernel ([interrupt/handler.rs]) *)

(** [Kind], [Source] and their conversions. *)
Inductive Kind := Synchronous | Irq | Fiq | KSError.
Inductive Source := CurrentSpEl0 | CurrentSpElx | LowerAArch64 | LowerAArch32.
Definition kind_from (x : Z) : outcome Kind :=
  match x with 0 => Ret Synchronous | 1 => Ret Irq | 2 => Ret Fiq | 3 => Ret KSError | _ => Panic "Bad kind" end.
Definition source_from (x : Z) : outcome Source :=
  match x with 0 => Ret CurrentSpEl0 | 1 => Ret CurrentSpElx | 2 => Ret LowerAArch64 | 3 => Ret LowerAArch32 | _ => Panic "Bad source" end.

(** [memory::handle_page_fault]: a page fault in the kernel is never handled. *)
Definition kernel_page_fault (addr : Z) : bool := false.

(** [trap_handler]; [handle_irqs] is the interrupt controller's
    [handle_pending_irqs], [S] the state it changes. *)
Definition trap_handler {S : Type} (handle_irqs : S -> outcome S) (trap_num esr far : Z) (s : S) : outcome S :=
  _ ← source_from (Z.land trap_num 0xFFFF mod 2 ^ 8);
  kind ← kind_from (Z.shiftr trap_num 16 mod 2 ^ 8);
  match kind with
  | Synchronous =>
      match syndrome_from esr with
      | DataAbort kind _ | InstructionAbort kind _ =>
          match kind with
          | Translation | AccessFlag | Permission => if negb (kernel_page_fault far) then Panic "EXCEPTION: Page Fault" else Ret s
          | _ => Panic "explicit panic"
          end
      | _ => Panic "explicit panic"
      end
  | Irq => handle_irqs s
  | _ => Panic "explicit panic"
  end.

(** ** Traps from user mode ([interrupt/consts.rs]) *)

(** [is_page_fault] with the register ESR_EL1, [is_syscall], [is_irq] *)
Definition is_page_fault (trap esr : Z) : bool :=
  if negb (trap =? 0x2) then false
  else match syndrome_from esr with
       | DataAbort kind _ | InstructionAbort kind _ =>
           match kind with Translation | AccessFlag | Permission => true | _ => false end
       | _ => false
       end.
Definition Syscall : Z := 0x00002.
Definition IrqMax : Z := 0x10002.
Definition IrqMin : Z := 0x10002.
Definition is_syscall (trap : Z) : bool := trap =? Syscall.
Definition is_irq (trap : Z) : bool := (IrqMin <=? trap) && (trap <=? IrqMax).

(** How a turn of the user loop ends: the thread goes on, yields first, stops,
    or a system call suspends it. *)
Inductive Turn := Go | YieldFirst | Stop | Suspended (w : Wait).

Section loop.
Context `{BuildMode} {V : Vfs} `{SE : !SysErrors} {X E A F T : Type} `{UserCtx X}.
Context `{EI : Entry E, FI : FrameAllocator A, PI : !PageTable E A T, RI : Read F}.
Context `{SF : SysFlags, M : Machine, C : Clock}.
Implicit Types k : Kernel X A F T.

(** The end of a turn: signals, and the context is put back. *)
Definition end_turn k (t : nat) (ctx : UserContext X) (leave do_yield : bool) : outcome (Turn * Kernel X A F T * list (Z * SignalFrame)) :=
  x ← (if leave then Ret (true, k, ctx, []) else handle_signal k t ctx);
  let '(leave, k, ctx, frames) := x in
  k ← end_running k t ctx;
  Ret (if (leave : bool) then Stop else if do_yield then YieldFirst else Go, k, frames).

(** A turn of the loop of [Thread::spawn]: [run] is what the thread does in
    user mode (its context on return, the trap number, and the registers
    ESR_EL1 and FAR_EL1), [handle_irqs] the interrupt controller. *)
Definition user_turn k (t : nat) (run : UserContext X -> UserContext X * Z * Z * Z)
    (handle_irqs : Kernel X A F T -> outcome (Kernel X A F T)) : outcome (Turn * Kernel X A F T * list (Z * SignalFrame)) :=
  x ← begin_running k t;
  let '(ctx, k) := x in
  let '(ctx, trap, esr, far) := run ctx in
  if is_page_fault trap esr then
    th ← get_thread k t;
    ms ← expect "dangling Arc" (vms k !! t_vm th);
    y ← MemorySet.handle_page_fault ms (phys k) far;
    let '(ok, ms, w) := y in
    if negb (ok : bool) then Panic "page fault handle failed"
    else end_turn (with_vms k (<[t_vm th := ms]> (vms k)) w) t ctx false false
  else if is_syscall trap then
    y ← handle_syscall t ctx k;
    match y with
    | (inl (ctx, leave), s) => end_turn (kern s) t ctx leave false
    | (inr w, s) => Ret (Suspended w, kern s, [])
    end
  else if is_irq trap then k ← handle_irqs k; end_turn k t ctx false true
  else Panic "unhandled trap".
End loop.

(** ** Theorems *)
Section theorems.
Context `{BuildMode} {V : Vfs} `{SE : !SysErrors} {X E A F T : Type} `{UserCtx X}.
Context `{ES : EntrySpec E, FS : FrameAllocatorSpec A, FR : !FrameReturnSpec A, PI : !PageTable E A T, !PageTableSpec E A T, RI : Read F}.
Context `{SF : SysFlags, M : Machine, C : Clock}.
Implicit Types (k : Kernel X A F T) (p : Process V).

(** The thread while it runs in user mode, and after it is back. *)
Definition running (th : Thread X) (c : option (UserContext X)) : Thread X :=
  mkThread (mkInner c (clear_child_tid (inner th)) (sig_mask (inner th)) (signal_alternate_stack (inner th))) (process th) (t_vm th) (tid th).

Lemma begin_running_ok k t th ctx : thrds k !! t = Some th -> context (inner th) = Some ctx ->
  begin_running k t = Ret (ctx, with_thrds k (<[t := running th None]> (thrds k))).
Proof. intros Ht Hc. unfold begin_running, get_thread. rewrite Ht. cbn. by rewrite Hc. Qed.

Lemma no_signal k t th p ctx : thrds k !! t = Some th -> procs k !! process th = Some p -> sig_queue p = [] ->
  handle_signal k t ctx = Ret (false, k, ctx, []).
Proof.
  intros Ht Hp Hq. unfold handle_signal, get_thread, get_proc. rewrite Ht. sret. rewrite Hp.
  sret. rewrite Hq. cbn [length handle_loop]. unfold get_thread, get_proc. rewrite Ht.
  sret. rewrite Hp. sret. by rewrite Hq.
Qed.

Lemma end_turn_ok k t th p ctx b : thrds k !! t = Some th -> procs k !! process th = Some p -> sig_queue p = [] ->
  end_turn k t ctx false b = Ret (if b then YieldFirst else Go, with_thrds k (<[t := running th (Some ctx)]> (thrds k)), []).
Proof.
  intros Ht Hp Hq. unfold end_turn. rewrite (no_signal k t th p ctx Ht Hp Hq). sret.
  unfold end_running, get_thread. by rewrite Ht.
Qed.

(** C24. Demand paging is invisible to the thread: when it touches a lazy page
    of its address space and no signal is pending, the turn brings the page in
    and lets the thread go on with exactly the context it trapped with;
    nothing else of the kernel changes but the address space and the frames. *)
Theorem demand_paging_transparent `{!ReadSpec} R k t run irqs th ctx ctx' esr far p ms a e :
  thrds k !! t = Some th -> context (inner th) = Some ctx -> run ctx = (ctx', 0x2, esr, far) -> is_page_fault 0x2 esr = true ->
  procs k !! process th = Some p -> sig_queue p = [] -> vms k !! t_vm th = Some ms ->
  vm_inv R ms (phys k) -> mem_wf (phys k) -> find (fun a => MemorySet.contains a far) (areas ms) = Some a ->
  view (page_table ms) !! (far / 4096) = Some e -> present e = false ->
  is_lazy (MemorySet.handler a) = true -> fault_ok (MemorySet.handler a) far -> (0 < avail (fa (phys k)))%nat ->
  exists k' ms' th', user_turn k t run irqs = Ret (Go, k', []) /\ thrds k' = <[t := th']> (thrds k) /\ th' = running th (Some ctx')
    /\ vms k' = <[t_vm th := ms']> (vms k) /\ areas ms' = areas ms /\ vm_inv R ms' (phys k')
    /\ faulted_post (far / 4096) e (fault_data (MemorySet.handler a) far) (page_table ms) (phys k) (page_table ms') (phys k')
    /\ procs k' = procs k /\ open_files k' = open_files k /\ PROCESSES k' = PROCESSES k /\ THREADS k' = THREADS k.
Proof.
  intros Ht Hc Hrun Hpf Hp Hq Hv Hinv Hwf Hf He Hpr Hlz Hok Hav.
  destruct (fault_spec R ms (phys k) far a e Hinv Hwf Hf He Hpr Hlz Hok Hav) as (ms' & w' & Hfault & Har & Hinv' & Hpost).
  unfold user_turn. rewrite (begin_running_ok k t th ctx Ht Hc). sret. rewrite Hrun, Hpf.
  unfold get_thread. cbn [thrds with_thrds]. rewrite lookup_insert_eq. cbn [expect mbind outcome_bind vms with_thrds t_vm running].
  rewrite Hv. cbn [expect mbind outcome_bind phys with_thrds]. rewrite Hfault. cbn [mbind outcome_bind negb].
  rewrite (end_turn_ok _ t (running th None) p ctx' false); [|cbn; by rewrite lookup_insert_eq|done|done].
  do 3 eexists. split_and!; [reflexivity|cbn; by rewrite insert_insert_eq|done|done|done|done|exact Hpost|done|done|done|done].
Qed.

(** A fault that cannot be resolved stops the kernel, not the thread. *)
Theorem refused_fault_panics k t run irqs th ctx ctx' esr far ms ms' w' :
  thrds k !! t = Some th -> context (inner th) = Some ctx -> run ctx = (ctx', 0x2, esr, far) -> is_page_fault 0x2 esr = true ->
  vms k !! t_vm th = Some ms -> MemorySet.handle_page_fault ms (phys k) far = Ret (false, ms', w') ->
  user_turn k t run irqs = Panic "page fault handle failed".
Proof.
  intros Ht Hc Hrun Hpf Hv Hfault. unfold user_turn. rewrite (begin_running_ok k t th ctx Ht Hc). sret.
  rewrite Hrun, Hpf. unfold get_thread. cbn [thrds with_thrds]. rewrite lookup_insert_eq.
  cbn [expect mbind outcome_bind vms with_thrds t_vm running]. rewrite Hv. cbn [expect mbind outcome_bind phys with_thrds].
  by rewrite Hfault.
Qed.

(** A synchronous exception that is no page fault is handled as a system call
    whatever its syndrome is: a breakpoint or an undefined instruction behaves
    as the [svc] instruction would. *)
Theorem exceptions_are_syscalls k t irqs ctx' esr svc far :
  is_page_fault 0x2 esr = false -> syndrome_from svc = Svc 0 ->
  user_turn k t (fun _ => (ctx', 0x2, esr, far)) irqs = user_turn k t (fun _ => (ctx', 0x2, svc, far)) irqs.
Proof.
  intros Hpf Hsvc. unfold user_turn. destruct (begin_running k t) as [[ctx k1]|]; [|done]. sret. rewrite Hpf.
  assert (is_page_fault 2 svc = false) as -> by (unfold is_page_fault; by rewrite Hsvc). done.
Qed.
End theorems.

(** ** Evaluations *)

#[local] Existing Instance release.

(** A data abort from user mode, translation fault at level 3. *)
Definition esr_fault : Z := Z.lor (Z.shiftl 0x24 26) 0x7.

Lemma demand_paging_transparent_witness :
  exists k' ms' th', user_turn kernel0 0 (fun c => (c, 0x2, esr_fault, 0x12008)) (fun k => Ret k) = Ret (Go, k', [])
    /\ thrds k' = <[0%nat := th']> (thrds kernel0) /\ vms k' = <[0%nat := ms']> (vms kernel0).
Proof.
  assert (exists e, view (page_table set3.1) !! (0x12008 / 4096) = Some e /\ present e = false) as (e & He & Hpr)
    by (eexists; split; vm_compute; reflexivity).
  destruct (demand_paging_transparent ∅ kernel0 0 (fun c => (c, 0x2, esr_fault, 0x12008)) (fun k => Ret k) (thread_of 0 0 1) default_ctx
              default_ctx esr_fault 0x12008 init_proc set3.1 heap e) as (k' & ms' & th' & Hu & Ht & _ & Hv & _);
    [reflexivity|reflexivity|reflexivity|vm_compute; reflexivity|reflexivity|reflexivity|reflexivity|exact (proj1 kernel0_vm)
     |exact (proj2 kernel0_vm)|vm_compute; reflexivity|exact He|exact Hpr|reflexivity|exact I|vm_compute; lia|].
  exists k', ms', th'. exact (conj Hu (conj Ht Hv)).
Defined.
